(* ===== verification/_CoqProject ===== *)
-Q . S2P
Prelude.v
GoStrings.v
GoNet.v
IPFamily.v
Community.v
Api.v
FrrConfig.v
Errors.v
Merge.v
ApiToConfig.v
Samples.v
MergeFacts.v
MergeNeighbors.v
MergeProps.v
HeapLogic.v
ConvertFacts.v
NeighborProps.v
EVPNFacts.v
ApiHeap.v
ApiResult.v
Advertised.v
ApiProps.v
Conflicts.v
HeapConflicts.v
Convertible.v
ApiBlock.v
Logging.v
Debouncer.v
FRRManager.v
Template.v
TemplateProps.v
FilterNames.v
FileFilters.v
Render.v
Golden.v
ReadFilters.v
FileText.v
ReadRouters.v
RouterText.v
EvpnText.v
PeerText.v
Reconciler.v
ReconcilerProps.v
Webhook.v
WebhookProps.v
StateControllers.v
Json.v
Glog.v
JsonPrint.v
Parse.v
ParseProps.v
ParseText.v
Metrics.v
MetricsProps.v
SessionState.v
SessionProps.v
Watches.v
ControlLoop.v
Loops.v
Daemon.v
Store.v
DeepCopy.v
DeepCopyProps.v
InPlace.v
Aliasing.v
Duration.v
StatusExporter.v
SessionLoop.v
Startup.v
StartupProps.v
StatusMain.v
Informers.v
