(* ===== verification/Prelude.v ===== *)
(** * FRR-K8s: a verification development

    FRR-K8s runs on every node of a Kubernetes cluster and configures the FRR routing daemons of the node from
    FRRConfiguration resources.  This library models the program in Rocq, function by function, and proves the
    properties that make it correct.  Paths are relative to src/.

    ** The program and its parts

    A change of a resource, of a secret or of the node wakes the configuration controller
    ([internal/controller/frrconfiguration_controller.go]).  It lists the resources that select the node and converts
    them into one FRR configuration ([api_to_config.go], [merge.go]), which the FRR manager ([internal/frr/frr.go])
    completes and sends to the debouncer ([internal/frr/config.go]).  After the debounce interval the debouncer
    renders the templates ([internal/frr/templates]), writes the file and signals the reloader.  A poller reads what
    the reloader left and asks for another reload after a failure; the node state controller publishes the result.
    The admission webhook ([internal/webhooks]) runs the conversion on every new resource and refuses what the
    controllers could not convert.  Beside them, the metrics exporter ([cmd/metrics]) and the status exporter
    ([cmd/status]) ask FRR for its sessions through vtysh, parse its JSON ([internal/frr/parse.go]), and report them
    as Prometheus samples and as BGPSessionState objects; the status cleaner ([cmd/statuscleaner]) serves the webhook
    and removes the states of nodes that are gone.  Other programs watch the resources with the informers of [pkg/client].

    ** The files

    Go and its libraries:
    - [Prelude.v]: results, loops that can fail, tactics, lemmas on lists and maps.
    - [GoStrings.v], [GoNet.v], [Json.v], [JsonPrint.v]: the parts of strings, strconv, sort, net, net/netip and
      encoding/json the program uses.
    The conversion:
    - [IPFamily.v], [Community.v]: [internal/ipfamily], [internal/community].
    - [Api.v], [FrrConfig.v], [Errors.v]: the records of [api/v1beta1] and of package frr, the errors.
    - [Merge.v], [ApiToConfig.v]: [merge.go] and [api_to_config.go]; a [*NeighborConfig] is a location of a store, so
      that the in-place merges and their aliasing are those of the source.
    - [MergeFacts.v], [MergeNeighbors.v], [MergeProps.v]: merging; the pointer program refines a merge of values.
    - [HeapLogic.v], [ConvertFacts.v], [NeighborProps.v], [EVPNFacts.v], [ApiHeap.v], [ApiResult.v], [Advertised.v],
      [ApiProps.v], [ApiBlock.v]: a program logic for the store, and the conversion of one neighbor and as a whole.
    - [Conflicts.v], [HeapConflicts.v], [Convertible.v]: what the conversion compares, as facts that do not depend on
      order; it succeeds exactly when the resources are valid and their facts agree.
    - [Samples.v]: the cluster the examples are evaluated on.
    From the configuration to FRR:
    - [Logging.v], [Glog.v]: [internal/logging] and [internal/frr/level.go]: levels, the logger, the redirection of glog.
    - [Debouncer.v], [FRRManager.v]: the [select] loop of the debouncer as a step relation with time; [ApplyConfig], [NewFRR] and the status poller.
    - [Template.v], [TemplateProps.v], [FilterNames.v], [FileFilters.v]: the function map of the templates, the
      filters prefixlists.tmpl prints as statements, and what these statements let through.
    - [Render.v], [Golden.v], [ReadFilters.v], [FileText.v]: the text of the file to the byte, compared with golden
      files of the repository, and reading its filters back.
    - [ReadRouters.v], [RouterText.v], [EvpnText.v], [PeerText.v]: reading its [router bgp] blocks, EVPN families, VNIs and
      BFD profiles back, and what FRR does for each peer.
    - [Reconciler.v], [ReconcilerProps.v]: both configuration controllers, [Validate] and the dumps.
    - [Webhook.v], [WebhookProps.v]: the admission webhook with its selector cache.
    - [StateControllers.v]: the node state controller and the node state cleaner.
    - [Watches.v], [ControlLoop.v], [Loops.v]: what wakes the five controllers ([SetupWithManager]); the loop of a
      controller as a step relation, in which the world changes while [Reconcile] reads it; the loops of four controllers.
    - [Daemon.v]: the configuration controller, the FRR manager and the debouncer as one system, from the resources to
      what FRR does for its peers.
    - [Store.v], [DeepCopy.v], [DeepCopyProps.v]: [api/v1beta1/zz_generated.deepcopy.go] on a model of Go's memory, with
      pointers, slices and maps as locations.
    - [InPlace.v], [Aliasing.v]: [validate.go] and [dump.go] on this memory, and that their writes reach no
      object of the caller.
    From FRR to the cluster:
    - [Parse.v], [ParseProps.v], [ParseText.v]: the parsers of [internal/frr/parse.go] and the texts FRR prints.
    - [Metrics.v], [MetricsProps.v]: [cmd/metrics]: vtysh queries, collectors, liveness probe.
    - [SessionState.v], [SessionProps.v], [StatusExporter.v]: the session state controller and its fetcher.
    - [SessionLoop.v]: its loop, with the API server, FRR, the timer of its polls and time.
    - [Startup.v], [StartupProps.v]: the main functions, their flags and [internal/tlsconfig].
    - [Duration.v], [StatusMain.v]: [time.ParseDuration] and the main function of the status exporter.
    For other programs:
    - [Informers.v]: the shared informers of the client library ([pkg/client/informers]), as callers, channels and
      goroutines that interleave.

    ** How the code is represented

    A function that returns an error is a function into [result E A], with one constructor of [E] per message.  Calls
    to the API server, files, signals, the host name and the clock are arguments or the fields of a record, so that
    every failure can be given.  State is passed explicitly: the store of neighbors in the conversion, [RState] in
    the controller, [debouncerState] in the debouncer, the counters of the templates.  A Go map is a [gmap]; where the
    source ranges over one the model visits it in the order of [map_to_list], and order independence is proved where
    the result is used; [Informers.v] takes any order.  An [int] that can overflow is kept at its width ([wrap64], [IntToUInt32], [ParseInt]).

    ** What the theorems show

    Specifications are stated on the fields of the resources, of the configuration and of what FRR prints, without the
    functions of the program they specify.
    - From end to end: whenever the daemon has nothing left to do, FRR was told to read the configuration the cluster asks
      for, or the reason why there is none is reported (C12), and FRR sends every peer, and accepts from it, exactly what this
      configuration says (C1), if the file can be read back (see the hypotheses below).
    - The conversion: it succeeds exactly on the resources a specification calls convertible, and chooses what it
      does not compare, as graceful restart, from the definitions of the session (C4); where these definitions agree the order
      of the resources does not matter (C15), and no order follows a nil pointer (C16).  Every configuration it returns sends a neighbor only
      prefixes of its router that the API allows (C2), and has the routers (C3), sessions (C5), EVPN (C23) and BFD profiles
      (C24) of the resources.  The pointer merge refines the merge of values (C10), keeps exactly the union (C20) and
      commutes where the two definitions agree in what is not compared (C21); one neighbor is converted exactly (C22);
      communities are parsed exactly (C31).
    - The file: FRR reads from the text exactly the routers, sessions, EVPN families, VNIs and BFD profiles of the
      configuration (C9); a peer is sent (C6) and may send (C7) exactly what the configuration says, and never the prefixes of
      [--always-block] (C8), if the file can be read back.  FRR takes the entries of a prefix list or route map by the
      sequence numbers the file gives them, and of two entries with one number keeps the last ([TemplateProps.installed]).
    - The controllers: [Reconcile] refines its specification (C11); the debouncer loses no update (C25) and a failed reload
      is retried (C26).
    - The webhook decides exactly what it should (C14), and what it admits can be converted (C13), for selectors with
      the syntax of labels.
    - Memory: deep copies share nothing with the original (C17); validation in place computes what validation of
      values does (C18); sanitizing a dump leaves the original alone (C19).
    - Reporting: the session states mirror FRR (C27), at most a poll interval and a run behind it (C28), and the interval is that of
      the flag (C37); samples are those of FRR (C29) and of declared types (C40), whatever else vtysh prints in the objects
      that are decoded ([ParseText.shows_neighbors]); parsing inverts printing (C30); node states are up to date whenever their controller is idle (C33) and are
      cleaned exactly (C34), so that none outlives its pod (C35); passwords are not published or logged (C32, C36).
    - Flags: TLS options (C39).  The client library: an informer is started once, and shutting down waits for all (C38).
    - Theorems named in the findings of the manifest evaluate the program where it does not do what it means to, for
      example [FileFilters.vrf_named_denied_blocks_all] and [MergeProps.mergeIncomingFilters_drops_filter].

    ** Fuel and bounds

    Most recursion is structural.  [GoNet.v] parses an IPv6 address with fuel 8, one unit per group, prints a group
    with fuel 4, one per hexadecimal digit, and counts the ones of a mask byte with fuel 8: each is the largest number
    of iterations the data allows.  The JSON reader runs with fuel [2 * length + 1], and [Json.read_enough] and
    [ParseProps.parsers_terminate] show that no text exhausts it.  [Duration.v] reads the terms of a duration with the
    length of the text as fuel, and [Duration.parseTerms_total] shows that this is enough.  The debouncer and the pollers run for ever in the
    source, and so do the controllers: they are step relations or single ticks, and liveness is stated on their runs.

    ** Parameters and hypotheses

    Code that is not under src/ is an argument: label selectors ([LabelSelectorAsSelector], [Matches]), the tables of
    component-base ([TLSCipherSuites], [TLSVersion]), [labels.Parse], the certificate rotator, the texts of errors,
    vtysh, the deep copies of the types of apimachinery (the class [Apimachinery] with its laws, and an instance), and
    controller-runtime, which turns an event into requests (the class [ControllerRuntime], whose law is that an event
    of a watched kind that passes the filter is queued).  In [Loops.v] a controller reads the world through a cache
    that its events keep up to date; pods are scheduled once and keep their labels.  In [SessionLoop.v] the API server
    generates names that are not taken (the class [NameGenerator] with its laws, and an instance) and keeps the status as a
    subresource, and a run of [Reconcile] takes at most a given time.  FRR has no VRF with the empty name and no two
    peers of a VRF with the same label ([StatusExporter.told_apart]).  The webhook theorems are about selectors with label
    syntax ([plain_selector]), which are all that apimachinery accepts ([accepts_plain]), and a cache that holds only what
    was parsed ([cache_ok]); C13 takes the controller to list the resources the webhook listed, and no secret to be referred to.  A poll interval has no term of
    exactly 2^63 nanoseconds.  The meaning of prefix lists and route maps is FRR's documentation, in [TemplateProps.v]; the theorems on
    filters hold for every matching function [covers] and for both ways of ending a route map.  Theorems on the text
    assume that the values printed are words without newlines ([readable_config]), that raw configuration adds no
    filter ([no_raw_filters]) and no command a router, an EVPN family, a VRF or a BFD profile could take for its own ([raw_outside], [raw_elsewhere]), that numbers have 32 bits, and that the names of the sessions are apart ([apart]); each is decidable and has a witness.

    ** Not modelled

    - Log output, except the lines of glog ([Glog.v]).
    - Managers, caches, HTTP and TLS servers, registries: libraries.
    - The kubebuilder markers the API server enforces: the conversion is verified without them.
    - [internal/version]: strings set by the linker.
    - The generated clients and listers ([pkg/client/clientset], [pkg/client/listers]): constructors that forward
      their arguments to client-go.
    - Tests, [e2etests] and the demo: not part of the program.

    Nothing is planned beyond this: what is left of the program is listed above. *)

From stdpp Require Export base strings gmap sorting fin_maps fin_sets pretty.
From Stdlib Require Export ZArith.

#[global] Open Scope stdpp_scope.

(** ** Fallible computations

    Go functions that return [(T, error)] become functions into [result E T].
    The error type [E] is a parameter: each component states its own. *)

Inductive result (E A : Type) : Type :=
  | Ok (a : A)
  | Err (e : E).
Arguments Ok {E A} a.
Arguments Err {E A} e.

#[global] Instance result_eq_dec {E A} `{EqDecision E, EqDecision A} :
  EqDecision (result E A).
Proof. solve_decision. Defined.

#[global] Instance result_bind {E} : MBind (result E) := λ A B f m,
  match m with Ok a => f a | Err e => Err e end.
#[global] Instance result_ret {E} : MRet (result E) := λ A a, Ok a.
#[global] Instance result_fmap {E} : FMap (result E) := λ A B f m,
  match m with Ok a => Ok (f a) | Err e => Err e end.

(** [fmt.Errorf("...: %w", err)]: the error is wrapped, the value kept. *)
Definition wrap {E A} (f : E → E) (m : result E A) : result E A :=
  match m with Ok a => Ok a | Err e => Err (f e) end.

(** [if cond { return err }]: a guard that fails with [e]. *)
Definition fail_if {E} (b : bool) (e : E) : result E unit :=
  if b then Err e else Ok ().

Definition is_ok {E A} (m : result E A) : bool :=
  match m with Ok _ => true | Err _ => false end.

(** Go's [for _, x := range l { if err := f(x); err != nil { return err } }]. *)
Fixpoint each {E A} (f : A → result E unit) (l : list A) : result E unit :=
  match l with
  | [] => Ok ()
  | x :: l => _ ← f x; each f l
  end.

(** A loop with an accumulator that may leave early with an error. *)
Fixpoint foldM {E A S} (f : S → A → result E S) (s : S) (l : list A) : result E S :=
  match l with
  | [] => Ok s
  | x :: l => s' ← f s x; foldM f s' l
  end.

(** A loop that appends one converted element per iteration. *)
Fixpoint mapE {E A B} (f : A → result E B) (l : list A) : result E (list B) :=
  match l with
  | [] => Ok []
  | x :: l => y ← f x; ys ← mapE f l; Ok (y :: ys)
  end.

Lemma bind_Ok {E A B} (m : result E A) (f : A → result E B) b :
  m ≫= f = Ok b ↔ ∃ a, m = Ok a ∧ f a = Ok b.
Proof. destruct m; naive_solver. Qed.

Lemma bind_Err {E A B} (m : result E A) (f : A → result E B) e :
  m ≫= f = Err e ↔ m = Err e ∨ ∃ a, m = Ok a ∧ f a = Err e.
Proof. destruct m; naive_solver. Qed.

Lemma wrap_Ok {E A} (f : E → E) (m : result E A) a :
  wrap f m = Ok a ↔ m = Ok a.
Proof. destruct m; naive_solver. Qed.

Lemma fail_if_Ok {E} b (e : E) u : fail_if b e = Ok u ↔ b = false.
Proof. destruct b, u; naive_solver. Qed.

(** A guard in front of a computation. *)
Lemma guard_Ok {E A} b (e : E) (k : result E A) r :
  (fail_if b e ≫= λ _, k) = Ok r ↔ b = false ∧ k = Ok r.
Proof. destruct b; naive_solver. Qed.

Lemma guard_Err {E A} b (e : E) (k : result E A) e' :
  (fail_if b e ≫= λ _, k) = Err e' ↔ b = true ∧ e' = e ∨ b = false ∧ k = Err e'.
Proof. destruct b; naive_solver. Qed.

Lemma is_ok_true {E A} (m : result E A) : is_ok m = true ↔ ∃ a, m = Ok a.
Proof. destruct m; naive_solver. Qed.

Lemma each_Ok {E A} (f : A → result E unit) l u :
  each f l = Ok u ↔ Forall (λ x, f x = Ok ()) l.
Proof.
  destruct u. induction l as [|x l IH]; simpl; [by split|].
  rewrite bind_Ok, Forall_cons, <-IH. split.
  - by intros ([] & ? & ?).
  - intros [??]; by exists ().
Qed.

Lemma foldM_app {E A S} (f : S → A → result E S) s l1 l2 :
  foldM f s (l1 ++ l2) = foldM f s l1 ≫= λ s', foldM f s' l2.
Proof.
  revert s; induction l1 as [|x l1 IH]; intros s; simpl; [done|].
  destruct (f s x); simpl; auto.
Qed.

Lemma foldM_inv {E A S} (P : S → Prop) (f : S → A → result E S) l s s' :
  P s → (∀ s x s', x ∈ l → P s → f s x = Ok s' → P s') →
  foldM f s l = Ok s' → P s'.
Proof.
  revert s; induction l as [|x l IH]; simpl; intros s Hs Hf Hl; [by simplify_eq|].
  apply bind_Ok in Hl as (s1 & H1 & H2).
  eapply IH; [..|exact H2]; [|intros; eapply Hf; eauto; set_solver].
  eapply Hf; eauto; set_solver.
Qed.

Lemma foldM_Err {E A S} (f : S → A → result E S) l s e :
  foldM f s l = Err e → ∃ s' x, x ∈ l ∧ f s' x = Err e.
Proof.
  revert s; induction l as [|x l IH]; intros s; [done|].
  intros [?|(s' & _ & (s1 & y & Hy & ?)%IH)]%bind_Err.
  - exists s, x. split; [by left|done].
  - exists s1, y. split; [by right|done].
Qed.

Lemma mapE_Ok {E A B} (f : A → result E B) l k :
  mapE f l = Ok k ↔ Forall2 (λ x y, f x = Ok y) l k.
Proof.
  revert k; induction l as [|x l IH]; intros k; simpl.
  - split; [intros [=<-]; constructor|by inversion 1].
  - rewrite bind_Ok; setoid_rewrite bind_Ok; split.
    + intros (y & ? & ys & ?%IH & [=<-]); by constructor.
    + inversion 1 as [|? y ? ys]; simplify_eq. exists y; split; [done|].
      exists ys; split; [by apply IH|done].
Qed.

(** ** Automation *)

(** [run_ok m c E] evaluates the closed computation [m], checks that it succeeds, and
    names its value [c] with [E : m = Ok c]. *)
Ltac run_ok m c E :=
  let H := fresh in
  assert (is_ok m = true) as H by (vm_compute; reflexivity);
  destruct m as [c|?] eqn:E; [clear H|discriminate H].

(** Keys that are told apart. *)
Lemma NoDup_of_key {A B C} (f : A → B) (g : A → C) l :
  (∀ x y, f x = f y → g x = g y) → NoDup (g <$> l) → NoDup (f <$> l).
Proof.
  intros Hfg. induction l as [|x l IH]; [constructor|]. rewrite !fmap_cons, !NoDup_cons.
  intros [Hx Hl]. split; [|by apply IH]. intros (y & Hy & ?)%list_elem_of_fmap. apply Hx.
  apply list_elem_of_fmap. eauto.
Qed.

Lemma NoDup_key_inj {A B} (key : A → B) l x y :
  NoDup (key <$> l) → x ∈ l → y ∈ l → key x = key y → x = y.
Proof.
  intros Hnd [i Hi]%list_elem_of_lookup [j Hj]%list_elem_of_lookup Hxy.
  assert (i = j) as ->; [|congruence]. eapply NoDup_lookup; [exact Hnd|..]; rewrite list_lookup_fmap.
  - by rewrite Hi.
  - rewrite Hj; cbn. by rewrite Hxy.
Qed.

Lemma NoDup_bind {A B} (f : A → list B) l :
  NoDup l → (∀ x, x ∈ l → NoDup (f x)) →
  (∀ x y b, x ∈ l → y ∈ l → b ∈ f x → b ∈ f y → x = y) → NoDup (l ≫= f).
Proof.
  intros Hl. induction Hl as [|x l Hx Hl IH]; intros Hf Hd; [constructor|]. cbn. apply NoDup_app. split_and!.
  - apply Hf. by left.
  - intros b Hb (y & Hb' & Hy)%list_elem_of_bind. apply Hx. rewrite (Hd x y b); [done|by left|by right|done..].
  - apply IH; [intros; apply Hf; by right|]. intros y z b Hy Hz. apply Hd; by right.
Qed.

Lemma NoDup_bind_inv {A B} (f : A → list B) l :
  NoDup (l ≫= f) → (∀ x, x ∈ l → NoDup (f x)) ∧ ∀ i j x y b, l !! i = Some x → l !! j = Some y → b ∈ f x → b ∈ f y → i = j.
Proof.
  induction l as [|x l IH]; cbn; [intros _; split; [by intros x []%elem_of_nil|done]|].
  intros (Hx & Hdis & (Hf & Hd)%IH)%NoDup_app. split; [intros y [->|Hy]%elem_of_cons; auto|].
  intros [|i] [|j] y z b Hi Hj Hb Hb'; cbn in *; simplify_eq; [done| | |f_equal; by eapply Hd].
  - destruct (Hdis b Hb). apply list_elem_of_bind. exists z. split; [done|by eapply list_elem_of_lookup_2].
  - destruct (Hdis b Hb'). apply list_elem_of_bind. exists y. split; [done|by eapply list_elem_of_lookup_2].
Qed.

(** Decide a closed proposition by evaluation. *)
Ltac by_evaluation := apply (bool_decide_unpack _); vm_compute; exact I.
