(* ===== verification/GoStrings.v ===== *)
(** * The parts of Go's [strings], [strconv], [sort] and [maps] the program uses

    Go strings are byte sequences: they are Rocq [string]s (a [string] is a
    list of 8-bit characters), ordered bytewise by [String.le].  [sets.Set] is
    [gset], a Go map is [gmap], and the places where the source sorts the keys
    of a map before ranging over it ([sets.List], [slices.Sorted(maps.Keys m)])
    are the functions [sets_List] and [sortMap] of this file. *)

From Stdlib Require Import Ascii Lia.
From S2P Require Import Prelude.

(** ** Characters and separators *)

Fixpoint contains_char (c : ascii) (s : string) : bool :=
  match s with
  | EmptyString => false
  | String a s => bool_decide (a = c) || contains_char c s
  end.

(** [strings.Split(s, sep)] for a one-byte separator. *)
Fixpoint Split (s : string) (sep : ascii) : list string :=
  match s with
  | EmptyString => [""]
  | String a s =>
      if bool_decide (a = sep) then "" :: Split s sep
      else match Split s sep with
           | [] => [String a ""]
           | w :: ws => String a w :: ws
           end
  end.

(** ** Numbers *)

(** The two ways [strconv.ParseUint] fails ([strconv.NumError.Err]). *)
Inductive numError := ErrSyntax | ErrRange.

#[global] Instance numError_eq_dec : EqDecision numError.
Proof. solve_decision. Defined.

Definition digit_val (c : ascii) : option N :=
  let n := N_of_ascii c in
  if (48 <=? n)%N && (n <=? 57)%N then Some (n - 48)%N else None.

Fixpoint ParseUint_go (max acc : N) (s : string) : result numError N :=
  match s with
  | EmptyString => Ok acc
  | String c s =>
      match digit_val c with
      | None => Err ErrSyntax
      | Some d =>
          if (max <? acc * 10 + d)%N then Err ErrRange
          else ParseUint_go max (acc * 10 + d) s
      end
  end.

(** [strconv.ParseUint(s, 10, bitSize)]. *)
Definition ParseUint (s : string) (bitSize : N) : result numError N :=
  match s with
  | EmptyString => Err ErrSyntax
  | _ => ParseUint_go (2 ^ bitSize - 1) 0 s
  end.

(** [strconv.ParseInt(s, 10, bitSize)]; [strconv.Atoi] is the same for 64 bits. *)
Definition ParseInt (s : string) (bitSize : N) : result numError Z :=
  let '(neg, digits) :=
    match s with
    | String c r => if bool_decide (c = "-"%char) then (true, r)
                    else if bool_decide (c = "+"%char) then (false, r) else (false, s)
    | EmptyString => (false, s)
    end in
  un ← ParseUint digits bitSize;
  let cutoff := (2 ^ (bitSize - 1))%N in
  if neg then if (cutoff <? un)%N then Err ErrRange else Ok (- Z.of_N un)%Z
  else if (cutoff <=? un)%N then Err ErrRange else Ok (Z.of_N un).
Notation Atoi s := (ParseInt s 64).

(** The ["%d"] verb and [strconv.FormatUint(_, 10)] on unsigned integers. *)
Notation FormatUint := (pretty : N → string).

(** ** Sorting *)

(** [sort.Slice(l, less)]: a permutation of [l] in which no element is
    [less] than one before it.  (The library's sort is not stable; the lemmas
    below that fix its result ask for [less] to separate the elements.) *)
Definition in_order {A} (less : A → A → bool) : relation A :=
  λ x y, less y x = false.

#[global] Instance in_order_dec {A} (less : A → A → bool) :
  RelDecision (in_order less).
Proof. intros x y. unfold in_order. apply _. Defined.

Definition sort_Slice {A} (less : A → A → bool) (l : list A) : list A :=
  merge_sort (in_order less) l.

(** Go's [a < b] on strings. *)
Definition string_lt (a b : string) : bool := negb (String.leb b a).

(** [if x.f != y.f { return x.f < y.f }; return less(x, y)]: the shape of the
    comparison functions of the source, on pairs of keys. *)
Definition lex_lt {A B} `{EqDecision A} (ltA : A → A → bool) (ltB : B → B → bool)
    (x y : A * B) : bool :=
  if bool_decide (x.1 = y.1) then ltB x.2 y.2 else ltA x.1 y.1.

(** [sets.List(s)]: the elements of a set of strings, sorted. *)
Definition sets_List (s : gset string) : list string :=
  merge_sort String.le (elements s).

(** [sets.New(l...)]. *)
Definition sets_New (l : list string) : gset string := list_to_set l.

(** [cmp.Ordered], for the two key types [sortMap] is used at. *)
Class Ordered (K : Type) := {
  ord_le : relation K;
  ord_le_dec :: RelDecision ord_le;
  ord_le_po :: PartialOrder ord_le;
  ord_le_total :: Total ord_le
}.
#[global] Instance Ordered_string : Ordered string := {| ord_le := String.le |}.
#[global] Instance Ordered_N : Ordered N := {| ord_le := N.le |}.

(** [slices.Sorted(maps.Keys(m))]. *)
Definition sortedKeys {V} `{Countable K, !Ordered K} (m : gmap K V) : list K :=
  merge_sort ord_le (map_to_list m).*1.

(** ** Lemmas: separators *)

Lemma contains_char_app c s1 s2 :
  contains_char c (s1 +:+ s2) = contains_char c s1 || contains_char c s2.
Proof.
  induction s1 as [|a s1 IH]; [done|].
  change (String a s1 +:+ s2) with (String a (s1 +:+ s2)); simpl.
  by rewrite IH, orb_assoc.
Qed.

Lemma app_nil_string s : s +:+ "" = s.
Proof.
  induction s as [|a s IH]; [done|].
  change (String a s +:+ "") with (String a (s +:+ "")). by rewrite IH.
Qed.

Lemma app_assoc_string s1 s2 s3 : (s1 +:+ s2) +:+ s3 = s1 +:+ s2 +:+ s3.
Proof.
  induction s1 as [|a s1 IH]; [done|].
  change (String a s1 +:+ s2) with (String a (s1 +:+ s2)).
  change (String a (s1 +:+ s2) +:+ s3) with (String a ((s1 +:+ s2) +:+ s3)).
  by rewrite IH.
Qed.

Lemma length_app_string s1 s2 : String.length (s1 +:+ s2) = String.length s1 + String.length s2.
Proof. induction s1 as [|a s1 IH]; [done|]. by apply (f_equal S). Qed.

Lemma Split_no_sep s sep : contains_char sep s = false → Split s sep = [s].
Proof.
  induction s as [|a s IH]; simpl; [done|].
  rewrite orb_false_iff. intros [Ha ?]. by rewrite Ha, IH.
Qed.

Lemma Split_app s1 s2 sep :
  contains_char sep s1 = false →
  Split (s1 +:+ String sep s2) sep = s1 :: Split s2 sep.
Proof.
  induction s1 as [|a s1 IH].
  - intros _. change ("" +:+ String sep s2) with (String sep s2). simpl.
    by rewrite bool_decide_eq_true_2.
  - change (String a s1 +:+ String sep s2) with (String a (s1 +:+ String sep s2)).
    simpl. rewrite orb_false_iff. intros [Ha ?].
    rewrite Ha, IH by done. done.
Qed.

(** A separator that occurs in neither prefix splits a string in one way. *)
Lemma sep_inj c a1 b1 a2 b2 :
  contains_char c a1 = false → contains_char c a2 = false →
  a1 +:+ String c b1 = a2 +:+ String c b2 → a1 = a2 ∧ b1 = b2.
Proof.
  revert a2; induction a1 as [|x a1 IH]; intros [|y a2]; simpl.
  - intros _ _ [= ->]. done.
  - intros _ [Hy _]%orb_false_iff [= -> _].
    by rewrite bool_decide_eq_true_2 in Hy.
  - intros [Hx _]%orb_false_iff _ [= -> _].
    by rewrite bool_decide_eq_true_2 in Hx.
  - intros [_ ?]%orb_false_iff [_ ?]%orb_false_iff [= -> Heq].
    destruct (IH a2) as [-> ->]; auto.
Qed.

(** The same from the right. *)
Lemma sep_inj_r c a1 b1 a2 b2 :
  contains_char c b1 = false → contains_char c b2 = false →
  a1 +:+ String c b1 = a2 +:+ String c b2 → a1 = a2 ∧ b1 = b2.
Proof.
  assert (∀ a b, contains_char c (a +:+ String c b) = true) as Hin.
  { intros a b. rewrite contains_char_app. simpl. rewrite bool_decide_eq_true_2 by done.
    by rewrite orb_true_r. }
  intros H1 H2. revert a2; induction a1 as [|x a1 IH]; intros [|y a2] Heq.
  - by injection Heq as ->.
  - injection Heq as _ ->. by rewrite Hin in H1.
  - injection Heq as _ <-. by rewrite Hin in H2.
  - injection Heq as -> Heq. by destruct (IH a2 Heq) as [-> ->].
Qed.

(** ** Lemmas: numbers *)

Lemma digit_val_pretty d : (d < 10)%N → digit_val (pretty_N_char d) = Some d.
Proof.
  intros Hd. assert (d = 0 ∨ d = 1 ∨ d = 2 ∨ d = 3 ∨ d = 4 ∨ d = 5 ∨ d = 6
    ∨ d = 7 ∨ d = 8 ∨ d = 9)%N as Hc by lia.
  by repeat destruct Hc as [->|Hc]; subst.
Qed.

Lemma ParseUint_go_pretty max x s :
  (x ≤ max)%N → ParseUint_go max 0 (pretty_N_go x s) = ParseUint_go max x s.
Proof.
  revert s. induction (N.lt_wf_0 x) as [x _ IH]; intros s Hx.
  destruct (decide (x = 0)%N) as [->|]; [done|].
  rewrite pretty_N_go_step by lia.
  assert (x `div` 10 < x)%N by (apply N.div_lt; lia).
  rewrite IH by lia. simpl.
  rewrite digit_val_pretty by (apply N.mod_lt; lia).
  pose proof (N.div_mod' x 10).
  replace (x `div` 10 * 10 + x `mod` 10)%N with x by lia.
  destruct (N.ltb_spec max x); [lia|done].
Qed.

Lemma pretty_N_go_cons x c s : ∃ c' s', pretty_N_go x (String c s) = String c' s'.
Proof.
  revert c s. induction (N.lt_wf_0 x) as [x _ IH]; intros c s.
  destruct (decide (x = 0)%N) as [->|]; [by eauto|].
  rewrite pretty_N_go_step by lia. apply IH. apply N.div_lt; lia.
Qed.

Lemma pretty_N_cons (x : N) : ∃ c s, pretty x = String c s.
Proof.
  unfold pretty, pretty_N. case_decide; [by eauto|].
  rewrite pretty_N_go_step by lia. apply pretty_N_go_cons.
Qed.

(** Parsing what ["%d"] printed gives the number back, at every width it fits. *)
Lemma ParseUint_Format (x bits : N) :
  (x < 2 ^ bits)%N → ParseUint (pretty x) bits = Ok x.
Proof.
  intros Hx. destruct (pretty_N_cons x) as (c & s & Hp).
  unfold ParseUint. rewrite Hp, <-Hp.
  unfold pretty, pretty_N. case_decide as H0.
  - subst x. cbn [ParseUint_go]. change (digit_val "0") with (Some 0%N). cbn iota beta.
    destruct (N.ltb_spec (2 ^ bits - 1) (0 * 10 + 0)); [lia|done].
  - by rewrite ParseUint_go_pretty by lia.
Qed.

Lemma ParseUint_go_bound max acc s n :
  (acc ≤ max)%N → ParseUint_go max acc s = Ok n → (n ≤ max)%N.
Proof.
  revert acc; induction s as [|c s IH]; simpl; intros acc Hacc; [by intros [= <-]|].
  destruct (digit_val c) as [d|]; [|done].
  destruct (N.ltb_spec max (acc * 10 + d)); [done|]. by apply IH.
Qed.

Lemma ParseUint_bound s bits n : ParseUint s bits = Ok n → (n < 2 ^ bits)%N.
Proof.
  unfold ParseUint. destruct s as [|c s]; [done|].
  intros H%ParseUint_go_bound; [|lia].
  assert (2 ^ bits ≠ 0)%N by (by apply N.pow_nonzero). lia.
Qed.

(** A character that is not a digit does not occur in a printed number. *)
Lemma pretty_N_go_no_char c x s :
  digit_val c = None → contains_char c s = false →
  contains_char c (pretty_N_go x s) = false.
Proof.
  intros Hc. revert s. induction (N.lt_wf_0 x) as [x _ IH]; intros s Hs.
  destruct (decide (x = 0)%N) as [->|]; [done|].
  rewrite pretty_N_go_step by lia. apply IH; [apply N.div_lt; lia|].
  simpl. rewrite Hs, orb_false_r. apply bool_decide_eq_false. intros <-.
  by rewrite digit_val_pretty in Hc by (apply N.mod_lt; lia).
Qed.

Lemma pretty_no_char c (x : N) :
  digit_val c = None → contains_char c (pretty x) = false.
Proof.
  intros Hc. unfold pretty, pretty_N. case_decide.
  - simpl. rewrite orb_false_r. apply bool_decide_eq_false. by intros <-.
  - by apply pretty_N_go_no_char.
Qed.

(** ** Lemmas: sorting *)

Lemma elem_of_sets_New x l : x ∈ sets_New l ↔ x ∈ l.
Proof. apply elem_of_list_to_set. Qed.

Lemma elem_of_sets_List x s : x ∈ sets_List s ↔ x ∈ s.
Proof. unfold sets_List. by rewrite merge_sort_Permutation, elem_of_elements. Qed.

Lemma sets_List_sorted s : StronglySorted String.le (sets_List s).
Proof. apply (StronglySorted_merge_sort _). Qed.

Lemma sets_List_NoDup s : NoDup (sets_List s).
Proof. unfold sets_List. rewrite merge_sort_Permutation. apply NoDup_elements. Qed.

Lemma sets_New_List s : sets_New (sets_List s) = s.
Proof. apply set_eq; intros x. by rewrite elem_of_sets_New, elem_of_sets_List. Qed.

(** The sorted list of a set is the only sorted duplicate-free list of its
    elements: [sets.List] is a normal form. *)
Lemma sets_List_unique s l :
  StronglySorted String.le l → NoDup l → (∀ x, x ∈ l ↔ x ∈ s) → sets_List s = l.
Proof.
  intros Hl Hnd Hin. apply (StronglySorted_unique String.le); auto using sets_List_sorted.
  apply NoDup_Permutation; auto using sets_List_NoDup.
  intros x. by rewrite elem_of_sets_List, Hin.
Qed.

Lemma sets_List_inj s1 s2 : sets_List s1 = sets_List s2 → s1 = s2.
Proof. intros H. rewrite <-(sets_New_List s1), <-(sets_New_List s2). by rewrite H. Qed.

Section sort_slice.
Context {A : Type} (less : A → A → bool).

Lemma sort_Slice_Permutation l : sort_Slice less l ≡ₚ l.
Proof. apply merge_sort_Permutation. Qed.

Lemma elem_of_sort_Slice x l : x ∈ sort_Slice less l ↔ x ∈ l.
Proof. by rewrite sort_Slice_Permutation. Qed.

(** [less] is a strict weak order, as [sort.Slice] requires. *)
Context `{!Transitive (in_order less), !Total (in_order less)}.

Lemma sort_Slice_sorted l : StronglySorted (in_order less) (sort_Slice less l).
Proof. apply (StronglySorted_merge_sort _). Qed.

(** When [less] separates the elements of [l], every sorting algorithm
    returns the same list, whatever order [l] came in. *)
Lemma sort_Slice_unique l k :
  StronglySorted (in_order less) k → k ≡ₚ l →
  (∀ x y, x ∈ l → y ∈ l → less x y = false → less y x = false → x = y) →
  sort_Slice less l = k.
Proof.
  intros Hk Hp Hsep. apply (StronglySorted_unique_strong (in_order less)).
  - intros x1 x2 H1 H2 H12 H21. apply Hsep; try done.
    + by rewrite elem_of_sort_Slice in H1.
    + by rewrite Hp in H2.
  - apply sort_Slice_sorted.
  - done.
  - by rewrite sort_Slice_Permutation, Hp.
Qed.
End sort_slice.

(** ** Lemmas: comparison functions *)

(** A boolean strict total order, the contract of a comparison that breaks
    every tie. *)
Class StrictTotal {A} (less : A → A → bool) : Prop := {
  st_irrefl x : less x x = false;
  st_trans x y z : less x y = true → less y z = true → less x z = true;
  st_total x y : less x y = false → less y x = false → x = y
}.

#[global] Instance string_lt_total : StrictTotal string_lt.
Proof.
  assert (∀ a b, string_lt a b = true ↔ String.le a b ∧ a ≠ b) as Hspec.
  { intros a b. unfold string_lt. rewrite negb_true_iff. split.
    - intros H. destruct (String.le_total a b) as [?|Hba].
      + split; [done|]. intros ->. assert (String.le b b) as Hb by done.
        unfold String.le in Hb. by rewrite H in Hb.
      + unfold String.le in Hba. by rewrite H in Hba.
    - intros [Hle Hne]. destruct (String.leb b a) eqn:E; [|done].
      destruct Hne. apply (anti_symm String.le); [done|]. by apply Is_true_true. }
  split.
  - intros x. destruct (string_lt x x) eqn:E; [|done]. by apply Hspec in E as [??].
  - intros x y z [??]%Hspec [??]%Hspec. apply Hspec. split; [by trans y|].
    intros ->. by assert (z = y) by (by apply (anti_symm String.le)).
  - intros x y. unfold string_lt. rewrite !negb_false_iff.
    intros. by apply (anti_symm String.le); apply Is_true_true.
Qed.

#[global] Instance N_ltb_total : StrictTotal N.ltb.
Proof.
  split; [apply N.ltb_irrefl| |].
  - intros x y z. rewrite !N.ltb_lt. lia.
  - intros x y. rewrite !N.ltb_ge. lia.
Qed.

#[global] Instance Z_ltb_total : StrictTotal Z.ltb.
Proof.
  split; [apply Z.ltb_irrefl| |].
  - intros x y z. rewrite !Z.ltb_lt. lia.
  - intros x y. rewrite !Z.ltb_ge. lia.
Qed.

#[global] Instance lex_lt_total {A B} `{EqDecision A} (ltA : A → A → bool)
    (ltB : B → B → bool) `{!StrictTotal ltA, !StrictTotal ltB} :
  StrictTotal (lex_lt ltA ltB).
Proof.
  unfold lex_lt. split.
  - intros [a b]; simpl. rewrite bool_decide_eq_true_2 by done. apply st_irrefl.
  - intros [a1 b1] [a2 b2] [a3 b3]; simpl.
    repeat case_bool_decide; subst; try done; try congruence; eauto using st_trans.
    intros H1 H2. pose proof (st_trans _ _ _ H1 H2) as H3. by rewrite st_irrefl in H3.
  - intros [a1 b1] [a2 b2]; simpl.
    repeat case_bool_decide; subst; try done.
    + intros. f_equal. by apply st_total.
    + intros. by destruct (st_total a1 a2).
Qed.

#[global] Instance in_order_preimage_trans {A B} (f : A → B) (less : B → B → bool)
    `{!StrictTotal less} : Transitive (in_order (λ x y, less (f x) (f y))).
Proof.
  intros x y z Hxy Hyz. unfold in_order in *.
  destruct (less (f z) (f x)) eqn:Hzx; [|done].
  destruct (less (f y) (f z)) eqn:Eyz.
  - by rewrite (st_trans _ _ _ Eyz Hzx) in Hxy.
  - by rewrite (st_total _ _ Eyz Hyz), Hzx in Hxy.
Qed.

#[global] Instance in_order_preimage_total {A B} (f : A → B) (less : B → B → bool)
    `{!StrictTotal less} : Total (in_order (λ x y, less (f x) (f y))).
Proof.
  intros x y. unfold in_order. destruct (less (f y) (f x)) eqn:E; [right|by left].
  destruct (less (f x) (f y)) eqn:E'; [|done].
  pose proof (st_trans _ _ _ E' E) as E''. by rewrite st_irrefl in E''.
Qed.

Section sorted_keys.
Context `{Countable K, !Ordered K} {V : Type}.
Implicit Types m : gmap K V.

Lemma elem_of_sortedKeys k m : k ∈ sortedKeys m ↔ is_Some (m !! k).
Proof.
  unfold sortedKeys. rewrite merge_sort_Permutation, list_elem_of_fmap.
  setoid_rewrite elem_of_map_to_list'. split.
  - intros ([k' v] & -> & ?); simpl in *. eauto.
  - intros [v ?]. by exists (k, v).
Qed.

Lemma sortedKeys_sorted m : StronglySorted ord_le (sortedKeys m).
Proof. apply (StronglySorted_merge_sort _). Qed.

Lemma sortedKeys_NoDup m : NoDup (sortedKeys m).
Proof. unfold sortedKeys. rewrite merge_sort_Permutation. apply NoDup_fst_map_to_list. Qed.
End sorted_keys.

(** ** Lemmas: signed numbers *)

Lemma ParseInt_Format (z : Z) :
  (- 2 ^ 63 ≤ z < 2 ^ 63)%Z → ParseInt (pretty z) 64 = Ok z.
Proof.
  intros Hz. change (2 ^ 63)%Z with 9223372036854775808%Z in Hz.
  assert (∀ n : N, ∃ c r, pretty n = String c r ∧ c ≠ "-"%char ∧ c ≠ "+"%char) as Hhead.
  { intros n. destruct (pretty_N_cons n) as (c & r & Hc). exists c, r. split; [done|].
    pose proof (pretty_no_char "-" n eq_refl) as H1. pose proof (pretty_no_char "+" n eq_refl) as H2.
    rewrite Hc in H1, H2. cbn in H1, H2. apply orb_false_iff in H1 as [H1%bool_decide_eq_false _].
    apply orb_false_iff in H2 as [H2%bool_decide_eq_false _]. done. }
  assert (∀ n : N, (n < 9223372036854775808)%N → ParseInt (pretty n) 64 = Ok (Z.of_N n)) as Hpos.
  { intros n Hn. unfold ParseInt. destruct (Hhead n) as (c & r & Hc & H1 & H2). rewrite Hc.
    rewrite !bool_decide_eq_false_2 by done. rewrite <-Hc.
    rewrite (ParseUint_Format n 64) by (change (2 ^ 64)%N with 18446744073709551616%N; lia).
    cbn [mbind result_bind]. change (2 ^ (64 - 1))%N with 9223372036854775808%N.
    destruct (N.leb_spec 9223372036854775808 n); [lia|done]. }
  destruct z as [|p|p].
  - done.
  - apply (Hpos (N.pos p)). lia.
  - change (pretty (Z.neg p)) with (String "-" (pretty (N.pos p))). unfold ParseInt.
    rewrite bool_decide_eq_true_2 by done. rewrite (ParseUint_Format (N.pos p) 64)
      by (change (2 ^ 64)%N with 18446744073709551616%N; lia).
    cbn [mbind result_bind]. change (2 ^ (64 - 1))%N with 9223372036854775808%N.
    destruct (N.ltb_spec 9223372036854775808 (N.pos p)); [lia|done].
Qed.
