(* ===== verification/GoNet.v ===== *)
(** * The parts of Go's [net] and [net/netip] the program uses

    [net.IP] and [net.IPMask] are byte slices: lists of [N] below 256, of
    length 4 or 16.  [netip.ParseAddr], on which [net.ParseIP] and
    [net.ParseCIDR] are built, is translated loop by loop: an address parses
    here exactly when it does in Go 1.25. *)

From Stdlib Require Import Ascii Lia.
From S2P Require Import Prelude GoStrings.

Definition IP := list N.
Definition IPMask := list N.

(** [net.IPNet]. *)
Record IPNet := mkIPNet { IPNet_IP : IP; IPNet_Mask : IPMask }.

#[global] Instance IPNet_eq_dec : EqDecision IPNet.
Proof. solve_decision. Defined.

(** [netip.Addr]: an IPv4 address (4 bytes) or an IPv6 one (16 bytes) with zone. *)
Inductive Addr :=
  | Addr4 (bytes : list N)
  | Addr6 (bytes : list N) (zone : string).

(** ** Parsing *)

(** The loop of [parseIPv4Fields].  [digLen] is the number of digits of the
    current octet, so [digLen = 0] is Go's [i == 0 || s[i-1] == '.']. *)
Fixpoint parseIPv4Fields (s : string) (val digLen : N) (fields : list N) : option (list N) :=
  match s with
  | EmptyString => if (length fields <? 3)%nat then None else Some (fields ++ [val])
  | String c s' =>
      match digit_val c with
      | Some d =>
          if (digLen =? 1)%N && (val =? 0)%N then None
          else if (255 <? val * 10 + d)%N then None
          else parseIPv4Fields s' (val * 10 + d) (digLen + 1) fields
      | None =>
          if bool_decide (c = "."%char) then
            if (digLen =? 0)%N || bool_decide (s' = "") then None
            else if (length fields =? 3)%nat then None
            else parseIPv4Fields s' 0 0 (fields ++ [val])
          else None
      end
  end.

Definition parseIPv4 (s : string) : option Addr :=
  Addr4 <$> parseIPv4Fields s 0 0 [].

Definition hex_val (c : ascii) : option N :=
  let n := N_of_ascii c in
  if (48 <=? n)%N && (n <=? 57)%N then Some (n - 48)%N
  else if (97 <=? n)%N && (n <=? 102)%N then Some (n - 97 + 10)%N
  else if (65 <=? n)%N && (n <=? 70)%N then Some (n - 65 + 10)%N
  else None.

(** The inner loop of [parseIPv6]: read the hex digits of one group. *)
Fixpoint scanHex (s : string) (off acc : N) : option (N * N * string) :=
  match s with
  | EmptyString => Some (off, acc, s)
  | String c s' =>
      match hex_val c with
      | None => Some (off, acc, s)
      | Some d =>
          if (3 <? off)%N then None
          else if (65535 <? acc * 16 + d)%N then None
          else scanHex s' (off + 1) (acc * 16 + d)
      end
  end.

(** The outer loop of [parseIPv6], at most eight groups of two bytes: the
    fuel is [8 - i/2], so running out of it is Go's exit on [i == 16].  The
    result is the rest of the string, the bytes read and the ellipsis. *)
Fixpoint parseIPv6_loop (fuel : nat) (s : string) (ip : list N) (ellipsis : option nat)
    : option (string * list N * option nat) :=
  match fuel with
  | O => Some (s, ip, ellipsis)
  | S fuel =>
      match scanHex s 0 0 with
      | None => None
      | Some (off, acc, s') =>
          if (off =? 0)%N then None else
          match s' with
          | EmptyString => Some ("", ip ++ [acc `div` 256; acc `mod` 256]%N, ellipsis)
          | String c s1 =>
              if bool_decide (c = "."%char) then
                if bool_decide (ellipsis = None) && negb (length ip =? 12)%nat then None
                else if (16 <? length ip + 4)%nat then None
                else fields ← parseIPv4Fields s 0 0 [];
                     Some ("", ip ++ fields, ellipsis)
              else
                let ip := ip ++ [acc `div` 256; acc `mod` 256]%N in
                if negb (bool_decide (c = ":"%char)) then None
                else match s1 with
                | EmptyString => None
                | String c1 s2 =>
                    if bool_decide (c1 = ":"%char) then
                      match ellipsis with
                      | Some _ => None
                      | None =>
                          if bool_decide (s2 = "") then Some ("", ip, Some (length ip))
                          else parseIPv6_loop fuel s2 ip (Some (length ip))
                      end
                    else parseIPv6_loop fuel s1 ip ellipsis
                end
          end
      end
  end.

(** Split off the zone; [None] when it is announced but empty. *)
Fixpoint splitZone (s : string) : option (string * string) :=
  match s with
  | EmptyString => Some ("", "")
  | String c s' =>
      if bool_decide (c = "%"%char) then
        if bool_decide (s' = "") then None else Some ("", s')
      else '(a, z) ← splitZone s'; Some (String c a, z)
  end.

(** After the loop: the string must be used up and the ellipsis expanded. *)
Definition parseIPv6_finish (zone : string) (r : string * list N * option nat) : option Addr :=
  let '(s, ip, ellipsis) := r in
  if negb (bool_decide (s = "")) then None
  else if (length ip <? 16)%nat then
    match ellipsis with
    | None => None
    | Some e => Some (Addr6 (take e ip ++ replicate (16 - length ip) 0%N ++ drop e ip) zone)
    end
  else match ellipsis with
       | Some _ => None
       | None => Some (Addr6 ip zone)
       end.

Definition parseIPv6 (inp : string) : option Addr :=
  '(s, zone) ← splitZone inp;
  match s with
  | String c1 (String c2 s') =>
      if bool_decide (c1 = ":"%char) && bool_decide (c2 = ":"%char) then
        if bool_decide (s' = "") then Some (Addr6 (replicate 16 0%N) zone)
        else parseIPv6_loop 8 s' [] (Some 0) ≫= parseIPv6_finish zone
      else parseIPv6_loop 8 s [] None ≫= parseIPv6_finish zone
  | _ => parseIPv6_loop 8 s [] None ≫= parseIPv6_finish zone
  end.

Fixpoint ParseAddr_scan (s0 s : string) : option Addr :=
  match s with
  | EmptyString => None
  | String c s =>
      if bool_decide (c = "."%char) then parseIPv4 s0
      else if bool_decide (c = ":"%char) then parseIPv6 s0
      else if bool_decide (c = "%"%char) then None
      else ParseAddr_scan s0 s
  end.

(** [netip.ParseAddr]. *)
Definition ParseAddr (s : string) : option Addr := ParseAddr_scan s s.

Definition v4InV6Prefix : list N := [0;0;0;0;0;0;0;0;0;0;255;255]%N.

Definition As16 (a : Addr) : IP :=
  match a with Addr4 b => v4InV6Prefix ++ b | Addr6 b _ => b end.
Definition Zone (a : Addr) : string :=
  match a with Addr4 _ => "" | Addr6 _ z => z end.
Definition BitLen (a : Addr) : N :=
  match a with Addr4 _ => 32 | Addr6 _ _ => 128 end.

(** [net.ParseIP]: [None] is Go's [nil]. *)
Definition ParseIP (s : string) : option IP :=
  a ← ParseAddr s;
  if bool_decide (Zone a = "") then Some (As16 a) else None.

(** [ip.To4()]. *)
Definition To4 (ip : IP) : option IP :=
  if (length ip =? 4)%nat then Some ip
  else if (length ip =? 16)%nat && bool_decide (take 12 ip = v4InV6Prefix)
  then Some (drop 12 ip) else None.

(** [net.dtoi]: the value and the unread rest; [None] on overflow or no digit. *)
Fixpoint dtoi_go (s : string) (n : N) (seen : bool) : option (N * string) :=
  match s with
  | EmptyString => if seen then Some (n, "") else None
  | String c s' =>
      match digit_val c with
      | None => if seen then Some (n, s) else None
      | Some d => if (16777215 <=? n * 10 + d)%N then None else dtoi_go s' (n * 10 + d) true
      end
  end.
Definition dtoi (s : string) : option (N * string) := dtoi_go s 0 false.

(** [net.CIDRMask(ones, bits)], [bits] being [8 * n]. *)
Fixpoint CIDRMask (ones : N) (n : nat) : IPMask :=
  match n with
  | O => []
  | S n =>
      if (8 <=? ones)%N then 255%N :: CIDRMask (ones - 8) n
      else (255 - N.shiftr 255 ones)%N :: CIDRMask 0 n
  end.

Definition allFF (b : list N) : bool := forallb (N.eqb 255) b.

(** [ip.Mask(mask)]. *)
Definition Mask (ip : IP) (mask : IPMask) : option IP :=
  let mask := if (length mask =? 16)%nat && (length ip =? 4)%nat && allFF (take 12 mask)
              then drop 12 mask else mask in
  let ip := if (length mask =? 4)%nat && (length ip =? 16)%nat
                && bool_decide (take 12 ip = v4InV6Prefix)
            then drop 12 ip else ip in
  if (length ip =? length mask)%nat then Some (zip_with N.land ip mask) else None.

(** The string before the first ['/'] and the one after it. *)
Fixpoint cutSlash (s : string) : option (string * string) :=
  match s with
  | EmptyString => None
  | String c s' =>
      if bool_decide (c = "/"%char) then Some ("", s')
      else '(a, m) ← cutSlash s'; Some (String c a, m)
  end.

(** [net.ParseCIDR]. *)
Definition ParseCIDR (s : string) : option (IP * IPNet) :=
  '(addr, mask) ← cutSlash s;
  ipAddr ← ParseAddr addr;
  if negb (bool_decide (Zone ipAddr = "")) then None else
  '(n, rest) ← dtoi mask;
  if negb (bool_decide (rest = "")) || (BitLen ipAddr <? n)%N then None else
  let m := CIDRMask n (N.to_nat (BitLen ipAddr) / 8) in
  let addr16 := As16 ipAddr in
  Some (addr16, mkIPNet (default [] (Mask addr16 m)) m).

(** ** Printing *)

(** [simpleMaskLength]: [None] is Go's [-1]. *)
Fixpoint leadingOnes (fuel : nat) (v n : N) : option N :=
  match fuel with
  | O => if (v =? 0)%N then Some n else None
  | S fuel =>
      if N.testbit v 7 then leadingOnes fuel (N.land (N.shiftl v 1) 255) (n + 1)
      else if (v =? 0)%N then Some n else None
  end.

Fixpoint simpleMaskLength_go (mask : IPMask) (n : N) : option N :=
  match mask with
  | [] => Some n
  | v :: mask =>
      if (v =? 255)%N then simpleMaskLength_go mask (n + 8)
      else n' ← leadingOnes 8 v n;
           if forallb (N.eqb 0) mask then Some n' else None
  end.
Definition simpleMaskLength (mask : IPMask) : option N := simpleMaskLength_go mask 0.

(** The first result of [mask.Size()]. *)
Definition Mask_ones (mask : IPMask) : N := default 0%N (simpleMaskLength mask).

Definition hexDigit (n : N) : ascii :=
  if (n <? 10)%N then ascii_of_N (48 + n) else ascii_of_N (87 + n).

Fixpoint appendHex_go (fuel : nat) (n : N) (s : string) : string :=
  match fuel with
  | O => s
  | S fuel =>
      let s := String (hexDigit (n `mod` 16)) s in
      if (n <? 16)%N then s else appendHex_go fuel (n `div` 16) s
  end.
(** ["%x"] of a 16-bit value. *)
Definition appendHex (n : N) : string := appendHex_go 4 n "".

Fixpoint groups16 (b : list N) : list N :=
  match b with
  | hi :: lo :: b => (hi * 256 + lo)%N :: groups16 b
  | _ => []
  end.

Fixpoint zeroPrefix (l : list N) : nat :=
  match l with
  | x :: l => if (x =? 0)%N then S (zeroPrefix l) else 0
  | [] => 0
  end.

(** The first of the longest runs of at least two zero groups. *)
Fixpoint longestZeros (i : nat) (l : list N) (best : option (nat * nat)) : option (nat * nat) :=
  match l with
  | [] => best
  | _ :: l' =>
      let n := zeroPrefix l in
      let better := match best with None => true | Some (_, m) => (m <? n)%nat end in
      longestZeros (S i) l' (if (2 <=? n)%nat && better then Some (i, n) else best)
  end.

Definition joinHex (l : list N) : string :=
  match appendHex <$> l with
  | [] => ""
  | x :: xs => foldl (λ a b, a +:+ ":" +:+ b) x xs
  end.

Definition string6 (b : list N) : string :=
  let g := groups16 b in
  match longestZeros 0 g None with
  | None => joinHex g
  | Some (i, n) => joinHex (take i g) +:+ "::" +:+ joinHex (drop (i + n) g)
  end.

Definition string4 (b : list N) : string :=
  match (pretty : N → string) <$> b with
  | [] => ""
  | x :: xs => foldl (λ a b, a +:+ "." +:+ b) x xs
  end.

Definition hexBytes (b : list N) : string :=
  foldr (λ x s, String (hexDigit (x `div` 16)) (String (hexDigit (x `mod` 16)) s)) "" b.

(** [ip.String()]. *)
Definition IP_String (ip : IP) : string :=
  if (length ip =? 0)%nat then "<nil>"
  else if negb (length ip =? 4)%nat && negb (length ip =? 16)%nat then "?" +:+ hexBytes ip
  else match To4 ip with
       | Some b => string4 b
       | None => string6 ip
       end.

(** [IPNet.String()], through [networkNumberAndMask]. *)
Definition networkNumberAndMask (n : IPNet) : option (IP * IPMask) :=
  ip ← match To4 (IPNet_IP n) with
       | Some ip => Some ip
       | None => if (length (IPNet_IP n) =? 16)%nat then Some (IPNet_IP n) else None
       end;
  let m := IPNet_Mask n in
  if (length m =? 4)%nat then
    if (length ip =? 4)%nat then Some (ip, m) else None
  else if (length m =? 16)%nat then
    Some (ip, if (length ip =? 4)%nat then drop 12 m else m)
  else None.

Definition IPNet_String (n : IPNet) : string :=
  match networkNumberAndMask n with
  | None => "<nil>"
  | Some (nn, m) =>
      match simpleMaskLength m with
      | Some l => IP_String nn +:+ "/" +:+ pretty l
      | None => IP_String nn +:+ "/" +:+ hexBytes m
      end
  end.

Example parse_v4 : ParseIP "192.0.2.1" = Some (v4InV6Prefix ++ [192;0;2;1]%N).
Proof. vm_compute. reflexivity. Qed.
Example parse_v4_leading_zero : ParseIP "192.0.02.1" = None.
Proof. vm_compute. reflexivity. Qed.
Example parse_v6 : ParseIP "2001:db8::1" =
  Some [32;1;13;184;0;0;0;0;0;0;0;0;0;0;0;1]%N.
Proof. vm_compute. reflexivity. Qed.
Example parse_v6_mapped : ParseIP "::ffff:10.1.2.3" = ParseIP "10.1.2.3".
Proof. vm_compute. reflexivity. Qed.
Example parse_v6_zone : ParseIP "fe80::1%eth0" = None.
Proof. vm_compute. reflexivity. Qed.
Example parse_v6_bad : (ParseIP <$> ["1::2::3"; ":1"; "1:2:3:4:5:6:7:8:9"; "12345::"; "1:2:3:4:5:6:7::8"; "g::"])
  = [None; None; None; None; None; None].
Proof. vm_compute. reflexivity. Qed.
Example parse_cidr : (λ p, IPNet_String (snd p)) <$> ParseCIDR "10.1.2.3/20" = Some "10.1.0.0/20".
Proof. vm_compute. reflexivity. Qed.
Example parse_cidr6 : (λ p, IPNet_String (snd p)) <$> ParseCIDR "2001:db8:0:1::/64" = Some "2001:db8:0:1::/64".
Proof. vm_compute. reflexivity. Qed.
Example parse_cidr_bad : (ParseCIDR <$> ["10.0.0.0/33"; "10.0.0.0"; "10.0.0.0/"; "10.0.0.0/8x"; "::/129"])
  = [None; None; None; None; None].
Proof. vm_compute. reflexivity. Qed.

(** ** Lemmas: dotted quads *)

(** One octet, by its 256 values: reading it up to the dot or the end. *)
Lemma parse_octet_dot (n : nat) s fields :
  n < 256 →
  parseIPv4Fields (pretty (N.of_nat n) +:+ String "." s) 0 0 fields =
  if bool_decide (s = "") then None
  else if (length fields =? 3)%nat then None
  else parseIPv4Fields s 0 0 (fields ++ [N.of_nat n]).
Proof. intros Hn. do 256 (destruct n as [|n]; [reflexivity|]). lia. Qed.

Lemma parse_octet_end (n : nat) fields :
  n < 256 →
  parseIPv4Fields (pretty (N.of_nat n)) 0 0 fields =
  if (length fields <? 3)%nat then None else Some (fields ++ [N.of_nat n]).
Proof. intros Hn. do 256 (destruct n as [|n]; [reflexivity|]). lia. Qed.

Lemma ParseAddr_scan_dot s0 w s :
  contains_char "." w = false → contains_char ":" w = false → contains_char "%" w = false →
  ParseAddr_scan s0 (w +:+ String "." s) = parseIPv4 s0.
Proof.
  induction w as [|c w IH]; [done|]. simpl.
  intros [H1 ?]%orb_false_iff [H2 ?]%orb_false_iff [H3 ?]%orb_false_iff.
  rewrite H1, H2, H3. auto.
Qed.

(** What [IP.String] prints of an IPv4 address, [ParseIP] reads back. *)
Lemma ParseIP_string4 a b c d :
  (a < 256)%N → (b < 256)%N → (c < 256)%N → (d < 256)%N →
  ParseIP (string4 [a; b; c; d]) = Some (v4InV6Prefix ++ [a; b; c; d]).
Proof.
  intros Ha Hb Hc Hd. unfold ParseIP, ParseAddr, string4; cbn [fmap list_fmap foldl].
  rewrite !app_assoc_string.
  assert (∀ s, "." +:+ s = String "." s) as Hdot by done. rewrite !Hdot.
  rewrite (ParseAddr_scan_dot _ (pretty a)) by (by apply pretty_no_char). unfold parseIPv4.
  rewrite <-(N2Nat.id a), <-(N2Nat.id b), <-(N2Nat.id c), <-(N2Nat.id d).
  assert (∀ x y, String x y ≠ "") as Hne by done.
  assert (∀ (n : N) x s, pretty n +:+ String x s ≠ "") as Hne'.
  { intros n x s. by destruct (pretty_N_cons n) as (c' & s' & ->). }
  rewrite parse_octet_dot by lia. rewrite bool_decide_eq_false_2 by done. cbn [length Nat.eqb app].
  rewrite parse_octet_dot by lia. rewrite bool_decide_eq_false_2 by done. cbn [length Nat.eqb app].
  rewrite parse_octet_dot by lia.
  rewrite bool_decide_eq_false_2 by (by destruct (pretty_N_cons (N.of_nat (N.to_nat d))) as (c' & s' & ->)).
  cbn [length Nat.eqb app]. rewrite parse_octet_end by lia. done.
Qed.
