(* ===== verification/IPFamily.v ===== *)
(** * IP families ([internal/ipfamily/ipfamily.go])

    The family of an address, of a CIDR and of a pair of addresses, and the
    filtering of prefixes by family on which the per-family halves of every
    generated route map rest. *)

From Stdlib Require Import Lia.
From S2P Require Import Prelude GoStrings GoNet.

(** [type Family string] with its four constants; the string is [Family_String]. *)
Inductive Family := IPv4 | IPv6 | DualStack | Unknown.

#[global] Instance Family_eq_dec : EqDecision Family.
Proof. solve_decision. Defined.

Definition Family_String (f : Family) : string :=
  match f with
  | IPv4 => "ipv4" | IPv6 => "ipv6" | DualStack => "dual" | Unknown => "unknown"
  end.

#[global] Instance Family_String_inj : Inj (=) (=) Family_String.
Proof. by intros [] []. Qed.

(** The three ways [ForAddresses] fails. *)
Inductive famError :=
  | EInvalidAddress (ips : list string)
  | ESameFamily (ips : list string)
  | EInvalidLength (ips : list string).

Definition ForAddress (ip : IP) : Family :=
  match To4 ip with None => IPv6 | Some _ => IPv4 end.

Definition ForAddresses (ips : list string) : result famError Family :=
  match ips with
  | [s] =>
      match ParseIP s with
      | None => Err (EInvalidAddress ips)
      | Some ip => Ok (ForAddress ip)
      end
  | [s1; s2] =>
      match ParseIP s1, ParseIP s2 with
      | Some ip1, Some ip2 =>
          if Bool.eqb (bool_decide (To4 ip1 = None)) (bool_decide (To4 ip2 = None))
          then Err (ESameFamily ips)
          else Ok DualStack
      | _, _ => Err (EInvalidAddress ips)
      end
  | _ => Err (EInvalidLength ips)
  end.

Definition ForAddressesIPs (ips : list IP) : result famError Family :=
  ForAddresses (IP_String <$> ips).

Definition ForCIDRString (cidr : string) : Family :=
  match ParseCIDR cidr with
  | None => Unknown
  | Some (ip, _) => match To4 ip with None => IPv6 | Some _ => IPv4 end
  end.

Definition ForCIDR (cidr : IPNet) : Family :=
  match To4 (IPNet_IP cidr) with None => IPv6 | Some _ => IPv4 end.

(** [ForService], on the two fields of the service it reads. *)
Definition ForService (clusterIPs : list string) (clusterIP : string) : result famError Family :=
  if (0 <? length clusterIPs)%nat then ForAddresses clusterIPs
  else ForAddresses [clusterIP].

Definition FilterPrefixes (prefixes : list string) (familyToFilter : Family) : list string :=
  if bool_decide (familyToFilter = DualStack) then prefixes
  else filter (λ p, ForCIDRString p = familyToFilter) prefixes.

Definition MatchesPrefix (toMatch : Family) (prefix : string) : bool :=
  if bool_decide (toMatch = DualStack) then true
  else bool_decide (ForCIDRString prefix = toMatch).

(** ** Lemmas *)

Lemma ForCIDRString_cases p :
  ForCIDRString p = IPv4 ∨ ForCIDRString p = IPv6 ∨ ForCIDRString p = Unknown.
Proof. unfold ForCIDRString. repeat case_match; naive_solver. Qed.

Lemma ForCIDRString_not_dual p : ForCIDRString p ≠ DualStack.
Proof. destruct (ForCIDRString_cases p) as [->|[->| ->]]; done. Qed.

Lemma elem_of_FilterPrefixes p ps f :
  f ≠ DualStack → p ∈ FilterPrefixes ps f ↔ ForCIDRString p = f ∧ p ∈ ps.
Proof.
  intros Hf. unfold FilterPrefixes. rewrite bool_decide_eq_false_2 by done.
  by rewrite list_elem_of_filter.
Qed.

Lemma MatchesPrefix_spec f p :
  MatchesPrefix f p = true ↔ f = DualStack ∨ ForCIDRString p = f.
Proof.
  unfold MatchesPrefix. case_bool_decide as H1; [naive_solver|].
  rewrite bool_decide_eq_true. naive_solver.
Qed.

(** [ForAddress] agrees with [ForCIDRString] on the address part: the family
    of a prefix is that of the address it is written with. *)
Lemma ForCIDRString_address p ip n :
  ParseCIDR p = Some (ip, n) → ForCIDRString p = ForAddress ip.
Proof. unfold ForCIDRString, ForAddress. by intros ->. Qed.

(** A family filter keeps the order of the prefixes and splits a list of valid
    prefixes in two: nothing is lost and nothing is in both halves. *)
Lemma FilterPrefixes_partition ps :
  (∀ p, p ∈ ps → ForCIDRString p ≠ Unknown) →
  FilterPrefixes ps IPv4 ++ FilterPrefixes ps IPv6 ≡ₚ ps.
Proof.
  unfold FilterPrefixes; simpl. induction ps as [|p ps IH]; intros Hps; [done|].
  rewrite !filter_cons.
  assert (ForCIDRString p ≠ Unknown) by (apply Hps; set_solver).
  specialize (IH (λ q Hq, Hps q (list_elem_of_further _ _ _ Hq))).
  destruct (ForCIDRString_cases p) as [Hp|[Hp|Hp]]; rewrite Hp; simpl;
    [by rewrite IH| |done].
  by rewrite <-Permutation_middle, IH.
Qed.

Lemma FilterPrefixes_disjoint ps p :
  p ∈ FilterPrefixes ps IPv4 → p ∉ FilterPrefixes ps IPv6.
Proof. rewrite !elem_of_FilterPrefixes by done. intros [-> _] [? _]. done. Qed.

(** Filtering prefixes by family splits a list of valid prefixes: every prefix is in
    exactly one of the IPv4 and IPv6 halves, with its multiplicity, and dual
    stack keeps them all. *)
Theorem FilterPrefixes_splits ps :
  (∀ p, p ∈ ps → ForCIDRString p ≠ Unknown) →
  FilterPrefixes ps IPv4 ++ FilterPrefixes ps IPv6 ≡ₚ ps ∧
  (∀ p, p ∈ FilterPrefixes ps IPv4 → p ∉ FilterPrefixes ps IPv6) ∧
  FilterPrefixes ps DualStack = ps ∧
  (∀ f p, f ≠ DualStack → p ∈ FilterPrefixes ps f → MatchesPrefix f p = true).
Proof.
  intros Hps. split_and!; [by apply FilterPrefixes_partition|apply FilterPrefixes_disjoint|done|].
  intros f p Hf [? _]%elem_of_FilterPrefixes; [|done]. apply MatchesPrefix_spec. by right.
Qed.

Lemma FilterPrefixes_splits_witness :
  FilterPrefixes ["10.0.0.0/8"; "2001:db8::/32"] IPv4 ++
    FilterPrefixes ["10.0.0.0/8"; "2001:db8::/32"] IPv6 ≡ₚ ["10.0.0.0/8"; "2001:db8::/32"].
Proof.
  apply (FilterPrefixes_splits ["10.0.0.0/8"; "2001:db8::/32"]).
  intros p Hp. apply elem_of_cons in Hp as [->|Hp]; [vm_compute; discriminate|].
  apply elem_of_cons in Hp as [->|Hp]; [vm_compute; discriminate|]. by apply elem_of_nil in Hp.
Defined.
