(* ===== verification/Community.v ===== *)
(** * BGP communities ([internal/community/community.go])

    Parsing, printing and ordering of legacy ([uint16:uint16]) and large
    ([uint32:uint32:uint32]) communities. *)

From Stdlib Require Import Ascii Lia.
From S2P Require Import Prelude GoStrings.

(** The two implementations of the [BGPCommunity] interface. *)
Inductive BGPCommunity :=
  | BGPCommunityLegacy (upperVal lowerVal : N)
  | BGPCommunityLarge (globalAdministrator localDataPart1 localDataPart2 : N).

#[global] Instance BGPCommunity_eq_dec : EqDecision BGPCommunity.
Proof. solve_decision. Defined.

(** [ErrInvalidCommunityValue] and [ErrInvalidCommunityFormat], with the
    string they are reported for. *)
Inductive communityError :=
  | ErrInvalidSection (section community : string) (err : numError)
  | ErrInvalidMarker (community : string)
  | ErrInvalidCommunityFormat (community : string).

#[global] Instance communityError_eq_dec : EqDecision communityError.
Proof. solve_decision. Defined.

Definition largeBGPCommunityMarker : string := "large".

Definition section (c s : string) (bits : N) : result communityError N :=
  match ParseUint s bits with
  | Ok b => Ok b
  | Err e => Err (ErrInvalidSection s c e)
  end.

Definition New (c : string) : result communityError BGPCommunity :=
  match Split c ":" with
  | [f0; f1] =>
      u ← section c f0 16;
      l ← section c f1 16;
      Ok (BGPCommunityLegacy u l)
  | [f0; f1; f2; f3] =>
      if bool_decide (f0 = largeBGPCommunityMarker) then
        g ← section c f1 32;
        l1 ← section c f2 32;
        l2 ← section c f3 32;
        Ok (BGPCommunityLarge g l1 l2)
      else Err (ErrInvalidMarker c)
  | _ => Err (ErrInvalidCommunityFormat c)
  end.

(** [String()] of both implementations. *)
Definition Community_String (c : BGPCommunity) : string :=
  match c with
  | BGPCommunityLegacy u l => pretty u +:+ ":" +:+ pretty l
  | BGPCommunityLarge g l1 l2 => pretty g +:+ ":" +:+ pretty l1 +:+ ":" +:+ pretty l2
  end.

(** [(uint32(upper) << 16) + uint32(lower)], a 32-bit addition. *)
Definition ToUint32 (upper lower : N) : N :=
  ((N.shiftl upper 16 `mod` 2 ^ 32 + lower) `mod` 2 ^ 32)%N.

Definition IsLegacy (c : BGPCommunity) : bool :=
  match c with BGPCommunityLegacy _ _ => true | _ => false end.
Definition IsLarge (c : BGPCommunity) : bool :=
  match c with BGPCommunityLarge _ _ _ => true | _ => false end.

(** A legacy community is compared as the large one [ToUint32 : 0 : 0]. *)
Definition asLarge (c : BGPCommunity) : N * N * N :=
  match c with
  | BGPCommunityLegacy u l => (ToUint32 u l, 0, 0)%N
  | BGPCommunityLarge g l1 l2 => (g, l1, l2)
  end.

Definition lessThan (b c : BGPCommunity) : bool :=
  let '(bg, b1, b2) := asLarge b in
  let '(cg, c1, c2) := asLarge c in
  ((bg <? cg) || ((bg =? cg) && ((b1 <? c1) || ((b1 =? c1) && (b2 <? c2)))))%N.

(** The values [New] can return: every field fits its Go type. *)
Definition community_wf (c : BGPCommunity) : Prop :=
  match c with
  | BGPCommunityLegacy u l => (u < 2 ^ 16)%N ∧ (l < 2 ^ 16)%N
  | BGPCommunityLarge g l1 l2 => (g < 2 ^ 32)%N ∧ (l1 < 2 ^ 32)%N ∧ (l2 < 2 ^ 32)%N
  end.

(** The string that denotes a community in the API: large ones are marked. *)
Definition community_spelling (c : BGPCommunity) : string :=
  if IsLarge c then largeBGPCommunityMarker +:+ ":" +:+ Community_String c
  else Community_String c.

(** ** Lemmas *)

Lemma section_Ok c s bits n : section c s bits = Ok n ↔ ParseUint s bits = Ok n.
Proof. unfold section. destruct (ParseUint s bits); naive_solver. Qed.

Lemma section_pretty c n bits :
  (n < 2 ^ bits)%N → section c (pretty n) bits = Ok n.
Proof. intros. by apply section_Ok, ParseUint_Format. Qed.

Lemma Split_pretty_cons (n : N) s : Split (pretty n +:+ ":" +:+ s) ":" = pretty n :: Split s ":".
Proof. apply Split_app. by apply pretty_no_char. Qed.

Lemma Split_pretty (n : N) : Split (pretty n) ":" = [pretty n].
Proof. apply Split_no_sep. by apply pretty_no_char. Qed.

Lemma Split_marker_cons s :
  Split (largeBGPCommunityMarker +:+ ":" +:+ s) ":" = largeBGPCommunityMarker :: Split s ":".
Proof. by apply Split_app. Qed.

Lemma New_wf s c : New s = Ok c → community_wf c.
Proof.
  unfold New. intros H.
  destruct (Split s ":") as [|f0 [|f1 [|f2 [|f3 [|]]]]]; try done.
  - apply bind_Ok in H as (u & ?%section_Ok%ParseUint_bound & H).
    apply bind_Ok in H as (l & ?%section_Ok%ParseUint_bound & [= <-]). done.
  - case_bool_decide; [|done].
    apply bind_Ok in H as (g & ?%section_Ok%ParseUint_bound & H).
    apply bind_Ok in H as (l1 & ?%section_Ok%ParseUint_bound & H).
    apply bind_Ok in H as (l2 & ?%section_Ok%ParseUint_bound & [= <-]). done.
Qed.

Lemma New_spelling c : community_wf c → New (community_spelling c) = Ok c.
Proof.
  destruct c as [u l|g l1 l2]; intros Hwf; unfold New, community_spelling;
    cbn [IsLarge Community_String].
  - destruct Hwf. rewrite Split_pretty_cons, Split_pretty.
    by rewrite !section_pretty.
  - destruct Hwf as (? & ? & ?).
    rewrite Split_marker_cons, !Split_pretty_cons, Split_pretty.
    rewrite bool_decide_eq_true_2 by done. by rewrite !section_pretty.
Qed.

Lemma ToUint32_exact u l :
  (u < 2 ^ 16)%N → (l < 2 ^ 16)%N → ToUint32 u l = (u * 2 ^ 16 + l)%N.
Proof.
  intros. unfold ToUint32. rewrite N.shiftl_mul_pow2.
  change (2 ^ 16)%N with 65536%N in *. change (2 ^ 32)%N with 4294967296%N.
  rewrite (N.mod_small (u * 65536)) by lia. by rewrite N.mod_small by lia.
Qed.

Lemma lessThan_irrefl c : lessThan c c = false.
Proof.
  unfold lessThan. destruct (asLarge c) as [[g l1] l2].
  by rewrite !N.ltb_irrefl, !N.eqb_refl.
Qed.

(** The lexicographic order [lessThan] decides. *)
Lemma lessThan_spec b c :
  lessThan b c = true ↔
  let '(bg, b1, b2) := asLarge b in let '(cg, c1, c2) := asLarge c in
  (bg < cg ∨ bg = cg ∧ (b1 < c1 ∨ b1 = c1 ∧ b2 < c2))%N.
Proof.
  unfold lessThan. destruct (asLarge b) as [[bg b1] b2], (asLarge c) as [[cg c1] c2].
  rewrite !orb_true_iff, !andb_true_iff, !orb_true_iff, !andb_true_iff.
  by rewrite !N.ltb_lt, !N.eqb_eq.
Qed.

Lemma lessThan_trans a b c :
  lessThan a b = true → lessThan b c = true → lessThan a c = true.
Proof.
  rewrite !lessThan_spec.
  destruct (asLarge a) as [[??]?], (asLarge b) as [[??]?], (asLarge c) as [[??]?]. lia.
Qed.

Lemma lessThan_trichotomy a b :
  lessThan a b = true ∨ asLarge a = asLarge b ∨ lessThan b a = true.
Proof.
  rewrite !lessThan_spec.
  destruct (asLarge a) as [[ag a1] a2], (asLarge b) as [[bg b1] b2].
  assert ((ag < bg ∨ ag = bg ∧ (a1 < b1 ∨ a1 = b1 ∧ a2 < b2)) ∨
          (ag = bg ∧ a1 = b1 ∧ a2 = b2) ∨
          (bg < ag ∨ bg = ag ∧ (b1 < a1 ∨ b1 = a1 ∧ b2 < a2)))%N as [?|[(->&->&->)|?]]
    by lia; auto.
Qed.

(** Two communities print alike only when they are the same. *)
Lemma Community_String_inj c1 c2 :
  Community_String c1 = Community_String c2 → c1 = c2.
Proof.
  assert (∀ n : N, contains_char ":" (pretty n) = false) as Hno
    by (intros; by apply pretty_no_char).
  destruct c1 as [u l|g l1 l2], c2 as [u' l'|g' l1' l2']; simpl.
  - intros [?%(inj _) ?%(inj _)]%sep_inj; auto. by subst.
  - intros [_ H]%sep_inj; auto. exfalso.
    pose proof (Hno l) as Hl. rewrite H, contains_char_app in Hl.
    rewrite orb_false_iff in Hl. by destruct Hl as [_ [=]].
  - intros [_ H]%sep_inj; auto. exfalso.
    pose proof (Hno l') as Hl. rewrite <-H, contains_char_app in Hl.
    rewrite orb_false_iff in Hl. by destruct Hl as [_ [=]].
  - intros [?%(inj _) [?%(inj _) ?%(inj _)]%sep_inj]%sep_inj; auto. by subst.
Qed.

(** ** The language of communities *)

(** A number in decimal, possibly with leading zeros. *)
Definition numeral (s : string) (n : N) : Prop :=
  ∃ ds : list N, ds ≠ [] ∧ Forall (λ d, d < 10)%N ds ∧
    s = foldr (λ d, String (ascii_of_N (48 + d))) "" ds ∧ n = foldl (λ n d, n * 10 + d)%N 0%N ds.

(** The strings that denote a community in the API. *)
Definition denotes (s : string) (c : BGPCommunity) : Prop :=
  match c with
  | BGPCommunityLegacy upper lower =>
      ∃ a b, s = a +:+ ":" +:+ b ∧ numeral a upper ∧ numeral b lower ∧ (upper < 2 ^ 16)%N ∧ (lower < 2 ^ 16)%N
  | BGPCommunityLarge global local1 local2 =>
      ∃ a b d, s = "large:" +:+ a +:+ ":" +:+ b +:+ ":" +:+ d ∧
        numeral a global ∧ numeral b local1 ∧ numeral d local2 ∧
        (global < 2 ^ 32)%N ∧ (local1 < 2 ^ 32)%N ∧ (local2 < 2 ^ 32)%N
  end.

Lemma digit_val_Some c d : digit_val c = Some d ↔ (d < 10)%N ∧ c = ascii_of_N (48 + d).
Proof.
  unfold digit_val. split.
  - destruct (N.leb_spec 48 (N_of_ascii c)), (N.leb_spec (N_of_ascii c) 57); intros [= <-]. split; [lia|].
    rewrite <-(ascii_N_embedding c) at 1. f_equal. lia.
  - intros [Hd ->]. rewrite N_ascii_embedding by lia.
    destruct (N.leb_spec 48 (48 + d)), (N.leb_spec (48 + d) 57); cbn; try lia. f_equal. lia.
Qed.

Lemma decimal_grows ds acc : (acc ≤ foldl (λ n d, n * 10 + d) acc ds)%N.
Proof.
  revert acc. induction ds as [|d ds IH]; intros acc; cbn; [lia|]. specialize (IH (acc * 10 + d)%N). lia.
Qed.

Lemma ParseUint_go_exact max acc s n :
  (acc ≤ max)%N → ParseUint_go max acc s = Ok n ↔
  ∃ ds, Forall (λ d, d < 10)%N ds ∧ s = foldr (λ d, String (ascii_of_N (48 + d))) "" ds ∧
    n = foldl (λ n d, n * 10 + d)%N acc ds ∧ (n ≤ max)%N.
Proof.
  revert acc. induction s as [|c s IH]; intros acc Hacc; cbn [ParseUint_go].
  - split; [intros [= <-]; by exists []|]. intros ([|d ds] & _ & Hs & -> & _); [done|discriminate Hs].
  - split.
    + destruct (digit_val c) as [d|] eqn:Ed; [|done]. apply digit_val_Some in Ed as [Hd ->].
      destruct (N.ltb_spec max (acc * 10 + d)); [done|]. intros (ds & ? & -> & ? & ?)%IH; [|done]. exists (d :: ds). by split_and!; [constructor|..].
    + intros ([|d ds] & Hds & Hs & -> & Hn); [discriminate Hs|]. inversion Hds; subst. injection Hs as -> ->.
      rewrite (proj2 (digit_val_Some _ d)) by done. cbn [foldl] in Hn. pose proof (decimal_grows ds (acc * 10 + d)%N).
      destruct (N.ltb_spec max (acc * 10 + d)); [lia|]. apply IH; [done|]. by exists ds.
Qed.

Lemma ParseUint_exact s bits n : ParseUint s bits = Ok n ↔ numeral s n ∧ (n < 2 ^ bits)%N.
Proof.
  assert (0 < 2 ^ bits)%N as Hb by (apply N.neq_0_lt_0, N.pow_nonzero; done). unfold ParseUint, numeral.
  destruct s as [|c s].
  - split; [done|]. intros [([|d ds] & ? & _ & Hs & _) _]; [done|discriminate Hs].
  - rewrite ParseUint_go_exact by lia. split.
    + intros (ds & ? & Hs & ? & ?). split; [|lia]. exists ds. split_and!; [by intros ->|done..].
    + intros [(ds & _ & ? & ? & ?) ?]. exists ds. split_and!; [done..|lia].
Qed.

Lemma numeral_no_colon s n : numeral s n → contains_char ":" s = false.
Proof.
  intros (ds & _ & Hds & -> & _). clear n. induction Hds as [|d ds Hd _ IH]; [done|]. cbn [foldr contains_char].
  rewrite IH, orb_false_r. apply bool_decide_eq_false. intros Hc. apply (f_equal N_of_ascii) in Hc.
  rewrite N_ascii_embedding in Hc by lia. change (N_of_ascii ":") with 58%N in Hc. lia.
Qed.

(** What is split can be joined again. *)
Lemma concat_Split s sep : String.concat (String sep "") (Split s sep) = s ∧ Split s sep ≠ [].
Proof.
  induction s as [|a s [IH Hne]]; [done|]. cbn [Split]. case_bool_decide as Ha.
  - subst a. split; [|done]. rewrite <-IH at 2. by destruct (Split s sep).
  - destruct (Split s sep) as [|w ws]; [done|]. split; [|done]. rewrite <-IH. by destruct ws.
Qed.

Lemma New_denotes s c : New s = Ok c → denotes s c.
Proof.
  unfold New. intros H. destruct (concat_Split s ":") as [Hs _].
  destruct (Split s ":") as [|f0 [|f1 [|f2 [|f3 [|]]]]]; try done; cbn [String.concat] in Hs; subst s.
  - apply bind_Ok in H as (u & [Hu1 Hu2]%section_Ok%ParseUint_exact & H).
    apply bind_Ok in H as (l & [Hl1 Hl2]%section_Ok%ParseUint_exact & [= <-]). by exists f0, f1.
  - case_bool_decide as Hm; [|done]. subst f0.
    apply bind_Ok in H as (g & [Hg1 Hg2]%section_Ok%ParseUint_exact & H).
    apply bind_Ok in H as (l1 & [Hl11 Hl12]%section_Ok%ParseUint_exact & H).
    apply bind_Ok in H as (l2 & [Hl21 Hl22]%section_Ok%ParseUint_exact & [= <-]). by exists f1, f2, f3.
Qed.

Lemma denotes_New s c : denotes s c → New s = Ok c.
Proof.
  destruct c as [u l|g l1 l2]; unfold New.
  - intros (a & b & -> & Ha & Hb & ? & ?). change (a +:+ ":" +:+ b) with (a +:+ String ":" b).
    rewrite Split_app, Split_no_sep by eauto using numeral_no_colon.
    by rewrite (proj2 (section_Ok _ a _ u)), (proj2 (section_Ok _ b _ l)) by (by apply ParseUint_exact).
  - intros (a & b & d & -> & Ha & Hb & Hd & ? & ? & ?).
    change ("large:" +:+ a +:+ ":" +:+ b +:+ ":" +:+ d) with ("large" +:+ String ":" (a +:+ String ":" (b +:+ String ":" d))).
    rewrite !Split_app, Split_no_sep by eauto using numeral_no_colon. rewrite bool_decide_eq_true_2 by done.
    by rewrite (proj2 (section_Ok _ a _ g)), (proj2 (section_Ok _ b _ l1)), (proj2 (section_Ok _ d _ l2)) by (by apply ParseUint_exact).
Qed.

(** C31: communities are parsed as the API writes them: [New] accepts exactly two decimal numbers of 16 bits with a colon
    between, as a legacy community, and the word large with three of 32 bits, as a large one, possibly with leading
    zeros, and gives the numbers in the order they are written; every other string is an error.  Printing a
    community, after the word large for a large one, and parsing it gives it back, and different communities are printed differently. *)
Theorem New_exact :
  (∀ s c, New s = Ok c ↔ denotes s c) ∧
  (∀ upper lower, (upper < 2 ^ 16)%N → (lower < 2 ^ 16)%N →
     New (Community_String (BGPCommunityLegacy upper lower)) = Ok (BGPCommunityLegacy upper lower)) ∧
  (∀ global local1 local2, (global < 2 ^ 32)%N → (local1 < 2 ^ 32)%N → (local2 < 2 ^ 32)%N →
     New ("large:" +:+ Community_String (BGPCommunityLarge global local1 local2)) =
       Ok (BGPCommunityLarge global local1 local2)) ∧
  (∀ c1 c2, Community_String c1 = Community_String c2 → c1 = c2).
Proof.
  split_and!; eauto using Community_String_inj.
  - split; [apply New_denotes|apply denotes_New].
  - intros u l ? ?. by apply (New_spelling (BGPCommunityLegacy u l)).
  - intros g l1 l2 ? ? ?. by apply (New_spelling (BGPCommunityLarge g l1 l2)).
Qed.

Lemma New_exact_witness :
  New "64512:007" = Ok (BGPCommunityLegacy 64512 7) ∧
  New "large:1:2:3" = Ok (BGPCommunityLarge 1 2 3) ∧
  New (Community_String (BGPCommunityLegacy 64512 7)) = Ok (BGPCommunityLegacy 64512 7).
Proof.
  destruct New_exact as (Hnew & Hlegacy & Hlarge & _). split; [|split].
  - apply Hnew. exists "64512", "007". split; [reflexivity|]. split; [|split; [|split; reflexivity]].
    + exists [6; 4; 5; 1; 2]%N. split; [discriminate|]. split; [by_evaluation|]. split; reflexivity.
    + exists [0; 0; 7]%N. split; [discriminate|]. split; [by_evaluation|]. split; reflexivity.
  - apply (Hlarge 1 2 3)%N; reflexivity.
  - apply Hlegacy; reflexivity.
Defined.

(** [LessThan] is a strict weak order on communities, as sorting needs; two
    communities tie exactly when they are equal as large communities, a
    legacy one counting as <its 32-bit value>:0:0, computed without overflow. *)
Theorem lessThan_strict_weak_order a b c :
  lessThan a a = false ∧
  (lessThan a b = true → lessThan b c = true → lessThan a c = true) ∧
  (lessThan a b = false ∧ lessThan b a = false ↔ asLarge a = asLarge b) ∧
  (∀ u l, community_wf (BGPCommunityLegacy u l) →
     asLarge (BGPCommunityLegacy u l) = (u * 2 ^ 16 + l, 0, 0)%N ∧ (ToUint32 u l < 2 ^ 32)%N).
Proof.
  split_and!; [apply lessThan_irrefl|apply lessThan_trans| |].
  - split.
    + intros [H1 H2]. destruct (lessThan_trichotomy a b) as [?|[?|?]]; congruence.
    + intros He. pose proof (lessThan_irrefl b) as Hi. unfold lessThan in *. rewrite He. done.
  - intros u l [Hu Hl]. unfold asLarge. rewrite ToUint32_exact by done. split; [done|].
    change (2 ^ 16)%N with 65536%N in *. change (2 ^ 32)%N with 4294967296%N. lia.
Qed.
