(* ===== verification/Api.v ===== *)
(** * The Kubernetes API types ([api/v1beta1])

    One record per struct of the [v1beta1] package, field by field.  Unsigned
    integers are [N], [int] and durations (nanoseconds) are [Z], a pointer to
    a scalar is an [option], a slice is a list.  The [k8s.io] types the
    program reads ([LabelSelector], [Secret], [Node]) are records of the fields it
    uses.  An enumeration the API server validates ([AllowMode], ...) stays a
    string, because the converter compares it as one. *)

From S2P Require Import Prelude.

(** [metav1.Duration]: nanoseconds. *)
Definition Duration := Z.

(** ** [FRRConfiguration] *)

Record RawConfig := mkRawConfig {
  RawConfig_Priority : Z;
  RawConfig_Config : string }.

Definition AllowMode := string.
Definition AllowAll : AllowMode := "all".
Definition AllowRestricted : AllowMode := "filtered".

Definition DynamicASNMode := string.
Definition InternalASNMode : DynamicASNMode := "internal".
Definition ExternalASNMode : DynamicASNMode := "external".

Definition AddressFamily := string.
Definition AddressFamilyUnicast : AddressFamily := "unicast".
Definition AddressFamilyEVPN : AddressFamily := "evpn".

Definition AdvertisePrefixType := string.
Definition AdvertisePrefixUnicast : AdvertisePrefixType := "unicast".

Definition VNIAdvertisement := string.
Definition VNIAdvertisementDisabled : VNIAdvertisement := "Disabled".
Definition VNIAdvertisementAll : VNIAdvertisement := "All".

Record Import := mkImport { Import_VRF : string }.

Record SecretReference := mkSecretReference {
  SecretReference_Name : string;
  SecretReference_Namespace : string }.

Record NextHop := mkNextHop { NextHop_IPv4 : string; NextHop_IPv6 : string }.

Record PrefixSelector := mkPrefixSelector {
  PrefixSelector_Prefix : string;
  PrefixSelector_LE : N;
  PrefixSelector_GE : N }.

Record AllowedInPrefixes := mkAllowedInPrefixes {
  AllowedIn_Prefixes : list PrefixSelector;
  AllowedIn_Mode : AllowMode }.

Record AllowedOutPrefixes := mkAllowedOutPrefixes {
  AllowedOut_Prefixes : list string;
  AllowedOut_Mode : AllowMode }.

Record LocalPrefPrefixes := mkLocalPrefPrefixes {
  LocalPref_Prefixes : list string;
  LocalPref_LocalPref : N }.

Record CommunityPrefixes := mkCommunityPrefixes {
  Community_Prefixes : list string;
  Community_Community : string }.

Record Advertise := mkAdvertise {
  Advertise_Allowed : AllowedOutPrefixes;
  Advertise_NextHop : NextHop;
  PrefixesWithLocalPref : list LocalPrefPrefixes;
  PrefixesWithCommunity : list CommunityPrefixes }.

Record Receive := mkReceive { Receive_Allowed : AllowedInPrefixes }.

Record Neighbor := mkNeighbor {
  Neighbor_ASN : N;
  Neighbor_DynamicASN : DynamicASNMode;
  Neighbor_SourceAddress : string;
  Neighbor_Address : string;
  Neighbor_Interface : string;
  Neighbor_Port : option N;
  Neighbor_Password : string;
  Neighbor_PasswordSecret : SecretReference;
  Neighbor_HoldTime : option Duration;
  Neighbor_KeepaliveTime : option Duration;
  Neighbor_ConnectTime : option Duration;
  Neighbor_EBGPMultiHop : bool;
  Neighbor_BFDProfile : string;
  Neighbor_EnableGracefulRestart : bool;
  Neighbor_ToAdvertise : Advertise;
  Neighbor_ToReceive : Receive;
  Neighbor_DisableMP : bool;
  Neighbor_DualStackAddressFamily : bool;
  Neighbor_LocalASN : N;
  Neighbor_AddressFamilies : list AddressFamily }.

Record VNIProperties := mkVNIProperties {
  VNIProperties_RD : string;
  VNIProperties_ImportRTs : list string;
  VNIProperties_ExportRTs : list string }.

Record L2VNI := mkL2VNI {
  L2VNI_VNI : N;
  L2VNI_Properties : VNIProperties }.

Record L3VNI := mkL3VNI {
  L3VNI_VNI : N;
  L3VNI_Properties : VNIProperties;
  L3VNI_AdvertisePrefixes : list AdvertisePrefixType }.

Record EVPNConfig := mkEVPNConfig {
  EVPN_AdvertiseVNIs : option VNIAdvertisement;
  EVPN_AdvertiseSVI : bool;
  EVPN_L2VNIs : list L2VNI;
  EVPN_L3VNI : option L3VNI }.

Record Router := mkRouter {
  Router_ASN : N;
  Router_ID : string;
  Router_VRF : string;
  Router_Neighbors : list Neighbor;
  Router_Prefixes : list string;
  Router_Imports : list Import;
  Router_EVPN : option EVPNConfig }.

Record BFDProfile := mkBFDProfile {
  BFDProfile_Name : string;
  BFDProfile_ReceiveInterval : option N;
  BFDProfile_TransmitInterval : option N;
  BFDProfile_DetectMultiplier : option N;
  BFDProfile_EchoInterval : option N;
  BFDProfile_EchoMode : option bool;
  BFDProfile_PassiveMode : option bool;
  BFDProfile_MinimumTTL : option N }.

Record BGPConfig := mkBGPConfig {
  BGP_Routers : list Router;
  BGP_BFDProfiles : list BFDProfile }.

(** [metav1.LabelSelectorRequirement] and [metav1.LabelSelector]. *)
Record LabelSelectorRequirement := mkLabelSelectorRequirement {
  Requirement_Key : string;
  Requirement_Operator : string;
  Requirement_Values : list string }.

Record LabelSelector := mkLabelSelector {
  MatchLabels : gmap string string;
  MatchExpressions : list LabelSelectorRequirement }.

Record FRRConfigurationSpec := mkSpec {
  Spec_BGP : BGPConfig;
  Spec_Raw : RawConfig;
  Spec_NodeSelector : LabelSelector }.

Record FRRConfiguration := mkFRRConfiguration {
  Cfg_Name : string;
  Cfg_Namespace : string;
  Cfg_Annotations : gmap string string;
  Cfg_Spec : FRRConfigurationSpec }.

(** [corev1.Secret]: [Data] holds byte slices. *)
Record Secret := mkSecret {
  Secret_Name : string;
  Secret_Namespace : string;
  Secret_Type : string;
  Secret_Data : gmap string string }.

(** [corev1.SecretTypeBasicAuth]. *)
Definition SecretTypeBasicAuth : string := "kubernetes.io/basic-auth".

(** ** Decidable equality *)

#[global] Instance SecretReference_eq_dec : EqDecision SecretReference.
Proof. solve_decision. Defined.
#[global] Instance NextHop_eq_dec : EqDecision NextHop.
Proof. solve_decision. Defined.
#[global] Instance VNIProperties_eq_dec : EqDecision VNIProperties.
Proof. solve_decision. Defined.
#[global] Instance L2VNI_eq_dec : EqDecision L2VNI.
Proof. solve_decision. Defined.
#[global] Instance L3VNI_eq_dec : EqDecision L3VNI.
Proof. solve_decision. Defined.
#[global] Instance EVPNConfig_eq_dec : EqDecision EVPNConfig.
Proof. solve_decision. Defined.

(** ** Zero values

    The Go zero values of the composite types, used to build examples. *)

Definition emptyAdvertise : Advertise :=
  mkAdvertise (mkAllowedOutPrefixes [] "") (mkNextHop "" "") [] [].
Definition emptyReceive : Receive := mkReceive (mkAllowedInPrefixes [] "").
Definition emptySelector : LabelSelector := mkLabelSelector ∅ [].

Definition zeroNeighbor : Neighbor :=
  mkNeighbor 0 "" "" "" "" None "" (mkSecretReference "" "") None None None
    false "" false emptyAdvertise emptyReceive false false 0 [].
