(* ===== verification/FrrConfig.v ===== *)
(** * The FRR configuration ([internal/frr/config.go], data and methods)

    The structs the converter produces and the template renders, with the
    methods defined on them.  A [*NeighborConfig] is a location of the store
    of [Merge.v]: [RouterConfig] is a record parametric in how neighbors are
    represented, so that [RouterConfig loc] is the Go value (a slice of pointers)
    and [RouterConfig NeighborConfig] is what one sees by following the pointers. *)

From Stdlib Require Import Ascii Lia.
From S2P Require Import Prelude GoStrings GoNet IPFamily Community.

Record FrrBFDProfile := mkFrrBFDProfile {
  FBFD_Name : string;
  FBFD_ReceiveInterval : option N;
  FBFD_TransmitInterval : option N;
  FBFD_DetectMultiplier : option N;
  FBFD_EchoInterval : option N;
  FBFD_EchoMode : bool;
  FBFD_PassiveMode : bool;
  FBFD_MinimumTTL : option N }.

Record IncomingFilter := mkIncomingFilter {
  IF_IPFamily : Family;
  IF_Prefix : string;
  IF_LE : N;
  IF_GE : N }.

Record AllowedIn := mkAllowedIn {
  AI_All : bool;
  AI_PrefixesV4 : list IncomingFilter;
  AI_PrefixesV6 : list IncomingFilter }.

Record PrefixList := mkPrefixList {
  PL_Name : string;
  PL_IPFamily : string;
  PL_Prefixes : gset string }.

Record CommunityPrefixList := mkCommunityPrefixList {
  CPL_PrefixList : PrefixList;
  CPL_Community : BGPCommunity }.

Record LocalPrefPrefixList := mkLocalPrefPrefixList {
  LPL_PrefixList : PrefixList;
  LPL_LocalPref : N }.

Record AllowedOut := mkAllowedOut {
  AO_PrefixesV4 : list string;
  AO_PrefixesV6 : list string;
  AO_NextHopV4 : string;
  AO_NextHopV6 : string;
  AO_LocalPrefPrefixesModifiers : list LocalPrefPrefixList;
  AO_CommunityPrefixesModifiers : list CommunityPrefixList }.

Record NeighborConfig := mkNeighborConfig {
  NC_IPFamily : Family;
  NC_Name : string;
  NC_ASN : string;
  NC_SrcAddr : string;
  NC_Addr : string;
  NC_Iface : string;
  NC_Port : option N;
  NC_HoldTime : option Z;
  NC_KeepaliveTime : option Z;
  NC_ConnectTime : option Z;
  NC_Password : string;
  NC_BFDProfile : string;
  NC_GracefulRestart : bool;
  NC_EBGPMultiHop : bool;
  NC_LocalASN : N;
  NC_VRFName : string;
  NC_Incoming : AllowedIn;
  NC_Outgoing : AllowedOut;
  NC_AlwaysBlock : list IncomingFilter;
  NC_AddressFamilies : list string }.

Record FrrVNIProperties := mkFrrVNIProperties {
  FVP_RD : string;
  FVP_ImportRTs : list string;
  FVP_ExportRTs : list string }.

Record FrrL2VNI := mkFrrL2VNI { FL2_VNI : N; FL2_Properties : FrrVNIProperties }.

Record FrrL3VNI := mkFrrL3VNI {
  FL3_VNI : N;
  FL3_Properties : FrrVNIProperties;
  FL3_AdvertisePrefixes : list string }.

Record FrrEVPNConfig := mkFrrEVPNConfig {
  FE_AdvertiseVNIs : option string;
  FE_AdvertiseSVI : bool;
  FE_L2VNIs : list FrrL2VNI;
  FE_L3VNI : option FrrL3VNI }.

Record RouterConfig (N' : Type) := mkRouterConfig {
  RC_MyASN : N;
  RC_RouterID : string;
  RC_Neighbors : list N';
  RC_VRF : string;
  RC_IPV4Prefixes : list string;
  RC_IPV6Prefixes : list string;
  RC_ImportVRFs : list string;
  RC_EVPN : option FrrEVPNConfig }.
Arguments mkRouterConfig {N'}.
Arguments RC_MyASN {N'}.
Arguments RC_RouterID {N'}.
Arguments RC_Neighbors {N'}.
Arguments RC_VRF {N'}.
Arguments RC_IPV4Prefixes {N'}.
Arguments RC_IPV6Prefixes {N'}.
Arguments RC_ImportVRFs {N'}.
Arguments RC_EVPN {N'}.

Record Config (N' : Type) := mkConfig {
  Config_Loglevel : string;
  Config_Hostname : string;
  Config_Routers : list (RouterConfig N');
  Config_BFDProfiles : list FrrBFDProfile;
  Config_ExtraConfig : string }.
Arguments mkConfig {N'}.
Arguments Config_Loglevel {N'}.
Arguments Config_Hostname {N'}.
Arguments Config_Routers {N'}.
Arguments Config_BFDProfiles {N'}.
Arguments Config_ExtraConfig {N'}.

#[global] Instance FrrBFDProfile_eq_dec : EqDecision FrrBFDProfile.
Proof. solve_decision. Defined.
#[global] Instance IncomingFilter_eq_dec : EqDecision IncomingFilter.
Proof. solve_decision. Defined.
#[global] Instance AllowedIn_eq_dec : EqDecision AllowedIn.
Proof. solve_decision. Defined.
#[global] Instance PrefixList_eq_dec : EqDecision PrefixList.
Proof. solve_decision. Defined.
#[global] Instance CommunityPrefixList_eq_dec : EqDecision CommunityPrefixList.
Proof. solve_decision. Defined.
#[global] Instance LocalPrefPrefixList_eq_dec : EqDecision LocalPrefPrefixList.
Proof. solve_decision. Defined.
#[global] Instance AllowedOut_eq_dec : EqDecision AllowedOut.
Proof. solve_decision. Defined.
#[global] Instance NeighborConfig_eq_dec : EqDecision NeighborConfig.
Proof. solve_decision. Defined.
#[global] Instance FrrVNIProperties_eq_dec : EqDecision FrrVNIProperties.
Proof. solve_decision. Defined.
#[global] Instance FrrL2VNI_eq_dec : EqDecision FrrL2VNI.
Proof. solve_decision. Defined.
#[global] Instance FrrL3VNI_eq_dec : EqDecision FrrL3VNI.
Proof. solve_decision. Defined.
#[global] Instance FrrEVPNConfig_eq_dec : EqDecision FrrEVPNConfig.
Proof. solve_decision. Defined.
#[global] Instance RouterConfig_eq_dec `{EqDecision A} : EqDecision (RouterConfig A).
Proof. solve_decision. Defined.
#[global] Instance Config_eq_dec `{EqDecision A} : EqDecision (Config A).
Proof. solve_decision. Defined.

(** ** Methods *)

Definition ID (n : NeighborConfig) : string :=
  let id := if bool_decide (NC_Iface n = "") then NC_Addr n else NC_Iface n in
  let vrf := if bool_decide (NC_VRFName n = "") then "" else "-" +:+ NC_VRFName n in
  id +:+ vrf.

Definition ToAdvertisePrefixListV4 (n : NeighborConfig) : string :=
  ID n +:+ "-allowed-" +:+ "ipv4".
Definition ToAdvertisePrefixListV6 (n : NeighborConfig) : string :=
  ID n +:+ "-allowed-" +:+ "ipv6".

Definition AllPrefixes (a : AllowedIn) : list IncomingFilter :=
  AI_PrefixesV4 a ++ AI_PrefixesV6 a.

(** [PropertyPrefixList]: the interface both kinds of modifier implement. *)
Record PropertyPrefixList := mkPropertyPrefixList {
  SetStatement : string;
  PrefixListName : string;
  PPL_IPFamily : string;
  SortedPrefixes : list string }.

Definition CommunityPrefixList_SetStatement (pl : CommunityPrefixList) : string :=
  if IsLarge (CPL_Community pl)
  then "set large-community " +:+ Community_String (CPL_Community pl) +:+ " additive"
  else "set community " +:+ Community_String (CPL_Community pl) +:+ " additive".

Definition LocalPrefPrefixList_SetStatement (pl : LocalPrefPrefixList) : string :=
  "set local-preference " +:+ pretty (LPL_LocalPref pl).

Definition PrefixList_SortedPrefixes (pl : PrefixList) : list string :=
  sets_List (PL_Prefixes pl).

Definition localPref_property (pl : LocalPrefPrefixList) : PropertyPrefixList :=
  mkPropertyPrefixList (LocalPrefPrefixList_SetStatement pl)
    (PL_Name (LPL_PrefixList pl)) (PL_IPFamily (LPL_PrefixList pl))
    (PrefixList_SortedPrefixes (LPL_PrefixList pl)).

Definition community_property (pl : CommunityPrefixList) : PropertyPrefixList :=
  mkPropertyPrefixList (CommunityPrefixList_SetStatement pl)
    (PL_Name (CPL_PrefixList pl)) (PL_IPFamily (CPL_PrefixList pl))
    (PrefixList_SortedPrefixes (CPL_PrefixList pl)).

Definition PrefixLists (a : AllowedOut) : list PropertyPrefixList :=
  sort_Slice (λ x y, string_lt (PrefixListName x) (PrefixListName y))
    ((localPref_property <$> AO_LocalPrefPrefixesModifiers a) ++
     (community_property <$> AO_CommunityPrefixesModifiers a)).

Definition LessThan (i i1 : IncomingFilter) : bool :=
  if negb (bool_decide (IF_IPFamily i = IF_IPFamily i1))
  then string_lt (Family_String (IF_IPFamily i)) (Family_String (IF_IPFamily i1))
  else if negb (bool_decide (IF_Prefix i = IF_Prefix i1))
  then string_lt (IF_Prefix i) (IF_Prefix i1)
  else if negb (IF_LE i =? IF_LE i1)%N then (IF_LE i <? IF_LE i1)%N
  else (IF_GE i <? IF_GE i1)%N.

Definition Matcher (i : IncomingFilter) : string :=
  (if negb (IF_LE i =? 0)%N then " le " +:+ pretty (IF_LE i) else "") +:+
  (if negb (IF_GE i =? 0)%N then " ge " +:+ pretty (IF_GE i) else "").

(** ** Lemmas *)

(** [LessThan] is the lexicographic order of the four fields. *)
Definition filter_key (i : IncomingFilter) : string * (string * (N * N)) :=
  (Family_String (IF_IPFamily i), (IF_Prefix i, (IF_LE i, IF_GE i))).

#[global] Instance filter_key_inj : Inj (=) (=) filter_key.
Proof. intros [f p l g] [f' p' l' g'] [= Hf -> -> ->]. by apply (inj _) in Hf as ->. Qed.

Definition filter_lt : (string * (string * (N * N))) → (string * (string * (N * N))) → bool :=
  lex_lt string_lt (lex_lt string_lt (lex_lt N.ltb N.ltb)).

Lemma LessThan_key i j : LessThan i j = filter_lt (filter_key i) (filter_key j).
Proof.
  unfold LessThan, filter_lt, lex_lt; simpl.
  assert (bool_decide (IF_IPFamily i = IF_IPFamily j) =
          bool_decide (Family_String (IF_IPFamily i) = Family_String (IF_IPFamily j))) as ->.
  { apply bool_decide_ext. split; [by intros ->|by intros ?%(inj _)]. }
  repeat (case_bool_decide; simpl; [|done]).
  destruct (N.eqb_spec (IF_LE i) (IF_LE j)); case_bool_decide; simpl; try done; lia.
Qed.

#[global] Instance LessThan_total : StrictTotal LessThan.
Proof.
  assert (StrictTotal filter_lt) by apply _. split.
  - intros x. rewrite LessThan_key. apply st_irrefl.
  - intros x y z. rewrite !LessThan_key. apply st_trans.
  - intros x y. rewrite !LessThan_key. intros. by apply (inj filter_key), st_total.
Qed.
