(* ===== verification/Errors.v ===== *)
(** * The errors of package [controller]

    One constructor per [fmt.Errorf] of [internal/controller/api_to_config.go]
    and [internal/controller/merge.go], carrying the values the message is
    formatted from; a [%w] is a nested error.  Two errors are equal exactly
    when they come from the same statement with the same arguments. *)

From S2P Require Import Prelude GoStrings IPFamily Community.

Inductive error :=
  (* apiToFRR, routerToFRRConfig *)
  | EDuplicateBFDProfile (profile config : string)
  | EDifferentBFDProfile (profile config : string)
  | ELocalASNOnIBGP (neighbor : string) (asn : N)
  | EProcessNeighbor (neighbor : string) (asn : N) (vrf : string) (err : error)
  (* neighborToFRR *)
  | ENoAddressNoInterface (asn : string)
  | EAddressAndInterface (neighbor : string)
  | ENoSuchBFDProfile (neighbor profile : string)
  | ENoASN (neighbor : string)
  | EASNAndDynamicASN (neighbor : string)
  | EInvalidDynamicASN (neighbor dynamicASN : string)
  | ENeighborFamily (neighbor : string) (err : error)
  | EAddressFamily (address : string) (err : famError)
  | EInvalidTimers (neighbor : string) (err : error)
  (* passwordForNeighbor *)
  | EPasswordAndSecret (neighbor : string)
  | TransientError (secret neighbor : string)
  | ESecretType (namespace secret : string)
  | ESecretWithoutPassword (namespace secret : string)
  (* toAdvertiseToFRR, nextHopToFRR *)
  | EProcessLocalPref (neighbor : string) (err : error)
  | EInvalidNextHopV4 (nextHop neighbor : string)
  | ENextHopV4WithoutFamily (nextHop neighbor : string)
  | EInvalidNextHopV6 (nextHop neighbor : string)
  | ENextHopV6WithoutFamily (nextHop neighbor : string)
  (* prefixesWithLocalPrefToFRR, prefixesWithCommunityToFRR *)
  | ELocalPrefDefined (localPref : N)
  | ELocalPrefUnknownPrefix (localPref : N) (prefix : string)
  | ELocalPrefDuplicatePrefix (prefix : string) (localPref : N)
  | EInvalidCommunity (community : string) (err : communityError)
  | ECommunityDefined (community : string)
  | ECommunityUnknownPrefix (prefix : string) (community : BGPCommunity)
  | ECommunityDuplicatePrefix (prefix : string) (community : BGPCommunity)
  (* filterForSelector, validateSelectorLengths *)
  | EParsePrefix (prefix : string)
  | EMaskLen (prefix : string) (err : error)
  | EConvertNegative (value : Z)
  | EConvertOverflow (value : Z)
  | EGeAboveLe (ge le : N)
  | EMaskAboveLe (mask le : N)
  | EMaskAboveGe (mask ge : N)
  (* validateImportVRFs, validateOutgoingPrefixes, importedPrefixes *)
  | EImportNotDefined (asn : N) (vrf imported : string)
  | EInvalidLocalPrefPrefixes (prefixes : list string) (localPref : N) (neighbor : string) (err : error)
  | EMultipleLocalPrefs (prefixes : list string) (existing localPref : N)
  | EInvalidCommunityPrefixes (prefixes : list string) (community neighbor : string) (err : error)
  | EInvalidAllowedPrefixes (prefixes : list string) (neighbor : string) (err : error)
  | EPrefixNotConfigured (prefix neighbor vrf : string)
  | EUnknownFamily (prefix : string)
  | EPrefixFamilyMismatch (prefix : string) (family : Family)
  | EVRFNotFound (vrf : string)
  (* parseTimers *)
  | EOneTimerOnly
  | EInvalidHoldTime (holdTime : Z)
  | EKeepaliveAboveHold (keepaliveTime holdTime : Z)
  (* validateEVPN *)
  | EInvalidEVPN (vrf : string) (err : error)
  | EEVPNWithoutNeighbor
  | EL3VNIWithNeighbors
  | EDuplicateVNI (vni : N) (type1 vrf1 type2 vrf2 : string)
  (* mergeRouterConfigs, routersAreCompatible *)
  | EDifferentVRFs (vrf1 vrf2 : string)
  | EDifferentASNs (asn1 asn2 : N) (vrf : string)
  | EDifferentRouterIDs (id1 id2 vrf : string)
  | EMergeEVPN (vrf : string) (err : error)
  (* neighborsAreCompatible *)
  | EDifferentIDs (id1 id2 : string)
  | EMultipleASNs (neighbor : string)
  | EMultiplePorts (neighbor : string)
  | EMultipleSourceAddresses (neighbor : string)
  | EMultiplePasswords (neighbor : string)
  | EMultipleBFDProfiles (neighbor : string)
  | EConflictingMultiHop (neighbor : string)
  | EConflictingDualStack (neighbor : string)
  | EMultipleHoldTimes (neighbor : string)
  | EMultipleKeepaliveTimes (neighbor : string)
  | EMultipleConnectTimes (neighbor : string)
  | EMultipleLocalASNs (neighbor : string)
  (* mergeIntoNeighbor, mergeAllowedOut, mergeNextHop *)
  | EMergeOutgoing (addr vrf : string) (err : error)
  | ENextHopV4 (err : error)
  | ENextHopV6 (err : error)
  | EMultipleNextHops (nextHop1 nextHop2 : string)
  | EConflictingLocalPref (existing localPref : N) (prefix : string)
  (* mergeEVPNConfigs and below *)
  | EDifferentAdvertiseVNIs (a b : string)
  | EDifferentAdvertiseSVI (a b : bool)
  | EMergeL2VNI (vni : N) (err : error)
  | EDifferentL3VNIs (a b : N)
  | EDifferentRDs (a b : string)
  | EMixedImportRTs
  | EMixedExportRTs
  (* a nil pointer dereference: Go panics *)
  | EPanic.

Notation res := (result error).
