(* ===== verification/Merge.v ===== *)
(** * Merging configurations ([internal/controller/merge.go])

    [mergeRouterConfigs] and everything below it.  The source merges
    [*frr.NeighborConfig] values in place, and [validateRouterConfig] even merges
    a router with itself, so that the destination and the source are the same
    object.  The store of neighbors is therefore explicit: a [heap] maps
    locations to [NeighborConfig]s, and the functions that take or return
    pointers run in the state-and-error monad [M].  The structs that are
    copied ([AllowedOut], [AllowedIn], prefix lists) or never mutated after they are built
    ([EVPNConfig]) are plain values, as is [RouterConfig]: [mergeRouterConfigs]
    reads every field of both arguments before it writes [r]. *)

From Stdlib Require Import Lia.
From S2P Require Import Prelude GoStrings GoNet IPFamily Community Api FrrConfig Errors.

(** ** The store of neighbors *)

Notation loc := positive (only parsing).
Notation heap := (gmap positive NeighborConfig).

(** A computation that reads and writes the store and may fail. *)
Definition M (A : Type) := heap → res (A * heap).
#[global] Instance M_ret : MRet M := λ A a h, Ok (a, h).
#[global] Instance M_bind : MBind M := λ A B f m h,
  match m h with Ok (a, h') => f a h' | Err e => Err e end.
Definition lift {A} (m : res A) : M A := λ h,
  match m with Ok a => Ok (a, h) | Err e => Err e end.
(** [*p]: dereferencing an invalid pointer panics. *)
Definition load (p : loc) : M NeighborConfig := λ h,
  match h !! p with Some n => Ok (n, h) | None => Err EPanic end.
(** [*p = n]. *)
Definition store (p : loc) (n : NeighborConfig) : M unit := λ h, Ok ((), <[p := n]> h).
(** [&frr.NeighborConfig{...}]: a fresh object. *)
Definition alloc (n : NeighborConfig) : M loc := λ h,
  let p := fresh (dom h) in Ok (p, <[p := n]> h).

Fixpoint foldMH {A S} (f : S → A → M S) (s : S) (l : list A) : M S :=
  match l with
  | [] => mret s
  | x :: l => s' ← f s x; foldMH f s' l
  end.

(** ** Sorted maps ([sortMap] and [sortMapPtr] of [api_to_config.go]) *)

Definition sortMap {V} `{Countable K, !Ordered K} (toSort : gmap K V) : list V :=
  omap (λ k, toSort !! k) (sortedKeys toSort).

(** [for _, v := range l { m[key(v)] = v }] on an empty map. *)
Definition index_by {V} `{Countable K} (key : V → K) (l : list V) : gmap K V :=
  foldl (λ m v, <[key v := v]> m) ∅ l.

(** ** Keys of prefix lists ([api_to_config.go]) *)

Definition localPrefPrefixListKey (localPref : N) (frrAddressFamily : string) : string :=
  pretty localPref +:+ "-" +:+ frrAddressFamily.

Definition communityPrefixListKey (comm : BGPCommunity) (frrAddressFamily : string) : string :=
  Community_String comm +:+ "-" +:+ frrAddressFamily.

(** ** Pointers with a default *)

Definition defaultBGPPort : N := 179.
Definition defaultHoldTime : Z := 180.
Definition defaultKeepaliveTime : Z := 60.
Definition defaultConnectTime : Z := 60.

Definition ptrsEqual {T} `{EqDecision T} (p1 p2 : option T) (def : T) : bool :=
  match p1, p2 with
  | None, None => true
  | None, Some v2 => bool_decide (v2 = def)
  | Some v1, None => bool_decide (v1 = def)
  | Some v1, Some v2 => bool_decide (v1 = v2)
  end.

Definition unset_default {T} `{EqDecision T} (p : option T) (def : T) : option T :=
  match p with
  | Some v => if bool_decide (v = def) then None else Some v
  | None => None
  end.

Definition cleanNeighborDefaults (n : NeighborConfig) : NeighborConfig :=
  mkNeighborConfig (NC_IPFamily n) (NC_Name n) (NC_ASN n) (NC_SrcAddr n) (NC_Addr n)
    (NC_Iface n)
    (unset_default (NC_Port n) defaultBGPPort)
    (unset_default (NC_HoldTime n) defaultHoldTime)
    (unset_default (NC_KeepaliveTime n) defaultKeepaliveTime)
    (unset_default (NC_ConnectTime n) defaultConnectTime)
    (NC_Password n) (NC_BFDProfile n) (NC_GracefulRestart n) (NC_EBGPMultiHop n)
    (NC_LocalASN n) (NC_VRFName n) (NC_Incoming n) (NC_Outgoing n) (NC_AlwaysBlock n)
    (NC_AddressFamilies n).

(** ** Outgoing prefixes *)

Definition mergeNextHop (curr toMerge : string) : res string :=
  if bool_decide (curr = "") then Ok toMerge
  else if bool_decide (toMerge = "") || bool_decide (curr = toMerge) then Ok curr
  else Err (EMultipleNextHops curr toMerge).

(** [mergeLocalPrefPrefixLists] and [mergeCommunityPrefixLists] are the same
    loops over two types: index both lists by key, joining the prefix sets of
    entries with the same key, and return the values in key order. *)
Definition add_list {PL} (key : PL → string) (join : PL → PL → PL)
    (allMap : gmap string PL) (pl : PL) : gmap string PL :=
  match allMap !! key pl with
  | None => <[key pl := pl]> allMap
  | Some addTo => <[key pl := join addTo pl]> allMap
  end.

Definition mergePrefixLists {PL} (key : PL → string) (join : PL → PL → PL)
    (curr toMerge : list PL) : list PL :=
  sortMap (foldl (add_list key join) (index_by key curr) toMerge).

Definition union_prefixes (a b : PrefixList) : PrefixList :=
  mkPrefixList (PL_Name a) (PL_IPFamily a) (PL_Prefixes a ∪ PL_Prefixes b).

Definition localPref_key (pl : LocalPrefPrefixList) : string :=
  localPrefPrefixListKey (LPL_LocalPref pl) (PL_IPFamily (LPL_PrefixList pl)).
Definition localPref_join (a b : LocalPrefPrefixList) : LocalPrefPrefixList :=
  mkLocalPrefPrefixList (union_prefixes (LPL_PrefixList a) (LPL_PrefixList b)) (LPL_LocalPref a).
Definition mergeLocalPrefPrefixLists (curr toMerge : list LocalPrefPrefixList)
    : list LocalPrefPrefixList :=
  mergePrefixLists localPref_key localPref_join curr toMerge.

Definition community_key (pl : CommunityPrefixList) : string :=
  communityPrefixListKey (CPL_Community pl) (PL_IPFamily (CPL_PrefixList pl)).
Definition community_join (a b : CommunityPrefixList) : CommunityPrefixList :=
  mkCommunityPrefixList (union_prefixes (CPL_PrefixList a) (CPL_PrefixList b)) (CPL_Community a).
Definition mergeCommunityPrefixLists (curr toMerge : list CommunityPrefixList)
    : list CommunityPrefixList :=
  mergePrefixLists community_key community_join curr toMerge.

(** The map [localPrefForPrefix] built from [r], then checked against [toMerge]. *)
Definition localPrefForPrefix (ls : list LocalPrefPrefixList) : gmap string N :=
  foldl (λ m p, foldl (λ m prefix, <[prefix := LPL_LocalPref p]> m) m
                  (elements (PL_Prefixes (LPL_PrefixList p)))) ∅ ls.

Definition checkLocalPrefs (known : gmap string N) (ls : list LocalPrefPrefixList) : res unit :=
  each (λ p, each (λ prefix,
      match known !! prefix with
      | Some existing =>
          fail_if (negb (existing =? LPL_LocalPref p)%N)
            (EConflictingLocalPref existing (LPL_LocalPref p) prefix)
      | None => Ok ()
      end) (elements (PL_Prefixes (LPL_PrefixList p)))) ls.

Definition mergeAllowedOut (r toMerge : AllowedOut) : res AllowedOut :=
  let prefixesV4 := sets_New (AO_PrefixesV4 r) ∪ sets_New (AO_PrefixesV4 toMerge) in
  let prefixesV6 := sets_New (AO_PrefixesV6 r) ∪ sets_New (AO_PrefixesV6 toMerge) in
  nextHopV4 ← wrap ENextHopV4 (mergeNextHop (AO_NextHopV4 r) (AO_NextHopV4 toMerge));
  nextHopV6 ← wrap ENextHopV6 (mergeNextHop (AO_NextHopV6 r) (AO_NextHopV6 toMerge));
  _ ← checkLocalPrefs (localPrefForPrefix (AO_LocalPrefPrefixesModifiers r))
        (AO_LocalPrefPrefixesModifiers toMerge);
  Ok (mkAllowedOut (sets_List prefixesV4) (sets_List prefixesV6) nextHopV4 nextHopV6
       (mergeLocalPrefPrefixLists (AO_LocalPrefPrefixesModifiers r)
          (AO_LocalPrefPrefixesModifiers toMerge))
       (mergeCommunityPrefixLists (AO_CommunityPrefixesModifiers r)
          (AO_CommunityPrefixesModifiers toMerge))).

(** ** Incoming prefixes *)

(** [fmt.Sprintf("%s%d%d", f.Prefix, f.LE, f.GE)]. *)
Definition incomingFilterKey (f : IncomingFilter) : string :=
  IF_Prefix f +:+ pretty (IF_LE f) +:+ pretty (IF_GE f).

Definition mergeIncomingFilters (curr toMerge : list IncomingFilter) : list IncomingFilter :=
  sortMap (index_by incomingFilterKey (curr ++ toMerge)).

Definition mergeAllowedIn (r toMerge : AllowedIn) : AllowedIn :=
  if AI_All r || AI_All toMerge then mkAllowedIn true [] []
  else mkAllowedIn false
         (mergeIncomingFilters (AI_PrefixesV4 r) (AI_PrefixesV4 toMerge))
         (mergeIncomingFilters (AI_PrefixesV6 r) (AI_PrefixesV6 toMerge)).

(** ** Compatibility *)

Definition routersAreCompatible {A} (r toMerge : RouterConfig A) : res unit :=
  _ ← fail_if (negb (bool_decide (RC_VRF r = RC_VRF toMerge)))
        (EDifferentVRFs (RC_VRF r) (RC_VRF toMerge));
  _ ← fail_if (negb (RC_MyASN r =? RC_MyASN toMerge)%N)
        (EDifferentASNs (RC_MyASN r) (RC_MyASN toMerge) (RC_VRF r));
  let bothRouterIDsNonEmpty :=
    negb (bool_decide (RC_RouterID r = "")) && negb (bool_decide (RC_RouterID toMerge = "")) in
  let routerIDsDifferent := negb (bool_decide (RC_RouterID r = RC_RouterID toMerge)) in
  fail_if (bothRouterIDsNonEmpty && routerIDsDifferent)
    (EDifferentRouterIDs (RC_RouterID r) (RC_RouterID toMerge) (RC_VRF r)).

Definition neighborsAreCompatible (n1 n2 : NeighborConfig) : res unit :=
  let neighborKey := ID n1 in
  _ ← fail_if (negb (bool_decide (ID n1 = ID n2))) (EDifferentIDs (ID n1) (ID n2));
  _ ← fail_if (negb (bool_decide (NC_ASN n1 = NC_ASN n2))) (EMultipleASNs neighborKey);
  _ ← fail_if (negb (ptrsEqual (NC_Port n1) (NC_Port n2) defaultBGPPort))
        (EMultiplePorts neighborKey);
  _ ← fail_if (negb (bool_decide (NC_SrcAddr n1 = NC_SrcAddr n2)))
        (EMultipleSourceAddresses neighborKey);
  _ ← fail_if (negb (bool_decide (NC_Password n1 = NC_Password n2)))
        (EMultiplePasswords neighborKey);
  _ ← fail_if (negb (bool_decide (NC_BFDProfile n1 = "")) &&
               negb (bool_decide (NC_BFDProfile n2 = "")) &&
               negb (bool_decide (NC_BFDProfile n1 = NC_BFDProfile n2)))
        (EMultipleBFDProfiles neighborKey);
  _ ← fail_if (negb (bool_decide (NC_EBGPMultiHop n1 = NC_EBGPMultiHop n2)))
        (EConflictingMultiHop neighborKey);
  _ ← fail_if (negb (bool_decide (NC_IPFamily n1 = NC_IPFamily n2)))
        (EConflictingDualStack neighborKey);
  _ ← fail_if (negb (ptrsEqual (NC_HoldTime n1) (NC_HoldTime n2) defaultHoldTime))
        (EMultipleHoldTimes neighborKey);
  _ ← fail_if (negb (ptrsEqual (NC_KeepaliveTime n1) (NC_KeepaliveTime n2) defaultKeepaliveTime))
        (EMultipleKeepaliveTimes neighborKey);
  _ ← fail_if (negb (ptrsEqual (NC_ConnectTime n1) (NC_ConnectTime n2) defaultConnectTime))
        (EMultipleConnectTimes neighborKey);
  fail_if (negb (NC_LocalASN n1 =? NC_LocalASN n2)%N) (EMultipleLocalASNs neighborKey).

(** ** Neighbors *)

(** The new value of [*dest].  Every field of [*src] is read before it could
    have been overwritten through [dest], so the function is right also when
    both are the same object. *)
Definition mergeIntoNeighbor (dest src : NeighborConfig) : res NeighborConfig :=
  _ ← neighborsAreCompatible dest src;
  let bfdProfile := if bool_decide (NC_BFDProfile dest = "")
                    then NC_BFDProfile src else NC_BFDProfile dest in
  outgoing ← wrap (EMergeOutgoing (NC_Addr src) (NC_VRFName src))
               (mergeAllowedOut (NC_Outgoing dest) (NC_Outgoing src));
  let incoming := mergeAllowedIn (NC_Incoming dest) (NC_Incoming src) in
  let addressFamilies :=
    sets_List (sets_New (NC_AddressFamilies dest ++ NC_AddressFamilies src)) in
  Ok (cleanNeighborDefaults
        (mkNeighborConfig (NC_IPFamily dest) (NC_Name dest) (NC_ASN dest) (NC_SrcAddr dest)
           (NC_Addr dest) (NC_Iface dest) (NC_Port dest) (NC_HoldTime dest)
           (NC_KeepaliveTime dest) (NC_ConnectTime dest) (NC_Password dest) bfdProfile
           (NC_GracefulRestart dest) (NC_EBGPMultiHop dest) (NC_LocalASN dest)
           (NC_VRFName dest) incoming outgoing (NC_AlwaysBlock dest) addressFamilies)).

(** One iteration of the loop of [mergeNeighborsLists], on pointers. *)
Definition mergeNeighborsStep (mergedNeighbors : gmap string loc) (p : loc)
    : M (gmap string loc) :=
  n ← load p;
  match mergedNeighbors !! ID n with
  | None => mret (<[ID n := p]> mergedNeighbors)
  | Some d =>
      dest ← load d;
      dest' ← lift (mergeIntoNeighbor dest n);
      _ ← store d dest';
      mret mergedNeighbors
  end.

Definition mergeNeighborsLists (first toMerge : list loc) : M (list loc) :=
  let all := first ++ toMerge in
  if (length all =? 0)%nat then mret []
  else mergedNeighbors ← foldMH mergeNeighborsStep ∅ all;
       mret (sortMap mergedNeighbors).

(** ** EVPN *)

Definition mergeRTs (a b : list string) : list string :=
  if (length a =? 0)%nat && (length b =? 0)%nat then []
  else if (length a =? 0)%nat then b
  else if (length b =? 0)%nat then a
  else sets_List (sets_New (a ++ b)).

Definition mergeVNIProperties (a b : FrrVNIProperties) : res FrrVNIProperties :=
  _ ← fail_if (negb (bool_decide (FVP_RD a = "")) && negb (bool_decide (FVP_RD b = ""))
               && negb (bool_decide (FVP_RD a = FVP_RD b)))
        (EDifferentRDs (FVP_RD a) (FVP_RD b));
  _ ← fail_if (xorb (length (FVP_ImportRTs a) =? 0)%nat (length (FVP_ImportRTs b) =? 0)%nat)
        EMixedImportRTs;
  _ ← fail_if (xorb (length (FVP_ExportRTs a) =? 0)%nat (length (FVP_ExportRTs b) =? 0)%nat)
        EMixedExportRTs;
  let rd := if bool_decide (FVP_RD a = "") then FVP_RD b else FVP_RD a in
  Ok (mkFrrVNIProperties rd (mergeRTs (FVP_ImportRTs a) (FVP_ImportRTs b))
        (mergeRTs (FVP_ExportRTs a) (FVP_ExportRTs b))).

Definition mergeL2VNIStep (byVNI : gmap N FrrL2VNI) (v : FrrL2VNI) : res (gmap N FrrL2VNI) :=
  match byVNI !! FL2_VNI v with
  | None => Ok (<[FL2_VNI v := v]> byVNI)
  | Some existing =>
      merged ← wrap (EMergeL2VNI (FL2_VNI existing))
                 (mergeVNIProperties (FL2_Properties existing) (FL2_Properties v));
      Ok (<[FL2_VNI v := mkFrrL2VNI (FL2_VNI existing) merged]> byVNI)
  end.

Definition mergeL2VNIs (a b : list FrrL2VNI) : res (list FrrL2VNI) :=
  if (length a =? 0)%nat && (length b =? 0)%nat then Ok []
  else if (length a =? 0)%nat then Ok b
  else if (length b =? 0)%nat then Ok a
  else
    byVNI ← foldM mergeL2VNIStep (index_by FL2_VNI a) b;
    Ok (sortMap byVNI).

Definition mergeL3VNIs (a b : option FrrL3VNI) : res (option FrrL3VNI) :=
  match a, b with
  | None, _ => Ok b
  | _, None => Ok a
  | Some a, Some b =>
      _ ← fail_if (negb (FL3_VNI a =? FL3_VNI b)%N) (EDifferentL3VNIs (FL3_VNI a) (FL3_VNI b));
      merged ← mergeVNIProperties (FL3_Properties a) (FL3_Properties b);
      Ok (Some (mkFrrL3VNI (FL3_VNI a) merged
            (sets_List (sets_New (FL3_AdvertisePrefixes a ++ FL3_AdvertisePrefixes b)))))
  end.

Definition mergeEVPNConfigs (a b : option FrrEVPNConfig) : res (option FrrEVPNConfig) :=
  match a, b with
  | None, None => Ok None
  | None, Some _ => Ok b
  | Some _, None => Ok a
  | Some a, Some b =>
      _ ← fail_if (negb (ptrsEqual (FE_AdvertiseVNIs a) (FE_AdvertiseVNIs b)
                           VNIAdvertisementDisabled))
            (EDifferentAdvertiseVNIs (default VNIAdvertisementDisabled (FE_AdvertiseVNIs a))
                                     (default VNIAdvertisementDisabled (FE_AdvertiseVNIs b)));
      _ ← fail_if (negb (bool_decide (FE_AdvertiseSVI a = FE_AdvertiseSVI b)))
            (EDifferentAdvertiseSVI (FE_AdvertiseSVI a) (FE_AdvertiseSVI b));
      mergedL2VNIs ← mergeL2VNIs (FE_L2VNIs a) (FE_L2VNIs b);
      mergedL3VNI ← mergeL3VNIs (FE_L3VNI a) (FE_L3VNI b);
      Ok (Some (mkFrrEVPNConfig
            (match FE_AdvertiseVNIs a with None => FE_AdvertiseVNIs b | v => v end)
            (FE_AdvertiseSVI a) mergedL2VNIs mergedL3VNI))
  end.

(** ** Routers *)

Definition mergeRouterConfigs (r toMerge : RouterConfig loc) : M (RouterConfig loc) :=
  _ ← lift (routersAreCompatible r toMerge);
  let routerID := if bool_decide (RC_RouterID r = "") then RC_RouterID toMerge
                  else RC_RouterID r in
  let v4Prefixes := sets_New (RC_IPV4Prefixes r ++ RC_IPV4Prefixes toMerge) in
  let v6Prefixes := sets_New (RC_IPV6Prefixes r ++ RC_IPV6Prefixes toMerge) in
  let importVRFs := sets_New (RC_ImportVRFs r ++ RC_ImportVRFs toMerge) in
  mergedNeighbors ← mergeNeighborsLists (RC_Neighbors r) (RC_Neighbors toMerge);
  mergedEVPN ← lift (wrap (EMergeEVPN (RC_VRF r)) (mergeEVPNConfigs (RC_EVPN r) (RC_EVPN toMerge)));
  mret (mkRouterConfig (RC_MyASN r) routerID mergedNeighbors (RC_VRF r)
          (sets_List v4Prefixes) (sets_List v6Prefixes) (sets_List importVRFs) mergedEVPN).
