(* ===== verification/ApiToConfig.v ===== *)
(** * From the API to the FRR configuration ([internal/controller/api_to_config.go])

    [apiToFRR] and everything it calls that is not in [Merge.v]: the
    per-neighbor conversion, the validation of prefixes, imports and EVPN, and
    the loop that merges the routers of all the configurations per VRF. *)

From Stdlib Require Import Ascii Lia.
From S2P Require Import Prelude GoStrings GoNet IPFamily Community Api FrrConfig Errors Merge.

Record ClusterResources := mkClusterResources {
  FRRConfigs : list FRRConfiguration;
  PasswordSecrets : gmap string Secret }.

Record namedRawConfig := mkNamedRawConfig {
  NRC_RawConfig : RawConfig;
  NRC_configName : string }.

(** ** Names *)

Definition asnFor (n : Neighbor) : string :=
  if bool_decide (Neighbor_DynamicASN n = "") then pretty (Neighbor_ASN n)
  else Neighbor_DynamicASN n.

Definition neighborName (n : Neighbor) : string :=
  if bool_decide (Neighbor_Address n = "") then asnFor n +:+ "@" +:+ Neighbor_Interface n
  else asnFor n +:+ "@" +:+ Neighbor_Address n.

Definition frrIPFamily (f : Family) : string :=
  if bool_decide (f = IPv6) then "ipv6" else "ip".

Definition localPrefPrefixListName (neighborID : string) (localPreference : N)
    (ipFamily : string) : string :=
  neighborID +:+ "-" +:+ pretty localPreference +:+ "-" +:+ ipFamily +:+ "-localpref-prefixes".

Definition communityPrefixListName (neighborID : string) (comm : BGPCommunity)
    (ipFamily : string) : string :=
  if IsLarge comm
  then neighborID +:+ "-large:" +:+ Community_String comm +:+ "-" +:+ ipFamily +:+ "-community-prefixes"
  else neighborID +:+ "-" +:+ Community_String comm +:+ "-" +:+ ipFamily +:+ "-community-prefixes".

(** ** Timers *)

Definition Second : Z := 1000000000.

(** [parseTimers].  [time.Duration(int(ht.Seconds())) * time.Second] is [ht]
    truncated to whole seconds; the conversion goes through [float64], which
    does not change that truncation below 2^24 s and can move larger values by
    at most one second, far above the 3s the result is compared with. *)
Definition parseTimers (ht ka : option Duration) : res (option Z * option Z) :=
  match ht, ka with
  | None, None => Ok (None, None)
  | Some holdTime, Some keepaliveTime =>
      let rounded := (Z.quot holdTime Second * Second)%Z in
      _ ← fail_if (negb (rounded =? 0)%Z && (rounded <? 3 * Second)%Z)
            (EInvalidHoldTime holdTime);
      _ ← fail_if (holdTime <? keepaliveTime)%Z
            (EKeepaliveAboveHold keepaliveTime holdTime);
      Ok (Some (Z.quot holdTime Second), Some (Z.quot keepaliveTime Second))
  | _, _ => Err EOneTimerOnly
  end.

(** ** Families *)

Definition addressFamilyForNeighbor (n : Neighbor) : res Family :=
  neighborFamily ←
    (if bool_decide (Neighbor_Address n = "") then Ok Unknown
     else match ForAddresses [Neighbor_Address n] with
          | Ok f => Ok f
          | Err e => Err (EAddressFamily (Neighbor_Address n) e)
          end);
  Ok (if negb (bool_decide (Neighbor_Interface n = "")) || Neighbor_DualStackAddressFamily n
      then DualStack else neighborFamily).

Definition neighborHasIPFamily (neighbor : NeighborConfig) (ipFamily : Family) : bool :=
  if bool_decide (NC_IPFamily neighbor = DualStack) then true
  else bool_decide (NC_IPFamily neighbor = ipFamily).

(** ** Passwords *)

Definition passwordForNeighbor (n : Neighbor) (passwordSecrets : gmap string Secret) : res string :=
  let secretName := SecretReference_Name (Neighbor_PasswordSecret n) in
  if negb (bool_decide (Neighbor_Password n = "")) && negb (bool_decide (secretName = ""))
  then Err (EPasswordAndSecret (neighborName n))
  else if negb (bool_decide (Neighbor_Password n = "")) then Ok (Neighbor_Password n)
  else if bool_decide (secretName = "") then Ok ""
  else match passwordSecrets !! secretName with
  | None => Err (TransientError secretName (neighborName n))
  | Some secret =>
      if negb (bool_decide (Secret_Type secret = SecretTypeBasicAuth))
      then Err (ESecretType (Secret_Namespace secret) (Secret_Name secret))
      else match Secret_Data secret !! "password" with
      | None => Err (ESecretWithoutPassword (Secret_Namespace secret) (Secret_Name secret))
      | Some srcPass => Ok srcPass
      end
  end.

(** ** Outgoing prefixes *)

Definition prefixesToAdvertiseForFamily (toAdvertise : Advertise)
    (prefixesInRouter : list string) (ipFamily : Family) : gset string :=
  if bool_decide (AllowedOut_Mode (Advertise_Allowed toAdvertise) = AllowAll)
  then sets_New (FilterPrefixes prefixesInRouter ipFamily)
  else sets_New (filter (λ p, ForCIDRString p = ipFamily)
                   (AllowedOut_Prefixes (Advertise_Allowed toAdvertise))).

Definition nextHopToFRR (neighbor : NeighborConfig) (nextHop : NextHop) : res (string * string) :=
  let v4 := NextHop_IPv4 nextHop in
  let v6 := NextHop_IPv6 nextHop in
  _ ← (if bool_decide (v4 = "") then Ok () else
       _ ← fail_if (match ParseIP v4 with
                    | None => true
                    | Some ip => bool_decide (To4 ip = None)
                    end) (EInvalidNextHopV4 v4 (NC_Name neighbor));
       fail_if (negb (neighborHasIPFamily neighbor IPv4))
         (ENextHopV4WithoutFamily v4 (NC_Name neighbor)));
  _ ← (if bool_decide (v6 = "") then Ok () else
       _ ← fail_if (match ParseIP v6 with
                    | None => true
                    | Some ip => negb (bool_decide (To4 ip = None))
                    end) (EInvalidNextHopV6 v6 (NC_Name neighbor));
       fail_if (negb (neighborHasIPFamily neighbor IPv6))
         (ENextHopV6WithoutFamily v6 (NC_Name neighbor)));
  Ok (v4, v6).

(** The inner loop of the two functions below: add [prefixes] to an empty set,
    refusing unknown and repeated ones. *)
Definition collectPrefixes (unknown duplicate : string → error) (routerPrefixes : gset string)
    (prefixes : list string) : res (gset string) :=
  foldM (λ s prefix,
    _ ← fail_if (negb (bool_decide (prefix ∈ routerPrefixes))) (unknown prefix);
    _ ← fail_if (bool_decide (prefix ∈ s)) (duplicate prefix);
    Ok ({[prefix]} ∪ s)) ∅ prefixes.

Definition prefixesWithLocalPrefToFRR (toAdd : gmap string LocalPrefPrefixList)
    (neighbor : NeighborConfig) (toAdvertise : Advertise) (ipFamily : Family)
    (routerPrefixes : gset string) : res (gmap string LocalPrefPrefixList) :=
  let frrFamily := frrIPFamily ipFamily in
  foldM (λ toAdd prefixes,
    let localPref := LocalPref_LocalPref prefixes in
    let key := localPrefPrefixListKey localPref frrFamily in
    _ ← fail_if (bool_decide (is_Some (toAdd !! key))) (ELocalPrefDefined localPref);
    let ipfamilyPrefixes := FilterPrefixes (LocalPref_Prefixes prefixes) ipFamily in
    if (length ipfamilyPrefixes =? 0)%nat then Ok toAdd else
    s ← collectPrefixes (ELocalPrefUnknownPrefix localPref)
          (λ p, ELocalPrefDuplicatePrefix p localPref) routerPrefixes ipfamilyPrefixes;
    Ok (<[key := mkLocalPrefPrefixList
           (mkPrefixList (localPrefPrefixListName (ID neighbor) localPref frrFamily) frrFamily s)
           localPref]> toAdd))
    toAdd (PrefixesWithLocalPref toAdvertise).

Definition prefixesWithCommunityToFRR (toAdd : gmap string CommunityPrefixList)
    (neighbor : NeighborConfig) (toAdvertise : Advertise) (ipFamily : Family)
    (routerPrefixes : gset string) : res (gmap string CommunityPrefixList) :=
  foldM (λ toAdd prefixes,
    c ← match New (Community_Community prefixes) with
        | Ok c => Ok c
        | Err e => Err (EInvalidCommunity (Community_Community prefixes) e)
        end;
    let frrFamily := frrIPFamily ipFamily in
    let key := communityPrefixListKey c frrFamily in
    _ ← fail_if (bool_decide (is_Some (toAdd !! key)))
          (ECommunityDefined (Community_Community prefixes));
    let ipfamilyPrefixes := FilterPrefixes (Community_Prefixes prefixes) ipFamily in
    if (length ipfamilyPrefixes =? 0)%nat then Ok toAdd else
    s ← collectPrefixes (λ p, ECommunityUnknownPrefix p c)
          (λ p, ECommunityDuplicatePrefix p c) routerPrefixes ipfamilyPrefixes;
    Ok (<[key := mkCommunityPrefixList
           (mkPrefixList (communityPrefixListName (ID neighbor) c frrFamily) frrFamily s)
           c]> toAdd))
    toAdd (PrefixesWithCommunity toAdvertise).

Definition toAdvertiseToFRR (neighbor : NeighborConfig) (toAdvertise : Advertise)
    (prefixesInRouter : list string) : res AllowedOut :=
  let neighborIPFamilies :=
    if bool_decide (NC_IPFamily neighbor = DualStack) then [IPv4; IPv6]
    else [NC_IPFamily neighbor] in
  let prefixesForFamily f :=
    match f with
    | IPv4 | IPv6 => prefixesToAdvertiseForFamily toAdvertise prefixesInRouter f
    | _ => ∅
    end in
  let prefixesV4 := if neighborHasIPFamily neighbor IPv4
                    then sets_List (prefixesForFamily IPv4) else [] in
  let prefixesV6 := if neighborHasIPFamily neighbor IPv6
                    then sets_List (prefixesForFamily IPv6) else [] in
  '(nextHopV4, nextHopV6) ← nextHopToFRR neighbor (Advertise_NextHop toAdvertise);
  '(localPrefs, communities) ← foldM (λ '(localPrefs, communities) ipFamily,
      localPrefs ← wrap (EProcessLocalPref (NC_Name neighbor))
        (prefixesWithLocalPrefToFRR localPrefs neighbor toAdvertise ipFamily
           (prefixesForFamily ipFamily));
      communities ← wrap (EProcessLocalPref (NC_Name neighbor))
        (prefixesWithCommunityToFRR communities neighbor toAdvertise ipFamily
           (prefixesForFamily ipFamily));
      Ok (localPrefs, communities)) (∅, ∅) neighborIPFamilies;
  Ok (mkAllowedOut prefixesV4 prefixesV6 nextHopV4 nextHopV6
        (sortMap localPrefs) (sortMap communities)).

(** ** Incoming prefixes *)

(** [safeconvert.IntToUInt32], on a 64-bit [int]. *)
Definition IntToUInt32 (toConvert : Z) : res N :=
  _ ← fail_if (toConvert <? 0)%Z (EConvertNegative toConvert);
  _ ← fail_if (2 ^ 32 - 1 <? toConvert)%Z (EConvertOverflow toConvert);
  Ok (Z.to_N toConvert).

Definition validateSelectorLengths (mask le ge : N) : res unit :=
  if (ge =? 0)%N && (le =? 0)%N then Ok () else
  _ ← fail_if ((0 <? le) && (le <? ge))%N (EGeAboveLe ge le);
  _ ← fail_if ((0 <? le) && (le <? mask))%N (EMaskAboveLe mask le);
  fail_if ((0 <? ge) && (ge <? mask))%N (EMaskAboveGe mask ge).

Definition filterForSelector (selector : PrefixSelector) : res IncomingFilter :=
  let prefix := PrefixSelector_Prefix selector in
  match ParseCIDR prefix with
  | None => Err (EParsePrefix prefix)
  | Some (_, cidr) =>
      maskLenUint ← wrap (EMaskLen prefix)
        (IntToUInt32 (Z.of_N (Mask_ones (IPNet_Mask cidr))));
      _ ← validateSelectorLengths maskLenUint (PrefixSelector_LE selector)
            (PrefixSelector_GE selector);
      Ok (mkIncomingFilter (ForCIDRString prefix) prefix
            (PrefixSelector_LE selector) (PrefixSelector_GE selector))
  end.

Definition toReceiveToFRR (toReceive : Receive) : res AllowedIn :=
  if bool_decide (AllowedIn_Mode (Receive_Allowed toReceive) = AllowAll)
  then Ok (mkAllowedIn true [] [])
  else
    filters ← mapE filterForSelector (AllowedIn_Prefixes (Receive_Allowed toReceive));
    Ok (mkAllowedIn false
          (sort_Slice LessThan (filter (λ f, IF_IPFamily f = IPv4) filters))
          (sort_Slice LessThan (filter (λ f, IF_IPFamily f ≠ IPv4) filters))).

Definition alwaysBlockToFRR (cidrs : list IPNet) : list IncomingFilter :=
  (λ c, let family := ForCIDR c in
        mkIncomingFilter family (IPNet_String c)
          (if bool_decide (family = IPv6) then 128 else 32)%N 0) <$> cidrs.

(** ** Neighbors *)

Definition neighborToFRR (n : Neighbor) (prefixesInRouter : list string)
    (alwaysBlock : list IncomingFilter) (routerVRF : string)
    (passwordSecrets : gmap string Secret) (bfdProfiles : gmap string FrrBFDProfile)
    : res NeighborConfig :=
  let noAddress := bool_decide (Neighbor_Address n = "") in
  let noInterface := bool_decide (Neighbor_Interface n = "") in
  let noDynamicASN := bool_decide (Neighbor_DynamicASN n = "") in
  _ ← fail_if (noAddress && noInterface) (ENoAddressNoInterface (asnFor n));
  _ ← fail_if (negb noAddress && negb noInterface) (EAddressAndInterface (neighborName n));
  _ ← fail_if (negb (bool_decide (Neighbor_BFDProfile n = "")) &&
               negb (bool_decide (is_Some (bfdProfiles !! Neighbor_BFDProfile n))))
        (ENoSuchBFDProfile (neighborName n) (Neighbor_BFDProfile n));
  _ ← fail_if ((Neighbor_ASN n =? 0)%N && noDynamicASN) (ENoASN (neighborName n));
  _ ← fail_if (negb (Neighbor_ASN n =? 0)%N && negb noDynamicASN)
        (EASNAndDynamicASN (neighborName n));
  _ ← fail_if (negb noDynamicASN &&
               negb (bool_decide (Neighbor_DynamicASN n = InternalASNMode)) &&
               negb (bool_decide (Neighbor_DynamicASN n = ExternalASNMode)))
        (EInvalidDynamicASN (neighborName n) (Neighbor_DynamicASN n));
  neighborFamily ← wrap (ENeighborFamily (neighborName n)) (addressFamilyForNeighbor n);
  '(holdTime, keepaliveTime) ← wrap (EInvalidTimers (neighborName n))
      (parseTimers (Neighbor_HoldTime n) (Neighbor_KeepaliveTime n));
  let connectTime := (λ d, Z.quot d Second) <$> Neighbor_ConnectTime n in
  password ← passwordForNeighbor n passwordSecrets;
  let neighbor outgoing incoming :=
    mkNeighborConfig neighborFamily (neighborName n) (asnFor n) (Neighbor_SourceAddress n)
      (Neighbor_Address n) (Neighbor_Interface n) (Neighbor_Port n)
      holdTime keepaliveTime connectTime password (Neighbor_BFDProfile n)
      (Neighbor_EnableGracefulRestart n) (Neighbor_EBGPMultiHop n) (Neighbor_LocalASN n)
      routerVRF incoming outgoing alwaysBlock (Neighbor_AddressFamilies n) in
  let zeroOut := mkAllowedOut [] [] "" "" [] [] in
  let zeroIn := mkAllowedIn false [] [] in
  outgoing ← toAdvertiseToFRR (neighbor zeroOut zeroIn) (Neighbor_ToAdvertise n) prefixesInRouter;
  incoming ← toReceiveToFRR (Neighbor_ToReceive n);
  Ok (neighbor outgoing incoming).

(** ** EVPN *)

Definition vniPropertiesToFRR (v : VNIProperties) : FrrVNIProperties :=
  mkFrrVNIProperties (VNIProperties_RD v) (VNIProperties_ImportRTs v) (VNIProperties_ExportRTs v).

Definition evpnToFRR (e : option EVPNConfig) : option FrrEVPNConfig :=
  (λ e, mkFrrEVPNConfig (EVPN_AdvertiseVNIs e) (EVPN_AdvertiseSVI e)
     ((λ l2, mkFrrL2VNI (L2VNI_VNI l2) (vniPropertiesToFRR (L2VNI_Properties l2)))
        <$> EVPN_L2VNIs e)
     ((λ l3, mkFrrL3VNI (L3VNI_VNI l3) (vniPropertiesToFRR (L3VNI_Properties l3))
               (L3VNI_AdvertisePrefixes l3)) <$> EVPN_L3VNI e)) <$> e.

(** ** Routers *)

Definition routerToFRRConfig (r : Router) (alwaysBlock : list IncomingFilter)
    (secrets : gmap string Secret) (bfdProfiles : gmap string FrrBFDProfile)
    (routerPrefixes : list string) : M (RouterConfig loc) :=
  neighbors ← foldMH (λ acc n,
    _ ← lift (fail_if (negb (Neighbor_LocalASN n =? 0)%N && negb (Neighbor_ASN n =? 0)%N &&
                       (Neighbor_ASN n =? Router_ASN r)%N)
          (ELocalASNOnIBGP (neighborName n) (Neighbor_ASN n)));
    frrNeigh ← lift (wrap (EProcessNeighbor (neighborName n) (Router_ASN r) (Router_VRF r))
      (neighborToFRR n routerPrefixes alwaysBlock (Router_VRF r) secrets bfdProfiles));
    p ← alloc frrNeigh;
    mret (acc ++ [p])) [] (Router_Neighbors r);
  mret (mkRouterConfig (Router_ASN r) (Router_ID r) neighbors (Router_VRF r)
          (FilterPrefixes (Router_Prefixes r) IPv4) (FilterPrefixes (Router_Prefixes r) IPv6)
          (Import_VRF <$> Router_Imports r) (evpnToFRR (Router_EVPN r))).

(** [validateRouterConfig] merges the router with itself; the merge happens in
    place, so the router that is used afterwards is the merged one. *)
Definition validateRouterConfig (r : RouterConfig loc) : M (RouterConfig loc) :=
  mergeRouterConfigs r r.

Definition validatePrefixes (prefixes : list string) : res unit :=
  each (λ p, fail_if (bool_decide (ForCIDRString p = Unknown)) (EUnknownFamily p)) prefixes.

Definition validatePrefixesForNeighborFamily (prefixes : list string) (family : Family) : res unit :=
  each (λ p,
    _ ← fail_if (bool_decide (ForCIDRString p = Unknown)) (EUnknownFamily p);
    fail_if (negb (MatchesPrefix family p)) (EPrefixFamilyMismatch p family)) prefixes.

Definition validateImportVRFs (r : Router) (allVRFs : gmap string (list string)) : res unit :=
  each (λ i,
    if bool_decide (Import_VRF i = "default") then Ok ()
    else fail_if (negb (bool_decide (is_Some (allVRFs !! Import_VRF i))))
           (EImportNotDefined (Router_ASN r) (Router_VRF r) (Import_VRF i))) (Router_Imports r).

Definition prefixesForVRFs (routers : list Router) : gmap string (list string) :=
  foldl (λ m r, <[Router_VRF r := Router_Prefixes r]> m) ∅ routers.

Definition importedPrefixes (r : Router) (prefixesInRouter : gmap string (list string))
    : res (list string) :=
  foldM (λ acc i,
    let vrf := if bool_decide (Import_VRF i = "default") then "" else Import_VRF i in
    match prefixesInRouter !! vrf with
    | None => Err (EVRFNotFound vrf)
    | Some imported => Ok (acc ++ imported)
    end) [] (Router_Imports r).

(** The body of the loop of [validateOutgoingPrefixes] for one neighbor. *)
Definition validateOutgoingForNeighbor (prefixesSet : gset string) (vrf : string) (n : Neighbor)
    : res unit :=
  neighborFamily ← wrap (ENeighborFamily (neighborName n)) (addressFamilyForNeighbor n);
  _ ← foldM (λ m prefixes,
    _ ← wrap (EInvalidLocalPrefPrefixes (LocalPref_Prefixes prefixes)
                (LocalPref_LocalPref prefixes) (neighborName n))
          (validatePrefixesForNeighborFamily (LocalPref_Prefixes prefixes) neighborFamily);
    foldM (λ m p,
      _ ← match m !! p with
          | Some existing =>
              fail_if (negb (existing =? LocalPref_LocalPref prefixes)%N)
                (EMultipleLocalPrefs (LocalPref_Prefixes prefixes) existing
                   (LocalPref_LocalPref prefixes))
          | None => Ok ()
          end;
      Ok (<[p := LocalPref_LocalPref prefixes]> m)) m (LocalPref_Prefixes prefixes))
    (∅ : gmap string N) (PrefixesWithLocalPref (Neighbor_ToAdvertise n));
  _ ← each (λ prefixes,
        wrap (EInvalidCommunityPrefixes (Community_Prefixes prefixes)
                (Community_Community prefixes) (neighborName n))
          (validatePrefixesForNeighborFamily (Community_Prefixes prefixes) neighborFamily))
        (PrefixesWithCommunity (Neighbor_ToAdvertise n));
  let allowed := Advertise_Allowed (Neighbor_ToAdvertise n) in
  if bool_decide (AllowedOut_Mode allowed = AllowAll) then Ok () else
  _ ← wrap (EInvalidAllowedPrefixes (AllowedOut_Prefixes allowed) (neighborName n))
        (validatePrefixesForNeighborFamily (AllowedOut_Prefixes allowed) neighborFamily);
  each (λ p, fail_if (negb (bool_decide (p ∈ prefixesSet)))
               (EPrefixNotConfigured p (neighborName n) vrf)) (AllowedOut_Prefixes allowed).

Definition validateOutgoingPrefixes (prefixesInRouter : list string) (routerConfig : Router)
    : res unit :=
  each (validateOutgoingForNeighbor (sets_New prefixesInRouter) (Router_VRF routerConfig))
    (Router_Neighbors routerConfig).

(** ** EVPN validation *)

Definition evpnNeedsNeighbor (evpn : FrrEVPNConfig) : bool :=
  let hasAdvertiseAll := bool_decide (FE_AdvertiseVNIs evpn = Some VNIAdvertisementAll) in
  hasAdvertiseAll || FE_AdvertiseSVI evpn || (0 <? length (FE_L2VNIs evpn))%nat.

Definition hasEVPNNeighbor (ns : list NeighborConfig) : bool :=
  existsb (λ n, bool_decide (AddressFamilyEVPN ∈ NC_AddressFamilies n)) ns.

Definition load_all (ps : list loc) : M (list NeighborConfig) := λ h,
  match mapM (λ p, h !! p) ps with Some ns => Ok (ns, h) | None => Err EPanic end.

Definition validateEVPNConfig (r : RouterConfig NeighborConfig) : res unit :=
  match RC_EVPN r with
  | None => Ok ()
  | Some evpn =>
      _ ← fail_if (evpnNeedsNeighbor evpn && negb (hasEVPNNeighbor (RC_Neighbors r)))
            EEVPNWithoutNeighbor;
      fail_if (bool_decide (is_Some (FE_L3VNI evpn)) && (0 <? length (RC_Neighbors r))%nat)
        EL3VNIWithNeighbors
  end.

(** One router of the loop of [validateUniqueVNIs]; [seen] maps a VNI to its
    VRF and type. *)
Definition seeVNI (vrf vniType : string) (seen : gmap N (string * string)) (vni : N)
    : res (gmap N (string * string)) :=
  match seen !! vni with
  | Some (vrf', type') => Err (EDuplicateVNI vni type' vrf' vniType vrf)
  | None => Ok (<[vni := (vrf, vniType)]> seen)
  end.

Definition uniqueVNIsStep {A} (seen : gmap N (string * string)) (kr : string * RouterConfig A)
    : res (gmap N (string * string)) :=
  let '(vrf, r) := kr in
  match RC_EVPN r with
  | None => Ok seen
  | Some evpn =>
      seen ← foldM (seeVNI vrf "l2vni") seen (FL2_VNI <$> FE_L2VNIs evpn);
      match FE_L3VNI evpn with
      | None => Ok seen
      | Some l3 => seeVNI vrf "l3vni" seen (FL3_VNI l3)
      end
  end.

(** The two loops range over a Go map, whose order is unspecified: the list is
    the order of one run. *)
Definition validateUniqueVNIs {A} (routers : list (string * RouterConfig A)) : res unit :=
  _ ← foldM uniqueVNIsStep ∅ routers; Ok ().

Definition validateEVPN (routers : list (string * RouterConfig NeighborConfig)) : res unit :=
  _ ← each (λ '(vrf, r), wrap (EInvalidEVPN vrf) (validateEVPNConfig r)) routers;
  validateUniqueVNIs routers.

(** Follow the pointers of a router. *)
Definition deref_router (r : RouterConfig loc) : M (RouterConfig NeighborConfig) :=
  ns ← load_all (RC_Neighbors r);
  mret (mkRouterConfig (RC_MyASN r) (RC_RouterID r) ns (RC_VRF r) (RC_IPV4Prefixes r)
          (RC_IPV6Prefixes r) (RC_ImportVRFs r) (RC_EVPN r)).

(** ** BFD profiles and raw configurations *)

Definition bfdProfileToFRR (b : BFDProfile) : FrrBFDProfile :=
  mkFrrBFDProfile (BFDProfile_Name b) (BFDProfile_ReceiveInterval b)
    (BFDProfile_TransmitInterval b) (BFDProfile_DetectMultiplier b) (BFDProfile_EchoInterval b)
    (default false (BFDProfile_EchoMode b)) (default false (BFDProfile_PassiveMode b))
    (BFDProfile_MinimumTTL b).

Definition raw_less (a b : namedRawConfig) : bool :=
  if (RawConfig_Priority (NRC_RawConfig a) =? RawConfig_Priority (NRC_RawConfig b))%Z
  then string_lt (NRC_configName a) (NRC_configName b)
  else (RawConfig_Priority (NRC_RawConfig a) <? RawConfig_Priority (NRC_RawConfig b))%Z.

Definition newline : string := String (ascii_of_nat 10) "".

Definition joinRawConfigs (raw : list namedRawConfig) : string :=
  foldl (λ acc r, acc +:+ RawConfig_Config (NRC_RawConfig r) +:+ newline) ""
    (sort_Slice raw_less raw).

(** The profiles of one configuration: the ones local to it and the ones of all. *)
Definition bfdProfilesStep (cfgName : string)
    (st : gmap string FrrBFDProfile * gmap string FrrBFDProfile) (b : BFDProfile)
    : res (gmap string FrrBFDProfile * gmap string FrrBFDProfile) :=
  let '(bfdProfiles, allConfigs) := st in
  let p := bfdProfileToFRR b in
  let name := FBFD_Name p in
  _ ← fail_if (bool_decide (is_Some (bfdProfiles !! name))) (EDuplicateBFDProfile name cfgName);
  let bfdProfiles := <[name := p]> bfdProfiles in
  match allConfigs !! name with
  | Some old =>
      _ ← fail_if (negb (bool_decide (old = p))) (EDifferentBFDProfile name cfgName);
      Ok (bfdProfiles, allConfigs)
  | None => Ok (bfdProfiles, <[name := p]> allConfigs)
  end.

(** ** [apiToFRR] *)

(** The loop over the routers of one configuration. *)
Definition routerStep (alwaysBlock : list IncomingFilter) (secrets : gmap string Secret)
    (bfdProfiles : gmap string FrrBFDProfile) (routersPrefixes : gmap string (list string))
    (routersForVRF : gmap string (RouterConfig loc)) (r : Router)
    : M (gmap string (RouterConfig loc)) :=
  _ ← lift (validatePrefixes (Router_Prefixes r));
  _ ← lift (validateImportVRFs r routersPrefixes);
  imported ← lift (importedPrefixes r routersPrefixes);
  let allPrefixes := Router_Prefixes r ++ imported in
  _ ← lift (validateOutgoingPrefixes allPrefixes r);
  routerCfg ← routerToFRRConfig r alwaysBlock secrets bfdProfiles allPrefixes;
  routerCfg ← validateRouterConfig routerCfg;
  match routersForVRF !! Router_VRF r with
  | None => mret (<[Router_VRF r := routerCfg]> routersForVRF)
  | Some curr =>
      curr ← mergeRouterConfigs curr routerCfg;
      mret (<[Router_VRF r := curr]> routersForVRF)
  end.

Record convState := mkConvState {
  CS_rawConfigs : list namedRawConfig;
  CS_routersForVRF : gmap string (RouterConfig loc);
  CS_bfdProfilesAllConfigs : gmap string FrrBFDProfile }.

(** The loop over the configurations. *)
Definition configStep (secrets : gmap string Secret) (alwaysBlock : list IPNet)
    (st : convState) (cfg : FRRConfiguration) : M convState :=
  let spec := Cfg_Spec cfg in
  let rawConfigs :=
    if bool_decide (RawConfig_Config (Spec_Raw spec) = "") then CS_rawConfigs st
    else CS_rawConfigs st ++ [mkNamedRawConfig (Spec_Raw spec) (Cfg_Name cfg)] in
  '(bfdProfiles, bfdAll) ← lift (foldM (bfdProfilesStep (Cfg_Name cfg))
      (∅, CS_bfdProfilesAllConfigs st) (BGP_BFDProfiles (Spec_BGP spec)));
  let alwaysBlockFRR := alwaysBlockToFRR alwaysBlock in
  let routersPrefixes := prefixesForVRFs (BGP_Routers (Spec_BGP spec)) in
  routersForVRF ← foldMH (routerStep alwaysBlockFRR secrets bfdProfiles routersPrefixes)
      (CS_routersForVRF st) (BGP_Routers (Spec_BGP spec));
  mret (mkConvState rawConfigs routersForVRF bfdAll).

Fixpoint deref_routers (l : list (string * RouterConfig loc))
    : M (list (string * RouterConfig NeighborConfig)) :=
  match l with
  | [] => mret []
  | (k, r) :: l => r' ← deref_router r; l' ← deref_routers l; mret ((k, r') :: l')
  end.

(** The whole function on pointers; the result is the configuration as seen
    by following them. *)
Definition apiToFRR_heap (resources : ClusterResources) (alwaysBlock : list IPNet)
    : M (Config NeighborConfig) :=
  st ← foldMH (configStep (PasswordSecrets resources) alwaysBlock)
         (mkConvState [] ∅ ∅) (FRRConfigs resources);
  routers ← deref_routers (map_to_list (CS_routersForVRF st));
  _ ← lift (validateEVPN routers);
  mret (mkConfig "" "" (sortMap (list_to_map routers : gmap string _))
          (sortMap (CS_bfdProfilesAllConfigs st)) (joinRawConfigs (CS_rawConfigs st))).

Definition apiToFRR (resources : ClusterResources) (alwaysBlock : list IPNet)
    : res (Config NeighborConfig) :=
  fst <$> apiToFRR_heap resources alwaysBlock ∅.
