(* ===== verification/Samples.v ===== *)
(** * Sample configurations

    A small cluster the examples of the other files are evaluated on: two
    configurations that share a session in the default VRF, a second VRF
    whose prefixes the first imports, a BFD profile, a password in a secret,
    local preferences, a community and an EVPN router. *)

From S2P Require Import Prelude GoStrings GoNet IPFamily Community Api FrrConfig Errors Merge.
From S2P Require Import ApiToConfig.

(** ** API objects *)

Definition sampleNeighbor (asn : N) (address : string) (adv : Advertise) (rcv : Receive)
    : Neighbor :=
  mkNeighbor asn "" "" address "" (Some 179%N) "" (mkSecretReference "" "")
    (Some (180 * Second)%Z) (Some (60 * Second)%Z) None false "" false adv rcv false false 0
    [AddressFamilyUnicast].

Definition advertiseFiltered : Advertise :=
  mkAdvertise (mkAllowedOutPrefixes ["192.0.2.0/24"; "198.51.100.0/24"] AllowRestricted)
    (mkNextHop "" "")
    [mkLocalPrefPrefixes ["192.0.2.0/24"] 200]
    [mkCommunityPrefixes ["192.0.2.0/24"] "65000:10"].

Definition advertiseAll : Advertise :=
  mkAdvertise (mkAllowedOutPrefixes [] AllowAll) (mkNextHop "10.0.0.1" "") [] [].

Definition receiveSome : Receive :=
  mkReceive (mkAllowedInPrefixes [mkPrefixSelector "172.16.0.0/16" 24 0] AllowRestricted).

Definition bfdSample : BFDProfile :=
  mkBFDProfile "fast" (Some 100%N) None None None None None None.

Definition withBFD (n : Neighbor) : Neighbor :=
  mkNeighbor (Neighbor_ASN n) (Neighbor_DynamicASN n) (Neighbor_SourceAddress n)
    (Neighbor_Address n) (Neighbor_Interface n) (Neighbor_Port n) (Neighbor_Password n)
    (mkSecretReference "bgp-pass" "frr-k8s-system") (Neighbor_HoldTime n)
    (Neighbor_KeepaliveTime n) (Neighbor_ConnectTime n) (Neighbor_EBGPMultiHop n) "fast"
    (Neighbor_EnableGracefulRestart n) (Neighbor_ToAdvertise n) (Neighbor_ToReceive n)
    (Neighbor_DisableMP n) (Neighbor_DualStackAddressFamily n) (Neighbor_LocalASN n)
    (Neighbor_AddressFamilies n).

Definition routerDefault : Router :=
  mkRouter 64512 "" "" [withBFD (sampleNeighbor 64513 "10.1.1.1" advertiseFiltered receiveSome)]
    ["192.0.2.0/24"] [mkImport "red"] None.

Definition routerRed : Router :=
  mkRouter 64512 "" "red" [sampleNeighbor 64514 "10.2.2.2" advertiseAll emptyReceive]
    ["198.51.100.0/24"; "2001:db8::/64"] [] None.

Definition routerAgain : Router :=
  mkRouter 64512 "1.1.1.1" ""
    [withBFD (sampleNeighbor 64513 "10.1.1.1" emptyAdvertise emptyReceive)]
    ["203.0.113.0/24"] [] None.

Definition routerBlue : Router :=
  mkRouter 64512 "" "blue" [] []  []
    (Some (mkEVPNConfig None false [] (Some (mkL3VNI 100 (mkVNIProperties "" [] []) ["unicast"])))).

Definition sampleConfig (name : string) (routers : list Router) (raw : string) : FRRConfiguration :=
  mkFRRConfiguration name "frr-k8s-system" ∅
    (mkSpec (mkBGPConfig routers [bfdSample]) (mkRawConfig 5 raw) emptySelector).

Definition sampleSecrets : gmap string Secret :=
  {["bgp-pass" := mkSecret "bgp-pass" "frr-k8s-system" SecretTypeBasicAuth
      {["password" := "s3cret"]}]}.

Definition sampleResources : ClusterResources :=
  mkClusterResources
    [sampleConfig "first" [routerDefault; routerRed] "log stdout";
     sampleConfig "second" [routerAgain; routerBlue] ""] sampleSecrets.

(** The CIDR that is always blocked. *)
Definition sampleBlock : list IPNet :=
  match ParseCIDR "192.168.0.0/16" with Some (_, n) => [n] | None => [] end.

(** ** Converted neighbors *)

Definition sampleOut (v4 : list string) (lps : list (N * list string)) : AllowedOut :=
  mkAllowedOut v4 [] "" ""
    ((λ '(lp, ps), mkLocalPrefPrefixList
        (mkPrefixList (localPrefPrefixListName "10.1.1.1" lp "ip") "ip" (list_to_set ps)) lp) <$> lps)
    [].

Definition sampleNC (addr bfd : string) (port : option N) (out : AllowedOut) : NeighborConfig :=
  mkNeighborConfig IPv4 ("64513@" +:+ addr) "64513" "" addr "" port None None None ""
    bfd false false 0 "" (mkAllowedIn false [] []) out [] [AddressFamilyUnicast].

Definition ncA : NeighborConfig :=
  sampleNC "10.1.1.1" "" (Some 179%N) (sampleOut ["192.0.2.0/24"] [(200%N, ["192.0.2.0/24"])]).
Definition ncB : NeighborConfig :=
  sampleNC "10.1.1.1" "fast" None
    (sampleOut ["192.0.2.0/24"; "203.0.113.0/24"] [(200%N, ["203.0.113.0/24"])]).
Definition ncC : NeighborConfig := sampleNC "10.3.3.3" "" None (sampleOut [] []).

Definition sampleHeap : gmap positive NeighborConfig :=
  {[1%positive := ncA; 2%positive := ncB; 3%positive := ncC]}.
