(* ===== verification/MergeFacts.v ===== *)
(** * Facts about merging

    The lemmas on [Merge.v] the other files share, then the properties of the
    merge itself: what compatibility means, what is in the merged prefixes,
    and that the merge of neighbors is a refinement of a pure function. *)

From Stdlib Require Import Ascii Lia.
From S2P Require Import Prelude GoStrings GoNet IPFamily Community Api FrrConfig Errors Merge.

(** ** The monad *)

Lemma M_bind_Ok {A B} (m : M A) (f : A → M B) h r :
  (m ≫= f) h = Ok r ↔ ∃ a h', m h = Ok (a, h') ∧ f a h' = Ok r.
Proof. unfold mbind, M_bind. destruct (m h) as [[a h']|e]; naive_solver. Qed.

Lemma M_ret_Ok {A} (a : A) h r : (mret a : M A) h = Ok r ↔ r = (a, h).
Proof. unfold mret, M_ret. naive_solver. Qed.

Lemma lift_Ok {A} (m : res A) h r :
  lift m h = Ok r ↔ ∃ a, m = Ok a ∧ r = (a, h).
Proof. unfold lift. destruct m; naive_solver. Qed.

Lemma load_Ok p h r : load p h = Ok r ↔ ∃ n, h !! p = Some n ∧ r = (n, h).
Proof. unfold load. destruct (h !! p); naive_solver. Qed.

Lemma store_Ok p n h r : store p n h = Ok r ↔ r = ((), <[p := n]> h).
Proof. unfold store. naive_solver. Qed.

Lemma alloc_Ok n h r :
  alloc n h = Ok r → ∃ p, h !! p = None ∧ r = (p, <[p := n]> h).
Proof.
  unfold alloc. intros [= <-]. eexists; split; [|done].
  apply not_elem_of_dom, is_fresh.
Qed.

Lemma load_bind {B} (f : NeighborConfig → M B) h p n :
  h !! p = Some n → (load p ≫= f) h = f n h.
Proof. unfold mbind, M_bind, load. by intros ->. Qed.

(** Invert every successful step of a computation in the monad or in [res]. *)
Ltac inv_ok :=
  repeat match goal with
  | H : (_ ≫= _) _ = Ok _ |- _ =>
      apply M_bind_Ok in H; let a := fresh "a" in let h := fresh "h" in
      let H1 := fresh H in let H2 := fresh H in destruct H as (a & h & H1 & H2)
  | H : _ ≫= _ = Ok _ |- _ =>
      apply bind_Ok in H; let a := fresh "a" in
      let H1 := fresh H in let H2 := fresh H in destruct H as (a & H1 & H2)
  | H : (mret _ : M _) _ = Ok _ |- _ => apply M_ret_Ok in H
  | H : lift _ _ = Ok _ |- _ =>
      apply lift_Ok in H; let a := fresh "a" in
      let H1 := fresh H in let H2 := fresh H in destruct H as (a & H1 & H2)
  | H : load _ _ = Ok _ |- _ =>
      apply load_Ok in H; let n := fresh "n" in
      let H1 := fresh H in let H2 := fresh H in destruct H as (n & H1 & H2)
  | H : store _ _ _ = Ok _ |- _ => apply store_Ok in H
  | H : alloc _ _ = Ok _ |- _ =>
      apply alloc_Ok in H; let p := fresh "p" in
      let H1 := fresh H in let H2 := fresh H in destruct H as (p & H1 & H2)
  | H : wrap _ _ = Ok _ |- _ => apply wrap_Ok in H
  | H : fail_if _ _ = Ok _ |- _ => apply fail_if_Ok in H
  | H : Ok _ = Ok _ |- _ => injection H as H
  | H : (_, _) = (_, _) |- _ => injection H as H; subst
  | H : ?x = _ |- _ => is_var x; subst x
  | H : _ = ?x |- _ => is_var x; subst x
  end.

Lemma foldMH_inv {A S} (P : S → heap → Prop) (f : S → A → M S) l s h s' h' :
  P s h →
  (∀ s h x s' h', x ∈ l → P s h → f s x h = Ok (s', h') → P s' h') →
  foldMH f s l h = Ok (s', h') → P s' h'.
Proof.
  revert s h; induction l as [|x l IH]; simpl; intros s h Hs Hf Hl; inv_ok; [done|].
  eapply IH; [..|done]; [|intros; eapply Hf; eauto; set_solver].
  eapply Hf; eauto; set_solver.
Qed.

Lemma foldMH_app {A S} (f : S → A → M S) s l1 l2 h :
  foldMH f s (l1 ++ l2) h = (foldMH f s l1 ≫= λ s', foldMH f s' l2) h.
Proof.
  revert s h; induction l1 as [|x l1 IH]; intros s h; [done|]. simpl.
  unfold mbind, M_bind. destruct (f s x h) as [[s' h']|]; [|done]. apply IH.
Qed.

(** ** Sorted maps *)

Section sort_map.
Context `{Countable K, !Ordered K} {V : Type}.
Implicit Types m : gmap K V.

Lemma elem_of_sortMap x m : x ∈ sortMap m ↔ ∃ k, m !! k = Some x.
Proof.
  unfold sortMap. rewrite list_elem_of_omap. setoid_rewrite elem_of_sortedKeys.
  naive_solver.
Qed.

(** When every value carries its own key, the keys of the sorted values are
    the sorted keys. *)
Lemma sortMap_keys (key : V → K) m :
  (∀ k v, m !! k = Some v → key v = k) → key <$> sortMap m = sortedKeys m.
Proof.
  intros Hkey. unfold sortMap.
  assert (∀ k, k ∈ sortedKeys m → is_Some (m !! k)) as Hin
    by (intros k; by rewrite elem_of_sortedKeys).
  induction (sortedKeys m) as [|k ks IH]; [done|]. cbn [omap list_omap].
  destruct (Hin k) as [v Hv]; [set_solver|]. rewrite Hv, fmap_cons.
  f_equal; [by apply Hkey|]. apply IH. set_solver.
Qed.

Lemma sortMap_sorted (key : V → K) m :
  (∀ k v, m !! k = Some v → key v = k) →
  StronglySorted ord_le (key <$> sortMap m) ∧ NoDup (key <$> sortMap m).
Proof.
  intros Hkey. rewrite sortMap_keys by done.
  auto using sortedKeys_sorted, sortedKeys_NoDup.
Qed.

(** A map is determined by its sorted values and their keys. *)
Lemma sortMap_lookup (key : V → K) m k v :
  (∀ k v, m !! k = Some v → key v = k) →
  m !! k = Some v ↔ v ∈ sortMap m ∧ key v = k.
Proof.
  intros Hkey. rewrite elem_of_sortMap. split; [naive_solver|].
  intros [[k' Hk'] <-]. by rewrite (Hkey _ _ Hk').
Qed.

Lemma length_sortMap m : length (sortMap m) = size m.
Proof.
  unfold sortMap, sortedKeys.
  assert (length (omap (λ k, m !! k) (merge_sort ord_le (map_to_list m).*1)) =
          length (merge_sort ord_le (map_to_list m).*1)) as ->.
  { assert (∀ k, k ∈ merge_sort ord_le (map_to_list m).*1 → is_Some (m !! k)) as Hin
      by (intros k; apply elem_of_sortedKeys).
    induction (merge_sort _ _) as [|k ks IH]; [done|]. cbn [omap list_omap].
    destruct (Hin k) as [v ->]; [set_solver|]. cbn [length]. f_equal.
    apply IH. set_solver. }
  by rewrite (Permutation_length (merge_sort_Permutation _ _)), length_fmap,
    length_map_to_list.
Qed.
End sort_map.

(** Indexing a list by key, later entries winning. *)
Section index_by.
Context `{Countable K} {V : Type} (key : V → K).

Lemma index_by_snoc l v : index_by key (l ++ [v]) = <[key v := v]> (index_by key l).
Proof. unfold index_by. by rewrite foldl_snoc. Qed.

Lemma index_by_Some l k v : index_by key l !! k = Some v → v ∈ l ∧ key v = k.
Proof.
  induction l as [|x l IH] using rev_ind; [done|]. rewrite index_by_snoc.
  destruct (decide (key x = k)) as [<-|]; intros; simplify_map_eq; set_solver.
Qed.

Lemma index_by_is_Some l k : is_Some (index_by key l !! k) ↔ k ∈ key <$> l.
Proof.
  induction l as [|x l IH] using rev_ind.
  { split; [by intros []|set_solver]. }
  rewrite index_by_snoc, lookup_insert_is_Some, fmap_app, elem_of_app, IH.
  destruct (decide (key x = k)); set_solver.
Qed.

(** Where the keys separate the elements, indexing loses nothing. *)
Lemma index_by_lookup l k v :
  (∀ x y, x ∈ l → y ∈ l → key x = key y → x = y) →
  index_by key l !! k = Some v ↔ v ∈ l ∧ key v = k.
Proof.
  intros Hsep. split; [apply index_by_Some|]. intros [Hv <-].
  assert (is_Some (index_by key l !! key v)) as [w Hw]
    by (apply index_by_is_Some; by apply list_elem_of_fmap_2).
  rewrite Hw. destruct (index_by_Some _ _ _ Hw). f_equal. by apply Hsep.
Qed.
End index_by.

(** ** Pointers with a default *)

Lemma ptrsEqual_spec {T} `{EqDecision T} (p1 p2 : option T) def :
  ptrsEqual p1 p2 def = true ↔ default def p1 = default def p2.
Proof. destruct p1, p2; simpl; rewrite ?bool_decide_eq_true; naive_solver. Qed.

Lemma unset_default_value {T} `{EqDecision T} (p : option T) def :
  default def (unset_default p def) = default def p.
Proof. destruct p as [v|]; simpl; [|done]. case_bool_decide; naive_solver. Qed.

Lemma unset_default_idemp {T} `{EqDecision T} (p : option T) def :
  unset_default (unset_default p def) def = unset_default p def.
Proof.
  destruct p as [v|]; simpl; [|done]. case_bool_decide; simpl; [done|].
  by rewrite bool_decide_eq_false_2.
Qed.

(** ** Keys *)

Lemma localPrefPrefixListKey_inj l1 f1 l2 f2 :
  localPrefPrefixListKey l1 f1 = localPrefPrefixListKey l2 f2 → l1 = l2 ∧ f1 = f2.
Proof.
  unfold localPrefPrefixListKey. intros [?%(inj _) ?]%sep_inj; [done|..];
    by apply pretty_no_char.
Qed.

Lemma Community_String_no_dash c : contains_char "-" (Community_String c) = false.
Proof.
  destruct c; simpl; rewrite !contains_char_app, ?pretty_no_char by done; done.
Qed.

Lemma communityPrefixListKey_inj c1 f1 c2 f2 :
  communityPrefixListKey c1 f1 = communityPrefixListKey c2 f2 → c1 = c2 ∧ f1 = f2.
Proof.
  unfold communityPrefixListKey.
  intros [?%Community_String_inj ?]%sep_inj; auto using Community_String_no_dash.
Qed.

(** ** Prefix lists *)

Section prefix_lists.
Context {PL : Type} (key : PL → string) (pfx : PL → gset string) (join : PL → PL → PL).
Hypothesis join_key : ∀ a b, key (join a b) = key a.
Hypothesis join_pfx : ∀ a b, pfx (join a b) = pfx a ∪ pfx b.

(** [prefix] is tagged [k] by the lists. *)
Definition tagged (ls : list PL) (k prefix : string) : Prop :=
  ∃ pl, pl ∈ ls ∧ key pl = k ∧ prefix ∈ pfx pl.

Definition keyed (m : gmap string PL) : Prop := ∀ k v, m !! k = Some v → key v = k.

Notation add_all := (foldl (add_list key join)).

Lemma keyed_add_all l m : keyed m → keyed (add_all m l).
Proof.
  revert m; induction l as [|pl l IH]; intros m Hm; [done|]. apply IH.
  unfold add_list. intros k v. destruct (m !! key pl) as [addTo|] eqn:E;
    destruct (decide (key pl = k)) as [<-|]; intros; simplify_map_eq; eauto.
  rewrite join_key. eauto.
Qed.

Lemma keyed_merged curr toMerge : keyed (add_all (index_by key curr) toMerge).
Proof. apply keyed_add_all. intros k v Hv. by apply index_by_Some in Hv as [_ ?]. Qed.

Lemma mergePrefixLists_keys curr toMerge :
  StronglySorted String.le (key <$> mergePrefixLists key join curr toMerge) ∧
  NoDup (key <$> mergePrefixLists key join curr toMerge).
Proof. exact (sortMap_sorted key _ (keyed_merged curr toMerge)). Qed.

Lemma add_all_tagged l m k p :
  (∃ v, add_all m l !! k = Some v ∧ p ∈ pfx v) ↔
  (∃ v, m !! k = Some v ∧ p ∈ pfx v) ∨ tagged l k p.
Proof.
  unfold tagged. revert m; induction l as [|pl l IH]; intros m; [set_solver|].
  simpl. rewrite IH. unfold add_list. setoid_rewrite elem_of_cons.
  destruct (m !! key pl) as [addTo|] eqn:E; destruct (decide (key pl = k)) as [<-|Hk].
  - rewrite lookup_insert_eq, E. set_solver.
  - rewrite lookup_insert_ne by done. set_solver.
  - rewrite lookup_insert_eq, E. set_solver.
  - rewrite lookup_insert_ne by done. set_solver.
Qed.

(** The merged lists tag exactly what either argument tags. *)
Lemma mergePrefixLists_tagged curr toMerge k p :
  NoDup (key <$> curr) →
  tagged (mergePrefixLists key join curr toMerge) k p ↔
  tagged curr k p ∨ tagged toMerge k p.
Proof.
  intros Hnd. trans (∃ v, add_all (index_by key curr) toMerge !! k = Some v ∧ p ∈ pfx v).
  - unfold tagged, mergePrefixLists.
    setoid_rewrite (sortMap_lookup key); [|apply keyed_merged]. naive_solver.
  - rewrite add_all_tagged. f_equiv. unfold tagged.
    setoid_rewrite index_by_lookup; [naive_solver|].
    intros x y Hx Hy Hxy. apply list_elem_of_lookup in Hx as [i Hi].
    apply list_elem_of_lookup in Hy as [j Hj].
    assert (i = j) as ->; [|congruence].
    eapply NoDup_lookup; [exact Hnd|..]; rewrite list_lookup_fmap.
    + by rewrite Hi.
    + rewrite Hj; simpl; by rewrite Hxy.
Qed.
End prefix_lists.

(** ** Local preferences *)

Definition lp_of (ls : list LocalPrefPrefixList) (p : string) (lp : N) : Prop :=
  ∃ pl, pl ∈ ls ∧ p ∈ PL_Prefixes (LPL_PrefixList pl) ∧ LPL_LocalPref pl = lp.

Lemma foldl_insert_const (ps : list string) (lp : N) (m : gmap string N) p :
  foldl (λ m prefix, <[prefix := lp]> m) m ps !! p =
  if decide (p ∈ ps) then Some lp else m !! p.
Proof.
  revert m; induction ps as [|q ps IH]; intros m; simpl; [done|].
  rewrite IH. repeat case_decide; try done; try set_solver.
  - assert (p = q) as -> by set_solver. by rewrite lookup_insert_eq.
  - rewrite lookup_insert_ne; set_solver.
Qed.

Lemma localPrefForPrefix_snoc ls pl p :
  localPrefForPrefix (ls ++ [pl]) !! p =
  if decide (p ∈ PL_Prefixes (LPL_PrefixList pl)) then Some (LPL_LocalPref pl)
  else localPrefForPrefix ls !! p.
Proof.
  unfold localPrefForPrefix. rewrite foldl_snoc, foldl_insert_const.
  repeat case_decide; set_solver.
Qed.

Lemma localPrefForPrefix_Some ls p lp :
  localPrefForPrefix ls !! p = Some lp → lp_of ls p lp.
Proof.
  unfold lp_of. induction ls as [|pl ls IH] using rev_ind; [done|].
  rewrite localPrefForPrefix_snoc. case_decide; [intros [= <-]; set_solver|set_solver].
Qed.

Lemma localPrefForPrefix_is_Some ls p lp :
  lp_of ls p lp → is_Some (localPrefForPrefix ls !! p).
Proof.
  unfold lp_of. induction ls as [|pl ls IH] using rev_ind; [set_solver|].
  rewrite localPrefForPrefix_snoc. case_decide; [done|].
  intros (pl' & [?|?]%elem_of_app & ? & ?); [by eauto|].
  assert (pl' = pl) as -> by set_solver. done.
Qed.

Lemma checkLocalPrefs_Ok known ls u :
  checkLocalPrefs known ls = Ok u ↔
  ∀ p lp e, lp_of ls p lp → known !! p = Some e → e = lp.
Proof.
  unfold checkLocalPrefs, lp_of. rewrite each_Ok, Forall_forall.
  setoid_rewrite each_Ok. setoid_rewrite Forall_forall. setoid_rewrite elem_of_elements.
  split.
  - intros Hall p lp e (pl & Hpl & Hp & <-) He. specialize (Hall pl Hpl p Hp).
    rewrite He, fail_if_Ok, negb_false_iff, N.eqb_eq in Hall. done.
  - intros Hall pl Hpl p Hp. destruct (known !! p) as [e|] eqn:He; [|done].
    rewrite fail_if_Ok, negb_false_iff, N.eqb_eq. eauto 10.
Qed.

(** No prefix has two local preferences. *)
Definition lp_functional (ls : list LocalPrefPrefixList) : Prop :=
  ∀ p lp1 lp2, lp_of ls p lp1 → lp_of ls p lp2 → lp1 = lp2.

Lemma localPrefForPrefix_functional ls p lp :
  lp_functional ls → localPrefForPrefix ls !! p = Some lp ↔ lp_of ls p lp.
Proof.
  intros Hf. split; [apply localPrefForPrefix_Some|]. intros Hlp.
  destruct (localPrefForPrefix_is_Some _ _ _ Hlp) as [lp' Hlp'].
  rewrite Hlp'. f_equal. eapply Hf; [by apply localPrefForPrefix_Some|done].
Qed.

(** ** Outgoing prefixes *)

Notation lpl_prefixes := (λ pl, PL_Prefixes (LPL_PrefixList pl)).
Notation cpl_prefixes := (λ pl, PL_Prefixes (CPL_PrefixList pl)).

Notation lp_tagged := (tagged localPref_key lpl_prefixes).
Notation comm_tagged := (tagged community_key cpl_prefixes).

Lemma localPref_tagged_merge a b k p :
  NoDup (localPref_key <$> a) →
  lp_tagged (mergeLocalPrefPrefixLists a b) k p ↔ lp_tagged a k p ∨ lp_tagged b k p.
Proof. by apply mergePrefixLists_tagged. Qed.

Lemma community_tagged_merge a b k p :
  NoDup (community_key <$> a) →
  comm_tagged (mergeCommunityPrefixLists a b) k p ↔ comm_tagged a k p ∨ comm_tagged b k p.
Proof. by apply mergePrefixLists_tagged. Qed.

Lemma lp_of_tagged ls p lp :
  lp_of ls p lp ↔ ∃ fam, lp_tagged ls (localPrefPrefixListKey lp fam) p.
Proof.
  unfold lp_of, tagged, localPref_key. split.
  - intros (pl & ? & ? & <-). eauto 10.
  - intros (fam & pl & ? & [? _]%localPrefPrefixListKey_inj & ?). eauto 10.
Qed.

Lemma lp_of_merge a b p lp :
  NoDup (localPref_key <$> a) →
  lp_of (mergeLocalPrefPrefixLists a b) p lp ↔ lp_of a p lp ∨ lp_of b p lp.
Proof.
  intros Hnd. rewrite !lp_of_tagged. setoid_rewrite localPref_tagged_merge; [|done].
  naive_solver.
Qed.

(** Two next hops can be merged when they agree or one is unset. *)
Definition nexthop_compat (a b : string) : Prop := a = "" ∨ b = "" ∨ a = b.

Lemma mergeNextHop_Ok a b c :
  mergeNextHop a b = Ok c ↔ nexthop_compat a b ∧ c = if bool_decide (a = "") then b else a.
Proof.
  unfold mergeNextHop, nexthop_compat.
  repeat case_bool_decide; subst; simpl; naive_solver.
Qed.

(** What conversion and merging maintain of an [AllowedOut]: one prefix list
    per key and one local preference per prefix. *)
Record out_wf (a : AllowedOut) : Prop := {
  out_lp_keys : NoDup (localPref_key <$> AO_LocalPrefPrefixesModifiers a);
  out_comm_keys : NoDup (community_key <$> AO_CommunityPrefixesModifiers a);
  out_lp_functional : lp_functional (AO_LocalPrefPrefixesModifiers a)
}.

Lemma mergeAllowedOut_inv a b c :
  mergeAllowedOut a b = Ok c →
  nexthop_compat (AO_NextHopV4 a) (AO_NextHopV4 b) ∧
  nexthop_compat (AO_NextHopV6 a) (AO_NextHopV6 b) ∧
  (∀ p lp e, lp_of (AO_LocalPrefPrefixesModifiers b) p lp →
     localPrefForPrefix (AO_LocalPrefPrefixesModifiers a) !! p = Some e → e = lp) ∧
  c = mkAllowedOut
        (sets_List (sets_New (AO_PrefixesV4 a) ∪ sets_New (AO_PrefixesV4 b)))
        (sets_List (sets_New (AO_PrefixesV6 a) ∪ sets_New (AO_PrefixesV6 b)))
        (if bool_decide (AO_NextHopV4 a = "") then AO_NextHopV4 b else AO_NextHopV4 a)
        (if bool_decide (AO_NextHopV6 a = "") then AO_NextHopV6 b else AO_NextHopV6 a)
        (mergeLocalPrefPrefixLists (AO_LocalPrefPrefixesModifiers a)
           (AO_LocalPrefPrefixesModifiers b))
        (mergeCommunityPrefixLists (AO_CommunityPrefixesModifiers a)
           (AO_CommunityPrefixesModifiers b)).
Proof.
  unfold mergeAllowedOut. intros H. apply bind_Ok in H as (v4 & H4 & H).
  apply bind_Ok in H as (v6 & H6 & H). apply bind_Ok in H as (u & Hlp & [= <-]).
  apply wrap_Ok, mergeNextHop_Ok in H4 as [? ->].
  apply wrap_Ok, mergeNextHop_Ok in H6 as [? ->].
  pose proof (proj1 (checkLocalPrefs_Ok _ _ _) Hlp). done.
Qed.

Lemma mergeAllowedOut_is_Ok a b :
  nexthop_compat (AO_NextHopV4 a) (AO_NextHopV4 b) →
  nexthop_compat (AO_NextHopV6 a) (AO_NextHopV6 b) →
  (∀ p lp e, lp_of (AO_LocalPrefPrefixesModifiers b) p lp →
     localPrefForPrefix (AO_LocalPrefPrefixesModifiers a) !! p = Some e → e = lp) →
  ∃ c, mergeAllowedOut a b = Ok c.
Proof.
  intros H4 H6 Hlp. unfold mergeAllowedOut.
  assert (∀ x y, nexthop_compat x y → ∃ z, mergeNextHop x y = Ok z) as Hnh.
  { intros x y ?. eexists. by apply mergeNextHop_Ok. }
  destruct (Hnh _ _ H4) as [? ->], (Hnh _ _ H6) as [? ->]; simpl.
  apply (checkLocalPrefs_Ok _ _ ()) in Hlp as ->; simpl. eauto.
Qed.

Lemma mergeAllowedOut_wf a b c :
  out_wf a → out_wf b → mergeAllowedOut a b = Ok c → out_wf c.
Proof.
  intros Ha Hb (_ & _ & Hlp & ->)%mergeAllowedOut_inv. split; simpl.
  - by apply mergePrefixLists_keys.
  - by apply mergePrefixLists_keys.
  - pose proof (out_lp_keys _ Ha). pose proof (out_lp_functional _ Ha) as Hfa.
    pose proof (out_lp_functional _ Hb) as Hfb.
    intros p lp1 lp2 [H1|H1]%lp_of_merge [H2|H2]%lp_of_merge; eauto.
    + eapply Hlp; [done|]. by apply localPrefForPrefix_functional.
    + symmetry. eapply Hlp; [done|]. by apply localPrefForPrefix_functional.
Qed.

(** ** Incoming prefixes *)

(** The filters whose keys are not confused with another's. *)
Definition no_key_clash (fs : list IncomingFilter) : Prop :=
  ∀ f g, f ∈ fs → g ∈ fs → incomingFilterKey f = incomingFilterKey g → f = g.

Lemma elem_of_mergeIncomingFilters_sub f a b :
  f ∈ mergeIncomingFilters a b → f ∈ a ∨ f ∈ b.
Proof.
  unfold mergeIncomingFilters. rewrite elem_of_sortMap.
  intros [k [[?|?]%elem_of_app _]%index_by_Some]; auto.
Qed.

Lemma elem_of_mergeIncomingFilters f a b :
  no_key_clash (a ++ b) → f ∈ mergeIncomingFilters a b ↔ f ∈ a ∨ f ∈ b.
Proof.
  intros Hc. unfold mergeIncomingFilters. rewrite elem_of_sortMap.
  setoid_rewrite index_by_lookup; [|done]. setoid_rewrite elem_of_app. naive_solver.
Qed.

(** ** Compatibility *)

(** The guard "both set and different", used for BFD profiles, router IDs and
    route distinguishers. *)
Lemma both_set_different (a b : string) :
  (negb (bool_decide (a = "")) && negb (bool_decide (b = "")) &&
   negb (bool_decide (a = b))) = false ↔ a = "" ∨ b = "" ∨ a = b.
Proof. repeat case_bool_decide; simpl; naive_solver. Qed.

(** What [neighborsAreCompatible] decides. *)
Record compatible (n1 n2 : NeighborConfig) : Prop := {
  c_ID : ID n1 = ID n2;
  c_ASN : NC_ASN n1 = NC_ASN n2;
  c_Port : default defaultBGPPort (NC_Port n1) = default defaultBGPPort (NC_Port n2);
  c_SrcAddr : NC_SrcAddr n1 = NC_SrcAddr n2;
  c_Password : NC_Password n1 = NC_Password n2;
  c_BFD : NC_BFDProfile n1 = "" ∨ NC_BFDProfile n2 = "" ∨ NC_BFDProfile n1 = NC_BFDProfile n2;
  c_MultiHop : NC_EBGPMultiHop n1 = NC_EBGPMultiHop n2;
  c_IPFamily : NC_IPFamily n1 = NC_IPFamily n2;
  c_HoldTime : default defaultHoldTime (NC_HoldTime n1) = default defaultHoldTime (NC_HoldTime n2);
  c_Keepalive : default defaultKeepaliveTime (NC_KeepaliveTime n1) =
                default defaultKeepaliveTime (NC_KeepaliveTime n2);
  c_Connect : default defaultConnectTime (NC_ConnectTime n1) =
              default defaultConnectTime (NC_ConnectTime n2);
  c_LocalASN : NC_LocalASN n1 = NC_LocalASN n2
}.

Lemma neighborsAreCompatible_Ok n1 n2 u :
  neighborsAreCompatible n1 n2 = Ok u ↔ compatible n1 n2.
Proof.
  unfold neighborsAreCompatible; cbv zeta. rewrite !guard_Ok, fail_if_Ok, !negb_false_iff.
  rewrite !bool_decide_eq_true, !ptrsEqual_spec, N.eqb_eq, both_set_different. split.
  - intros H. destruct_and!. by constructor.
  - intros []. by split_and!.
Qed.

#[global] Instance compatible_refl : Reflexive compatible.
Proof. intros n. constructor; auto. Qed.
#[global] Instance compatible_sym : Symmetric compatible.
Proof. intros n1 n2 []. constructor; naive_solver. Qed.

(** ** One neighbor into another *)

(** The merged value, before [cleanNeighborDefaults]. *)
Definition joined (dest src : NeighborConfig) (outgoing : AllowedOut) : NeighborConfig :=
  mkNeighborConfig (NC_IPFamily dest) (NC_Name dest) (NC_ASN dest) (NC_SrcAddr dest)
    (NC_Addr dest) (NC_Iface dest) (NC_Port dest) (NC_HoldTime dest)
    (NC_KeepaliveTime dest) (NC_ConnectTime dest) (NC_Password dest)
    (if bool_decide (NC_BFDProfile dest = "") then NC_BFDProfile src else NC_BFDProfile dest)
    (NC_GracefulRestart dest) (NC_EBGPMultiHop dest) (NC_LocalASN dest)
    (NC_VRFName dest) (mergeAllowedIn (NC_Incoming dest) (NC_Incoming src)) outgoing
    (NC_AlwaysBlock dest)
    (sets_List (sets_New (NC_AddressFamilies dest ++ NC_AddressFamilies src))).

Lemma mergeIntoNeighbor_Ok dest src dest' :
  mergeIntoNeighbor dest src = Ok dest' ↔
  compatible dest src ∧
  ∃ out, mergeAllowedOut (NC_Outgoing dest) (NC_Outgoing src) = Ok out ∧
         dest' = cleanNeighborDefaults (joined dest src out).
Proof.
  unfold mergeIntoNeighbor. split.
  - intros H. apply bind_Ok in H as (u & Hc & H). apply bind_Ok in H as (out & Ho & [= <-]).
    apply wrap_Ok in Ho. apply neighborsAreCompatible_Ok in Hc. eauto.
  - intros (Hc & out & Ho & ->). apply (neighborsAreCompatible_Ok _ _ ()) in Hc.
    rewrite Hc; simpl. by rewrite Ho.
Qed.

Lemma mergeIntoNeighbor_ID d s d' : mergeIntoNeighbor d s = Ok d' → ID d' = ID d.
Proof. by intros (_ & out & _ & ->)%mergeIntoNeighbor_Ok. Qed.

Lemma mergeIntoNeighbor_VRFName d s d' :
  mergeIntoNeighbor d s = Ok d' → NC_VRFName d' = NC_VRFName d.
Proof. by intros (_ & out & _ & ->)%mergeIntoNeighbor_Ok. Qed.

Lemma mergeIntoNeighbor_is_Ok d s :
  compatible d s →
  nexthop_compat (AO_NextHopV4 (NC_Outgoing d)) (AO_NextHopV4 (NC_Outgoing s)) →
  nexthop_compat (AO_NextHopV6 (NC_Outgoing d)) (AO_NextHopV6 (NC_Outgoing s)) →
  (∀ p lp e, lp_of (AO_LocalPrefPrefixesModifiers (NC_Outgoing s)) p lp →
     localPrefForPrefix (AO_LocalPrefPrefixesModifiers (NC_Outgoing d)) !! p = Some e → e = lp) →
  ∃ d', mergeIntoNeighbor d s = Ok d'.
Proof.
  intros Hc H4 H6 Hlp. destruct (mergeAllowedOut_is_Ok _ _ H4 H6 Hlp) as [out Ho].
  eexists. apply mergeIntoNeighbor_Ok. eauto.
Qed.
