(* ===== verification/MergeNeighbors.v ===== *)
(** * Merging lists of neighbors: the pointer program and its specification

    [mergeNeighborsLists] works on [*NeighborConfig] pointers and mutates the
    objects they point to.  [merge_spec] is the same computation on values.
    The first theorem says that on distinct objects the pointer program
    implements the specification, errors included, and touches nothing else;
    the second covers the aliased call [mergeNeighborsLists(ns, ns)] that
    [validateRouterConfig] makes. *)

From Stdlib Require Import Lia.
From S2P Require Import Prelude GoStrings GoNet IPFamily Community Api FrrConfig Errors Merge.
From S2P Require Import ApiToConfig Samples MergeFacts.

(** ** The specification: neighbors by ID, merged in list order *)

Definition merge_spec_step (m : gmap string NeighborConfig) (n : NeighborConfig)
    : res (gmap string NeighborConfig) :=
  match m !! ID n with
  | None => Ok (<[ID n := n]> m)
  | Some dest => dest' ← mergeIntoNeighbor dest n; Ok (<[ID n := dest']> m)
  end.

Definition merge_spec (ns : list NeighborConfig) : res (gmap string NeighborConfig) :=
  foldM merge_spec_step ∅ ns.

(** The pointers [ps] hold the values [ns]. *)
Definition points_to (h : heap) (ps : list loc) (ns : list NeighborConfig) : Prop :=
  Forall2 (λ p n, h !! p = Some n) ps ns.

(** ** Sorted keys of maps with the same domain *)

Lemma sortedKeys_dom {A B} `{Countable K, !Ordered K} (m1 : gmap K A) (m2 : gmap K B) :
  (∀ k, is_Some (m1 !! k) ↔ is_Some (m2 !! k)) → sortedKeys m1 = sortedKeys m2.
Proof.
  intros Hd. apply (StronglySorted_unique ord_le); auto using sortedKeys_sorted.
  apply NoDup_Permutation; auto using sortedKeys_NoDup.
  intros k. by rewrite !elem_of_sortedKeys.
Qed.

Lemma sortMap_Forall2 {A B} `{Countable K, !Ordered K} (R : A → B → Prop)
    (m1 : gmap K A) (m2 : gmap K B) :
  (∀ k, option_Forall2 R (m1 !! k) (m2 !! k)) → Forall2 R (sortMap m1) (sortMap m2).
Proof.
  intros HR. unfold sortMap.
  rewrite (sortedKeys_dom m1 m2)
    by (intros k; destruct (HR k); split; intros []; by eauto).
  induction (sortedKeys m2) as [|k ks IH]; simpl; [constructor|].
  cbn [omap list_omap]. destruct (HR k); auto.
Qed.

(** ** The simulation *)

(** Pointers and values agree on the neighbors merged so far, and the objects
    still to come are not among them. *)
Record sim (h : heap) (ml : gmap string loc) (m : gmap string NeighborConfig)
    (rest : list loc) : Prop := {
  sim_vals id : option_Forall2 (λ p n, h !! p = Some n) (ml !! id) (m !! id);
  sim_inj id1 id2 p : ml !! id1 = Some p → ml !! id2 = Some p → id1 = id2;
  sim_rest id p : ml !! id = Some p → p ∉ rest
}.

Lemma sim_empty h rest : sim h ∅ ∅ rest.
Proof. split; intros; rewrite ?lookup_empty in *; [constructor|done..]. Qed.

Lemma sim_new h ml m p n rest :
  sim h ml m (p :: rest) → p ∉ rest → h !! p = Some n → ml !! ID n = None →
  sim h (<[ID n := p]> ml) (<[ID n := n]> m) rest.
Proof.
  intros [Hv Hi Hr] Hp Hn Hnone. split.
  - intros id. destruct (decide (ID n = id)) as [<-|].
    + rewrite !lookup_insert_eq. by constructor.
    + by rewrite !lookup_insert_ne.
  - intros id1 id2 q. rewrite !lookup_insert_Some.
    intros [[<- Hq1]|[? H1]] [[<- Hq2]|[? H2]]; subst; [done|..].
    + by destruct (Hr _ _ H2); left.
    + by destruct (Hr _ _ H1); left.
    + eauto.
  - intros id q. rewrite lookup_insert_Some. intros [[_ <-]|[? H1]]; [done|].
    specialize (Hr _ _ H1). set_solver.
Qed.

Lemma sim_update h ml m d n' id p rest :
  sim h ml m (p :: rest) → ml !! id = Some d →
  sim (<[d := n']> h) ml (<[id := n']> m) rest.
Proof.
  intros [Hv Hi Hr] Hd. split; [|done|].
  - intros id'. destruct (decide (id = id')) as [<-|Hne].
    + rewrite Hd, lookup_insert_eq. constructor. apply lookup_insert_eq.
    + rewrite lookup_insert_ne by done. specialize (Hv id').
      destruct (ml !! id') as [q|] eqn:Hq; inversion Hv; subst; constructor.
      rewrite lookup_insert_ne; [done|]. intros ->. eauto.
  - intros id' q Hq. specialize (Hr _ _ Hq). set_solver.
Qed.

Lemma points_to_update h d n' ps ns :
  d ∉ ps → points_to h ps ns → points_to (<[d := n']> h) ps ns.
Proof.
  unfold points_to. intros Hd H. induction H; constructor; [|set_solver].
  rewrite lookup_insert_ne; [done|]. set_solver.
Qed.

(** One iteration on pointers is one iteration on values. *)
Lemma mergeNeighborsStep_sim h ml m p n ps :
  sim h ml m (p :: ps) → p ∉ ps → h !! p = Some n →
  match merge_spec_step m n with
  | Ok m' => ∃ ml' h', mergeNeighborsStep ml p h = Ok (ml', h') ∧ sim h' ml' m' ps ∧
      (h' = h ∨ ∃ id d n', ml !! id = Some d ∧ h' = <[d := n']> h)
  | Err e => mergeNeighborsStep ml p h = Err e
  end.
Proof.
  intros Hs Hp Hn. unfold merge_spec_step, mergeNeighborsStep. rewrite (load_bind _ _ _ n Hn).
  pose proof (sim_vals _ _ _ _ Hs (ID n)) as Hv.
  destruct (ml !! ID n) as [d|] eqn:Hd; inversion Hv as [? dest Hdest|]; subst; simpl.
  - rewrite (load_bind _ _ _ dest Hdest).
    destruct (mergeIntoNeighbor dest n) as [dest'|e]; simpl; [|done].
    do 2 eexists; split; [done|]. split; [by eapply sim_update|]. eauto 10.
  - do 2 eexists; split; [done|]. split; [|by left]. by apply sim_new.
Qed.

Lemma foldMH_merge_sim h ml m ps ns :
  NoDup ps → sim h ml m ps → points_to h ps ns →
  match foldM merge_spec_step m ns with
  | Ok m' => ∃ ml' h', foldMH mergeNeighborsStep ml ps h = Ok (ml', h') ∧ sim h' ml' m' [] ∧
      (∀ q, q ∉ ps → (∀ id, ml !! id ≠ Some q) → h' !! q = h !! q)
  | Err e => foldMH mergeNeighborsStep ml ps h = Err e
  end.
Proof.
  intros Hnd Hs Hpt. revert h ml m Hnd Hs Hpt.
  induction ps as [|p ps IH] in ns |- *; intros h ml m Hnd Hs Hpt;
    inversion Hpt as [|? n ? ns' Hn Hpt']; subst; simpl; [by eauto 10|].
  apply NoDup_cons in Hnd as [Hp Hnd].
  pose proof (mergeNeighborsStep_sim h ml m p n ps Hs Hp Hn) as Hstep.
  destruct (merge_spec_step m n) as [m1|e]; simpl.
  2: { unfold mbind, M_bind. by rewrite Hstep. }
  destruct Hstep as (ml1 & h1 & Hstep & Hs1 & Hh1).
  assert (points_to h1 ps ns') as Hpt1.
  { destruct Hh1 as [->|(id & d & n' & Hd & ->)]; [done|].
    apply points_to_update; [|done]. pose proof (sim_rest _ _ _ _ Hs _ _ Hd). set_solver. }
  specialize (IH ns' h1 ml1 m1 Hnd Hs1 Hpt1). unfold mbind, M_bind. rewrite Hstep.
  destruct (foldM merge_spec_step m1 ns') as [m'|e]; [|done].
  destruct IH as (ml' & h' & Hf & Hs' & Hframe). exists ml', h'. split_and!; [done..|].
  intros q Hq Hml. rewrite Hframe.
  - destruct Hh1 as [->|(id & d & n' & Hd & ->)]; [done|].
    rewrite lookup_insert_ne; [done|]. intros ->. by eapply Hml.
  - set_solver.
  - intros id Hid. clear Hf Hframe Hs'.
    unfold mergeNeighborsStep in Hstep. rewrite (load_bind _ _ _ n Hn) in Hstep.
    destruct (ml !! ID n) as [d|] eqn:Ed; inv_ok; [by eapply Hml|].
    rewrite lookup_insert_Some in Hid.
    destruct Hid as [[_ <-]|[_ ?]]; [set_solver|by eapply Hml].
Qed.

(** ** The refinement *)

(** C10: [mergeNeighborsLists] on pointers to distinct neighbors does what the
    value-level specification [merge_spec] says: it fails with the same error,
    or succeeds with pointers, in ID order, to the neighbors of the
    specification, and it writes to no other object. *)
Theorem mergeNeighborsLists_refines h first toMerge ns :
  NoDup (first ++ toMerge) → points_to h (first ++ toMerge) ns →
  match merge_spec ns with
  | Ok m => ∃ ps h', mergeNeighborsLists first toMerge h = Ok (ps, h') ∧
      points_to h' ps (sortMap m) ∧ (∀ q, q ∉ first ++ toMerge → h' !! q = h !! q)
  | Err e => mergeNeighborsLists first toMerge h = Err e
  end.
Proof.
  intros Hnd Hpt. unfold mergeNeighborsLists.
  destruct (Nat.eqb_spec (length (first ++ toMerge)) 0) as [H0|_].
  - apply nil_length_inv in H0. rewrite H0 in *. inversion Hpt; subst; simpl.
    exists [], h. split_and!; [done|constructor|done].
  - pose proof (foldMH_merge_sim h ∅ ∅ _ ns Hnd (sim_empty h _) Hpt) as Hf.
    unfold merge_spec. destruct (foldM merge_spec_step ∅ ns) as [m|e].
    + destruct Hf as (ml & h' & Hf & Hs & Hframe).
      exists (sortMap ml), h'. split_and!.
      * unfold mbind, M_bind. by rewrite Hf.
      * apply sortMap_Forall2, (sim_vals _ _ _ _ Hs).
      * intros q Hq. apply Hframe; [done|]. intros id. by rewrite lookup_empty.
    + unfold mbind, M_bind. by rewrite Hf.
Qed.

(** Two definitions of one session, and another neighbor. *)
Lemma mergeNeighborsLists_refines_witness :
  match merge_spec [ncA; ncC; ncB] with
  | Ok m => size m = 2 ∧ ∃ ps h', mergeNeighborsLists [1%positive; 3%positive] [2%positive] sampleHeap
              = Ok (ps, h') ∧ points_to h' ps (sortMap m) ∧
              (∀ q, q ∉ [1%positive; 3%positive] ++ [2%positive] → h' !! q = sampleHeap !! q)
  | Err e => False
  end.
Proof.
  assert (NoDup ([1%positive; 3%positive] ++ [2%positive])) as Hnd by by_evaluation.
  assert (points_to sampleHeap ([1%positive; 3%positive] ++ [2%positive]) [ncA; ncC; ncB]) as Hpt
    by (repeat constructor).
  pose proof (mergeNeighborsLists_refines sampleHeap _ _ _ Hnd Hpt) as H.
  run_ok (merge_spec [ncA; ncC; ncB]) m E. split; [|exact H].
  assert (size <$> merge_spec [ncA; ncC; ncB] = Ok 2) as Hs by (vm_compute; reflexivity).
  rewrite E in Hs. injection Hs as Hs. exact Hs.
Defined.

(** ** The aliased merge *)

(** The first half of [mergeNeighborsLists ps ps], when the IDs are distinct:
    every neighbor is registered under its ID and nothing is merged. *)
Lemma first_pass h ps ns ml :
  points_to h ps ns → NoDup (ID <$> ns) → (∀ n, n ∈ ns → ml !! ID n = None) →
  ∃ ml', foldMH mergeNeighborsStep ml ps h = Ok (ml', h) ∧
    (∀ id p, ml' !! id = Some p ↔
       ml !! id = Some p ∨ ∃ n, (p, n) ∈ zip ps ns ∧ ID n = id).
Proof.
  unfold points_to. intros Hpt. revert ml; induction Hpt as [|p n ps ns Hn Hpt IH];
    intros ml Hnd Hml; simpl.
  { exists ml. split; [done|]. set_solver. }
  apply NoDup_cons in Hnd as [Hid Hnd].
  assert (mergeNeighborsStep ml p h = Ok (<[ID n := p]> ml, h)) as Hstep.
  { unfold mergeNeighborsStep. rewrite (load_bind _ _ _ n Hn), Hml by left. done. }
  destruct (IH (<[ID n := p]> ml)) as (ml' & Hf & Hml'); [done|..].
  { intros n' Hn'. rewrite lookup_insert_ne; [apply Hml; by right|].
    intros Heq. apply Hid. rewrite Heq. by apply list_elem_of_fmap_2. }
  exists ml'. split; [unfold mbind, M_bind; by rewrite Hstep|].
  intros id q. rewrite Hml', lookup_insert_Some. setoid_rewrite elem_of_cons.
  split.
  - intros [[[<- <-]|[_ ?]]|(n' & ? & ?)]; eauto 10.
  - intros [Hq|(n' & [[= -> ->]|?] & <-)]; eauto 10.
    left; right. split; [|done]. intros <-. rewrite Hml in Hq by left. done.
Qed.

(** The second half: each neighbor is merged with itself. *)
Lemma second_pass h ps ns ns' ml :
  NoDup ps → points_to h ps ns → (∀ p n, (p, n) ∈ zip ps ns → ml !! ID n = Some p) →
  mapE (λ n, mergeIntoNeighbor n n) ns = Ok ns' →
  ∃ h', foldMH mergeNeighborsStep ml ps h = Ok (ml, h') ∧ points_to h' ps ns' ∧
    (∀ q, q ∉ ps → h' !! q = h !! q).
Proof.
  intros Hnd Hpt. revert h ns' Hpt.
  induction ps as [|p ps IH] in ns, Hnd |- *; intros h ns' Hpt Hml Hm;
    inversion Hpt as [|? n ? ns1 Hn Hpt1]; subst; simpl in *.
  { injection Hm as <-. exists h. split_and!; [done|constructor|done]. }
  apply NoDup_cons in Hnd as [Hp Hnd]. apply bind_Ok in Hm as (n' & Hn' & Hm).
  apply bind_Ok in Hm as (ns1' & Hm & [= <-]).
  assert (mergeNeighborsStep ml p h = Ok (ml, <[p := n']> h)) as Hstep.
  { unfold mergeNeighborsStep. rewrite (load_bind _ _ _ n Hn), (Hml p n) by left.
    by rewrite (load_bind _ _ _ n Hn), Hn'. }
  destruct (IH ns1 Hnd (<[p := n']> h) ns1') as (h' & Hf & Hpt' & Hframe);
    [by apply points_to_update|intros q m Hqm; apply Hml; by right|done|].
  exists h'. split; [unfold mbind, M_bind; by rewrite Hstep|]. split.
  - constructor; [|done]. rewrite Hframe by done. apply lookup_insert_eq.
  - intros q Hq. rewrite Hframe by set_solver. apply lookup_insert_ne. set_solver.
Qed.

(** A neighbor can be merged with itself unless one of its prefixes has two
    local preferences. *)
Lemma mergeIntoNeighbor_self n :
  out_wf (NC_Outgoing n) → ∃ n', mergeIntoNeighbor n n = Ok n'.
Proof.
  intros Hwf. apply mergeIntoNeighbor_is_Ok; [done|by right; right..|].
  intros p lp e Hlp Hk%localPrefForPrefix_Some. by eapply (out_lp_functional _ Hwf).
Qed.

Lemma mergeIntoNeighbor_self_all ns :
  Forall (λ n, out_wf (NC_Outgoing n)) ns →
  ∃ ns', mapE (λ n, mergeIntoNeighbor n n) ns = Ok ns'.
Proof.
  induction 1 as [|n ns Hn _ [ns' IH]]; simpl; [by eauto|].
  destruct (mergeIntoNeighbor_self n Hn) as [n' ->]; simpl. rewrite IH. by eexists.
Qed.

(** The map of pointers and the map of values agree, by ID. *)
Lemma zip_lookup h' (ml : gmap string positive) ps (ns ns' : list NeighborConfig) :
  NoDup (ID <$> ns) → points_to h' ps ns' →
  Forall2 (λ n n', ID n' = ID n) ns ns' →
  (∀ id p, ml !! id = Some p ↔ ∃ n, (p, n) ∈ zip ps ns ∧ ID n = id) →
  points_to h' (sortMap ml) (sortMap (index_by ID ns')).
Proof.
  intros Hnd Hpt Hids Hml.
  assert (ID <$> ns' = ID <$> ns) as Hmap.
  { clear -Hids. induction Hids; [done|]. cbn. by f_equal. }
  apply sortMap_Forall2. intros id.
  assert (∀ x y, x ∈ ns' → y ∈ ns' → ID x = ID y → x = y) as Hsep.
  { intros x y [i Hi]%list_elem_of_lookup [j Hj]%list_elem_of_lookup Hxy.
    assert (i = j) as ->; [|congruence]. rewrite <-Hmap in Hnd.
    eapply NoDup_lookup; [exact Hnd|..]; rewrite list_lookup_fmap; [by rewrite Hi|].
    rewrite Hj; simpl. by rewrite Hxy. }
  assert (∀ p, ml !! id = Some p → ∃ n', index_by ID ns' !! id = Some n' ∧ h' !! p = Some n') as Hfw.
  { intros p (n & [i Hi]%list_elem_of_lookup & <-)%Hml.
    rewrite lookup_zip_Some in Hi. destruct Hi as [Hp Hn].
    destruct (Forall2_lookup_l _ _ _ _ _ Hpt Hp) as (n' & Hn' & Hh).
    destruct (Forall2_lookup_lr _ _ _ _ _ _ Hids Hn Hn').
    exists n'. split; [|done]. apply (index_by_lookup ID _ _ _ Hsep).
    split; [by eapply list_elem_of_lookup_2|done]. }
  destruct (ml !! id) as [p|] eqn:E.
  - destruct (Hfw p eq_refl) as (n' & -> & ?). by constructor.
  - destruct (index_by ID ns' !! id) as [n'|] eqn:E'; [|constructor].
    apply index_by_Some in E' as [[i Hi]%list_elem_of_lookup Hid].
    destruct (Forall2_lookup_r _ _ _ _ _ Hpt Hi) as (p & Hp & _).
    destruct (Forall2_lookup_r _ _ _ _ _ Hids Hi) as (n & Hn & Hnn).
    rewrite (proj2 (Hml id p)) in E; [done|]. exists n. split; [|congruence].
    apply (list_elem_of_lookup_2 _ i), lookup_zip_Some. done.
Qed.

(** The aliased call [mergeNeighborsLists(r.Neighbors, r.Neighbors)] of
    [validateRouterConfig], where the destination and the source of every merge
    are the same object: for distinct neighbors, none with two local preferences
    for a prefix, it always succeeds, each object ends up merged with its own
    former value exactly once, and no other object changes. *)
Theorem mergeNeighborsLists_self h ps ns :
  NoDup ps → points_to h ps ns → NoDup (ID <$> ns) →
  Forall (λ n, out_wf (NC_Outgoing n)) ns →
  ∃ ls h' ns', mergeNeighborsLists ps ps h = Ok (ls, h') ∧
    Forall2 (λ n n', mergeIntoNeighbor n n = Ok n') ns ns' ∧
    points_to h' ls (sortMap (index_by ID ns')) ∧
    (∀ q, q ∉ ps → h' !! q = h !! q).
Proof.
  intros Hnd Hpt Hids Hwf. destruct (mergeIntoNeighbor_self_all ns Hwf) as [ns' Hns'].
  destruct (first_pass h ps ns ∅) as (ml & Hf1 & Hml); [done..|].
  assert (∀ id p, ml !! id = Some p ↔ ∃ n, (p, n) ∈ zip ps ns ∧ ID n = id) as Hml'.
  { intros id p. rewrite Hml, lookup_empty. naive_solver. }
  destruct (second_pass h ps ns ns' ml) as (h' & Hf2 & Hpt' & Hframe);
    [done|done| |done|]; [intros p n Hpn; apply Hml'; by eauto|].
  apply mapE_Ok in Hns'. unfold mergeNeighborsLists.
  destruct (Nat.eqb_spec (length (ps ++ ps)) 0) as [H0|_].
  - apply nil_length_inv, app_eq_nil in H0 as [-> _]. inversion Hpt; subst.
    inversion Hns'; subst. exists [], h, []. split_and!; [done|constructor|constructor|done].
  - exists (sortMap ml), h', ns'. split_and!; [|done| |done].
    + unfold mbind, M_bind. rewrite foldMH_app. unfold mbind, M_bind. by rewrite Hf1, Hf2.
    + eapply zip_lookup; [exact Hids|done| |done].
      eapply Forall2_impl; [exact Hns'|]. intros n n'. apply mergeIntoNeighbor_ID.
Qed.

Lemma sampleOut_wf v4 lps : length lps ≤ 1 → out_wf (sampleOut v4 lps).
Proof.
  intros Hlen. destruct lps as [|[lp ps] [|]]; simpl in Hlen; [| |lia]; split; simpl;
    try apply NoDup_singleton; try apply NoDup_nil_2.
  - intros p l1 l2 (pl & Hpl & _). by apply not_elem_of_nil in Hpl.
  - intros p l1 l2 (x & ->%list_elem_of_singleton & _ & <-) (y & ->%list_elem_of_singleton & _ & <-).
    done.
Qed.

Lemma mergeNeighborsLists_self_witness :
  ∃ ls h' ns', mergeNeighborsLists [1%positive; 3%positive] [1%positive; 3%positive] sampleHeap
      = Ok (ls, h') ∧
    Forall2 (λ n n', mergeIntoNeighbor n n = Ok n') [ncA; ncC] ns' ∧
    points_to h' ls (sortMap (index_by ID ns')) ∧
    (∀ q, q ∉ [1%positive; 3%positive] → h' !! q = sampleHeap !! q).
Proof.
  apply mergeNeighborsLists_self.
  - by_evaluation.
  - repeat constructor.
  - by_evaluation.
  - constructor; [|constructor; [|constructor]]; (apply sampleOut_wf; simpl; lia).
Defined.
