(* ===== verification/MergeProps.v ===== *)
(** * Properties of the merge

    What merging two descriptions of the same neighbor, of its prefixes and of
    an EVPN configuration gives, when it fails, and that the order of the
    two does not matter. *)

From Stdlib Require Import Lia.
From S2P Require Import Prelude GoStrings GoNet IPFamily Community Api FrrConfig Errors Merge.
From S2P Require Import ApiToConfig Samples MergeFacts.

(** ** Lemmas on the order of the arguments *)

Section prefix_lists_comm.
Context {PL : Type} (key : PL → string) (join : PL → PL → PL).
Hypothesis join_key : ∀ a b, key (join a b) = key a.

(** With one list per key, the merge is pointwise. *)
Lemma add_all_lookup l m k :
  NoDup (key <$> l) →
  foldl (add_list key join) m l !! k =
  union_with (λ x y, Some (join x y)) (m !! k) (index_by key l !! k).
Proof using Type.
  intros Hnd. induction l as [|pl l IH] using rev_ind.
  { simpl. change (index_by key [] !! k) with (None : option PL).
    by rewrite (right_id_L None (union_with _)). }
  rewrite fmap_app in Hnd. apply NoDup_app in Hnd as (Hnd & Hdis & _).
  rewrite foldl_snoc, index_by_snoc. unfold add_list at 1.
  assert (index_by key l !! key pl = None) as Hnone.
  { apply eq_None_not_Some. rewrite index_by_is_Some. intros Hin.
    apply (Hdis _ Hin). by left. }
  pose proof (IH Hnd) as IH'. destruct (decide (key pl = k)) as [<-|Hne].
  - rewrite IH', Hnone, lookup_insert_eq.
    rewrite (right_id_L None (union_with _)).
    destruct (m !! key pl) as [x|]; simpl; by rewrite lookup_insert_eq.
  - rewrite (lookup_insert_ne (index_by key l)) by done.
    destruct (foldl _ m l !! key pl); by rewrite lookup_insert_ne.
Qed.

Lemma mergePrefixLists_comm a b :
  NoDup (key <$> a) → NoDup (key <$> b) →
  (∀ x y, x ∈ a → y ∈ b → key x = key y → join x y = join y x) →
  mergePrefixLists key join a b = mergePrefixLists key join b a.
Proof using Type.
  intros Ha Hb Hj. unfold mergePrefixLists. f_equal. apply map_eq. intros k.
  rewrite !add_all_lookup by done.
  destruct (index_by key a !! k) as [x|] eqn:Ex, (index_by key b !! k) as [y|] eqn:Ey; simpl; try done.
  apply index_by_Some in Ex as [? <-], Ey as [? Hk]. f_equal. by apply Hj.
Qed.
End prefix_lists_comm.

Lemma index_by_app_comm {V} `{Countable K} (key : V → K) a b :
  (∀ x y, x ∈ a ++ b → y ∈ a ++ b → key x = key y → x = y) →
  index_by key (a ++ b) = index_by key (b ++ a).
Proof.
  intros Hsep. apply map_eq. intros k. apply option_eq. intros v.
  rewrite !index_by_lookup; [|set_solver..]. rewrite !elem_of_app. tauto.
Qed.

Lemma unset_default_ext {T} `{EqDecision T} (p q : option T) def :
  default def p = default def q → unset_default p def = unset_default q def.
Proof.
  destruct p as [x|], q as [y|]; simpl; intros; subst; try done; by case_bool_decide.
Qed.

Lemma either_comm (a b : string) :
  a = "" ∨ b = "" ∨ a = b →
  (if bool_decide (a = "") then b else a) = (if bool_decide (b = "") then a else b).
Proof. repeat case_bool_decide; naive_solver. Qed.

Lemma sets_New_app_comm (a b : list string) : sets_New (a ++ b) = sets_New (b ++ a).
Proof. unfold sets_New. rewrite !list_to_set_app_L. apply (comm_L (∪)). Qed.

(** ** Outgoing prefixes *)

(** Lists with the same key have the same name, as after conversion, where the
    name is computed from the neighbor and the key. *)
Record same_names (a b : AllowedOut) : Prop := {
  sn_lp x y : x ∈ AO_LocalPrefPrefixesModifiers a → y ∈ AO_LocalPrefPrefixesModifiers b →
    localPref_key x = localPref_key y → PL_Name (LPL_PrefixList x) = PL_Name (LPL_PrefixList y);
  sn_comm x y : x ∈ AO_CommunityPrefixesModifiers a → y ∈ AO_CommunityPrefixesModifiers b →
    community_key x = community_key y → PL_Name (CPL_PrefixList x) = PL_Name (CPL_PrefixList y)
}.

Lemma localPref_join_comm x y :
  localPref_key x = localPref_key y →
  PL_Name (LPL_PrefixList x) = PL_Name (LPL_PrefixList y) →
  localPref_join x y = localPref_join y x.
Proof.
  intros [Hl Hf]%localPrefPrefixListKey_inj Hn.
  unfold localPref_join, union_prefixes. rewrite Hl, Hn, Hf. by rewrite (comm_L (∪)).
Qed.

Lemma community_join_comm x y :
  community_key x = community_key y →
  PL_Name (CPL_PrefixList x) = PL_Name (CPL_PrefixList y) →
  community_join x y = community_join y x.
Proof.
  intros [Hl Hf]%communityPrefixListKey_inj Hn.
  unfold community_join, union_prefixes. rewrite Hl, Hn, Hf. by rewrite (comm_L (∪)).
Qed.

(** Two configurations never give a prefix two local preferences. *)
Definition lp_agree (a b : AllowedOut) : Prop :=
  ∀ p l1 l2, lp_of (AO_LocalPrefPrefixesModifiers a) p l1 →
    lp_of (AO_LocalPrefPrefixesModifiers b) p l2 → l1 = l2.

Lemma lp_agree_checked a b :
  out_wf a →
  lp_agree a b ↔ ∀ p lp e, lp_of (AO_LocalPrefPrefixesModifiers b) p lp →
     localPrefForPrefix (AO_LocalPrefPrefixesModifiers a) !! p = Some e → e = lp.
Proof.
  intros Ha. unfold lp_agree.
  setoid_rewrite (localPrefForPrefix_functional _ _ _ (out_lp_functional _ Ha)). naive_solver.
Qed.

Lemma mergeAllowedOut_comm_half a b c :
  out_wf a → out_wf b → same_names a b →
  mergeAllowedOut a b = Ok c → mergeAllowedOut b a = Ok c.
Proof.
  intros Ha Hb [Hn1 Hn2] H. apply mergeAllowedOut_inv in H as (H4 & H6 & Hlp & ->).
  apply lp_agree_checked in Hlp; [|done].
  destruct (mergeAllowedOut_is_Ok b a) as [c Hc].
  { unfold nexthop_compat in *. naive_solver. }
  { unfold nexthop_compat in *. naive_solver. }
  { apply lp_agree_checked; [done|]. intros p l1 l2 H1 H2. symmetry. by eapply Hlp. }
  rewrite Hc. apply mergeAllowedOut_inv in Hc as (_ & _ & _ & ->). f_equal. f_equal.
  - by rewrite (comm_L (∪)).
  - by rewrite (comm_L (∪)).
  - symmetry. by apply either_comm.
  - symmetry. by apply either_comm.
  - apply mergePrefixLists_comm; [apply Hb|apply Ha|]. intros x y Hx Hy Hk.
    apply localPref_join_comm; [done|]. symmetry. by apply Hn1.
  - apply mergePrefixLists_comm; [apply Hb|apply Ha|]. intros x y Hx Hy Hk.
    apply community_join_comm; [done|]. symmetry. by apply Hn2.
Qed.

Lemma same_names_sym a b : same_names a b → same_names b a.
Proof. intros [H1 H2]. split; intros; symmetry; auto. Qed.

(** For outgoing configurations as conversion makes them (one list per key,
    one local preference per prefix), merging succeeds exactly when the next
    hops of each family agree or one is unset and no prefix would get two local
    preferences. *)
Theorem mergeAllowedOut_succeeds_iff a b :
  out_wf a →
  (∃ c, mergeAllowedOut a b = Ok c) ↔
  nexthop_compat (AO_NextHopV4 a) (AO_NextHopV4 b) ∧
  nexthop_compat (AO_NextHopV6 a) (AO_NextHopV6 b) ∧ lp_agree a b.
Proof.
  intros Ha. rewrite lp_agree_checked by done. split.
  - intros [c (? & ? & ? & _)%mergeAllowedOut_inv]. done.
  - intros (? & ? & ?). by apply mergeAllowedOut_is_Ok.
Qed.

Lemma sampleOuts_wf : out_wf (NC_Outgoing ncA) ∧ out_wf (NC_Outgoing ncB).
Proof.
  split; split; simpl; try apply NoDup_singleton; try apply NoDup_nil_2;
    intros p l1 l2 (x & ->%list_elem_of_singleton & _ & <-) (y & ->%list_elem_of_singleton & _ & <-);
    done.
Qed.

Lemma mergeAllowedOut_succeeds_iff_witness :
  nexthop_compat (AO_NextHopV4 (NC_Outgoing ncA)) (AO_NextHopV4 (NC_Outgoing ncB)) ∧
  nexthop_compat (AO_NextHopV6 (NC_Outgoing ncA)) (AO_NextHopV6 (NC_Outgoing ncB)) ∧
  lp_agree (NC_Outgoing ncA) (NC_Outgoing ncB).
Proof.
  apply (mergeAllowedOut_succeeds_iff (NC_Outgoing ncA) (NC_Outgoing ncB)).
  - apply sampleOuts_wf.
  - run_ok (mergeAllowedOut (NC_Outgoing ncA) (NC_Outgoing ncB)) c E. exists c. reflexivity.
Defined.

(** C20: the merged outgoing configuration announces exactly the prefixes either
    announces, sorted and without duplicates, tags a prefix with a local
    preference or a community exactly when one of the two does, and is again
    well formed: merging never loses, invents or doubles a tag. *)
Theorem mergeAllowedOut_union a b c :
  out_wf a → out_wf b → mergeAllowedOut a b = Ok c →
  (∀ p, p ∈ AO_PrefixesV4 c ↔ p ∈ AO_PrefixesV4 a ∨ p ∈ AO_PrefixesV4 b) ∧
  (∀ p, p ∈ AO_PrefixesV6 c ↔ p ∈ AO_PrefixesV6 a ∨ p ∈ AO_PrefixesV6 b) ∧
  (StronglySorted String.le (AO_PrefixesV4 c) ∧ NoDup (AO_PrefixesV4 c)) ∧
  (StronglySorted String.le (AO_PrefixesV6 c) ∧ NoDup (AO_PrefixesV6 c)) ∧
  (∀ k p, lp_tagged (AO_LocalPrefPrefixesModifiers c) k p ↔
     lp_tagged (AO_LocalPrefPrefixesModifiers a) k p ∨
     lp_tagged (AO_LocalPrefPrefixesModifiers b) k p) ∧
  (∀ k p, comm_tagged (AO_CommunityPrefixesModifiers c) k p ↔
     comm_tagged (AO_CommunityPrefixesModifiers a) k p ∨
     comm_tagged (AO_CommunityPrefixesModifiers b) k p) ∧
  out_wf c.
Proof.
  intros Ha Hb Hc. pose proof (mergeAllowedOut_wf _ _ _ Ha Hb Hc) as Hwf.
  apply mergeAllowedOut_inv in Hc as (_ & _ & _ & ->); simpl. split_and!;
    auto using sets_List_sorted, sets_List_NoDup.
  - intros p. unfold sets_New. by rewrite elem_of_sets_List, elem_of_union, !elem_of_list_to_set.
  - intros p. unfold sets_New. by rewrite elem_of_sets_List, elem_of_union, !elem_of_list_to_set.
  - intros k p. apply localPref_tagged_merge, Ha.
  - intros k p. apply community_tagged_merge, Ha.
Qed.

Lemma mergeAllowedOut_union_witness :
  ∃ c, mergeAllowedOut (NC_Outgoing ncA) (NC_Outgoing ncB) = Ok c ∧
    "203.0.113.0/24" ∈ AO_PrefixesV4 c ∧ out_wf c.
Proof.
  run_ok (mergeAllowedOut (NC_Outgoing ncA) (NC_Outgoing ncB)) c E.
  exists c. split; [reflexivity|].
  pose proof (mergeAllowedOut_union _ _ c (proj1 sampleOuts_wf) (proj2 sampleOuts_wf) E)
    as (Hp & _ & _ & _ & _ & _ & Hwf).
  split; [|exact Hwf]. apply Hp. right. by_evaluation.
Defined.

Lemma sampleOuts_names : same_names (NC_Outgoing ncA) (NC_Outgoing ncB).
Proof.
  split; simpl.
  - by intros x y ->%list_elem_of_singleton ->%list_elem_of_singleton _.
  - by intros x y ?%elem_of_nil.
Qed.

(** ** Incoming prefixes *)

(** A neighbor with this configuration accepts the routes the filter describes. *)
Definition accepts (a : AllowedIn) (f : IncomingFilter) : Prop :=
  AI_All a = true ∨ f ∈ AllPrefixes a.

(** The filters of both, per family, do not collide as map keys. *)
Definition no_in_clash (a b : AllowedIn) : Prop :=
  no_key_clash (AI_PrefixesV4 a ++ AI_PrefixesV4 b) ∧
  no_key_clash (AI_PrefixesV6 a ++ AI_PrefixesV6 b).

(** The merged neighbor accepts exactly what either accepts, "all" absorbing
    everything, as long as no two different filters are written the same as
    [prefix, le, ge] run together. *)
Theorem mergeAllowedIn_union a b f :
  no_in_clash a b →
  accepts (mergeAllowedIn a b) f ↔ accepts a f ∨ accepts b f.
Proof.
  intros [H4 H6]. unfold accepts, mergeAllowedIn, AllPrefixes.
  destruct (AI_All a), (AI_All b); simpl; try tauto.
  rewrite !elem_of_app, !elem_of_mergeIncomingFilters by done. naive_solver.
Qed.

Definition filterA : IncomingFilter := mkIncomingFilter IPv4 "10.0.0.0/8" 24 0.
Definition filterB : IncomingFilter := mkIncomingFilter IPv4 "10.0.0.0/8" 32 16.

Lemma mergeAllowedIn_union_witness :
  accepts (mergeAllowedIn (mkAllowedIn false [filterA] []) (mkAllowedIn false [filterB] [])) filterA.
Proof.
  apply (mergeAllowedIn_union (mkAllowedIn false [filterA] []) (mkAllowedIn false [filterB] [])).
  - split; intros f g; simpl.
    + intros Hf Hg. repeat (apply elem_of_cons in Hf as [->|Hf]); try (by apply elem_of_nil in Hf);
        repeat (apply elem_of_cons in Hg as [->|Hg]); try (by apply elem_of_nil in Hg);
        vm_compute; congruence.
    + intros Hf. by apply elem_of_nil in Hf.
  - left. right. by_evaluation.
Defined.

(** The condition of the previous property is needed.  The key
    [fmt.Sprintf("%s%d%d", f.Prefix, f.LE, f.GE)] writes the filters of
    0.0.0.0/1 le 12 ge 10 and 0.0.0.0/11 le 21 the same, although both selectors are
    valid; merging keeps only one of them, so routes the user allowed are
    dropped.  Merging a neighbor that has both with itself loses one too, and
    every router is merged with itself. *)
Theorem mergeIncomingFilters_drops_filter :
  let f := mkIncomingFilter IPv4 "0.0.0.0/1" 12 10 in
  let g := mkIncomingFilter IPv4 "0.0.0.0/11" 21 0 in
  filterForSelector (mkPrefixSelector "0.0.0.0/1" 12 10) = Ok f ∧
  filterForSelector (mkPrefixSelector "0.0.0.0/11" 21 0) = Ok g ∧
  incomingFilterKey f = incomingFilterKey g ∧
  mergeIncomingFilters [f] [g] = [g] ∧ mergeIncomingFilters [f; g] [f; g] = [g].
Proof. vm_compute. split_and!; reflexivity. Qed.

Lemma mergeAllowedIn_comm a b :
  no_in_clash a b → mergeAllowedIn a b = mergeAllowedIn b a.
Proof.
  intros [H4 H6]. unfold mergeAllowedIn, mergeIncomingFilters.
  rewrite (index_by_app_comm _ (AI_PrefixesV4 a)), (index_by_app_comm _ (AI_PrefixesV6 a)) by done.
  by rewrite (orb_comm (AI_All a)).
Qed.

(** ** Neighbors *)

(** [neighborsAreCompatible] accepts two neighbors exactly when they agree on
    everything that identifies and configures the session, ports and timers
    being compared after their defaults and a BFD profile only when both
    have one; in particular the order does not matter. *)
Theorem neighborsAreCompatible_iff n1 n2 :
  (neighborsAreCompatible n1 n2 = Ok () ↔ compatible n1 n2) ∧
  is_ok (neighborsAreCompatible n1 n2) = is_ok (neighborsAreCompatible n2 n1).
Proof.
  split; [apply neighborsAreCompatible_Ok|]. apply eq_true_iff_eq.
  rewrite !is_ok_true. setoid_rewrite neighborsAreCompatible_Ok.
  split; intros [u H]; exists u; by symmetry.
Qed.

(** What two definitions of the same session share when they come from
    conversion with the same command line and agree on graceful restart. *)
Record same_session (d s : NeighborConfig) : Prop := {
  ss_name : NC_Name d = NC_Name s;
  ss_addr : NC_Addr d = NC_Addr s;
  ss_iface : NC_Iface d = NC_Iface s;
  ss_vrf : NC_VRFName d = NC_VRFName s;
  ss_graceful : NC_GracefulRestart d = NC_GracefulRestart s;
  ss_block : NC_AlwaysBlock d = NC_AlwaysBlock s;
  ss_in : no_in_clash (NC_Incoming d) (NC_Incoming s);
  ss_out : same_names (NC_Outgoing d) (NC_Outgoing s);
  ss_wf_d : out_wf (NC_Outgoing d);
  ss_wf_s : out_wf (NC_Outgoing s)
}.

Lemma no_in_clash_sym a b : no_in_clash a b → no_in_clash b a.
Proof.
  intros [H4 H6]. split; intros f g Hf Hg.
  - apply H4; set_solver.
  - apply H6; set_solver.
Qed.

Lemma same_session_sym d s : same_session d s → same_session s d.
Proof. intros []. split; auto using no_in_clash_sym, same_names_sym. Qed.

Lemma mergeIntoNeighbor_comm_half d s x :
  same_session d s → mergeIntoNeighbor d s = Ok x → mergeIntoNeighbor s d = Ok x.
Proof.
  intros [Hn Ha Hi Hv Hg Hb Hin Hout Hd Hs] (Hc & out & Ho & ->)%mergeIntoNeighbor_Ok.
  apply mergeIntoNeighbor_Ok. split; [by symmetry|].
  exists out. split; [by apply mergeAllowedOut_comm_half|].
  destruct Hc. unfold cleanNeighborDefaults, joined; simpl.
  rewrite (mergeAllowedIn_comm _ _ Hin), Hn, Ha, Hi, Hv, Hg, Hb. f_equal; try congruence.
  - by apply unset_default_ext.
  - by apply unset_default_ext.
  - by apply unset_default_ext.
  - by apply unset_default_ext.
  - by apply either_comm.
  - by rewrite sets_New_app_comm.
Qed.

(** C21: two definitions of the same session can be merged in either order: one order
    succeeds exactly when the other does, with the same result.  This is for definitions that agree in what merging
    does not compare, their name, address, interface, VRF, always-block prefixes, graceful restart and the names of prefix
    lists with the same key, of whose incoming filters no two different ones have the same key, and which each have one
    outgoing prefix list per key and one local preference per prefix.  Without, the first definition
    wins, see [gracefulRestart_first_wins] and [mergeIncomingFilters_drops_filter]. *)
Theorem mergeIntoNeighbor_commutes d s x :
  same_session d s → mergeIntoNeighbor d s = Ok x ↔ mergeIntoNeighbor s d = Ok x.
Proof.
  intros H. split; apply mergeIntoNeighbor_comm_half; auto using same_session_sym.
Qed.

Lemma mergeIntoNeighbor_commutes_witness :
  ∃ x, mergeIntoNeighbor ncA ncB = Ok x ∧ mergeIntoNeighbor ncB ncA = Ok x ∧
    NC_BFDProfile x = "fast" ∧ NC_Port x = None.
Proof.
  assert (same_session ncA ncB) as Hs.
  { split; try reflexivity; try apply sampleOuts_wf; try apply sampleOuts_names.
    split; intros f g Hf; by apply elem_of_nil in Hf. }
  run_ok (mergeIntoNeighbor ncA ncB) x E. exists x. split; [reflexivity|]. split.
  - exact (proj1 (mergeIntoNeighbor_commutes _ _ x Hs) E).
  - assert ((λ x, (NC_BFDProfile x, NC_Port x)) <$> mergeIntoNeighbor ncA ncB = Ok ("fast", None))
      as Hx by (vm_compute; reflexivity).
    rewrite E in Hx. injection Hx as -> ->. split; reflexivity.
Defined.

(** Graceful restart is not among the checked fields: of two compatible
    definitions of one session that differ in it, the first one wins, so the
    result depends on the order of the configurations. *)
Theorem gracefulRestart_first_wins d s x :
  mergeIntoNeighbor d s = Ok x → NC_GracefulRestart x = NC_GracefulRestart d.
Proof. by intros (_ & out & _ & ->)%mergeIntoNeighbor_Ok. Qed.

Definition graceful (n : NeighborConfig) : NeighborConfig :=
  mkNeighborConfig (NC_IPFamily n) (NC_Name n) (NC_ASN n) (NC_SrcAddr n) (NC_Addr n) (NC_Iface n)
    (NC_Port n) (NC_HoldTime n) (NC_KeepaliveTime n) (NC_ConnectTime n) (NC_Password n)
    (NC_BFDProfile n) true (NC_EBGPMultiHop n) (NC_LocalASN n) (NC_VRFName n) (NC_Incoming n)
    (NC_Outgoing n) (NC_AlwaysBlock n) (NC_AddressFamilies n).

Lemma gracefulRestart_first_wins_witness :
  ∃ x y, mergeIntoNeighbor ncA (graceful ncB) = Ok x ∧ mergeIntoNeighbor (graceful ncB) ncA = Ok y ∧
    NC_GracefulRestart x = false ∧ NC_GracefulRestart y = true.
Proof.
  run_ok (mergeIntoNeighbor ncA (graceful ncB)) x E.
  run_ok (mergeIntoNeighbor (graceful ncB) ncA) y E'.
  exists x, y. split; [reflexivity|]. split; [reflexivity|]. split.
  - exact (gracefulRestart_first_wins _ _ _ E).
  - exact (gracefulRestart_first_wins _ _ _ E').
Defined.

(** ** Defaults *)

(** [cleanNeighborDefaults] changes no effective value: the port and the timers
    a neighbor has once defaults are applied stay the same, neighbors that
    differ only in spelling out a default become equal in these fields, and a
    second pass changes nothing. *)
Theorem cleanNeighborDefaults_effective n :
  let c := cleanNeighborDefaults n in
  default defaultBGPPort (NC_Port c) = default defaultBGPPort (NC_Port n) ∧
  default defaultHoldTime (NC_HoldTime c) = default defaultHoldTime (NC_HoldTime n) ∧
  default defaultKeepaliveTime (NC_KeepaliveTime c) =
    default defaultKeepaliveTime (NC_KeepaliveTime n) ∧
  default defaultConnectTime (NC_ConnectTime c) = default defaultConnectTime (NC_ConnectTime n) ∧
  cleanNeighborDefaults c = c ∧
  (∀ m, compatible n m →
     (NC_Port c, NC_HoldTime c, NC_KeepaliveTime c, NC_ConnectTime c) =
     (let d := cleanNeighborDefaults m in
      (NC_Port d, NC_HoldTime d, NC_KeepaliveTime d, NC_ConnectTime d))).
Proof.
  unfold cleanNeighborDefaults; simpl. rewrite !unset_default_value, !unset_default_idemp.
  split_and!; try done. intros m []. f_equal; [f_equal; [f_equal|]|]; by apply unset_default_ext.
Qed.

(** ** EVPN *)

(** The route targets of two VNIs are both left to FRR or both explicit. *)
Definition rts_agree (a b : list string) : Prop := a = [] ↔ b = [].

Lemma length_zero {A} (l : list A) : (length l =? 0)%nat = true ↔ l = [].
Proof. destruct l; simpl; naive_solver. Qed.

Lemma rts_guard (a b : list string) :
  xorb (length a =? 0)%nat (length b =? 0)%nat = false ↔ rts_agree a b.
Proof.
  unfold rts_agree. rewrite <-!length_zero.
  destruct (length a =? 0)%nat, (length b =? 0)%nat; simpl; naive_solver.
Qed.

Lemma mergeVNIProperties_Ok a b c :
  mergeVNIProperties a b = Ok c ↔
  (FVP_RD a = "" ∨ FVP_RD b = "" ∨ FVP_RD a = FVP_RD b) ∧
  rts_agree (FVP_ImportRTs a) (FVP_ImportRTs b) ∧ rts_agree (FVP_ExportRTs a) (FVP_ExportRTs b) ∧
  c = mkFrrVNIProperties (if bool_decide (FVP_RD a = "") then FVP_RD b else FVP_RD a)
        (mergeRTs (FVP_ImportRTs a) (FVP_ImportRTs b))
        (mergeRTs (FVP_ExportRTs a) (FVP_ExportRTs b)).
Proof.
  unfold mergeVNIProperties; cbv zeta. rewrite !guard_Ok, both_set_different, !rts_guard.
  naive_solver.
Qed.

Lemma mergeRTs_comm a b : rts_agree a b → mergeRTs a b = mergeRTs b a.
Proof.
  unfold rts_agree, mergeRTs. intros H. destruct a as [|x a], b as [|y b]; simpl; try done.
  f_equal. apply (sets_New_app_comm (x :: a) (y :: b)).
Qed.

Lemma mergeVNIProperties_comm_half a b c :
  mergeVNIProperties a b = Ok c → mergeVNIProperties b a = Ok c.
Proof.
  rewrite !mergeVNIProperties_Ok. intros (Hrd & Hi & He & ->). unfold rts_agree in *.
  split_and!; [naive_solver|by symmetry..|]. f_equal; [by apply either_comm|by apply mergeRTs_comm..].
Qed.

(** The merge of two L2 VNIs with the same number, either of which may be absent. *)
Definition mergeL2VNI (x y : option FrrL2VNI) : res (option FrrL2VNI) :=
  match x, y with
  | None, _ => Ok y
  | _, None => Ok x
  | Some x, Some y =>
      merged ← wrap (EMergeL2VNI (FL2_VNI x)) (mergeVNIProperties (FL2_Properties x) (FL2_Properties y));
      Ok (Some (mkFrrL2VNI (FL2_VNI x) merged))
  end.

Lemma mergeL2VNIStep_Ok m v m' :
  mergeL2VNIStep m v = Ok m' ↔
  ∃ z, mergeL2VNI (m !! FL2_VNI v) (Some v) = Ok (Some z) ∧ m' = <[FL2_VNI v := z]> m.
Proof.
  unfold mergeL2VNIStep, mergeL2VNI. destruct (m !! FL2_VNI v) as [x|]; [|naive_solver].
  destruct (mergeVNIProperties _ _); simpl; naive_solver.
Qed.

(** With distinct VNIs, the loop of [mergeL2VNIs] merges pointwise. *)
Lemma mergeL2_fold m b m' :
  NoDup (FL2_VNI <$> b) →
  foldM mergeL2VNIStep m b = Ok m' ↔
  ∀ k, mergeL2VNI (m !! k) (index_by FL2_VNI b !! k) = Ok (m' !! k).
Proof.
  revert m'; induction b as [|v b IH] using rev_ind; intros m' Hnd.
  { cbn [foldM]. split.
    - intros [= <-] k. change (index_by FL2_VNI [] !! k) with (None : option FrrL2VNI).
      by destruct (m !! k).
    - intros Hk. f_equal. apply map_eq. intros k. specialize (Hk k).
      change (index_by FL2_VNI [] !! k) with (None : option FrrL2VNI) in Hk.
      by destruct (m !! k); injection Hk. }
  rewrite fmap_app in Hnd. apply NoDup_app in Hnd as (Hnd & Hdis & _).
  assert (index_by FL2_VNI b !! FL2_VNI v = None) as Hnone.
  { apply eq_None_not_Some. rewrite index_by_is_Some. intros Hin. apply (Hdis _ Hin). by left. }
  assert (∀ m1 : gmap N FrrL2VNI,
    (∀ k, mergeL2VNI (m !! k) (index_by FL2_VNI b !! k) = Ok (m1 !! k)) →
    m1 !! FL2_VNI v = m !! FL2_VNI v) as Hsame.
  { intros m1 Hm1. specialize (Hm1 (FL2_VNI v)). rewrite Hnone in Hm1.
    by destruct (m !! FL2_VNI v); injection Hm1. }
  rewrite foldM_app, bind_Ok, index_by_snoc. split.
  - intros (m1 & Hm1 & H). rewrite IH in Hm1 by done. cbn [foldM] in H.
    apply bind_Ok in H as (m2 & (z & Hz & ->)%mergeL2VNIStep_Ok & [= <-]). intros k.
    rewrite (Hsame _ Hm1) in Hz. destruct (decide (FL2_VNI v = k)) as [<-|].
    + by rewrite !lookup_insert_eq.
    + by rewrite !lookup_insert_ne.
  - intros Hk. pose proof (Hk (FL2_VNI v)) as Hv. rewrite lookup_insert_eq in Hv.
    assert (∃ z, m' !! FL2_VNI v = Some z) as [z Hz].
    { unfold mergeL2VNI in Hv. destruct (m !! FL2_VNI v); [|by injection Hv; eauto].
      apply bind_Ok in Hv as (? & _ & [= <-]). eauto. }
    assert (∀ k, mergeL2VNI (m !! k) (index_by FL2_VNI b !! k) =
      Ok (partial_alter (λ _, m !! FL2_VNI v) (FL2_VNI v) m' !! k)) as Hm1.
    { intros k. destruct (decide (FL2_VNI v = k)) as [<-|].
      - rewrite Hnone, lookup_partial_alter_eq. by destruct (m !! FL2_VNI v).
      - rewrite lookup_partial_alter_ne by done. specialize (Hk k).
        by rewrite lookup_insert_ne in Hk by done. }
    exists (partial_alter (λ _, m !! FL2_VNI v) (FL2_VNI v) m'). rewrite IH by done.
    split; [done|]. cbn [foldM]. apply bind_Ok. exists m'. split; [|done].
    apply mergeL2VNIStep_Ok. exists z. rewrite (Hsame _ Hm1), <-Hz. split; [done|].
    apply map_eq. intros k. destruct (decide (FL2_VNI v = k)) as [<-|].
    + by rewrite Hz, lookup_insert_eq.
    + by rewrite lookup_insert_ne, lookup_partial_alter_ne.
Qed.

Lemma mergeL2VNI_comm x y z :
  (∀ a b, x = Some a → y = Some b → FL2_VNI a = FL2_VNI b) →
  mergeL2VNI x y = Ok z → mergeL2VNI y x = Ok z.
Proof.
  destruct x as [x|], y as [y|]; simpl; try done. intros Hv H.
  apply bind_Ok in H as (p & Hp%wrap_Ok & [= <-]).
  rewrite (mergeVNIProperties_comm_half _ _ _ Hp); simpl. by rewrite (Hv x y).
Qed.

Lemma mergeL2VNIs_comm_half a b c :
  NoDup (FL2_VNI <$> a) → NoDup (FL2_VNI <$> b) →
  mergeL2VNIs a b = Ok c → mergeL2VNIs b a = Ok c.
Proof.
  intros Ha Hb. unfold mergeL2VNIs.
  destruct a as [|x a'], b as [|y b']; try done. simpl length; cbn [Nat.eqb andb].
  set (a := x :: a') in *. set (b := y :: b') in *. intros H.
  apply bind_Ok in H as (m & Hm & [= <-]). rewrite mergeL2_fold in Hm by done.
  apply bind_Ok. exists m. split; [|done]. apply mergeL2_fold; [done|].
  intros k. apply mergeL2VNI_comm; [|done].
  by intros v w [_ ->]%index_by_Some [_ ->]%index_by_Some.
Qed.

Lemma mergeL3VNIs_comm_half a b c : mergeL3VNIs a b = Ok c → mergeL3VNIs b a = Ok c.
Proof.
  destruct a as [a|], b as [b|]; simpl; try done.
  rewrite !guard_Ok, !negb_false_iff, !N.eqb_eq. intros [Hv H].
  apply bind_Ok in H as (p & Hp & [= <-]). split; [done|].
  rewrite (mergeVNIProperties_comm_half _ _ _ Hp); simpl. by rewrite Hv, sets_New_app_comm.
Qed.

(** One entry per L2 VNI. *)
Definition evpn_wf (e : option FrrEVPNConfig) : Prop :=
  ∀ c, e = Some c → NoDup (FL2_VNI <$> FE_L2VNIs c).

Lemma mergeEVPNConfigs_comm_half a b c :
  evpn_wf a → evpn_wf b → mergeEVPNConfigs a b = Ok c → mergeEVPNConfigs b a = Ok c.
Proof.
  intros Ha Hb. destruct a as [a|], b as [b|]; simpl; try done.
  rewrite !guard_Ok, !negb_false_iff, !ptrsEqual_spec, !bool_decide_eq_true.
  intros (Hv & Hs & H). apply bind_Ok in H as (l2 & Hl2 & H).
  apply bind_Ok in H as (l3 & Hl3 & [= <-]). split_and!; [done..|].
  rewrite (mergeL2VNIs_comm_half _ _ _ (Ha a eq_refl) (Hb b eq_refl) Hl2); simpl.
  rewrite (mergeL3VNIs_comm_half _ _ _ Hl3); simpl. rewrite Hs. do 3 f_equal.
  destruct (FE_AdvertiseVNIs a), (FE_AdvertiseVNIs b); simpl in *; congruence.
Qed.

(** EVPN configurations of one VRF can be merged in either order: both orders
    give the same result, or both fail. *)
Theorem mergeEVPNConfigs_commutes a b c :
  evpn_wf a → evpn_wf b → mergeEVPNConfigs a b = Ok c ↔ mergeEVPNConfigs b a = Ok c.
Proof. intros. split; by apply mergeEVPNConfigs_comm_half. Qed.

Definition evpnSample (rts : list string) (vnis : list N) : option FrrEVPNConfig :=
  Some (mkFrrEVPNConfig (Some VNIAdvertisementAll) false
    ((λ v, mkFrrL2VNI v (mkFrrVNIProperties "" rts [])) <$> vnis) None).

Lemma evpnSample_wf rts vnis : bool_decide (NoDup vnis) = true → evpn_wf (evpnSample rts vnis).
Proof.
  intros Hnd%bool_decide_eq_true c [= <-]; simpl.
  rewrite <-list_fmap_compose. eapply eq_ind; [exact Hnd|].
  clear. induction vnis as [|v vnis IH]; [done|]. cbn. by f_equal.
Qed.

Lemma mergeEVPNConfigs_commutes_witness :
  ∃ c, mergeEVPNConfigs (evpnSample ["65000:1"] [10%N; 20%N]) (evpnSample ["65000:2"] [20%N; 30%N]) = Ok c ∧
       mergeEVPNConfigs (evpnSample ["65000:2"] [20%N; 30%N]) (evpnSample ["65000:1"] [10%N; 20%N]) = Ok c.
Proof.
  run_ok (mergeEVPNConfigs (evpnSample ["65000:1"] [10%N; 20%N]) (evpnSample ["65000:2"] [20%N; 30%N])) c E.
  exists c. split; [reflexivity|].
  exact (proj1 (mergeEVPNConfigs_commutes _ _ c (evpnSample_wf ["65000:1"] [10%N; 20%N] eq_refl)
    (evpnSample_wf ["65000:2"] [20%N; 30%N] eq_refl)) E).
Defined.

Lemma mergeL2VNIs_vnis a b c :
  NoDup (FL2_VNI <$> a) → NoDup (FL2_VNI <$> b) → mergeL2VNIs a b = Ok c →
  NoDup (FL2_VNI <$> c) ∧
  ∀ v, v ∈ FL2_VNI <$> c ↔ v ∈ FL2_VNI <$> a ∨ v ∈ FL2_VNI <$> b.
Proof.
  intros Ha Hb. unfold mergeL2VNIs.
  destruct a as [|x a'], b as [|y b']; simpl length; cbn [Nat.eqb andb];
    try (intros [= <-]; split; [done|]; intros v; cbn [fmap list_fmap]; set_solver).
  set (a := x :: a') in *. set (b := y :: b') in *. intros H.
  apply bind_Ok in H as (m & Hm & [= <-]). rewrite mergeL2_fold in Hm by done.
  assert (∀ k v, m !! k = Some v → FL2_VNI v = k) as Hkey.
  { intros k v Hk. specialize (Hm k). rewrite Hk in Hm. unfold mergeL2VNI in Hm.
    destruct (index_by FL2_VNI a !! k) as [p|] eqn:Ep;
      [apply index_by_Some in Ep as [_ Ep]|by injection Hm as [_ ?]%index_by_Some].
    destruct (index_by FL2_VNI b !! k) as [q|]; [|by injection Hm as ->].
    by apply bind_Ok in Hm as (? & _ & [= <-]). }
  split; [by apply (sortMap_sorted FL2_VNI)|]. intros v.
  rewrite (sortMap_keys FL2_VNI), elem_of_sortedKeys, <-!index_by_is_Some by done. specialize (Hm v). unfold mergeL2VNI in Hm.
  destruct (index_by FL2_VNI a !! v) as [p|], (index_by FL2_VNI b !! v) as [q|];
    try (injection Hm as <-; clear; naive_solver).
  apply bind_Ok in Hm as (? & _ & [= <-]). naive_solver.
Qed.

Lemma mergeL3VNIs_vni a b c v :
  mergeL3VNIs a b = Ok c →
  FL3_VNI <$> c = Some v ↔ FL3_VNI <$> a = Some v ∨ FL3_VNI <$> b = Some v.
Proof.
  destruct a as [a|], b as [b|]; simpl; try (intros [= <-]; simpl; naive_solver).
  rewrite guard_Ok, negb_false_iff, N.eqb_eq. intros [Hv H].
  apply bind_Ok in H as (p & _ & [= <-]). simpl. rewrite Hv. tauto.
Qed.

(** The merged EVPN configuration has exactly the L2 VNIs of the two, once each,
    and the L3 VNI of whichever has one; mixing implicit and explicit route
    targets, different route distinguishers, different advertisement
    settings or different L3 VNIs are refused. *)
Theorem mergeEVPNConfigs_union a b c :
  evpn_wf (Some a) → evpn_wf (Some b) → mergeEVPNConfigs (Some a) (Some b) = Ok c →
  ∃ e, c = Some e ∧ evpn_wf c ∧
    (∀ v, v ∈ FL2_VNI <$> FE_L2VNIs e ↔ v ∈ FL2_VNI <$> FE_L2VNIs a ∨ v ∈ FL2_VNI <$> FE_L2VNIs b) ∧
    (∀ v, FL3_VNI <$> FE_L3VNI e = Some v ↔
       FL3_VNI <$> FE_L3VNI a = Some v ∨ FL3_VNI <$> FE_L3VNI b = Some v) ∧
    default VNIAdvertisementDisabled (FE_AdvertiseVNIs e) =
      default VNIAdvertisementDisabled (FE_AdvertiseVNIs b) ∧
    FE_AdvertiseSVI e = FE_AdvertiseSVI b.
Proof.
  intros Ha Hb. simpl. rewrite !guard_Ok, !negb_false_iff, ptrsEqual_spec, bool_decide_eq_true.
  intros (Hv & Hs & H). apply bind_Ok in H as (l2 & Hl2 & H).
  apply bind_Ok in H as (l3 & Hl3 & [= <-]). eexists; split; [done|].
  assert (NoDup (FL2_VNI <$> l2) ∧ ∀ v, v ∈ FL2_VNI <$> l2 ↔
    v ∈ FL2_VNI <$> FE_L2VNIs a ∨ v ∈ FL2_VNI <$> FE_L2VNIs b) as [Hnd Hl].
  { by apply mergeL2VNIs_vnis; [apply Ha|apply Hb|]. }
  split_and!; simpl.
  - by intros ? [= <-].
  - done.
  - intros v. by apply mergeL3VNIs_vni.
  - by destruct (FE_AdvertiseVNIs a).
  - done.
Qed.

Lemma mergeEVPNConfigs_union_witness :
  ∃ e, mergeEVPNConfigs (evpnSample ["65000:1"] [10%N; 20%N]) (evpnSample ["65000:2"] [20%N; 30%N])
      = Ok (Some e) ∧ 30%N ∈ FL2_VNI <$> FE_L2VNIs e.
Proof.
  run_ok (mergeEVPNConfigs (evpnSample ["65000:1"] [10%N; 20%N]) (evpnSample ["65000:2"] [20%N; 30%N])) c E.
  destruct (mergeEVPNConfigs_union _ _ c (evpnSample_wf ["65000:1"] [10%N; 20%N] eq_refl)
    (evpnSample_wf ["65000:2"] [20%N; 30%N] eq_refl) E) as (e & -> & _ & Hv & _).
  exists e. split; [reflexivity|]. apply Hv. right. by_evaluation.
Defined.
