(* ===== verification/HeapLogic.v ===== *)
(** * Reasoning about the pointer programs

    A small program logic for the monad [M] of [Merge.v]: [wp m h Q] says that
    [m] run on the store [h] does not panic (it follows no invalid pointer)
    and that [Q] holds of its result and of the final store when it succeeds.
    The rules follow the constructs of the monad; the last section applies
    them to [mergeNeighborsLists]. *)

From Stdlib Require Import Lia.
From S2P Require Import Prelude GoStrings GoNet IPFamily Community Api FrrConfig Errors Merge.
From S2P Require Import MergeFacts.

(** ** Pure code that does not panic *)

(** [np m]: if [m] fails, it is with an [error] value, not with a panic. *)
Definition np {A} (m : res A) : Prop := m ≠ Err EPanic.

Lemma np_Ok {A} (a : A) : np (Ok a).
Proof. done. Qed.
Lemma np_Err {A} e : e ≠ EPanic → np (Err e : res A).
Proof. unfold np. congruence. Qed.
Lemma np_bind {A B} (m : res A) (f : A → res B) :
  np m → (∀ a, m = Ok a → np (f a)) → np (m ≫= f).
Proof. unfold np. destruct m; simpl; [naive_solver|congruence]. Qed.
Lemma np_fail_if b e : e ≠ EPanic → np (fail_if b e).
Proof. unfold np. destruct b; simpl; congruence. Qed.
Lemma np_wrap {A} f (m : res A) : (∀ e, f e ≠ EPanic) → np (wrap f m).
Proof. unfold np. intros Hf. destruct m; simpl; [done|]. intros [=]. by eapply Hf. Qed.
Lemma np_each {A} (f : A → res unit) l : (∀ x, x ∈ l → np (f x)) → np (each f l).
Proof.
  induction l as [|x l IH]; simpl; intros Hf; [done|].
  apply np_bind; [apply Hf; by left|]. intros _ _. apply IH. intros; apply Hf; by right.
Qed.
Lemma np_foldM {A S} (f : S → A → res S) l s : (∀ s x, np (f s x)) → np (foldM f s l).
Proof. intros Hf. revert s; induction l; intros s; simpl; [done|]. by apply np_bind. Qed.
Lemma np_mapE {A B} (f : A → res B) l : (∀ x, np (f x)) → np (mapE f l).
Proof.
  intros Hf. induction l; simpl; [done|]. apply np_bind; [done|]. intros.
  apply np_bind; [done|]. by intros.
Qed.

Create HintDb np discriminated.
#[export] Hint Resolve np_Ok np_Err np_bind np_fail_if np_wrap np_each np_foldM np_mapE : np.
#[export] Hint Extern 1 (_ ≠ EPanic) => discriminate : np.

(** Reduce the goal to the constructs of the code and use the database. *)
Ltac np_solve :=
  repeat first
    [ progress intros
    | progress cbv zeta
    | apply np_bind | apply np_wrap | apply np_fail_if | apply np_each | apply np_foldM
    | apply np_mapE
    | match goal with
      | |- np (if ?b then _ else _) => destruct b
      | |- np (match ?x with _ => _ end) => destruct x
      | |- np ((match ?x with _ => _ end) _) => destruct x
      end
    | solve [eauto with np] ].

(** ** Weakest preconditions *)

Definition wp {A} (m : M A) (h : heap) (Q : A → heap → Prop) : Prop :=
  match m h with Ok (a, h') => Q a h' | Err e => e ≠ EPanic end.

Section rules.
Context {A B : Type}.
Implicit Types (m : M A) (Q : A → heap → Prop) (h : heap).

Lemma wp_mono m h Q1 Q2 : wp m h Q1 → (∀ a h', Q1 a h' → Q2 a h') → wp m h Q2.
Proof. unfold wp. destruct (m h) as [[a h']|e]; naive_solver. Qed.

Lemma wp_ret (a : A) h Q : Q a h → wp (mret a) h Q.
Proof. done. Qed.

Lemma wp_bind m (f : A → M B) h (Q : B → heap → Prop) :
  wp m h (λ a h', wp (f a) h' Q) → wp (m ≫= f) h Q.
Proof. unfold wp, mbind, M_bind. by destruct (m h) as [[??]|]. Qed.

Lemma wp_lift (r : res A) h Q : np r → (∀ a, r = Ok a → Q a h) → wp (lift r) h Q.
Proof. unfold wp, lift, np. destruct r; naive_solver. Qed.

Lemma wp_Ok m h Q a h' : wp m h Q → m h = Ok (a, h') → Q a h'.
Proof. unfold wp. intros H Hm. by rewrite Hm in H. Qed.

Lemma wp_no_panic m h Q : wp m h Q → m h ≠ Err EPanic.
Proof. unfold wp. destruct (m h) as [[a h']|e]; congruence. Qed.
End rules.

Lemma wp_load p h n (Q : NeighborConfig → heap → Prop) :
  h !! p = Some n → Q n h → wp (load p) h Q.
Proof. unfold wp, load. by intros ->. Qed.

Lemma wp_store p n h (Q : unit → heap → Prop) : Q () (<[p := n]> h) → wp (store p n) h Q.
Proof. done. Qed.

Lemma wp_alloc n h (Q : positive → heap → Prop) :
  (∀ p, h !! p = None → Q p (<[p := n]> h)) → wp (alloc n) h Q.
Proof. unfold wp, alloc. intros HQ. apply HQ, not_elem_of_dom, is_fresh. Qed.

(** The loop rule: the invariant speaks of the part of the list already done. *)
Lemma wp_foldMH {A S} (I : list A → S → heap → Prop) (f : S → A → M S) l s h :
  I [] s h →
  (∀ done x s h, x ∈ l → I done s h → wp (f s x) h (I (done ++ [x]))) →
  wp (foldMH f s l) h (I l).
Proof.
  intros H0 Hf.
  assert (∀ done, I done s h → wp (foldMH f s l) h (I (done ++ l))) as Hgen; [|by apply (Hgen [])].
  clear H0. revert s h. induction l as [|x l IH]; intros s h dn Hs; simpl.
  { apply wp_ret. by rewrite app_nil_r. }
  apply wp_bind. eapply wp_mono; [apply Hf; [by left|done]|]. intros s' h' Hs'; simpl.
  rewrite cons_middle, (assoc_L (++)). apply IH; [|done]. intros; apply Hf; [by right|done].
Qed.

(** ** What the neighbors in a store look like *)

(** Objects are never removed, and their identity does not change. *)
Definition extends (h h' : heap) : Prop :=
  ∀ p n, h !! p = Some n →
    ∃ n', h' !! p = Some n' ∧ ID n' = ID n ∧ NC_VRFName n' = NC_VRFName n.

#[global] Instance extends_preorder : PreOrder extends.
Proof.
  split.
  - intros h p n Hn. eauto.
  - intros h1 h2 h3 H12 H23 p n Hn. destruct (H12 p n Hn) as (n2 & Hn2 & ? & ?).
    destruct (H23 p n2 Hn2) as (n3 & ? & ? & ?). exists n3. split_and!; congruence.
Qed.

Lemma extends_alloc h p n : h !! p = None → extends h (<[p := n]> h).
Proof. intros Hp q m Hm. exists m. rewrite lookup_insert_ne by congruence. done. Qed.

Lemma extends_store h p n n' :
  h !! p = Some n → ID n' = ID n → NC_VRFName n' = NC_VRFName n → extends h (<[p := n']> h).
Proof.
  intros Hp Hid Hv q m Hm. destruct (decide (p = q)) as [<-|].
  - simplify_eq. exists n'. by rewrite lookup_insert_eq.
  - exists m. by rewrite lookup_insert_ne.
Qed.

(** The pointers [ps] of a router of VRF [vrf] point to neighbors with these IDs. *)
Definition have_ids (h : heap) (vrf : string) (ps : list positive) (ids : list string) : Prop :=
  Forall2 (λ p id, ∃ n, h !! p = Some n ∧ ID n = id ∧ NC_VRFName n = vrf) ps ids.

Lemma have_ids_extends h h' vrf ps ids :
  extends h h' → have_ids h vrf ps ids → have_ids h' vrf ps ids.
Proof.
  intros He Hi. eapply Forall2_impl; [exact Hi|].
  intros p id (n & Hn & <- & <-). by apply He.
Qed.

Definition all_neighbors (P : NeighborConfig → Prop) (h : heap) : Prop :=
  map_Forall (λ _, P) h.

(** A property of neighbors that merging keeps. *)
Definition merge_closed (P : NeighborConfig → Prop) : Prop :=
  ∀ d s d', NC_VRFName d = NC_VRFName s → P d → P s → mergeIntoNeighbor d s = Ok d' → P d'.

(** ** Merging lists of pointers *)

Lemma np_mergeIntoNeighbor d s : np (mergeIntoNeighbor d s).
Proof.
  unfold mergeIntoNeighbor, neighborsAreCompatible. np_solve.
Qed.

Section merge_lists.
Context (P : NeighborConfig → Prop) (HP : merge_closed P) (vrf : string).

(** The invariant of the loop of [mergeNeighborsLists]. *)
Record merging (h0 : heap) (ids : list string) (ml : gmap string positive) (h : heap) : Prop := {
  mg_P : all_neighbors P h;
  mg_extends : extends h0 h;
  mg_valid id p : ml !! id = Some p →
    ∃ n, h !! p = Some n ∧ ID n = id ∧ NC_VRFName n = vrf;
  mg_dom id : is_Some (ml !! id) ↔ id ∈ ids
}.

Lemma merging_step h0 ids ml h p n0 :
  merging h0 ids ml h → h0 !! p = Some n0 → NC_VRFName n0 = vrf →
  wp (mergeNeighborsStep ml p) h (λ ml' h', merging h0 (ids ++ [ID n0]) ml' h').
Proof using HP.
  intros [HPh Hext Hval Hdom] Hp0 Hvrf0.
  destruct (Hext p n0 Hp0) as (n & Hp & Hid & Hvrf). rewrite Hvrf0 in Hvrf.
  unfold mergeNeighborsStep. apply wp_bind, (wp_load _ _ n); [done|]. rewrite Hid.
  destruct (ml !! ID n0) as [d|] eqn:Hd.
  - destruct (Hval _ _ Hd) as (dest & Hdest & Hdid & Hdvrf).
    apply wp_bind, (wp_load _ _ dest); [done|].
    apply wp_bind, wp_lift; [apply np_mergeIntoNeighbor|]. intros dest' Hm.
    pose proof (mergeIntoNeighbor_ID _ _ _ Hm). pose proof (mergeIntoNeighbor_VRFName _ _ _ Hm).
    assert (extends h (<[d := dest']> h)) as Hext' by (by eapply extends_store).
    apply wp_bind, wp_store, wp_ret. split.
    + apply map_Forall_insert_2; [|done]. eapply HP; [|apply (HPh _ _ Hdest)|apply (HPh _ _ Hp)|done].
      congruence.
    + by trans h.
    + intros id q Hq. destruct (Hval _ _ Hq) as (m & Hm' & <- & <-).
      destruct (Hext' q m Hm') as (m' & ? & ? & ?). eauto.
    + intros id. rewrite elem_of_app, list_elem_of_singleton, <-Hdom. naive_solver.
  - apply wp_ret. split; [done..| |].
    + intros id q. rewrite lookup_insert_Some. intros [[<- <-]|[_ Hq]]; eauto.
    + intros id. rewrite lookup_insert_is_Some, elem_of_app, list_elem_of_singleton, <-Hdom.
      destruct (decide (ID n0 = id)); naive_solver.
Qed.

Lemma sortMap_Forall2_keys {V} `{Countable K, !Ordered K} (m : gmap K V) :
  Forall2 (λ v k, m !! k = Some v) (sortMap m) (sortedKeys m).
Proof using Type.
  unfold sortMap.
  assert (∀ k, k ∈ sortedKeys m → is_Some (m !! k)) as Hin
    by (intros k; by rewrite elem_of_sortedKeys).
  induction (sortedKeys m) as [|k ks IH]; [constructor|]. cbn [omap list_omap].
  destruct (Hin k) as [v Hv]; [by left|]. rewrite Hv. constructor; [done|].
  apply IH. intros; apply Hin; by right.
Qed.

(** The merge of two lists of one router: the objects keep [P] and their
    identity, the result is sorted by ID without duplicates, and it has the
    IDs of both lists. *)
Lemma wp_mergeNeighborsLists h first toMerge ids :
  all_neighbors P h → have_ids h vrf (first ++ toMerge) ids →
  wp (mergeNeighborsLists first toMerge) h (λ ps h',
    all_neighbors P h' ∧ extends h h' ∧ ∃ ids', have_ids h' vrf ps ids' ∧
      StronglySorted String.le ids' ∧ NoDup ids' ∧ ∀ id, id ∈ ids' ↔ id ∈ ids).
Proof using HP.
  intros HPh Hids. unfold mergeNeighborsLists.
  destruct (Nat.eqb_spec (length (first ++ toMerge)) 0) as [H0|_].
  { apply nil_length_inv in H0. rewrite H0 in Hids. inversion Hids; subst.
    apply wp_ret. split_and!; [done..|]. exists []. split_and!; [constructor..|done]. }
  apply wp_bind.
  set (I := λ (dn : list positive) (ml : gmap string positive) (h1 : heap),
    ∃ idn, have_ids h vrf dn idn ∧ merging h idn ml h1).
  eapply wp_mono; [apply (wp_foldMH I)|].
  - exists []. split; [constructor|]. split; [done..| |].
    + intros id p. by rewrite lookup_empty.
    + intros id. rewrite lookup_empty. split; [by intros []|set_solver].
  - intros dn p ml h1 Hp (idn & Hidn & Hmg).
    apply list_elem_of_lookup in Hp as [i Hi].
    destruct (Forall2_lookup_l _ _ _ _ _ Hids Hi) as (id & _ & n0 & Hn0 & <- & Hv).
    eapply wp_mono; [by apply (merging_step _ _ _ _ _ n0 Hmg)|]. intros ml' h' Hmg'.
    exists (idn ++ [ID n0]). split; [|done]. apply Forall2_app; [done|].
    constructor; [eauto|constructor].
  - intros ml h1 (idn & Hidn & [HP1 Hext Hval Hdom]). apply wp_ret. split_and!; [done..|].
    exists (sortedKeys ml). split_and!.
    + eapply Forall2_impl; [apply sortMap_Forall2_keys|]. intros p id. apply Hval.
    + exact (sortedKeys_sorted ml).
    + apply sortedKeys_NoDup.
    + intros id. rewrite elem_of_sortedKeys, Hdom.
      replace ids with idn; [done|]. clear -Hids Hidn. revert ids Hids.
      induction Hidn as [|p id' ps idn (n & Hn & <- & _) _ IH]; intros ids Hids;
        inversion Hids as [|? id2 ? ids2 (n2 & Hn2 & <- & _)]; subst; [done|].
      simplify_eq. f_equal. by apply IH.
Qed.
End merge_lists.
