(* ===== verification/ConvertFacts.v ===== *)
(** * Facts about the conversion of one neighbor

    The lemmas on the pure part of [ApiToConfig.v]: nothing in it panics, what a
    successful conversion says of its input, and which prefixes end up in
    the prefix lists. *)

From Stdlib Require Import Lia.
From S2P Require Import Prelude GoStrings GoNet IPFamily Community Api FrrConfig Errors Merge.
From S2P Require Import ApiToConfig MergeFacts HeapLogic.

(** ** Errors are values *)

Lemma np_parseTimers ht ka : np (parseTimers ht ka).
Proof. unfold parseTimers. np_solve. Qed.

Lemma np_passwordForNeighbor n secrets : np (passwordForNeighbor n secrets).
Proof. unfold passwordForNeighbor. np_solve. Qed.

Lemma np_nextHopToFRR neighbor nh : np (nextHopToFRR neighbor nh).
Proof. unfold nextHopToFRR. np_solve. Qed.

Lemma np_filterForSelector s : np (filterForSelector s).
Proof. unfold filterForSelector, validateSelectorLengths. np_solve. Qed.
#[export] Hint Resolve np_parseTimers np_passwordForNeighbor np_nextHopToFRR
  np_filterForSelector : np.

Lemma np_toReceiveToFRR r : np (toReceiveToFRR r).
Proof. unfold toReceiveToFRR. np_solve. Qed.

Lemma np_toAdvertiseToFRR neighbor adv ps : np (toAdvertiseToFRR neighbor adv ps).
Proof. unfold toAdvertiseToFRR. np_solve. Qed.
#[export] Hint Resolve np_toReceiveToFRR np_toAdvertiseToFRR : np.

Lemma np_neighborToFRR n ps ab vrf secrets bfd : np (neighborToFRR n ps ab vrf secrets bfd).
Proof. unfold neighborToFRR. np_solve. Qed.

Lemma np_validateOutgoingPrefixes ps r : np (validateOutgoingPrefixes ps r).
Proof.
  unfold validateOutgoingPrefixes, validateOutgoingForNeighbor,
    validatePrefixesForNeighborFamily. np_solve.
Qed.

Lemma np_validatePrefixes ps : np (validatePrefixes ps).
Proof. unfold validatePrefixes. np_solve. Qed.

Lemma np_validateImportVRFs r m : np (validateImportVRFs r m).
Proof. unfold validateImportVRFs. np_solve. Qed.

Lemma np_importedPrefixes r m : np (importedPrefixes r m).
Proof. unfold importedPrefixes. np_solve. Qed.

Lemma np_bfdProfilesStep name st b : np (bfdProfilesStep name st b).
Proof. unfold bfdProfilesStep. np_solve. Qed.

Lemma np_validateEVPN rs : np (validateEVPN rs).
Proof.
  unfold validateEVPN, validateUniqueVNIs, uniqueVNIsStep, seeVNI. np_solve.
Qed.
#[export] Hint Resolve np_neighborToFRR np_validateOutgoingPrefixes np_validatePrefixes
  np_validateImportVRFs np_importedPrefixes np_bfdProfilesStep np_validateEVPN : np.

(** ** A converted neighbor *)

(** What a neighbor must satisfy to be converted, apart from its timers,
    password, family and prefixes. *)
Record neighbor_valid (n : Neighbor) (bfd : gmap string FrrBFDProfile) : Prop := {
  nv_one_peer : Neighbor_Address n = "" ↔ Neighbor_Interface n ≠ "";
  nv_bfd : Neighbor_BFDProfile n = "" ∨ is_Some (bfd !! Neighbor_BFDProfile n);
  nv_asn : (Neighbor_ASN n = 0)%N ↔ Neighbor_DynamicASN n ≠ "";
  nv_dynamic : Neighbor_DynamicASN n = "" ∨ Neighbor_DynamicASN n = InternalASNMode ∨
               Neighbor_DynamicASN n = ExternalASNMode
}.

(** The neighbor the conversion hands to [toAdvertiseToFRR] and returns. *)
Definition converted (n : Neighbor) (ab : list IncomingFilter) (vrf : string)
    (family : Family) (timers : option Z * option Z) (password : string)
    (outgoing : AllowedOut) (incoming : AllowedIn) : NeighborConfig :=
  mkNeighborConfig family (neighborName n) (asnFor n) (Neighbor_SourceAddress n)
    (Neighbor_Address n) (Neighbor_Interface n) (Neighbor_Port n)
    (fst timers) (snd timers) ((λ d, Z.quot d Second) <$> Neighbor_ConnectTime n) password
    (Neighbor_BFDProfile n) (Neighbor_EnableGracefulRestart n) (Neighbor_EBGPMultiHop n)
    (Neighbor_LocalASN n) vrf incoming outgoing ab (Neighbor_AddressFamilies n).

Definition noOut : AllowedOut := mkAllowedOut [] [] "" "" [] [].
Definition noIn : AllowedIn := mkAllowedIn false [] [].

Lemma neighbor_valid_guards n bfd :
  neighbor_valid n bfd ↔
  bool_decide (Neighbor_Address n = "") && bool_decide (Neighbor_Interface n = "") = false ∧
  negb (bool_decide (Neighbor_Address n = "")) &&
    negb (bool_decide (Neighbor_Interface n = "")) = false ∧
  negb (bool_decide (Neighbor_BFDProfile n = "")) &&
    negb (bool_decide (is_Some (bfd !! Neighbor_BFDProfile n))) = false ∧
  (Neighbor_ASN n =? 0)%N && bool_decide (Neighbor_DynamicASN n = "") = false ∧
  negb (Neighbor_ASN n =? 0)%N && negb (bool_decide (Neighbor_DynamicASN n = "")) = false ∧
  negb (bool_decide (Neighbor_DynamicASN n = "")) &&
    negb (bool_decide (Neighbor_DynamicASN n = InternalASNMode)) &&
    negb (bool_decide (Neighbor_DynamicASN n = ExternalASNMode)) = false.
Proof.
  rewrite !andb_false_iff, !negb_false_iff, !bool_decide_eq_true, !bool_decide_eq_false,
    N.eqb_eq, N.eqb_neq. split.
  - intros [Ha Hb Hc Hd]. split_and!; try tauto.
    + destruct (decide (Neighbor_Address n = "")); tauto.
    + destruct (decide (Neighbor_Interface n = "")); tauto.
    + destruct (decide (Neighbor_ASN n = 0%N)); tauto.
    + destruct (decide (Neighbor_DynamicASN n = "")); tauto.
  - intros (? & ? & ? & ? & ? & ?). constructor; tauto.
Qed.

(** Conversion succeeds exactly when every check passes, and then this is the result. *)
Lemma neighborToFRR_Ok n ps ab vrf secrets bfd nc :
  neighborToFRR n ps ab vrf secrets bfd = Ok nc ↔
  neighbor_valid n bfd ∧
  ∃ family timers password outgoing incoming,
    addressFamilyForNeighbor n = Ok family ∧
    parseTimers (Neighbor_HoldTime n) (Neighbor_KeepaliveTime n) = Ok timers ∧
    passwordForNeighbor n secrets = Ok password ∧
    toAdvertiseToFRR (converted n ab vrf family timers password noOut noIn)
      (Neighbor_ToAdvertise n) ps = Ok outgoing ∧
    toReceiveToFRR (Neighbor_ToReceive n) = Ok incoming ∧
    nc = converted n ab vrf family timers password outgoing incoming.
Proof.
  rewrite neighbor_valid_guards. unfold neighborToFRR; cbv zeta. rewrite !guard_Ok.
  split.
  - intros (? & ? & ? & ? & ? & ? & H). split; [by split_and!|]. inv_ok.
    destruct a0 as [ht ka]. inv_ok. eexists _, (ht, ka), _, _, _. split_and!; done.
  - intros ((? & ? & ? & ? & ? & ?) & family & [ht ka] & pw & out & inc & Hf & Ht & Hp & Ho & Hi & ->).
    split_and!; [done..|]. rewrite Hf; simpl. rewrite Ht; simpl. rewrite Hp; simpl.
    unfold converted, noOut, noIn in Ho; simpl in Ho. rewrite Ho; simpl. by rewrite Hi.
Qed.

(** ** Prefix lists *)

Lemma collectPrefixes_Ok unknown duplicate router ps s :
  collectPrefixes unknown duplicate router ps = Ok s ↔
  (∀ p, p ∈ ps → p ∈ router) ∧ NoDup ps ∧ s = list_to_set ps.
Proof.
  unfold collectPrefixes.
  assert (∀ s0 : gset string,
    foldM (λ s prefix,
      _ ← fail_if (negb (bool_decide (prefix ∈ router))) (unknown prefix);
      _ ← fail_if (bool_decide (prefix ∈ s)) (duplicate prefix);
      Ok ({[prefix]} ∪ s)) s0 ps = Ok s ↔
    (∀ p, p ∈ ps → p ∈ router) ∧ NoDup ps ∧ (∀ p, p ∈ ps → p ∉ s0) ∧ s = s0 ∪ list_to_set ps) as Hgen.
  { induction ps as [|p ps IH]; intros s0; cbn [foldM].
    - split; [intros [= <-]; split_and!; [set_solver|constructor|set_solver..]|].
      intros (_ & _ & _ & ->). f_equal. set_solver.
    - rewrite NoDup_cons. split.
      + intros (s1 & H1 & (Hall & Hnd & Hf & ->)%IH)%bind_Ok.
        apply guard_Ok in H1 as [Hr%negb_false_iff%bool_decide_eq_true H1].
        apply guard_Ok in H1 as [Hs%bool_decide_eq_false [= <-]]. split_and!; set_solver.
      + intros (Hall & (Hp & Hnd) & Hf & ->).
        rewrite (bool_decide_eq_true_2 (p ∈ router)), (bool_decide_eq_false_2 (p ∈ s0)) by set_solver.
        apply (IH ({[p]} ∪ s0)). split_and!; set_solver. }
  rewrite Hgen. rewrite (left_id_L ∅ (∪)). set_solver.
Qed.

Section tags.
Context {PL : Type} (key : PL → string) (pfx : PL → gset string).

(** The map holds lists under their own keys, and tags exactly what [T] says. *)
Definition tags (m : gmap string PL) (T : string → string → Prop) : Prop :=
  keyed key m ∧ ∀ k p, (∃ pl, m !! k = Some pl ∧ p ∈ pfx pl) ↔ T k p.

Lemma tags_empty : tags ∅ (λ _ _, False).
Proof. split; [by intros ??|]. intros k p. rewrite lookup_empty. naive_solver. Qed.

Lemma tags_insert m T pl k s :
  tags m T → m !! k = None → key pl = k → pfx pl = s →
  tags (<[k := pl]> m) (λ k' p, T k' p ∨ k' = k ∧ p ∈ s).
Proof.
  intros [Hk HT] Hnone Hkey Hs. split.
  - intros k' v. rewrite lookup_insert_Some. intros [[<- <-]|[_ ?]]; eauto.
  - intros k' p. rewrite <-HT. setoid_rewrite lookup_insert_Some. subst. split.
    + intros (v & [[-> ->]|[? ?]] & ?); eauto.
    + intros [(v & Hv & ?)|[-> ?]]; [|by eauto]. exists v. split; [|done].
      right. split; [|done]. intros Heq. rewrite Heq in Hnone. congruence.
Qed.

Lemma tags_ext m (T T' : string → string → Prop) :
  (∀ k p, T k p ↔ T' k p) → tags m T → tags m T'.
Proof. intros He [? HT]. split; [done|]. intros k p. by rewrite HT. Qed.

Lemma tags_sortMap m T k p : tags m T → tagged key pfx (sortMap m) k p ↔ T k p.
Proof.
  intros [Hk HT]. rewrite <-HT. unfold tagged.
  setoid_rewrite (sortMap_lookup key); [|done]. naive_solver.
Qed.

Lemma tags_NoDup m T : tags m T → NoDup (key <$> sortMap m).
Proof. intros [Hk _]. by apply (sortMap_sorted key). Qed.
End tags.

(** Which prefixes an [Advertise] asks to tag in one family. *)
Definition lp_requested (adv : Advertise) (fam : Family) (k p : string) : Prop :=
  ∃ e, e ∈ PrefixesWithLocalPref adv ∧
    k = localPrefPrefixListKey (LocalPref_LocalPref e) (frrIPFamily fam) ∧
    p ∈ FilterPrefixes (LocalPref_Prefixes e) fam.

Definition comm_requested (adv : Advertise) (fam : Family) (k p : string) : Prop :=
  ∃ e c, e ∈ PrefixesWithCommunity adv ∧ New (Community_Community e) = Ok c ∧
    k = communityPrefixListKey c (frrIPFamily fam) ∧
    p ∈ FilterPrefixes (Community_Prefixes e) fam.

Notation lp_tags := (tags localPref_key lpl_prefixes).
Notation comm_tags := (tags community_key cpl_prefixes).

Lemma prefixesWithLocalPrefToFRR_Ok m nb adv fam router m' T :
  lp_tags m T → prefixesWithLocalPrefToFRR m nb adv fam router = Ok m' →
  lp_tags m' (λ k p, T k p ∨ lp_requested adv fam k p) ∧
  (∀ k p, lp_requested adv fam k p → p ∈ router).
Proof.
  unfold prefixesWithLocalPrefToFRR, lp_requested. intros HT H. revert m T HT H.
  induction (PrefixesWithLocalPref adv) as [|e es IH]; intros m T HT H; cbn [foldM] in H.
  { injection H as <-. split; [|set_solver]. eapply tags_ext; [|exact HT]. set_solver. }
  apply bind_Ok in H as (m1 & H1 & H2). rewrite guard_Ok in H1.
  destruct H1 as [Hnone%bool_decide_eq_false%eq_None_not_Some H1].
  set (k := localPrefPrefixListKey (LocalPref_LocalPref e) (frrIPFamily fam)) in *.
  assert (lp_tags m1 (λ k' p, T k' p ∨ k' = k ∧ p ∈ FilterPrefixes (LocalPref_Prefixes e) fam) ∧
    ∀ p, p ∈ FilterPrefixes (LocalPref_Prefixes e) fam → p ∈ router) as [HT1 Hr1].
  { destruct (Nat.eqb_spec (length (FilterPrefixes (LocalPref_Prefixes e) fam)) 0) as [H0|_].
    - apply nil_length_inv in H0. rewrite H0 in *. injection H1 as <-. split; [|set_solver].
      eapply tags_ext; [|exact HT]. set_solver.
    - apply bind_Ok in H1 as (s & (Hall & _ & ->)%collectPrefixes_Ok & [= <-]). split; [|done].
      eapply tags_ext; [|by eapply tags_insert]. intros k' p; simpl.
      by rewrite elem_of_list_to_set. }
  destruct (IH m1 _ HT1 H2) as [HT2 Hr2]. split.
  - eapply tags_ext; [|exact HT2]. intros k' p. setoid_rewrite elem_of_cons. naive_solver.
  - intros k' p (e' & [->|He']%elem_of_cons & ? & ?); eauto.
Qed.

Lemma prefixesWithCommunityToFRR_Ok m nb adv fam router m' T :
  comm_tags m T → prefixesWithCommunityToFRR m nb adv fam router = Ok m' →
  comm_tags m' (λ k p, T k p ∨ comm_requested adv fam k p) ∧
  (∀ k p, comm_requested adv fam k p → p ∈ router).
Proof.
  unfold prefixesWithCommunityToFRR, comm_requested. intros HT H. revert m T HT H.
  induction (PrefixesWithCommunity adv) as [|e es IH]; intros m T HT H; cbn [foldM] in H.
  { injection H as <-. split; [|set_solver]. eapply tags_ext; [|exact HT]. set_solver. }
  apply bind_Ok in H as (m1 & H1 & H2). destruct (New (Community_Community e)) as [c|] eqn:Ec;
    [|done]. cbn [mbind result_bind] in H1. rewrite guard_Ok in H1.
  destruct H1 as [Hnone%bool_decide_eq_false%eq_None_not_Some H1].
  set (k := communityPrefixListKey c (frrIPFamily fam)) in *.
  assert (comm_tags m1 (λ k' p, T k' p ∨ k' = k ∧ p ∈ FilterPrefixes (Community_Prefixes e) fam) ∧
    ∀ p, p ∈ FilterPrefixes (Community_Prefixes e) fam → p ∈ router) as [HT1 Hr1].
  { destruct (Nat.eqb_spec (length (FilterPrefixes (Community_Prefixes e) fam)) 0) as [H0|_].
    - apply nil_length_inv in H0. rewrite H0 in *. injection H1 as <-. split; [|set_solver].
      eapply tags_ext; [|exact HT]. set_solver.
    - apply bind_Ok in H1 as (s & (Hall & _ & ->)%collectPrefixes_Ok & [= <-]). split; [|done].
      eapply tags_ext; [|by eapply tags_insert]. intros k' p; simpl.
      by rewrite elem_of_list_to_set. }
  destruct (IH m1 _ HT1 H2) as [HT2 Hr2]. split.
  - eapply tags_ext; [|exact HT2]. intros k' p. setoid_rewrite elem_of_cons. split.
    + intros [[?|[-> ?]]|(e' & c' & ? & ? & ? & ?)]; [by left|right; by eauto 10..].
    + intros [?|(e' & c' & [->|?] & Hc' & ? & ?)]; [by auto| |right; by eauto 10].
      left; right. rewrite Ec in Hc'. injection Hc' as <-. done.
  - intros k' p (e' & c' & [->|He']%elem_of_cons & ? & ? & ?); eauto 10.
Qed.

(** ** The outgoing configuration of a neighbor *)

Definition families_of (nb : NeighborConfig) : list Family :=
  if bool_decide (NC_IPFamily nb = DualStack) then [IPv4; IPv6] else [NC_IPFamily nb].

Definition prefixes_for (adv : Advertise) (ps : list string) (fam : Family) : gset string :=
  match fam with IPv4 | IPv6 => prefixesToAdvertiseForFamily adv ps fam | _ => ∅ end.

(** What [toAdvertiseToFRR] returns for a neighbor, given what the API asks for. *)
Record outgoing_spec (nb : NeighborConfig) (adv : Advertise) (ps : list string)
    (out : AllowedOut) : Prop := {
  os_v4 p : p ∈ AO_PrefixesV4 out ↔
    neighborHasIPFamily nb IPv4 = true ∧ p ∈ prefixesToAdvertiseForFamily adv ps IPv4;
  os_v6 p : p ∈ AO_PrefixesV6 out ↔
    neighborHasIPFamily nb IPv6 = true ∧ p ∈ prefixesToAdvertiseForFamily adv ps IPv6;
  os_sorted : (StronglySorted String.le (AO_PrefixesV4 out) ∧ NoDup (AO_PrefixesV4 out)) ∧
              (StronglySorted String.le (AO_PrefixesV6 out) ∧ NoDup (AO_PrefixesV6 out));
  os_nh : AO_NextHopV4 out = NextHop_IPv4 (Advertise_NextHop adv) ∧
          AO_NextHopV6 out = NextHop_IPv6 (Advertise_NextHop adv);
  os_lp_keys : NoDup (localPref_key <$> AO_LocalPrefPrefixesModifiers out);
  os_comm_keys : NoDup (community_key <$> AO_CommunityPrefixesModifiers out);
  os_lp k p : lp_tagged (AO_LocalPrefPrefixesModifiers out) k p ↔
    ∃ fam, fam ∈ families_of nb ∧ lp_requested adv fam k p;
  os_comm k p : comm_tagged (AO_CommunityPrefixesModifiers out) k p ↔
    ∃ fam, fam ∈ families_of nb ∧ comm_requested adv fam k p;
  os_lp_advertised fam k p : fam ∈ families_of nb → lp_requested adv fam k p →
    p ∈ prefixes_for adv ps fam;
  os_comm_advertised fam k p : fam ∈ families_of nb → comm_requested adv fam k p →
    p ∈ prefixes_for adv ps fam
}.

Lemma advertise_loop_Ok nb adv ps fams m1 m2 T1 T2 m1' m2' :
  lp_tags m1 T1 → comm_tags m2 T2 →
  foldM (λ '(localPrefs, communities) ipFamily,
      localPrefs ← wrap (EProcessLocalPref (NC_Name nb))
        (prefixesWithLocalPrefToFRR localPrefs nb adv ipFamily (prefixes_for adv ps ipFamily));
      communities ← wrap (EProcessLocalPref (NC_Name nb))
        (prefixesWithCommunityToFRR communities nb adv ipFamily (prefixes_for adv ps ipFamily));
      Ok (localPrefs, communities)) (m1, m2) fams = Ok (m1', m2') →
  lp_tags m1' (λ k p, T1 k p ∨ ∃ fam, fam ∈ fams ∧ lp_requested adv fam k p) ∧
  comm_tags m2' (λ k p, T2 k p ∨ ∃ fam, fam ∈ fams ∧ comm_requested adv fam k p) ∧
  (∀ fam k p, fam ∈ fams → lp_requested adv fam k p → p ∈ prefixes_for adv ps fam) ∧
  (∀ fam k p, fam ∈ fams → comm_requested adv fam k p → p ∈ prefixes_for adv ps fam).
Proof.
  revert m1 m2 T1 T2. induction fams as [|fam fams IH]; intros m1 m2 T1 T2 H1 H2; cbn [foldM].
  { intros [= <- <-]. split_and!; [| |set_solver..];
      (eapply tags_ext; [|eassumption]; set_solver). }
  intros H. apply bind_Ok in H as ([n1 n2] & Hstep & Hrest).
  apply bind_Ok in Hstep as (x1 & Hx1%wrap_Ok & Hstep).
  apply bind_Ok in Hstep as (x2 & Hx2%wrap_Ok & [= -> ->]).
  apply (prefixesWithLocalPrefToFRR_Ok _ _ _ _ _ _ _ H1) in Hx1 as [Ht1 Hr1].
  apply (prefixesWithCommunityToFRR_Ok _ _ _ _ _ _ _ H2) in Hx2 as [Ht2 Hr2].
  destruct (IH _ _ _ _ Ht1 Ht2 Hrest) as (HT1 & HT2 & HR1 & HR2). clear IH Hrest. split_and!.
  - eapply tags_ext; [|exact HT1]. intros k p. setoid_rewrite elem_of_cons. clear. naive_solver.
  - eapply tags_ext; [|exact HT2]. intros k p. setoid_rewrite elem_of_cons. clear. naive_solver.
  - intros f k p [->|?]%elem_of_cons; eauto.
  - intros f k p [->|?]%elem_of_cons; eauto.
Qed.

Lemma toAdvertiseToFRR_Ok nb adv ps out :
  toAdvertiseToFRR nb adv ps = Ok out → outgoing_spec nb adv ps out.
Proof.
  unfold toAdvertiseToFRR; cbv zeta. intros H.
  apply bind_Ok in H as ([nh4 nh6] & Hnh & H). apply bind_Ok in H as ([m1 m2] & Hl & [= <-]).
  eapply (advertise_loop_Ok nb adv ps) in Hl as (HT1 & HT2 & HR1 & HR2);
    [|apply tags_empty..].
  split; simpl.
  - intros p. clear. destruct (neighborHasIPFamily nb IPv4); rewrite ?elem_of_sets_List, ?elem_of_nil;
      naive_solver.
  - intros p. clear. destruct (neighborHasIPFamily nb IPv6); rewrite ?elem_of_sets_List, ?elem_of_nil;
      naive_solver.
  - split; [destruct (neighborHasIPFamily nb IPv4)|destruct (neighborHasIPFamily nb IPv6)];
      try (split; [constructor|constructor]);
      (split; [apply sets_List_sorted|apply sets_List_NoDup]).
  - unfold nextHopToFRR in Hnh. inv_ok. done.
  - by eapply tags_NoDup.
  - by eapply tags_NoDup.
  - intros k p. rewrite (tags_sortMap _ _ _ _ _ _ HT1). naive_solver.
  - intros k p. rewrite (tags_sortMap _ _ _ _ _ _ HT2). naive_solver.
  - exact HR1.
  - exact HR2.
Qed.
