(* ===== verification/NeighborProps.v ===== *)
(** * Properties of the conversion of one neighbor

    Timers, incoming selectors, outgoing prefixes and passwords: exactly which
    inputs are accepted and what they become. *)

From Stdlib Require Import Lia.
From S2P Require Import Prelude GoStrings GoNet IPFamily Community Api FrrConfig Errors Merge.
From S2P Require Import ApiToConfig Samples MergeFacts HeapLogic ConvertFacts.

(** ** Timers *)

(** [parseTimers] accepts no timers at all, or both with the keepalive not above
    the hold time and the hold time, in whole seconds, zero or at least three;
    the result is the two in seconds. *)
Theorem parseTimers_iff ht ka r :
  parseTimers ht ka = Ok r ↔
  match ht, ka with
  | None, None => r = (None, None)
  | Some h, Some k =>
      (k ≤ h)%Z ∧ (Z.quot h Second = 0 ∨ 3 ≤ Z.quot h Second)%Z ∧
      r = (Some (Z.quot h Second), Some (Z.quot k Second))
  | _, _ => False
  end.
Proof.
  unfold parseTimers. destruct ht as [h|], ka as [k|]; try (naive_solver).
  cbv zeta. rewrite !guard_Ok, andb_false_iff, negb_false_iff, Z.eqb_eq, !Z.ltb_ge.
  unfold Second. split.
  - intros (H1 & H2 & [= <-]). split_and!; [done|lia|done].
  - intros (H1 & H2 & ->). split_and!; [lia|done|done].
Qed.

(** The [timers] line of [neighborsession.tmpl]: printed only when both pointers
    are set. *)
Definition timersLine (n : NeighborConfig) : option string :=
  match NC_KeepaliveTime n, NC_HoldTime n with
  | Some k, Some h =>
      Some ("neighbor " +:+ (if bool_decide (NC_Iface n = "") then NC_Addr n else NC_Iface n)
        +:+ " timers " +:+ pretty k +:+ " " +:+ pretty h)
  | _, _ => None
  end.

Definition withTimers (n : Neighbor) (hold keepalive : Z) : Neighbor :=
  mkNeighbor (Neighbor_ASN n) (Neighbor_DynamicASN n) (Neighbor_SourceAddress n)
    (Neighbor_Address n) (Neighbor_Interface n) (Neighbor_Port n) (Neighbor_Password n)
    (Neighbor_PasswordSecret n) (Some (hold * Second)%Z) (Some (keepalive * Second)%Z)
    (Neighbor_ConnectTime n) (Neighbor_EBGPMultiHop n) (Neighbor_BFDProfile n)
    (Neighbor_EnableGracefulRestart n) (Neighbor_ToAdvertise n) (Neighbor_ToReceive n)
    (Neighbor_DisableMP n) (Neighbor_DualStackAddressFamily n) (Neighbor_LocalASN n)
    (Neighbor_AddressFamilies n).

(** The timers of the only session of a cluster with one neighbor. *)
Definition onlySession (hold keepalive : Z) : res (option (option Z * option Z * option string)) :=
  (λ c, (λ n, (NC_HoldTime n, NC_KeepaliveTime n, timersLine n)) <$>
          head (Config_Routers c ≫= RC_Neighbors)) <$>
  apiToFRR (mkClusterResources
    [mkFRRConfiguration "one" "ns" ∅ (mkSpec (mkBGPConfig
       [mkRouter 64512 "" "" [withTimers (sampleNeighbor 64513 "10.1.1.1" emptyAdvertise emptyReceive)
          hold keepalive] [] [] None] []) (mkRawConfig 0 "") emptySelector)] ∅) [].

(** A keepalive of 30s with the default hold time of 180s is accepted, but the hold
    time is then unset as a default while the keepalive stays, and the template
    prints timers only when both are set: the configured keepalive is lost
    and FRR uses its own 60s.  With a hold time of 90s the same keepalive is kept. *)
Theorem default_hold_time_loses_keepalive :
  onlySession 180 30 = Ok (Some (None, Some 30%Z, None)) ∧
  onlySession 90 30 = Ok (Some (Some 90%Z, Some 30%Z, Some "neighbor 10.1.1.1 timers 30 90")).
Proof. vm_compute. split; reflexivity. Qed.

(** ** Selectors *)

Lemma validateSelectorLengths_Ok mask le ge u :
  validateSelectorLengths mask le ge = Ok u ↔
  (le = 0 ∨ ge ≤ le ∧ mask ≤ le)%N ∧ (ge = 0 ∨ mask ≤ ge)%N.
Proof.
  destruct u. unfold validateSelectorLengths.
  destruct (N.eqb_spec ge 0), (N.eqb_spec le 0); simpl;
    rewrite ?guard_Ok, ?fail_if_Ok, ?andb_false_iff, ?N.ltb_ge; split; intros; try done; try lia.
Qed.

Lemma CIDRMask_ones_small :
  Forall (λ n, Mask_ones (CIDRMask (N.of_nat n) 4) = N.of_nat n) (seq 0 33) ∧
  Forall (λ n, Mask_ones (CIDRMask (N.of_nat n) 16) = N.of_nat n) (seq 0 129).
Proof. split; (apply (bool_decide_unpack _); vm_compute; exact I). Qed.

(** The mask of a parsed prefix has the length that was written. *)
Lemma CIDRMask_ones n b :
  (b = 32 ∨ b = 128)%N → (n ≤ b)%N → Mask_ones (CIDRMask n (N.to_nat b / 8)) = n.
Proof.
  destruct CIDRMask_ones_small as [H4 H16]. rewrite Forall_forall in H4, H16.
  intros [-> | ->] Hn.
  - rewrite <-(N2Nat.id n) at 2. rewrite <-H4; [by rewrite N2Nat.id|].
    apply elem_of_seq. lia.
  - rewrite <-(N2Nat.id n) at 2. rewrite <-H16; [by rewrite N2Nat.id|].
    apply elem_of_seq. lia.
Qed.

Lemma ParseCIDR_mask s ip net :
  ParseCIDR s = Some (ip, net) → (Mask_ones (IPNet_Mask net) ≤ 128)%N.
Proof.
  unfold ParseCIDR. intros H.
  apply bind_Some in H as ([addr mask] & _ & H). apply bind_Some in H as (a & _ & H).
  case_bool_decide; cbn [negb] in H; [|done]. apply bind_Some in H as ([n rest] & _ & H).
  destruct (negb (bool_decide (rest = "")) || _) eqn:E; [done|]. injection H as <- <-.
  cbn [IPNet_Mask].
  apply orb_false_iff in E as [_ E]. apply N.ltb_ge in E.
  assert (BitLen a = 32 ∨ BitLen a = 128)%N as Hb by (destruct a; simpl; auto).
  apply N.le_trans with n; [apply N.eq_le_incl; exact (CIDRMask_ones n (BitLen a) Hb E)|lia].
Qed.

(** A prefix selector is accepted exactly when its prefix parses and
    mask ≤ ge ≤ le among the bounds that are given; the filter keeps the
    prefix and the bounds and has the family of the prefix. *)
Theorem filterForSelector_iff s f :
  filterForSelector s = Ok f ↔
  ∃ ip net, ParseCIDR (PrefixSelector_Prefix s) = Some (ip, net) ∧
    let mask := Mask_ones (IPNet_Mask net) in
    let le := PrefixSelector_LE s in let ge := PrefixSelector_GE s in
    (le = 0 ∨ ge ≤ le ∧ mask ≤ le)%N ∧ (ge = 0 ∨ mask ≤ ge)%N ∧
    f = mkIncomingFilter (ForCIDRString (PrefixSelector_Prefix s)) (PrefixSelector_Prefix s) le ge.
Proof.
  unfold filterForSelector. destruct (ParseCIDR (PrefixSelector_Prefix s)) as [[ip net]|] eqn:E.
  2: { split; [done|]. by intros (? & ? & ? & _). }
  pose proof (ParseCIDR_mask _ _ _ E) as Hm.
  assert (IntToUInt32 (Z.of_N (Mask_ones (IPNet_Mask net))) = Ok (Mask_ones (IPNet_Mask net))) as ->.
  { unfold IntToUInt32. apply guard_Ok. split; [apply Z.ltb_ge; lia|].
    apply guard_Ok. split; [apply Z.ltb_ge; lia|]. by rewrite N2Z.id. }
  simpl. rewrite bind_Ok. setoid_rewrite validateSelectorLengths_Ok. split.
  - intros ([] & [? ?] & [= <-]). eauto 10.
  - intros (? & ? & [= <- <-] & ? & ? & ->). exists (). eauto.
Qed.

(** The incoming configuration of a neighbor accepts everything in mode "all";
    otherwise it has exactly the filters of the given selectors, IPv4 and the
    rest apart, each list in the order of [LessThan]; one bad selector fails
    the whole neighbor. *)
Theorem toReceiveToFRR_exact rcv inc :
  toReceiveToFRR rcv = Ok inc →
  let allowed := Receive_Allowed rcv in
  (AI_All inc = true ↔ AllowedIn_Mode allowed = AllowAll) ∧
  (AI_All inc = false →
   (∀ f, f ∈ AI_PrefixesV4 inc ↔ IF_IPFamily f = IPv4 ∧
      ∃ s, s ∈ AllowedIn_Prefixes allowed ∧ filterForSelector s = Ok f) ∧
   (∀ f, f ∈ AI_PrefixesV6 inc ↔ IF_IPFamily f ≠ IPv4 ∧
      ∃ s, s ∈ AllowedIn_Prefixes allowed ∧ filterForSelector s = Ok f) ∧
   (∀ s, s ∈ AllowedIn_Prefixes allowed → ∃ f, filterForSelector s = Ok f) ∧
   StronglySorted (in_order LessThan) (AI_PrefixesV4 inc) ∧
   StronglySorted (in_order LessThan) (AI_PrefixesV6 inc)).
Proof.
  unfold toReceiveToFRR. case_bool_decide as E; cbv zeta; [intros [= <-]; split; done|].
  intros (fs & Hfs & [= <-])%bind_Ok. simpl. split; [done|]. intros _.
  apply mapE_Ok in Hfs.
  assert (∀ f, f ∈ fs ↔ ∃ s, s ∈ AllowedIn_Prefixes (Receive_Allowed rcv) ∧ filterForSelector s = Ok f) as Hin.
  { intros f. split.
    - intros [i Hi]%list_elem_of_lookup. destruct (Forall2_lookup_r _ _ _ _ _ Hfs Hi) as (s & Hs & ?).
      exists s. split; [by eapply list_elem_of_lookup_2|done].
    - intros (s & [i Hi]%list_elem_of_lookup & Hs).
      destruct (Forall2_lookup_l _ _ _ _ _ Hfs Hi) as (f' & Hf' & Hs').
      cbn in Hs'. rewrite Hs in Hs'. injection Hs' as <-. by eapply list_elem_of_lookup_2. }
  assert (Transitive (in_order LessThan)) by apply (in_order_preimage_trans id LessThan).
  assert (Total (in_order LessThan)) by apply (in_order_preimage_total id LessThan).
  split_and!; try apply (sort_Slice_sorted LessThan).
  - intros f. by rewrite elem_of_sort_Slice, list_elem_of_filter, Hin.
  - intros f. by rewrite elem_of_sort_Slice, list_elem_of_filter, Hin.
  - intros s [i Hi]%list_elem_of_lookup.
    destruct (Forall2_lookup_l _ _ _ _ _ Hfs Hi) as (f & _ & ?). eauto.
Qed.

Lemma toReceiveToFRR_exact_witness :
  ∃ inc, toReceiveToFRR receiveSome = Ok inc ∧
    mkIncomingFilter IPv4 "172.16.0.0/16" 24 0 ∈ AI_PrefixesV4 inc.
Proof.
  run_ok (toReceiveToFRR receiveSome) inc E. exists inc. split; [reflexivity|].
  destruct (toReceiveToFRR_exact _ _ E) as [Hall H].
  assert (AI_All inc = false) as Ha.
  { destruct (AI_All inc); [|reflexivity]. discriminate (proj1 Hall eq_refl). }
  apply (proj1 (H Ha)). split; [reflexivity|].
  exists (mkPrefixSelector "172.16.0.0/16" 24 0). split; [left|vm_compute; reflexivity].
Defined.

(** ** Passwords *)

(** A neighbor's password is its inline password, empty if none, when it has no
    secret reference; with a reference and no inline password it is the
    "password" of that secret, which must be of type basic-auth; giving both
    is an error.  The error is transient, so that it is retried when secrets
    change, exactly when the referenced secret is not there. *)
Theorem passwordForNeighbor_iff n secrets :
  let secret := SecretReference_Name (Neighbor_PasswordSecret n) in
  (∀ pw, passwordForNeighbor n secrets = Ok pw ↔
     (secret = "" ∧ pw = Neighbor_Password n) ∨
     (secret ≠ "" ∧ Neighbor_Password n = "" ∧
      ∃ s, secrets !! secret = Some s ∧ Secret_Type s = SecretTypeBasicAuth ∧
        Secret_Data s !! "password" = Some pw)) ∧
  (passwordForNeighbor n secrets = Err (TransientError secret (neighborName n)) ↔
     secret ≠ "" ∧ Neighbor_Password n = "" ∧ secrets !! secret = None).
Proof.
  unfold passwordForNeighbor; cbv zeta.
  generalize (SecretReference_Name (Neighbor_PasswordSecret n)) as secret. intros secret.
  destruct (decide (secret = "")) as [->|Hs].
  { rewrite (bool_decide_eq_true_2 (("" : string) = "")), andb_false_r by done.
    case_bool_decide as Hp; simpl; rewrite ?Hp; split; intros; naive_solver. }
  rewrite (bool_decide_eq_false_2 (secret = "")) by done.
  destruct (decide (Neighbor_Password n = "")) as [->|Hp].
  2: { rewrite bool_decide_eq_false_2 by done. simpl. naive_solver. }
  rewrite bool_decide_eq_true_2 by done. simpl.
  destruct (secrets !! secret) as [s|]; [|naive_solver].
  case_bool_decide as Ht; simpl; [|naive_solver].
  destruct (Secret_Data s !! "password") as [p|] eqn:Ep; [|naive_solver].
  split; [|naive_solver]. intros pw. split.
  - intros [= <-]. right. split_and!; [done..|]. eauto.
  - intros [[??]|(_ & _ & s' & [= <-] & _ & Hpw)]; congruence.
Qed.

(** ** Outgoing prefixes *)

(** The session has the family, or both. *)
Definition has_family (nb : NeighborConfig) (f : Family) : Prop :=
  NC_IPFamily nb = f ∨ (NC_IPFamily nb = DualStack ∧ (f = IPv4 ∨ f = IPv6)).
(** What the API asks to advertise: everything the router has, or a list. *)
Definition to_send (adv : Advertise) (ps : list string) (p : string) : Prop :=
  (AllowedOut_Mode (Advertise_Allowed adv) = "all" ∧ p ∈ ps) ∨
  (AllowedOut_Mode (Advertise_Allowed adv) ≠ "all" ∧ p ∈ AllowedOut_Prefixes (Advertise_Allowed adv)).
Definition list_family (p : string) : string := match ForCIDRString p with IPv6 => "ipv6" | _ => "ip" end.

(** The outgoing configuration of a session, in terms of what the API asks for. *)
Record sends_as (nb : NeighborConfig) (adv : Advertise) (ps : list string) (out : AllowedOut) : Prop := {
  sd_v4 p : p ∈ AO_PrefixesV4 out ↔ has_family nb IPv4 ∧ ForCIDRString p = IPv4 ∧ to_send adv ps p;
  sd_v6 p : p ∈ AO_PrefixesV6 out ↔ has_family nb IPv6 ∧ ForCIDRString p = IPv6 ∧ to_send adv ps p;
  sd_sorted : (StronglySorted String.le (AO_PrefixesV4 out) ∧ NoDup (AO_PrefixesV4 out)) ∧
              (StronglySorted String.le (AO_PrefixesV6 out) ∧ NoDup (AO_PrefixesV6 out));
  sd_nh : AO_NextHopV4 out = NextHop_IPv4 (Advertise_NextHop adv) ∧
          AO_NextHopV6 out = NextHop_IPv6 (Advertise_NextHop adv);
  sd_lp p lp f :
    (∃ pl, pl ∈ AO_LocalPrefPrefixesModifiers out ∧ LPL_LocalPref pl = lp ∧ PL_IPFamily (LPL_PrefixList pl) = f ∧
       p ∈ PL_Prefixes (LPL_PrefixList pl)) ↔
    f = list_family p ∧ has_family nb (ForCIDRString p) ∧
    ∃ e, e ∈ PrefixesWithLocalPref adv ∧ LocalPref_LocalPref e = lp ∧ p ∈ LocalPref_Prefixes e;
  sd_comm p c f :
    (∃ pl, pl ∈ AO_CommunityPrefixesModifiers out ∧ CPL_Community pl = c ∧ PL_IPFamily (CPL_PrefixList pl) = f ∧
       p ∈ PL_Prefixes (CPL_PrefixList pl)) ↔
    f = list_family p ∧ has_family nb (ForCIDRString p) ∧
    ∃ e, e ∈ PrefixesWithCommunity adv ∧ New (Community_Community e) = Ok c ∧ p ∈ Community_Prefixes e;
  sd_lp_advertised e p : e ∈ PrefixesWithLocalPref adv → p ∈ LocalPref_Prefixes e → has_family nb (ForCIDRString p) →
    to_send adv ps p;
  sd_comm_advertised e p : e ∈ PrefixesWithCommunity adv → p ∈ Community_Prefixes e → has_family nb (ForCIDRString p) →
    is_ok (New (Community_Community e)) = true → to_send adv ps p }.

Lemma neighborHasIPFamily_has nb f : f = IPv4 ∨ f = IPv6 → neighborHasIPFamily nb f = true ↔ has_family nb f.
Proof.
  intros Hf. unfold neighborHasIPFamily, has_family. case_bool_decide as Hd; [by split; auto|].
  rewrite bool_decide_eq_true. split; [by left|]. by intros [?|[? _]].
Qed.

Lemma elem_of_families_of nb p : ForCIDRString p ∈ families_of nb ↔ has_family nb (ForCIDRString p).
Proof.
  unfold families_of, has_family. pose proof (ForCIDRString_not_dual p) as Hnd.
  case_bool_decide as Hd; rewrite ?elem_of_cons, elem_of_nil.
  - split; [intros [?|[?|[]]]; auto|]. intros [Hx|[_ [?|?]]]; [by rewrite Hd in Hx|auto..].
  - split; [intros [?|[]]; auto|]. intros [?|[? _]]; [by left|done].
Qed.

Lemma elem_of_toAdvertise adv ps fam p :
  fam ≠ DualStack → p ∈ prefixesToAdvertiseForFamily adv ps fam ↔ ForCIDRString p = fam ∧ to_send adv ps p.
Proof.
  intros Hf. unfold prefixesToAdvertiseForFamily, to_send, sets_New.
  case_bool_decide as Ha; rewrite elem_of_list_to_set.
  - rewrite elem_of_FilterPrefixes by done. split; [by intros [? ?]; auto|]. by intros [? [[_ ?]|[? _]]].
  - rewrite list_elem_of_filter. split; [by intros [? ?]; auto|]. by intros [? [[? _]|[_ ?]]].
Qed.

Lemma families_not_dual nb fam : fam ∈ families_of nb → fam ≠ DualStack.
Proof. unfold families_of. case_bool_decide; rewrite ?elem_of_cons, elem_of_nil; [by intros [->|[->|[]]]|by intros [->|[]]]. Qed.

Lemma frrIPFamily_list p : frrIPFamily (ForCIDRString p) = list_family p.
Proof. unfold frrIPFamily, list_family. by destruct (ForCIDRString p). Qed.

Lemma prefixes_for_sent adv ps fam p : p ∈ prefixes_for adv ps fam → to_send adv ps p.
Proof. destruct fam; cbn [prefixes_for]; try (by intros ?%not_elem_of_empty); by intros [_ ?]%elem_of_toAdvertise. Qed.

(** The families of the session and the keys of the lists, resolved. *)
Lemma outgoing_sends nb adv ps out : outgoing_spec nb adv ps out → sends_as nb adv ps out.
Proof.
  intros Hs. split.
  - intros p. by rewrite (os_v4 _ _ _ _ Hs), neighborHasIPFamily_has, elem_of_toAdvertise by auto.
  - intros p. by rewrite (os_v6 _ _ _ _ Hs), neighborHasIPFamily_has, elem_of_toAdvertise by auto.
  - apply Hs.
  - apply Hs.
  - intros p lp f. trans (lp_tagged (AO_LocalPrefPrefixesModifiers out) (localPrefPrefixListKey lp f) p).
    { unfold tagged, localPref_key. split; [naive_solver|]. intros (pl & ? & [? ?]%localPrefPrefixListKey_inj & ?). eauto. }
    rewrite (os_lp _ _ _ _ Hs), <-elem_of_families_of, <-frrIPFamily_list. unfold lp_requested. split.
    + intros (fam & Hfam & e & He & [-> ->]%localPrefPrefixListKey_inj & Hp).
      rewrite elem_of_FilterPrefixes in Hp by (by eapply families_not_dual). destruct Hp as [<- Hp].
      split_and!; [done..|]. by exists e.
    + intros (-> & Hfam & e & He & <- & Hp). exists (ForCIDRString p). split; [done|]. exists e. split_and!; [done..|].
      rewrite elem_of_FilterPrefixes by apply ForCIDRString_not_dual. done.
  - intros p c f. trans (comm_tagged (AO_CommunityPrefixesModifiers out) (communityPrefixListKey c f) p).
    { unfold tagged, community_key. split; [naive_solver|]. intros (pl & ? & [? ?]%communityPrefixListKey_inj & ?). eauto. }
    rewrite (os_comm _ _ _ _ Hs), <-elem_of_families_of, <-frrIPFamily_list. unfold comm_requested. split.
    + intros (fam & Hfam & e & c' & He & Hc & [-> ->]%communityPrefixListKey_inj & Hp).
      rewrite elem_of_FilterPrefixes in Hp by (by eapply families_not_dual). destruct Hp as [<- Hp].
      split_and!; [done..|]. by exists e.
    + intros (-> & Hfam & e & He & Hc & Hp). exists (ForCIDRString p). split; [done|]. exists e, c. split_and!; [done..|].
      rewrite elem_of_FilterPrefixes by apply ForCIDRString_not_dual. done.
  - intros e p He Hp Hfam%elem_of_families_of. eapply prefixes_for_sent, (os_lp_advertised _ _ _ _ Hs); [done|].
    exists e. split_and!; [done..|]. rewrite elem_of_FilterPrefixes by apply ForCIDRString_not_dual. done.
  - intros e p He Hp Hfam%elem_of_families_of [c Hc]%is_ok_true. eapply prefixes_for_sent, (os_comm_advertised _ _ _ _ Hs); [done|].
    exists e, c. split_and!; [done..|]. rewrite elem_of_FilterPrefixes by apply ForCIDRString_not_dual. done.
Qed.

(** C22: the outgoing configuration of a neighbor has, for each family of the session,
    exactly the allowed prefixes of that family (all the router's prefixes of it
    in mode "all"), sorted; tags exactly the requested prefixes of its families with local
    preferences and communities, in lists of the family of the prefix, refusing to tag a prefix that is not
    advertised; and uses the given next hops, which must be addresses of
    their family and need the session to have it. *)
Theorem toAdvertiseToFRR_exact nb adv ps out :
  toAdvertiseToFRR nb adv ps = Ok out →
  sends_as nb adv ps out ∧
  (AO_NextHopV4 out ≠ "" →
     has_family nb IPv4 ∧
     ∃ ip, ParseIP (AO_NextHopV4 out) = Some ip ∧ ForAddress ip = IPv4) ∧
  (AO_NextHopV6 out ≠ "" →
     has_family nb IPv6 ∧
     ∃ ip, ParseIP (AO_NextHopV6 out) = Some ip ∧ ForAddress ip = IPv6).
Proof.
  intros H. pose proof (toAdvertiseToFRR_Ok _ _ _ _ H) as Hs. split; [by apply outgoing_sends|].
  destruct (os_nh _ _ _ _ Hs) as [-> ->].
  unfold toAdvertiseToFRR in H; cbv zeta in H. apply bind_Ok in H as (nh & Hnh & _).
  unfold nextHopToFRR in Hnh; cbv zeta in Hnh. apply bind_Ok in Hnh as ([] & H4 & Hnh).
  apply bind_Ok in Hnh as ([] & H6 & _). unfold ForAddress. split; intros Hne.
  - rewrite (bool_decide_eq_false_2 (NextHop_IPv4 _ = "")) in H4 by done. apply guard_Ok in H4 as [Hp Hf].
    rewrite fail_if_Ok, negb_false_iff, neighborHasIPFamily_has in Hf by auto. split; [done|].
    destruct (ParseIP (NextHop_IPv4 _)) as [ip|]; [|done]. apply bool_decide_eq_false in Hp.
    exists ip. split; [done|]. by destruct (To4 ip).
  - rewrite (bool_decide_eq_false_2 (NextHop_IPv6 _ = "")) in H6 by done. apply guard_Ok in H6 as [Hp Hf].
    rewrite fail_if_Ok, negb_false_iff, neighborHasIPFamily_has in Hf by auto. split; [done|].
    destruct (ParseIP (NextHop_IPv6 _)) as [ip|]; [|done]. apply negb_false_iff, bool_decide_eq_true in Hp.
    exists ip. split; [done|]. by rewrite Hp.
Qed.

Lemma toAdvertiseToFRR_exact_witness :
  ∃ out, toAdvertiseToFRR ncC advertiseFiltered ["192.0.2.0/24"; "198.51.100.0/24"; "203.0.113.0/24"] = Ok out ∧
    "192.0.2.0/24" ∈ AO_PrefixesV4 out ∧ "203.0.113.0/24" ∉ AO_PrefixesV4 out ∧
    ∃ pl, pl ∈ AO_LocalPrefPrefixesModifiers out ∧ LPL_LocalPref pl = 200%N ∧ PL_IPFamily (LPL_PrefixList pl) = "ip" ∧
      "192.0.2.0/24" ∈ PL_Prefixes (LPL_PrefixList pl).
Proof.
  run_ok (toAdvertiseToFRR ncC advertiseFiltered ["192.0.2.0/24"; "198.51.100.0/24"; "203.0.113.0/24"]) out E.
  exists out. split; [reflexivity|].
  destruct (toAdvertiseToFRR_exact _ _ _ _ E) as [Hs _]. split_and!.
  - apply (sd_v4 _ _ _ _ Hs). split_and!; [by_evaluation|vm_compute; reflexivity|right; by_evaluation].
  - intros (_ & _ & [[H _]|[_ H]])%(sd_v4 _ _ _ _ Hs); [discriminate H|revert H; by_evaluation].
  - apply (sd_lp _ _ _ _ Hs). split_and!; [vm_compute; reflexivity|by_evaluation|].
    exists (mkLocalPrefPrefixes ["192.0.2.0/24"] 200). split; [left|]. split; [reflexivity|left].
Defined.
