(* ===== verification/EVPNFacts.v ===== *)
(** * EVPN validation

    [validateEVPN] ranges over a Go map, so the order in which it meets the
    routers is unspecified.  It accepts in any order exactly when every
    router is valid on its own and no VNI is used twice. *)

From Stdlib Require Import Lia.
From S2P Require Import Prelude GoStrings GoNet IPFamily Community Api FrrConfig Errors Merge.
From S2P Require Import ApiToConfig MergeFacts.

(** The VNIs of a router, in the order they are checked. *)
Definition router_vnis {A} (r : RouterConfig A) : list N :=
  match RC_EVPN r with
  | None => []
  | Some evpn => (FL2_VNI <$> FE_L2VNIs evpn) ++
      match FE_L3VNI evpn with None => [] | Some l3 => [FL3_VNI l3] end
  end.

Lemma seeVNI_Ok vrf ty seen v seen' :
  seeVNI vrf ty seen v = Ok seen' ↔ seen !! v = None ∧ seen' = <[v := (vrf, ty)]> seen.
Proof. unfold seeVNI. destruct (seen !! v) as [[??]|]; naive_solver. Qed.

Lemma seeVNIs_Ok vrf ty vnis seen seen' :
  foldM (seeVNI vrf ty) seen vnis = Ok seen' →
  NoDup vnis ∧ (∀ v, v ∈ vnis → seen !! v = None) ∧
  (∀ v, is_Some (seen' !! v) ↔ is_Some (seen !! v) ∨ v ∈ vnis).
Proof.
  revert seen; induction vnis as [|v vnis IH]; intros seen; simpl.
  { intros [= <-]. split_and!; [constructor|set_solver..]. }
  intros (s1 & [Hv ->]%seeVNI_Ok & (Hnd & Hfresh & Hdom)%IH)%bind_Ok. split_and!.
  - constructor; [|done]. intros Hin. specialize (Hfresh v Hin).
    by rewrite lookup_insert_eq in Hfresh.
  - intros w [->|Hw]%elem_of_cons; [done|]. specialize (Hfresh w Hw).
    by apply lookup_insert_None in Hfresh as [? _].
  - intros w. rewrite Hdom, lookup_insert_is_Some, elem_of_cons.
    destruct (decide (v = w)); naive_solver.
Qed.

Lemma seeVNIs_is_Ok vrf ty vnis seen :
  NoDup vnis → (∀ v, v ∈ vnis → seen !! v = None) →
  ∃ seen', foldM (seeVNI vrf ty) seen vnis = Ok seen'.
Proof.
  revert seen; induction vnis as [|v vnis IH]; intros seen Hnd Hfresh; simpl; [eauto|].
  apply NoDup_cons in Hnd as [Hv Hnd].
  assert (seen !! v = None) as Hnone by (apply Hfresh; by left).
  rewrite (proj2 (seeVNI_Ok vrf ty seen v _) (conj Hnone eq_refl)); simpl.
  apply IH; [done|]. intros w Hw. rewrite lookup_insert_ne by set_solver.
  apply Hfresh. by right.
Qed.

(** One router: its VNIs are distinct and new, and are remembered. *)
Lemma uniqueVNIsStep_Ok {A} seen vrf (r : RouterConfig A) seen' :
  uniqueVNIsStep seen (vrf, r) = Ok seen' →
  NoDup (router_vnis r) ∧ (∀ v, v ∈ router_vnis r → seen !! v = None) ∧
  (∀ v, is_Some (seen' !! v) ↔ is_Some (seen !! v) ∨ v ∈ router_vnis r).
Proof.
  unfold uniqueVNIsStep, router_vnis. destruct (RC_EVPN r) as [evpn|].
  2: { intros [= <-]. split_and!; [constructor|set_solver..]. }
  intros (seen1 & (Hnd & Hf & Hd)%seeVNIs_Ok & H)%bind_Ok.
  destruct (FE_L3VNI evpn) as [l3|].
  2: { injection H as <-. rewrite app_nil_r. done. }
  assert (foldM (seeVNI vrf "l3vni") seen1 [FL3_VNI l3] = Ok seen') as
    (_ & Hf1 & Hd1)%seeVNIs_Ok by (simpl; by rewrite H).
  assert (seen1 !! FL3_VNI l3 = None) as Hnone by (apply Hf1; by left).
  apply eq_None_not_Some in Hnone. rewrite Hd in Hnone. split_and!.
  - apply NoDup_app. split_and!; [done| |apply NoDup_singleton]. set_solver.
  - intros v [Hv| ->%list_elem_of_singleton]%elem_of_app; [auto|].
    apply eq_None_not_Some. naive_solver.
  - intros v. rewrite Hd1, Hd, elem_of_app. naive_solver.
Qed.

Lemma uniqueVNIsStep_is_Ok {A} seen vrf (r : RouterConfig A) :
  NoDup (router_vnis r) → (∀ v, v ∈ router_vnis r → seen !! v = None) →
  ∃ seen', uniqueVNIsStep seen (vrf, r) = Ok seen'.
Proof.
  unfold uniqueVNIsStep, router_vnis. destruct (RC_EVPN r) as [evpn|]; [|eauto].
  intros (Hnd & Hdis & _)%NoDup_app Hfresh.
  destruct (seeVNIs_is_Ok vrf "l2vni" (FL2_VNI <$> FE_L2VNIs evpn) seen) as [seen1 H1];
    [done|set_solver|].
  rewrite H1; simpl. destruct (FE_L3VNI evpn) as [l3|]; [|eauto].
  apply seeVNIs_Ok in H1 as (_ & _ & Hd). unfold seeVNI.
  destruct (seen1 !! FL3_VNI l3) as [[vrf' ty']|] eqn:E; [|eauto].
  destruct (proj1 (Hd (FL3_VNI l3))) as [[x Hx]|Hx]; [by eauto| |set_solver].
  rewrite Hfresh in Hx by set_solver. done.
Qed.

Lemma uniqueVNIs_fold {A} (rs : list (string * RouterConfig A)) seen :
  (∃ seen', foldM uniqueVNIsStep seen rs = Ok seen') ↔
  NoDup (rs ≫= λ kr, router_vnis kr.2) ∧
  ∀ v, v ∈ (rs ≫= λ kr, router_vnis kr.2) → seen !! v = None.
Proof.
  revert seen; induction rs as [|[vrf r] rs IH]; intros seen.
  { split; [|by eauto]. intros _. split; [constructor|set_solver]. }
  cbn [foldM]. rewrite bind_cons, NoDup_app. cbn [snd]. split.
  - intros (seen' & (s1 & (Hnd & Hf & Hd)%uniqueVNIsStep_Ok & Hrest)%bind_Ok).
    destruct (proj1 (IH s1)) as [Hnd' Hf']; [by eauto|].
    assert (∀ v, v ∈ (rs ≫= λ kr, router_vnis kr.2) → ¬ (is_Some (seen !! v) ∨ v ∈ router_vnis r))
      as Hsep by (intros v Hv; rewrite <-Hd, Hf' by done; by intros []).
    split; [split_and!; [done| |done]|].
    + intros v Hv Hv'. by destruct (Hsep v Hv'); right.
    + intros v [Hv|Hv]%elem_of_app; [auto|]. apply eq_None_not_Some. specialize (Hsep v Hv). tauto.
  - intros ((Hnd & Hdis & Hnd') & Hfresh).
    destruct (uniqueVNIsStep_is_Ok seen vrf r) as [s1 Hs1]; [done|set_solver|].
    rewrite Hs1; simpl. apply uniqueVNIsStep_Ok in Hs1 as (_ & _ & Hd). apply IH.
    split; [done|]. intros v Hv. apply eq_None_not_Some. rewrite Hd.
    intros [[x Hx]|Hx]; [|by eapply Hdis]. rewrite Hfresh in Hx by set_solver. done.
Qed.

Lemma validateUniqueVNIs_Ok {A} (rs : list (string * RouterConfig A)) u :
  validateUniqueVNIs rs = Ok u ↔ NoDup (rs ≫= λ kr, router_vnis kr.2).
Proof.
  destruct u. unfold validateUniqueVNIs. rewrite bind_Ok. trans (∃ s, foldM uniqueVNIsStep ∅ rs = Ok s).
  { naive_solver. }
  rewrite uniqueVNIs_fold. split; [naive_solver|]. intros; split; [done|].
  intros. apply lookup_empty.
Qed.

(** A router with EVPN is valid when it has a neighbor to carry the routes, if it
    needs one, and no neighbors at all if it has an L3 VNI. *)
Definition evpn_valid (r : RouterConfig NeighborConfig) : Prop :=
  ∀ evpn, RC_EVPN r = Some evpn →
    (evpnNeedsNeighbor evpn = true →
       ∃ n, n ∈ RC_Neighbors r ∧ AddressFamilyEVPN ∈ NC_AddressFamilies n) ∧
    (is_Some (FE_L3VNI evpn) → RC_Neighbors r = []).

Lemma hasEVPNNeighbor_true ns :
  hasEVPNNeighbor ns = true ↔ ∃ n, n ∈ ns ∧ AddressFamilyEVPN ∈ NC_AddressFamilies n.
Proof.
  unfold hasEVPNNeighbor. rewrite existsb_exists. setoid_rewrite bool_decide_eq_true.
  setoid_rewrite list_elem_of_In. done.
Qed.

Lemma validateEVPNConfig_Ok r u : validateEVPNConfig r = Ok u ↔ evpn_valid r.
Proof.
  unfold validateEVPNConfig, evpn_valid. destruct (RC_EVPN r) as [evpn|]; [|destruct u; naive_solver].
  rewrite guard_Ok, fail_if_Ok, !andb_false_iff, negb_false_iff, hasEVPNNeighbor_true,
    bool_decide_eq_false.
  assert ((0 <? length (RC_Neighbors r))%nat = false ↔ RC_Neighbors r = []) as ->.
  { rewrite Nat.ltb_ge. destruct (RC_Neighbors r); simpl; split; [done..|lia|done]. }
  split.
  - intros [H1 H2] ? [= <-]. split; [|tauto]. destruct H1 as [H1|]; [congruence|done].
  - intros H. destruct (H evpn eq_refl) as [H1 H2]. split.
    + destruct (evpnNeedsNeighbor evpn); auto.
    + destruct (FE_L3VNI evpn); [eauto|]. left. by intros [].
Qed.

Lemma validateEVPN_Ok rs u :
  validateEVPN rs = Ok u ↔
  Forall (λ kr, evpn_valid kr.2) rs ∧ NoDup (rs ≫= λ kr, router_vnis kr.2).
Proof.
  unfold validateEVPN. rewrite bind_Ok.
  trans (Forall (λ kr, evpn_valid kr.2) rs ∧ validateUniqueVNIs rs = Ok u);
    [|by rewrite validateUniqueVNIs_Ok].
  assert (∀ kr : string * RouterConfig NeighborConfig,
    (let '(vrf, r) := kr in wrap (EInvalidEVPN vrf) (validateEVPNConfig r)) = Ok () ↔
    evpn_valid kr.2) as Hone.
  { intros [vrf r]; simpl. by rewrite wrap_Ok, validateEVPNConfig_Ok. }
  split.
  - intros ([] & Hall%each_Ok & ?). split; [|done].
    eapply Forall_impl; [exact Hall|]. intros kr. apply Hone.
  - intros [Hall ?]. exists (). split; [|done]. apply each_Ok.
    eapply Forall_impl; [exact Hall|]. intros kr. apply Hone.
Qed.
