(* ===== verification/ApiHeap.v ===== *)
(** * The conversion as a whole: what [apiToFRR] builds

    The program logic of [HeapLogic.v] applied to [apiToFRR]: no invalid
    pointer is followed, and the routers of the result are the routers of the
    API merged per VRF.  A property of neighbors that conversion
    establishes and merging keeps holds of every neighbor of the result. *)

From Stdlib Require Import Lia.
From S2P Require Import Prelude GoStrings GoNet IPFamily Community Api FrrConfig Errors Merge.
From S2P Require Import ApiToConfig MergeFacts HeapLogic ConvertFacts.

(** ** Routers of the API and routers of the configuration *)

Definition routers_of (resources : ClusterResources) : list Router :=
  FRRConfigs resources ≫= λ cfg, BGP_Routers (Spec_BGP (Cfg_Spec cfg)).

Definition for_vrf (vrf : string) (rs : list Router) : list Router :=
  filter (λ r, Router_VRF r = vrf) rs.

(** The ID the session of an API neighbor gets in a VRF. *)
Definition session_id (vrf : string) (n : Neighbor) : string :=
  (if bool_decide (Neighbor_Interface n = "") then Neighbor_Address n else Neighbor_Interface n)
  +:+ (if bool_decide (vrf = "") then "" else "-" +:+ vrf).

Definition session_ids (r : Router) : list string :=
  session_id (Router_VRF r) <$> Router_Neighbors r.

Definition is_sorted (l : list string) : Prop := StronglySorted String.le l ∧ NoDup l.

Lemma sets_List_is_sorted (s : gset string) : is_sorted (sets_List s).
Proof. split; [apply sets_List_sorted|apply sets_List_NoDup]. Qed.

Lemma sortMap_is_sorted {V} (key : V → string) (m : gmap string V) :
  (∀ k v, m !! k = Some v → key v = k) → is_sorted (key <$> sortMap m).
Proof. exact (sortMap_sorted key m). Qed.

(** The router [rc] has what the API routers [rs] have together. *)
Record merges {A} (rs : list Router) (ids : list string) (rc : RouterConfig A) : Prop := {
  mr_vrf r : r ∈ rs → Router_VRF r = RC_VRF rc;
  mr_asn r : r ∈ rs → Router_ASN r = RC_MyASN rc;
  mr_id r : r ∈ rs → Router_ID r = "" ∨ Router_ID r = RC_RouterID rc;
  mr_id_from : RC_RouterID rc = "" ∨ ∃ r, r ∈ rs ∧ Router_ID r = RC_RouterID rc;
  mr_v4 p : p ∈ RC_IPV4Prefixes rc ↔ ∃ r, r ∈ rs ∧ p ∈ FilterPrefixes (Router_Prefixes r) IPv4;
  mr_v6 p : p ∈ RC_IPV6Prefixes rc ↔ ∃ r, r ∈ rs ∧ p ∈ FilterPrefixes (Router_Prefixes r) IPv6;
  mr_imports v : v ∈ RC_ImportVRFs rc ↔ ∃ r, r ∈ rs ∧ v ∈ Import_VRF <$> Router_Imports r;
  mr_ids id : id ∈ ids ↔ ∃ r, r ∈ rs ∧ id ∈ session_ids r
}.

(** Its lists are sorted and have no duplicates. *)
Record sorted_router {A} (ids : list string) (rc : RouterConfig A) : Prop := {
  sr_v4 : is_sorted (RC_IPV4Prefixes rc);
  sr_v6 : is_sorted (RC_IPV6Prefixes rc);
  sr_imports : is_sorted (RC_ImportVRFs rc);
  sr_ids : is_sorted ids
}.

(** [merges] depends on the set of API routers only. *)
Lemma merges_proper {A} rs rs' ids (rc : RouterConfig A) :
  (∀ r, r ∈ rs ↔ r ∈ rs') → merges rs ids rc → merges rs' ids rc.
Proof.
  intros Hrs []. split; setoid_rewrite <-Hrs; auto.
Qed.

Lemma routersAreCompatible_Ok {A} (r t : RouterConfig A) u :
  routersAreCompatible r t = Ok u ↔
  RC_VRF r = RC_VRF t ∧ RC_MyASN r = RC_MyASN t ∧
  (RC_RouterID r = "" ∨ RC_RouterID t = "" ∨ RC_RouterID r = RC_RouterID t).
Proof.
  unfold routersAreCompatible; cbv zeta.
  rewrite !guard_Ok, fail_if_Ok, !negb_false_iff, bool_decide_eq_true, N.eqb_eq,
    both_set_different. done.
Qed.

Lemma np_mergeVNIProperties a b : np (mergeVNIProperties a b).
Proof. unfold mergeVNIProperties. np_solve. Qed.
#[export] Hint Resolve np_mergeVNIProperties : np.

Lemma np_mergeEVPNConfigs a b : np (mergeEVPNConfigs a b).
Proof. unfold mergeEVPNConfigs, mergeL2VNIs, mergeL2VNIStep, mergeL3VNIs. np_solve. Qed.

Lemma np_routersAreCompatible {A} (a b : RouterConfig A) : np (routersAreCompatible a b).
Proof. unfold routersAreCompatible. np_solve. Qed.
#[export] Hint Resolve np_mergeEVPNConfigs np_routersAreCompatible : np.

(** The merged router ID is one of the two, and covers both. *)
Lemma merged_id (a b x : string) :
  a = "" ∨ b = "" ∨ a = b → x = "" ∨ x = a ∨ x = b →
  x = "" ∨ x = if bool_decide (a = "") then b else a.
Proof. case_bool_decide; naive_solver. Qed.

Lemma elem_of_merged (x : string) l1 l2 : x ∈ sets_List (sets_New (l1 ++ l2)) ↔ x ∈ l1 ∨ x ∈ l2.
Proof. unfold sets_New. by rewrite elem_of_sets_List, elem_of_list_to_set, elem_of_app. Qed.

Lemma exists_app {A} (Q : A → Prop) l1 l2 :
  (∃ x, x ∈ l1 ++ l2 ∧ Q x) ↔ (∃ x, x ∈ l1 ∧ Q x) ∨ (∃ x, x ∈ l2 ∧ Q x).
Proof. setoid_rewrite elem_of_app. naive_solver. Qed.

(** ** Merging routers *)

Section conversion.
Context (P : NeighborConfig → Prop) (HP : merge_closed P).

(** A router and the neighbors it points to. *)
Definition router_at (h : heap) (rs : list Router) (ids : list string)
    (rc : RouterConfig positive) : Prop :=
  merges rs ids rc ∧ have_ids h (RC_VRF rc) (RC_Neighbors rc) ids.

Lemma router_at_extends h h' rs ids rc :
  extends h h' → router_at h rs ids rc → router_at h' rs ids rc.
Proof using Type. intros He [? ?]. split; [done|]. by eapply have_ids_extends. Qed.

Lemma wp_mergeRouterConfigs h rs1 rs2 ids1 ids2 a b :
  all_neighbors P h → router_at h rs1 ids1 a → router_at h rs2 ids2 b →
  wp (mergeRouterConfigs a b) h (λ c h', all_neighbors P h' ∧ extends h h' ∧
    RC_VRF c = RC_VRF a ∧
    ∃ ids, router_at h' (rs1 ++ rs2) ids c ∧ sorted_router ids c).
Proof using HP.
  intros HPh [Ma Ha] [Mb Hb]. unfold mergeRouterConfigs.
  apply wp_bind, wp_lift; [auto with np|]. intros _ (Hvrf & Hasn & Hid)%routersAreCompatible_Ok.
  apply wp_bind. eapply wp_mono.
  { apply (wp_mergeNeighborsLists P HP (RC_VRF a) _ _ _ (ids1 ++ ids2)); [done|].
    apply Forall2_app; [done|by rewrite Hvrf]. }
  intros ps h' (HPh' & Hext & ids & Hids & Hsort & Hnd & Hmem).
  apply wp_bind, wp_lift; [auto with np|]. intros evpn _. apply wp_ret.
  split_and!; [done..|]. exists ids.
  split; [split; [split|]|split]; simpl; try done; try apply sets_List_is_sorted.
  - intros r [Hr|Hr]%elem_of_app;
      [by apply (mr_vrf _ _ _ Ma)|rewrite Hvrf; by apply (mr_vrf _ _ _ Mb)].
  - intros r [Hr|Hr]%elem_of_app;
      [by apply (mr_asn _ _ _ Ma)|rewrite Hasn; by apply (mr_asn _ _ _ Mb)].
  - intros r [Hr|Hr]%elem_of_app; apply merged_id; [done| |done|].
    + destruct (mr_id _ _ _ Ma r Hr); auto.
    + destruct (mr_id _ _ _ Mb r Hr); auto.
  - rewrite exists_app. case_bool_decide as E; 
      [destruct (mr_id_from _ _ _ Mb)|destruct (mr_id_from _ _ _ Ma)]; auto.
  - intros p. by rewrite elem_of_merged, exists_app, (mr_v4 _ _ _ Ma), (mr_v4 _ _ _ Mb).
  - intros p. by rewrite elem_of_merged, exists_app, (mr_v6 _ _ _ Ma), (mr_v6 _ _ _ Mb).
  - intros p. by rewrite elem_of_merged, exists_app, (mr_imports _ _ _ Ma), (mr_imports _ _ _ Mb).
  - intros id. by rewrite Hmem, elem_of_app, exists_app, (mr_ids _ _ _ Ma), (mr_ids _ _ _ Mb).
Qed.

(** *** One router of one configuration *)

Lemma converted_ID n ab vrf family timers pw out inc :
  ID (converted n ab vrf family timers pw out inc) = session_id vrf n.
Proof using Type. done. Qed.

Section router.
Context (r : Router) (ab : list IncomingFilter) (secrets : gmap string Secret)
  (bfd : gmap string FrrBFDProfile) (prefixes : list string).
Hypothesis Hconv : ∀ n nc, n ∈ Router_Neighbors r →
  neighborToFRR n prefixes ab (Router_VRF r) secrets bfd = Ok nc → P nc.

Lemma wp_routerToFRRConfig h :
  all_neighbors P h →
  wp (routerToFRRConfig r ab secrets bfd prefixes) h (λ rc h',
    all_neighbors P h' ∧ extends h h' ∧ RC_VRF rc = Router_VRF r ∧
    router_at h' [r] (session_ids r) rc).
Proof using Hconv.
  clear HP. intros HPh. unfold routerToFRRConfig. apply wp_bind.
  set (I := λ (dn : list Neighbor) (ps : list positive) (h1 : heap),
    all_neighbors P h1 ∧ extends h h1 ∧
    have_ids h1 (Router_VRF r) ps (session_id (Router_VRF r) <$> dn)).
  eapply wp_mono; [apply (wp_foldMH I)|].
  - split_and!; [done..|constructor].
  - intros dn n ps h1 Hn (HP1 & Hext & Hids).
    apply wp_bind, wp_lift; [auto with np|]. intros _ _.
    apply wp_bind, wp_lift; [auto with np|]. intros nc Hnc%wrap_Ok.
    apply wp_bind, wp_alloc. intros p Hp. apply wp_ret.
    pose proof (extends_alloc _ _ nc Hp) as Hext'. split_and!.
    + apply map_Forall_insert_2; [by eapply Hconv|done].
    + by trans h1.
    + rewrite fmap_app. apply Forall2_app; [by eapply have_ids_extends|].
      constructor; [|constructor]. exists nc. rewrite lookup_insert_eq.
      apply neighborToFRR_Ok in Hnc as (_ & ? & ? & ? & ? & ? & _ & _ & _ & _ & _ & ->).
      done.
  - intros ps h' (HP' & Hext & Hids). apply wp_ret. split_and!; [done..|].
    split; [|done]. unfold session_ids. split; simpl; set_solver.
Qed.
End router.

(** *** All routers *)

(** The routers built so far are the API routers seen so far, per VRF. *)
Definition routers_at (h : heap) (seen : list Router) (m : gmap string (RouterConfig positive))
    : Prop :=
  ∀ vrf, match m !! vrf with
  | None => for_vrf vrf seen = []
  | Some rc => RC_VRF rc = vrf ∧ for_vrf vrf seen ≠ [] ∧
      ∃ ids, router_at h (for_vrf vrf seen) ids rc ∧ sorted_router ids rc
  end.

Lemma routers_at_extends h h' seen m :
  extends h h' → routers_at h seen m → routers_at h' seen m.
Proof using Type.
  intros He Hm vrf. specialize (Hm vrf). destruct (m !! vrf) as [rc|]; [|done].
  destruct Hm as (? & ? & ids & ? & ?). split_and!; [done..|].
  exists ids. split; [by eapply router_at_extends|done].
Qed.

Lemma for_vrf_snoc vrf seen r :
  for_vrf vrf (seen ++ [r]) =
  for_vrf vrf seen ++ if bool_decide (Router_VRF r = vrf) then [r] else [].
Proof using Type.
  unfold for_vrf. rewrite filter_app, filter_cons, filter_nil.
  case_bool_decide; by case_decide.
Qed.

Lemma routers_at_insert h seen m r rc ids :
  routers_at h seen m → RC_VRF rc = Router_VRF r →
  router_at h (for_vrf (Router_VRF r) seen ++ [r]) ids rc → sorted_router ids rc →
  routers_at h (seen ++ [r]) (<[Router_VRF r := rc]> m).
Proof using Type.
  intros Hm Hvrf Hrc Hs vrf. specialize (Hm vrf). rewrite for_vrf_snoc.
  case_bool_decide as E.
  - subst vrf. rewrite lookup_insert_eq. split_and!; [done| |eauto].
    by intros [_ ?]%app_eq_nil.
  - rewrite lookup_insert_ne by done. by rewrite app_nil_r.
Qed.

Section config.
Context (cfg : FRRConfiguration) (ab : list IPNet) (secrets : gmap string Secret).
Notation api_routers := (BGP_Routers (Spec_BGP (Cfg_Spec cfg))).
Notation prefixes_per_vrf := (prefixesForVRFs api_routers).

(** A neighbor that passed the checks of the loop satisfies [P]. *)
Definition establishes (bfd : gmap string FrrBFDProfile) : Prop :=
  ∀ r imported n nc,
    r ∈ api_routers → n ∈ Router_Neighbors r →
    importedPrefixes r prefixes_per_vrf = Ok imported →
    validateOutgoingPrefixes (Router_Prefixes r ++ imported) r = Ok () →
    neighborToFRR n (Router_Prefixes r ++ imported) (alwaysBlockToFRR ab) (Router_VRF r)
      secrets bfd = Ok nc → P nc.

Lemma wp_routerStep bfd h seen m r :
  establishes bfd → r ∈ api_routers → all_neighbors P h → routers_at h seen m →
  wp (routerStep (alwaysBlockToFRR ab) secrets bfd prefixes_per_vrf m r) h
    (λ m' h', all_neighbors P h' ∧ routers_at h' (seen ++ [r]) m').
Proof using HP.
  intros Hest Hr HPh Hm. unfold routerStep.
  apply wp_bind, wp_lift; [auto with np|]. intros _ _.
  apply wp_bind, wp_lift; [auto with np|]. intros _ _.
  apply wp_bind, wp_lift; [auto with np|]. intros imported Himp.
  apply wp_bind, wp_lift; [auto with np|]. intros [] Hout.
  apply wp_bind. eapply wp_mono; [apply wp_routerToFRRConfig; [eauto|done]|].
  intros rc h1 (HP1 & Hext1 & Hvrf1 & Hrc).
  apply wp_bind. eapply wp_mono; [by eapply wp_mergeRouterConfigs|].
  intros rc2 h2 (HP2 & Hext2 & Hvrf2 & ids2 & Hrc2 & Hs2).
  apply (routers_at_extends _ h2) in Hm; [|by trans h1].
  assert (router_at h2 [r] ids2 rc2) as Hrc2'.
  { destruct Hrc2 as [? ?]. split; [|done]. eapply merges_proper; [|done]. set_solver. }
  pose proof (Hm (Router_VRF r)) as Hcur.
  destruct (m !! Router_VRF r) as [curr|] eqn:Ecur.
  - destruct Hcur as (Hcv & _ & ids & Hc & Hcs).
    apply wp_bind. eapply wp_mono; [by eapply wp_mergeRouterConfigs|].
    intros rc3 h3 (HP3 & Hext3 & Hvrf3 & ids3 & Hrc3 & Hs3). apply wp_ret. split; [done|].
    eapply routers_at_insert; [by eapply routers_at_extends|congruence|done..].
  - apply wp_ret. split; [done|].
    eapply routers_at_insert; [done|congruence| |done]. by rewrite Hcur.
Qed.
End config.
End conversion.
