(* ===== verification/ApiResult.v ===== *)
(** * What a successful conversion returns

    [configStep] and [apiToFRR] on top of [ApiHeap.v]: the record [result_ok]
    collects what holds of every configuration [apiToFRR] returns, and
    [wp_apiToFRR] proves it together with the absence of panics. *)

From Stdlib Require Import Lia.
From S2P Require Import Prelude GoStrings GoNet IPFamily Community Api FrrConfig Errors Merge.
From S2P Require Import ApiToConfig MergeFacts HeapLogic ConvertFacts EVPNFacts ApiHeap.

(** ** BFD profiles *)

Definition profiles_of (cfgs : list FRRConfiguration) : list BFDProfile :=
  cfgs ≫= λ cfg, BGP_BFDProfiles (Spec_BGP (Cfg_Spec cfg)).

(** The map holds these API profiles by name, and nothing else. *)
Definition profiles_at (bs : list BFDProfile) (m : gmap string FrrBFDProfile) : Prop :=
  ∀ name p, m !! name = Some p ↔ ∃ b, b ∈ bs ∧ bfdProfileToFRR b = p ∧ BFDProfile_Name b = name.

Lemma profiles_at_insert bs m b :
  m !! BFDProfile_Name b = None → profiles_at bs m →
  profiles_at (bs ++ [b]) (<[BFDProfile_Name b := bfdProfileToFRR b]> m).
Proof.
  intros Hnone Hm name p. rewrite lookup_insert_Some, (Hm name p).
  setoid_rewrite elem_of_app. setoid_rewrite list_elem_of_singleton. split.
  - naive_solver.
  - intros (b' & [Hb| ->] & <- & <-); [|by left]. right. split; [|by eauto].
    intros Heq. rewrite Heq in Hnone. by rewrite (proj2 (Hm _ _)) in Hnone by eauto.
Qed.

Lemma bfdProfilesStep_Ok name loc all b loc' all' seen bs :
  profiles_at bs loc → profiles_at seen all →
  bfdProfilesStep name (loc, all) b = Ok (loc', all') →
  profiles_at (bs ++ [b]) loc' ∧ profiles_at (seen ++ [b]) all'.
Proof.
  intros Hl Ha. unfold bfdProfilesStep; simpl. rewrite guard_Ok, bool_decide_eq_false.
  intros [Hnew%eq_None_not_Some H]. apply (profiles_at_insert bs) in Hnew as Hl'; [|done].
  destruct (all !! BFDProfile_Name b) as [old|] eqn:Eold.
  - rewrite guard_Ok, negb_false_iff, bool_decide_eq_true in H.
    destruct H as [-> [= <- <-]]. split; [done|].
    intros name' p. rewrite (Ha name' p). setoid_rewrite elem_of_app.
    setoid_rewrite list_elem_of_singleton. split; [naive_solver|].
    intros (b' & [Hb| ->] & <- & <-); [by eauto|]. by apply (Ha _ _).
  - injection H as <- <-. split; [done|]. by apply profiles_at_insert.
Qed.

Lemma bfdProfiles_fold name bs seen all loc' all' :
  profiles_at seen all → foldM (bfdProfilesStep name) (∅, all) bs = Ok (loc', all') →
  profiles_at bs loc' ∧ profiles_at (seen ++ bs) all'.
Proof.
  intros Ha.
  assert (∀ done loc all, profiles_at done loc → profiles_at (seen ++ done) all →
    foldM (bfdProfilesStep name) (loc, all) bs = Ok (loc', all') →
    profiles_at (done ++ bs) loc' ∧ profiles_at (seen ++ done ++ bs) all') as Hgen.
  { clear all Ha. induction bs as [|b bs IH]; intros dn loc all Hl Ha; cbn [foldM].
    { intros [= <- <-]. by rewrite app_nil_r. }
    intros ([l1 a1] & H1 & H2)%bind_Ok.
    destruct (bfdProfilesStep_Ok _ _ _ _ _ _ _ _ Hl Ha H1) as [Hl1 Ha1].
    rewrite cons_middle, (assoc_L (++) dn). apply (IH (dn ++ [b]) l1 a1); [done| |done].
    by rewrite (assoc_L (++)). }
  intros Hf. apply (Hgen [] ∅ all); [|by rewrite app_nil_r|done].
  intros n p. rewrite lookup_empty. split; [done|]. intros (b & Hb & _). set_solver.
Qed.

(** ** One configuration after another *)

Definition raws_of (cfgs : list FRRConfiguration) : list namedRawConfig :=
  (λ cfg, mkNamedRawConfig (Spec_Raw (Cfg_Spec cfg)) (Cfg_Name cfg)) <$>
    filter (λ cfg, RawConfig_Config (Spec_Raw (Cfg_Spec cfg)) ≠ "") cfgs.

Record state_at (h : heap) (cfgs : list FRRConfiguration) (st : convState) : Prop := {
  sa_routers : routers_at h (cfgs ≫= λ cfg, BGP_Routers (Spec_BGP (Cfg_Spec cfg)))
                 (CS_routersForVRF st);
  sa_profiles : profiles_at (profiles_of cfgs) (CS_bfdProfilesAllConfigs st);
  sa_raws : CS_rawConfigs st = raws_of cfgs
}.

Lemma raws_of_snoc cfgs cfg :
  raws_of (cfgs ++ [cfg]) =
  if bool_decide (RawConfig_Config (Spec_Raw (Cfg_Spec cfg)) = "") then raws_of cfgs
  else raws_of cfgs ++ [mkNamedRawConfig (Spec_Raw (Cfg_Spec cfg)) (Cfg_Name cfg)].
Proof.
  unfold raws_of. rewrite filter_app, filter_cons, filter_nil, fmap_app.
  case_bool_decide; case_decide; simpl; [done| |done|tauto]. by rewrite app_nil_r.
Qed.

Lemma for_vrf_nonempty vrf rs : for_vrf vrf rs ≠ [] ↔ vrf ∈ Router_VRF <$> rs.
Proof.
  unfold for_vrf. rewrite list_elem_of_fmap. split.
  - intros Hne. destruct (filter _ rs) as [|r l] eqn:E; [done|].
    assert (r ∈ filter (λ r, Router_VRF r = vrf) rs) as [<- ?]%list_elem_of_filter
      by (rewrite E; by left). eauto.
  - intros (r & -> & Hr) Hnil.
    assert (r ∈ filter (λ r', Router_VRF r' = Router_VRF r) rs) as Hin
      by (by apply list_elem_of_filter).
    rewrite Hnil in Hin. by apply not_elem_of_nil in Hin.
Qed.

Section conversion.
Context (P : NeighborConfig → Prop) (HP : merge_closed P).
Context (resources : ClusterResources) (ab : list IPNet).
Hypothesis Hest : ∀ cfg bfd, cfg ∈ FRRConfigs resources →
  profiles_at (BGP_BFDProfiles (Spec_BGP (Cfg_Spec cfg))) bfd →
  establishes P cfg ab (PasswordSecrets resources) bfd.

Lemma wp_configStep cfgs cfg st h :
  cfg ∈ FRRConfigs resources → all_neighbors P h → state_at h cfgs st →
  wp (configStep (PasswordSecrets resources) ab st cfg) h (λ st' h',
    all_neighbors P h' ∧ state_at h' (cfgs ++ [cfg]) st').
Proof using HP Hest.
  intros Hcfg HPh [Hr Hp Hraw]. unfold configStep.
  apply wp_bind, wp_lift; [auto with np|]. intros [loc all] Hb.
  destruct (bfdProfiles_fold _ _ _ _ _ _ Hp Hb) as [Hloc Hall].
  apply wp_bind. set (rs := BGP_Routers (Spec_BGP (Cfg_Spec cfg))) in *.
  set (seen := cfgs ≫= λ cfg, BGP_Routers (Spec_BGP (Cfg_Spec cfg))) in *.
  eapply wp_mono; [apply (wp_foldMH (λ dn m h',
    all_neighbors P h' ∧ routers_at h' (seen ++ dn) m))|].
  - by rewrite app_nil_r.
  - intros dn r m h1 Hin [HP1 Hm]. rewrite (assoc_L (++)).
    eapply wp_routerStep; [done|by apply Hest|done..].
  - intros m h' [HP' Hm]. apply wp_ret. split; [done|]. split; simpl.
    + rewrite bind_app, bind_singleton. done.
    + unfold profiles_of. rewrite bind_app, bind_singleton. done.
    + rewrite raws_of_snoc, Hraw. done.
Qed.

(** ** Following the pointers *)

(** [r'] is what one sees of [r] in [h]. *)
Definition seen_in (h : heap) (r : RouterConfig positive) (r' : RouterConfig NeighborConfig)
    : Prop :=
  ∃ ns, Forall2 (λ p n, h !! p = Some n) (RC_Neighbors r) ns ∧
    r' = mkRouterConfig (RC_MyASN r) (RC_RouterID r) ns (RC_VRF r) (RC_IPV4Prefixes r)
           (RC_IPV6Prefixes r) (RC_ImportVRFs r) (RC_EVPN r).

Lemma have_ids_values h vrf ps ids :
  have_ids h vrf ps ids → ∃ ns, Forall2 (λ p n, h !! p = Some n) ps ns.
Proof using Type.
  induction 1 as [|p id ps ids (n & Hn & _) _ [ns IH]];
    [by exists []|by exists (n :: ns); constructor].
Qed.

Lemma wp_deref_routers h (l : list (string * RouterConfig positive)) :
  (∀ k r, (k, r) ∈ l → ∃ ids, have_ids h (RC_VRF r) (RC_Neighbors r) ids) →
  wp (deref_routers l) h (λ l' h', h' = h ∧
    Forall2 (λ kr kr', kr'.1 = kr.1 ∧ seen_in h kr.2 kr'.2) l l').
Proof using Type.
  induction l as [|[k r] l IH]; intros Hl; cbn [deref_routers].
  { apply wp_ret. split; [done|constructor]. }
  destruct (Hl k r) as [ids Hids]; [by left|].
  destruct (have_ids_values _ _ _ _ Hids) as [ns Hns].
  apply wp_bind. unfold deref_router. apply wp_bind.
  unfold wp at 1, load_all. apply mapM_Some in Hns as Hmap. rewrite Hmap. apply wp_ret.
  apply wp_bind. eapply wp_mono; [apply IH; intros; eapply Hl; by right|].
  intros l' h' [-> Hl']. apply wp_ret. split; [done|]. constructor; [|done].
  split; [done|]. by exists ns.
Qed.

Lemma seen_in_ids h r r' vrf ids :
  seen_in h r r' → have_ids h vrf (RC_Neighbors r) ids →
  ID <$> RC_Neighbors r' = ids ∧ Forall (λ n, NC_VRFName n = vrf) (RC_Neighbors r').
Proof using Type.
  intros (ns & Hns & ->) Hids; simpl. revert ids Hids.
  induction Hns as [|p n ps ns Hn _ IH]; intros ids Hids;
    inversion Hids as [|? id ? ids' (n' & Hn' & <- & Hv) Hids']; subst.
  - split; [done|constructor].
  - simplify_eq. destruct (IH _ Hids') as [<- ?]. split; [done|]. by constructor.
Qed.

(** ** The result *)

Record result_ok (c : Config NeighborConfig) : Prop := {
  rk_vrfs_sorted : is_sorted (RC_VRF <$> Config_Routers c);
  rk_vrfs vrf : vrf ∈ RC_VRF <$> Config_Routers c ↔ vrf ∈ Router_VRF <$> routers_of resources;
  rk_router rc : rc ∈ Config_Routers c →
    merges (for_vrf (RC_VRF rc) (routers_of resources)) (ID <$> RC_Neighbors rc) rc ∧
    sorted_router (ID <$> RC_Neighbors rc) rc;
  rk_neighbor rc n : rc ∈ Config_Routers c → n ∈ RC_Neighbors rc →
    P n ∧ NC_VRFName n = RC_VRF rc;
  rk_profiles_sorted : is_sorted (FBFD_Name <$> Config_BFDProfiles c);
  rk_profiles p : p ∈ Config_BFDProfiles c ↔
    p ∈ bfdProfileToFRR <$> profiles_of (FRRConfigs resources);
  rk_raw : Config_ExtraConfig c = joinRawConfigs (raws_of (FRRConfigs resources));
  rk_evpn rc : rc ∈ Config_Routers c → evpn_valid rc;
  rk_vnis : NoDup (Config_Routers c ≫= router_vnis)
}.

(** The routers followed through the store, by VRF. *)
Lemma deref_map h (m : gmap string (RouterConfig positive)) l' :
  Forall2 (λ kr kr', kr'.1 = kr.1 ∧ seen_in h kr.2 kr'.2) (map_to_list m) l' →
  NoDup l'.*1 ∧
  ∀ k r', (list_to_map l' : gmap string _) !! k = Some r' ↔
          ∃ r, m !! k = Some r ∧ seen_in h r r'.
Proof using Type.
  intros Hl.
  assert (l'.*1 = (map_to_list m).*1) as Hkeys.
  { induction Hl as [|[k r] [k' r'] l l' [? _] _ IH]; [done|]. cbn in *. by f_equal. }
  assert (NoDup l'.*1) as Hnd by (rewrite Hkeys; apply NoDup_fst_map_to_list).
  split; [done|]. intros k r'. rewrite <-elem_of_list_to_map by done.
  setoid_rewrite <-elem_of_map_to_list. clear Hkeys Hnd. split.
  - intros (i & Hi)%list_elem_of_lookup.
    destruct (Forall2_lookup_r _ _ _ _ _ Hl Hi) as ([k0 r] & H0 & Hk & Hs); cbn in *. subst k0.
    exists r. split; [by eapply list_elem_of_lookup_2|done].
  - intros (r & (i & Hi)%list_elem_of_lookup & Hs).
    destruct (Forall2_lookup_l _ _ _ _ _ Hl Hi) as ([k0 r2] & H0 & Hk & Hs2); cbn in *. subst k0.
    assert (r2 = r') as ->; [|by eapply list_elem_of_lookup_2].
    destruct Hs as (ns & Hns & ->), Hs2 as (ns2 & Hns2 & ->). f_equal. clear -Hns Hns2.
    revert ns2 Hns2. induction Hns as [|p n ps ns Hn _ IH]; intros ns2 Hns2;
      inversion Hns2; subst; [done|]. f_equal; [congruence|auto].
Qed.

Lemma sortMap_Permutation {V} (m : gmap string V) l :
  NoDup l.*1 → m = list_to_map l → sortMap m ≡ₚ l.*2.
Proof using Type.
  intros Hnd ->. unfold sortMap, sortedKeys. rewrite merge_sort_Permutation.
  rewrite map_to_list_to_map by done.
  assert (omap (λ k, (list_to_map l : gmap string V) !! k) l.*1 = l.*2) as ->; [|done].
  assert (∀ k v, (k, v) ∈ l → (list_to_map l : gmap string V) !! k = Some v) as Hl
    by (intros; by apply elem_of_list_to_map).
  clear Hnd. revert Hl. generalize (list_to_map l : gmap string V) as m.
  induction l as [|[k v] l IH]; intros m Hl; [done|]. cbn.
  rewrite (Hl k v) by left. f_equal. apply IH. intros; apply Hl; by right.
Qed.

(** The routers of the final store give the routers of the result. *)
Lemma routers_result h m l' :
  all_neighbors P h → routers_at h (routers_of resources) m →
  Forall2 (λ kr kr', kr'.1 = kr.1 ∧ seen_in h kr.2 kr'.2) (map_to_list m) l' →
  let rs := sortMap (list_to_map l' : gmap string (RouterConfig NeighborConfig)) in
  is_sorted (RC_VRF <$> rs) ∧
  (∀ vrf, vrf ∈ RC_VRF <$> rs ↔ vrf ∈ Router_VRF <$> routers_of resources) ∧
  (∀ rc, rc ∈ rs →
     merges (for_vrf (RC_VRF rc) (routers_of resources)) (ID <$> RC_Neighbors rc) rc ∧
     sorted_router (ID <$> RC_Neighbors rc) rc) ∧
  (∀ rc n, rc ∈ rs → n ∈ RC_Neighbors rc → P n ∧ NC_VRFName n = RC_VRF rc).
Proof using Type.
  intros HPh Hm Hl rs. destruct (deref_map _ _ _ Hl) as [Hnd Hlook].
  set (m' := list_to_map l' : gmap string (RouterConfig NeighborConfig)) in *.
  assert (∀ k rc, m' !! k = Some rc → RC_VRF rc = k ∧ ∃ r, m !! k = Some r ∧ seen_in h r rc) as Hk.
  { intros k rc (r & Hr & Hs)%Hlook. split; [|by eauto].
    specialize (Hm k). rewrite Hr in Hm. destruct Hm as [<- _].
    by destruct Hs as (ns & _ & ->). }
  assert (∀ rc, rc ∈ rs ↔ m' !! RC_VRF rc = Some rc) as Hrs.
  { intros rc. unfold rs. rewrite elem_of_sortMap. split; [|by eauto].
    intros [k Hkrc]. by rewrite (proj1 (Hk _ _ Hkrc)). }
  split_and!.
  - apply (sortMap_is_sorted RC_VRF m'). intros k v Hv. by apply Hk.
  - intros vrf. rewrite list_elem_of_fmap. setoid_rewrite Hrs. split.
    + intros (rc & -> & Hrc). destruct (Hk _ _ Hrc) as (_ & r & Hr & _).
      specialize (Hm (RC_VRF rc)). rewrite Hr in Hm. destruct Hm as (_ & Hne & _).
      by apply for_vrf_nonempty.
    + intros Hin%for_vrf_nonempty. specialize (Hm vrf) as Hmv.
      destruct (m !! vrf) as [r|] eqn:Hr; [|done].
      destruct Hmv as (_ & _ & ids & [_ (ns & Hns)%have_ids_values] & _).
      assert (∃ rc, m' !! vrf = Some rc) as [rc Hrc].
      { eexists. apply Hlook. exists r. split; [done|]. by exists ns. }
      exists rc. split; [symmetry; by apply Hk|]. by rewrite (proj1 (Hk _ _ Hrc)).
  - intros rc Hrc%Hrs. destruct (Hk _ _ Hrc) as (_ & r & Hr & Hs). specialize (Hm (RC_VRF rc)).
    rewrite Hr in Hm. destruct Hm as (Hv & _ & ids & [[] Hids] & []).
    destruct (seen_in_ids _ _ _ _ _ Hs Hids) as [-> _].
    by destruct Hs as (ns & _ & ->).
  - intros rc n Hrc%Hrs Hn. destruct (Hk _ _ Hrc) as (_ & r & Hr & Hs). specialize (Hm (RC_VRF rc)).
    rewrite Hr in Hm. destruct Hm as (Hv & _ & ids & [_ Hids] & _).
    destruct (seen_in_ids _ _ _ _ _ Hs Hids) as [_ Hall]. rewrite Forall_forall in Hall.
    split; [|rewrite <-Hv; by apply Hall]. destruct Hs as (ns & Hns & ->).
    apply list_elem_of_lookup in Hn as [i Hi].
    destruct (Forall2_lookup_r _ _ _ _ _ Hns Hi) as (p & _ & Hp). by eapply HPh.
Qed.

Lemma wp_apiToFRR :
  wp (apiToFRR_heap resources ab) ∅ (λ c _, result_ok c).
Proof using HP Hest.
  unfold apiToFRR_heap. apply wp_bind. eapply wp_mono; [apply (wp_foldMH (λ dn st h,
    all_neighbors P h ∧ state_at h dn st))|].
  - split; [apply map_Forall_empty|]. split; simpl; [|intros name p|done].
    + intros vrf. by rewrite lookup_empty.
    + rewrite lookup_empty. split; [done|]. intros (b & Hb & _). set_solver.
  - intros dn cfg st h Hcfg [HPh Hst]. by apply wp_configStep.
  - intros st h [HPh [Hr Hp Hraw]]. apply wp_bind. eapply wp_mono; [apply wp_deref_routers|].
    { intros k r Hkr%elem_of_map_to_list. specialize (Hr k). rewrite Hkr in Hr.
      destruct Hr as (_ & _ & ids & [_ Hids] & _). eauto. }
    intros l' h' [-> Hl']. apply wp_bind, wp_lift; [auto with np|].
    intros _ [Hev Hvnis]%validateEVPN_Ok. apply wp_ret.
    destruct (deref_map _ _ _ Hl') as [Hnd _].
    pose proof (sortMap_Permutation _ _ Hnd eq_refl) as Hperm.
    destruct (routers_result _ _ _ HPh Hr Hl') as (? & ? & ? & ?).
    assert (∀ k v, CS_bfdProfilesAllConfigs st !! k = Some v → FBFD_Name v = k) as Hname
      by (intros k v (b & _ & <- & <-)%Hp; done).
    split; simpl; try done.
    + by apply (sortMap_is_sorted FBFD_Name).
    + intros p. rewrite elem_of_sortMap, list_elem_of_fmap. setoid_rewrite (Hp _ _).
      split; naive_solver.
    + by rewrite Hraw.
    + intros rc. rewrite Hperm, list_elem_of_fmap. intros ([k r] & -> & Hin).
      rewrite Forall_forall in Hev. by apply (Hev (k, r)).
    + rewrite Hperm, list_fmap_bind. done.
Qed.
End conversion.
