(* ===== verification/Advertised.v ===== *)
(** * Which prefixes a neighbor may be sent

    [out_safe avail nc]: the neighbor is only sent prefixes that are available
    to its router, in the address families of the session, and every local
    preference and community is for a prefix that is sent.  Conversion
    establishes it and merging keeps it; [available] spells out what is
    available to the routers of a VRF. *)

From Stdlib Require Import Lia.
From S2P Require Import Prelude GoStrings GoNet IPFamily Community Api FrrConfig Errors Merge.
From S2P Require Import ApiToConfig MergeFacts HeapLogic ConvertFacts EVPNFacts ApiHeap ApiResult.

(** ** What the validation of outgoing prefixes ensures *)

Lemma validate_lp_inner (lp : N) (e : string → N → error) ps (m m' : gmap string N) :
  foldM (λ m p,
      _ ← match m !! p with
          | Some existing => fail_if (negb (existing =? lp)%N) (e p existing)
          | None => Ok ()
          end;
      Ok (<[p := lp]> m)) m ps = Ok m' →
  (∀ p x, m !! p = Some x → m' !! p = Some x) ∧ (∀ p, p ∈ ps → m' !! p = Some lp).
Proof.
  revert m; induction ps as [|q ps IH]; intros m H; cbn [foldM] in H.
  { injection H as <-. split; [done|]. intros p Hp. by apply not_elem_of_nil in Hp. }
  apply bind_Ok in H as (m1 & H1 & H2). apply bind_Ok in H1 as ([] & Hq & [= <-]).
  apply IH in H2 as [Hmono Hall]. split.
  - intros p x Hp. apply Hmono. destruct (decide (q = p)) as [<-|]; [|by rewrite lookup_insert_ne].
    rewrite Hp, fail_if_Ok, negb_false_iff, N.eqb_eq in Hq. subst. apply lookup_insert_eq.
  - intros p [->|?]%elem_of_cons; [|auto]. apply Hmono, lookup_insert_eq.
Qed.

(** The loop over all the local preferences, whatever [check] tests before each. *)
Lemma validate_lp_outer (check : LocalPrefPrefixes → res unit) (e : LocalPrefPrefixes → N → error)
    es (m m' : gmap string N) :
  foldM (λ m prefixes,
    _ ← check prefixes;
    foldM (λ m p,
      _ ← match m !! p with
          | Some existing =>
              fail_if (negb (existing =? LocalPref_LocalPref prefixes)%N) (e prefixes existing)
          | None => Ok ()
          end;
      Ok (<[p := LocalPref_LocalPref prefixes]> m)) m (LocalPref_Prefixes prefixes)) m es = Ok m' →
  (∀ p x, m !! p = Some x → m' !! p = Some x) ∧
  (∀ pr p, pr ∈ es → p ∈ LocalPref_Prefixes pr → m' !! p = Some (LocalPref_LocalPref pr)).
Proof.
  revert m; induction es as [|pr es IH]; intros m H; cbn [foldM] in H.
  { injection H as ->. split; [done|]. intros pr p Hpr. by apply not_elem_of_nil in Hpr. }
  apply bind_Ok in H as (m1 & H1 & H2). apply bind_Ok in H1 as (_ & _ & H1).
  apply (validate_lp_inner _ (λ _, e pr)) in H1 as [Hm1 Ha1].
  apply IH in H2 as [Hm2 Ha2]. split; [by auto|].
  intros pr' p [->|He']%elem_of_cons Hp; auto.
Qed.

(** What [validateOutgoingForNeighbor] lets through. *)
Record outgoing_valid (prefixes : gset string) (n : Neighbor) : Prop := {
  ov_allowed p : AllowedOut_Mode (Advertise_Allowed (Neighbor_ToAdvertise n)) ≠ AllowAll →
    p ∈ AllowedOut_Prefixes (Advertise_Allowed (Neighbor_ToAdvertise n)) → p ∈ prefixes;
  ov_one_lp e1 e2 p : e1 ∈ PrefixesWithLocalPref (Neighbor_ToAdvertise n) →
    e2 ∈ PrefixesWithLocalPref (Neighbor_ToAdvertise n) →
    p ∈ LocalPref_Prefixes e1 → p ∈ LocalPref_Prefixes e2 →
    LocalPref_LocalPref e1 = LocalPref_LocalPref e2
}.

Lemma validateOutgoingForNeighbor_Ok prefixes vrf n :
  validateOutgoingForNeighbor prefixes vrf n = Ok () → outgoing_valid prefixes n.
Proof.
  unfold validateOutgoingForNeighbor; cbv zeta. intros H.
  apply bind_Ok in H as (fam & _ & H). apply bind_Ok in H as (m & Hlp & H).
  apply bind_Ok in H as ([] & _ & H). split.
  - intros p Hmode Hp. rewrite bool_decide_eq_false_2 in H by done.
    apply bind_Ok in H as ([] & _ & H). rewrite each_Ok, Forall_forall in H.
    specialize (H p Hp). by rewrite fail_if_Ok, negb_false_iff, bool_decide_eq_true in H.
  - intros e1 e2 p He1 He2 H1 H2. clear H.
    eapply (validate_lp_outer _ (λ pr existing, EMultipleLocalPrefs (LocalPref_Prefixes pr) existing
      (LocalPref_LocalPref pr))) in Hlp as [_ Hall].
    apply (Hall e1 p He1) in H1. apply (Hall e2 p He2) in H2. congruence.
Qed.

(** ** The property *)

Record out_safe (avail : string → Prop) (nc : NeighborConfig) : Prop := {
  sf_v4 p : p ∈ AO_PrefixesV4 (NC_Outgoing nc) → ForCIDRString p = IPv4 ∧ avail p;
  sf_v6 p : p ∈ AO_PrefixesV6 (NC_Outgoing nc) → ForCIDRString p = IPv6 ∧ avail p;
  sf_family4 : AO_PrefixesV4 (NC_Outgoing nc) ≠ [] → neighborHasIPFamily nc IPv4 = true;
  sf_family6 : AO_PrefixesV6 (NC_Outgoing nc) ≠ [] → neighborHasIPFamily nc IPv6 = true;
  sf_lp k p : lp_tagged (AO_LocalPrefPrefixesModifiers (NC_Outgoing nc)) k p →
    p ∈ AO_PrefixesV4 (NC_Outgoing nc) ∨ p ∈ AO_PrefixesV6 (NC_Outgoing nc);
  sf_comm k p : comm_tagged (AO_CommunityPrefixesModifiers (NC_Outgoing nc)) k p →
    p ∈ AO_PrefixesV4 (NC_Outgoing nc) ∨ p ∈ AO_PrefixesV6 (NC_Outgoing nc);
  sf_wf : out_wf (NC_Outgoing nc)
}.

Lemma elem_of_unionList (x : string) l1 l2 :
  x ∈ sets_List (sets_New l1 ∪ sets_New l2) ↔ x ∈ l1 ∨ x ∈ l2.
Proof.
  unfold sets_New. by rewrite elem_of_sets_List, elem_of_union, !elem_of_list_to_set.
Qed.

Lemma unionList_nonempty (l1 l2 : list string) :
  sets_List (sets_New l1 ∪ sets_New l2) ≠ [] → l1 ≠ [] ∨ l2 ≠ [].
Proof.
  intros H. destruct l1 as [|x l1]; [|by left]. right. intros ->. apply H.
  apply elem_of_nil_inv. intros x. rewrite elem_of_unionList. set_solver.
Qed.

(** Merging keeps it: what the merged neighbor is sent, one of the two was. *)
Lemma out_safe_merge avail d s d' :
  out_safe avail d → out_safe avail s → mergeIntoNeighbor d s = Ok d' → out_safe avail d'.
Proof.
  intros Hd Hs (Hc & out & Hout & ->)%mergeIntoNeighbor_Ok.
  pose proof (mergeAllowedOut_wf _ _ _ (sf_wf _ _ Hd) (sf_wf _ _ Hs) Hout) as Hwf.
  pose proof (c_IPFamily _ _ Hc) as Hfam.
  assert (∀ f, neighborHasIPFamily s f = neighborHasIPFamily d f) as Hhas
    by (intros f; unfold neighborHasIPFamily; by rewrite Hfam).
  apply mergeAllowedOut_inv in Hout as (_ & _ & _ & ->). split; simpl.
  - intros p [?|?]%elem_of_unionList; [by apply (sf_v4 _ _ Hd)|by apply (sf_v4 _ _ Hs)].
  - intros p [?|?]%elem_of_unionList; [by apply (sf_v6 _ _ Hd)|by apply (sf_v6 _ _ Hs)].
  - intros [H|H]%unionList_nonempty; [by apply (sf_family4 _ _ Hd)|].
    apply (sf_family4 _ _ Hs) in H. by rewrite Hhas in H.
  - intros [H|H]%unionList_nonempty; [by apply (sf_family6 _ _ Hd)|].
    apply (sf_family6 _ _ Hs) in H. by rewrite Hhas in H.
  - intros k p. rewrite localPref_tagged_merge by apply (sf_wf _ _ Hd).
    rewrite !elem_of_unionList.
    intros [H|H]; [apply (sf_lp _ _ Hd) in H|apply (sf_lp _ _ Hs) in H]; tauto.
  - intros k p. rewrite community_tagged_merge by apply (sf_wf _ _ Hd).
    rewrite !elem_of_unionList.
    intros [H|H]; [apply (sf_comm _ _ Hd) in H|apply (sf_comm _ _ Hs) in H]; tauto.
  - exact Hwf.
Qed.

(** Conversion establishes it. *)
Lemma elem_of_prefixesToAdvertise adv ps fam p :
  fam ≠ DualStack →
  p ∈ prefixesToAdvertiseForFamily adv ps fam ↔
  ForCIDRString p = fam ∧
  p ∈ if bool_decide (AllowedOut_Mode (Advertise_Allowed adv) = AllowAll) then ps
      else AllowedOut_Prefixes (Advertise_Allowed adv).
Proof.
  intros Hf. unfold prefixesToAdvertiseForFamily, sets_New.
  case_bool_decide; rewrite elem_of_list_to_set.
  - by rewrite elem_of_FilterPrefixes.
  - by rewrite list_elem_of_filter.
Qed.

Lemma FilterPrefixes_sub p ps f : p ∈ FilterPrefixes ps f → p ∈ ps.
Proof. unfold FilterPrefixes. case_bool_decide; [done|]. by intros [_ ?]%list_elem_of_filter. Qed.

Lemma families_of_has nb fam :
  fam ∈ families_of nb → (fam = IPv4 ∨ fam = IPv6) → neighborHasIPFamily nb fam = true.
Proof.
  unfold families_of, neighborHasIPFamily. case_bool_decide as E; [done|].
  intros ->%list_elem_of_singleton _. by apply bool_decide_eq_true.
Qed.

Lemma requested_advertised nb adv ps out fam p :
  outgoing_spec nb adv ps out → fam ∈ families_of nb → p ∈ prefixes_for adv ps fam →
  p ∈ AO_PrefixesV4 out ∨ p ∈ AO_PrefixesV6 out.
Proof.
  intros Hs Hfam Hp. rewrite (os_v4 _ _ _ _ Hs), (os_v6 _ _ _ _ Hs).
  destruct fam; simpl in Hp; [left|right|set_solver..]; split; auto using families_of_has.
Qed.

Lemma out_safe_converted (avail : string → Prop) n ps ab vrf secrets bfd nc :
  outgoing_valid (sets_New ps) n → (∀ p, p ∈ ps → avail p) →
  neighborToFRR n ps ab vrf secrets bfd = Ok nc → out_safe avail nc.
Proof.
  intros Hv Hav (_ & fam & tm & pw & out & inc & _ & _ & _ & Hout & _ & ->)%neighborToFRR_Ok.
  apply toAdvertiseToFRR_Ok in Hout. set (nb := converted n ab vrf fam tm pw noOut noIn) in *.
  assert (∀ f p, f ≠ DualStack → p ∈ prefixesToAdvertiseForFamily (Neighbor_ToAdvertise n) ps f →
    ForCIDRString p = f ∧ avail p) as Hsent.
  { intros f p Hnd [Hf Hp]%elem_of_prefixesToAdvertise; [|done]. split; [done|].
    case_bool_decide; [by auto|]. apply (ov_allowed _ _ Hv) in Hp; [|done].
    unfold sets_New in Hp. rewrite elem_of_list_to_set in Hp. auto. }
  split; simpl.
  - intros p [_ Hp]%(os_v4 _ _ _ _ Hout). auto.
  - intros p [_ Hp]%(os_v6 _ _ _ _ Hout). auto.
  - destruct (AO_PrefixesV4 out) as [|p l] eqn:E; [done|]. intros _.
    assert (p ∈ AO_PrefixesV4 out) as [Hh _]%(os_v4 _ _ _ _ Hout) by (rewrite E; by left). exact Hh.
  - destruct (AO_PrefixesV6 out) as [|p l] eqn:E; [done|]. intros _.
    assert (p ∈ AO_PrefixesV6 out) as [Hh _]%(os_v6 _ _ _ _ Hout) by (rewrite E; by left). exact Hh.
  - intros k p (f & Hf & Hr)%(os_lp _ _ _ _ Hout).
    eapply requested_advertised; [done..|]. by eapply (os_lp_advertised _ _ _ _ Hout).
  - intros k p (f & Hf & Hr)%(os_comm _ _ _ _ Hout).
    eapply requested_advertised; [done..|]. by eapply (os_comm_advertised _ _ _ _ Hout).
  - split; [by apply Hout..|]. intros p lp1 lp2 [f1 H1]%lp_of_tagged [f2 H2]%lp_of_tagged.
    apply (os_lp _ _ _ _ Hout) in H1 as (? & _ & e1 & He1 & 
      [-> _]%localPrefPrefixListKey_inj & ?%FilterPrefixes_sub).
    apply (os_lp _ _ _ _ Hout) in H2 as (? & _ & e2 & He2 & 
      [-> _]%localPrefPrefixListKey_inj & ?%FilterPrefixes_sub).
    by eapply (ov_one_lp _ _ Hv).
Qed.

(** ** What is available to a VRF *)

(** The prefixes of the routers of one configuration in a VRF. *)
Definition configured (cfg : FRRConfiguration) (vrf p : string) : Prop :=
  ∃ r, r ∈ BGP_Routers (Spec_BGP (Cfg_Spec cfg)) ∧ Router_VRF r = vrf ∧ p ∈ Router_Prefixes r.

Definition imported_vrf (i : Import) : string :=
  if bool_decide (Import_VRF i = "default") then "" else Import_VRF i.

(** [p] is configured in the VRF, or in a VRF that one of its routers imports. *)
Definition available (resources : ClusterResources) (vrf p : string) : Prop :=
  ∃ cfg, cfg ∈ FRRConfigs resources ∧
    (configured cfg vrf p ∨
     ∃ r i, r ∈ BGP_Routers (Spec_BGP (Cfg_Spec cfg)) ∧ Router_VRF r = vrf ∧
       i ∈ Router_Imports r ∧ configured cfg (imported_vrf i) p).

Lemma prefixesForVRFs_Some routers vrf l :
  prefixesForVRFs routers !! vrf = Some l →
  ∃ r, r ∈ routers ∧ Router_VRF r = vrf ∧ Router_Prefixes r = l.
Proof.
  unfold prefixesForVRFs. induction routers as [|r rs IH] using rev_ind; [done|].
  rewrite foldl_snoc, lookup_insert_Some. setoid_rewrite elem_of_app.
  intros [[<- <-]|[_ (r' & ? & ? & ?)%IH]]; set_solver.
Qed.

Lemma importedPrefixes_Ok r m imported p :
  importedPrefixes r m = Ok imported →
  p ∈ imported ↔ ∃ i l, i ∈ Router_Imports r ∧ m !! imported_vrf i = Some l ∧ p ∈ l.
Proof.
  unfold importedPrefixes. intros H.
  assert (∀ acc, foldM (λ acc i,
    let vrf := if bool_decide (Import_VRF i = "default") then "" else Import_VRF i in
    match m !! vrf with
    | None => Err (EVRFNotFound vrf)
    | Some imported => Ok (acc ++ imported)
    end) acc (Router_Imports r) = Ok imported →
    p ∈ imported ↔ p ∈ acc ∨ ∃ i l, i ∈ Router_Imports r ∧ m !! imported_vrf i = Some l ∧ p ∈ l)
    as Hgen; [|rewrite (Hgen _ H), elem_of_nil; tauto].
  clear H. induction (Router_Imports r) as [|i imps IH]; intros acc H; cbn [foldM] in H.
  { injection H as <-. set_solver. }
  apply bind_Ok in H as (acc' & H1 & H2). fold (imported_vrf i) in H1; cbv zeta in H1.
  destruct (m !! imported_vrf i) as [l|] eqn:El; [|done]. injection H1 as <-.
  rewrite (IH _ H2), elem_of_app. setoid_rewrite elem_of_cons. split.
  - intros [[?|?]|(i' & l' & ? & ? & ?)]; [by left|right; by eauto 10..].
  - intros [?|(i' & l' & [->|?] & ? & ?)]; [by auto| |by eauto 10].
    simplify_eq. auto.
Qed.

(** [out_safe] for the VRF a neighbor is in, as a property of neighbors. *)
Definition sent_only_available (resources : ClusterResources) (nc : NeighborConfig) : Prop :=
  out_safe (available resources (NC_VRFName nc)) nc.

Lemma sent_only_available_merge resources : merge_closed (sent_only_available resources).
Proof.
  intros d s d' Hv Hd Hs Hm. unfold sent_only_available in *.
  rewrite (mergeIntoNeighbor_VRFName _ _ _ Hm). eapply out_safe_merge; [done| |done].
  by rewrite Hv.
Qed.

Lemma sent_only_available_establishes resources ab cfg bfd :
  cfg ∈ FRRConfigs resources →
  establishes (sent_only_available resources) cfg ab (PasswordSecrets resources) bfd.
Proof.
  intros Hcfg r imported n nc Hr Hn Himp Hval Hnc.
  assert (NC_VRFName nc = Router_VRF r) as Hvrf.
  { by apply neighborToFRR_Ok in Hnc as (_ & ? & ? & ? & ? & ? & _ & _ & _ & _ & _ & ->). }
  unfold validateOutgoingPrefixes in Hval. rewrite each_Ok, Forall_forall in Hval.
  specialize (Hval n Hn). apply validateOutgoingForNeighbor_Ok in Hval.
  eapply out_safe_converted; [exact Hval| |exact Hnc]. rewrite Hvrf.
  intros p [Hp|Hp]%elem_of_app; exists cfg; (split; [done|]).
  - left. by exists r.
  - right. apply (importedPrefixes_Ok _ _ _ _ Himp) in Hp as (i & l & Hi & Hl & Hp).
    apply prefixesForVRFs_Some in Hl as (r2 & Hr2 & Hv2 & <-).
    exists r, i. split_and!; [done..|]. by exists r2.
Qed.
