(* ===== verification/ApiProps.v ===== *)
(** * Properties of the conversion as a whole

    What holds of every configuration [apiToFRR] returns, for any cluster
    resources: these are the guarantees the rest of the daemon (the template and
    FRR itself) relies on. *)

From Stdlib Require Import Lia.
From S2P Require Import Prelude GoStrings GoNet IPFamily Community Api FrrConfig Errors Merge.
From S2P Require Import ApiToConfig Samples MergeFacts HeapLogic ConvertFacts EVPNFacts ApiHeap.
From S2P Require Import ApiResult Advertised.

(** ** Shared lemmas *)

(** The conversion follows no invalid pointer and its result has the shape [result_ok]
    describes, for any property of neighbors that conversion establishes and
    merging keeps. *)
Lemma apiToFRR_result P resources ab c :
  merge_closed P →
  (∀ cfg bfd, cfg ∈ FRRConfigs resources →
    profiles_at (BGP_BFDProfiles (Spec_BGP (Cfg_Spec cfg))) bfd →
    establishes P cfg ab (PasswordSecrets resources) bfd) →
  apiToFRR resources ab = Ok c → result_ok P resources c.
Proof.
  intros HP Hest. unfold apiToFRR.
  pose proof (wp_apiToFRR P HP resources ab Hest) as Hwp. unfold wp in Hwp.
  destruct (apiToFRR_heap resources ab ∅) as [[c' h']|e]; simpl; [|done]. by intros [= <-].
Qed.

Lemma merge_closed_True : merge_closed (λ _, True).
Proof. done. Qed.

Lemma apiToFRR_shape resources ab c :
  apiToFRR resources ab = Ok c → result_ok (λ _, True) resources c.
Proof. by apply apiToFRR_result. Qed.

(** ** No panics *)

(** C16: converting any cluster resources never panics: every failure is an error value
    that [Reconcile] reports. *)
Theorem apiToFRR_no_panic resources ab : apiToFRR resources ab ≠ Err EPanic.
Proof.
  pose proof (wp_no_panic _ _ _
    (wp_apiToFRR (λ _, True) merge_closed_True resources ab ltac:(done))) as H.
  unfold apiToFRR. destruct (apiToFRR_heap resources ab ∅) as [[c h]|e]; simpl; congruence.
Qed.

(** ** Routers *)

(** C3: the routers of the result are the routers of all the configurations, merged
    per VRF: one router for every VRF that appears, in VRF order; its AS
    number, router ID, prefixes and imports are those of the API routers of
    that VRF together, and it has exactly one session per distinct neighbor of
    theirs, in ID order. *)
Theorem apiToFRR_routers resources ab c :
  apiToFRR resources ab = Ok c →
  is_sorted (RC_VRF <$> Config_Routers c) ∧
  (∀ vrf, vrf ∈ RC_VRF <$> Config_Routers c ↔ vrf ∈ Router_VRF <$> routers_of resources) ∧
  (∀ rc, rc ∈ Config_Routers c →
     merges (for_vrf (RC_VRF rc) (routers_of resources)) (ID <$> RC_Neighbors rc) rc ∧
     sorted_router (ID <$> RC_Neighbors rc) rc).
Proof. intros []%apiToFRR_shape. auto. Qed.

Lemma apiToFRR_routers_witness :
  ∃ c, apiToFRR sampleResources sampleBlock = Ok c ∧
    ["" ; "blue"; "red"] = RC_VRF <$> Config_Routers c ∧
    (∀ rc, rc ∈ Config_Routers c →
       merges (for_vrf (RC_VRF rc) (routers_of sampleResources)) (ID <$> RC_Neighbors rc) rc).
Proof.
  assert ((λ c, RC_VRF <$> Config_Routers c) <$> apiToFRR sampleResources sampleBlock
    = Ok [""; "blue"; "red"]) as Hv by (vm_compute; reflexivity).
  run_ok (apiToFRR sampleResources sampleBlock) c E. exists c. split; [reflexivity|]. split.
  - injection Hv as Hv. symmetry. exact Hv.
  - intros rc Hrc. destruct (apiToFRR_routers _ _ _ E) as (_ & _ & H). apply (H rc Hrc).
Defined.

(** ** Prefixes *)

(** C2: no route leak: in every configuration the conversion returns, a neighbor is
    only sent prefixes that a router of its VRF has, or that a VRF imported by
    one of them has in the same configuration; IPv4 and IPv6 prefixes go
    where the session has that family; and local preferences and communities are only set
    on prefixes that are sent, at most one local preference each. *)
Theorem apiToFRR_sends_only_available resources ab c rc n :
  apiToFRR resources ab = Ok c → rc ∈ Config_Routers c → n ∈ RC_Neighbors rc →
  out_safe (available resources (RC_VRF rc)) n.
Proof.
  intros Hc Hrc Hn.
  assert (result_ok (sent_only_available resources) resources c) as Hok.
  { eapply apiToFRR_result; [apply sent_only_available_merge| |done].
    intros cfg bfd Hcfg _. by apply sent_only_available_establishes. }
  destruct (rk_neighbor _ _ _ Hok rc n Hrc Hn) as [Hp <-]. exact Hp.
Qed.

Lemma apiToFRR_sends_only_available_witness :
  ∃ c rc n, apiToFRR sampleResources sampleBlock = Ok c ∧ rc ∈ Config_Routers c ∧
    n ∈ RC_Neighbors rc ∧ "198.51.100.0/24" ∈ AO_PrefixesV4 (NC_Outgoing n) ∧
    available sampleResources (RC_VRF rc) "198.51.100.0/24".
Proof.
  assert (match apiToFRR sampleResources sampleBlock with
          | Ok c => match Config_Routers c with
                    | rc :: _ => match RC_Neighbors rc with
                                 | n :: _ => bool_decide ("198.51.100.0/24" ∈ AO_PrefixesV4 (NC_Outgoing n))
                                 | [] => false end
                    | [] => false end
          | Err _ => false end = true) as Hx by (vm_compute; reflexivity).
  run_ok (apiToFRR sampleResources sampleBlock) c E.
  destruct (Config_Routers c) as [|rc rcs] eqn:Er; [discriminate Hx|].
  destruct (RC_Neighbors rc) as [|n ns] eqn:En; [discriminate Hx|].
  apply bool_decide_eq_true in Hx.
  assert (rc ∈ Config_Routers c) as Hrc by (rewrite Er; left).
  assert (n ∈ RC_Neighbors rc) as Hn by (rewrite En; left).
  exists c, rc, n. split; [reflexivity|]. split; [exact Hrc|]. split; [exact Hn|].
  split; [exact Hx|].
  exact (proj2 (sf_v4 _ _ (apiToFRR_sends_only_available _ _ _ _ _ E Hrc Hn) _ Hx)).
Defined.

(** ** BFD profiles *)

(** The profile a neighbor names is one of the API. *)
Definition names_profile (resources : ClusterResources) (nc : NeighborConfig) : Prop :=
  NC_BFDProfile nc = "" ∨
  ∃ b, b ∈ profiles_of (FRRConfigs resources) ∧ BFDProfile_Name b = NC_BFDProfile nc.

Lemma names_profile_merge resources : merge_closed (names_profile resources).
Proof.
  intros d s d' _ Hd Hs (_ & out & _ & ->)%mergeIntoNeighbor_Ok. unfold names_profile in *; simpl.
  case_bool_decide; naive_solver.
Qed.

Lemma names_profile_establishes resources ab cfg bfd :
  cfg ∈ FRRConfigs resources →
  profiles_at (BGP_BFDProfiles (Spec_BGP (Cfg_Spec cfg))) bfd →
  establishes (names_profile resources) cfg ab (PasswordSecrets resources) bfd.
Proof.
  intros Hcfg Hbfd r imported n nc _ _ _ _
    (Hv & ? & ? & ? & ? & ? & _ & _ & _ & _ & _ & ->)%neighborToFRR_Ok.
  unfold names_profile; simpl. destruct (nv_bfd _ _ Hv) as [|[p Hp]]; [by left|right].
  apply Hbfd in Hp as (b & Hb & _ & Hname). exists b. split; [|done].
  apply list_elem_of_bind. eauto.
Qed.

(** A profile of the result is what a profile of a resource asks for; the modes are off unless they are turned on. *)
Record profile_as (b : BFDProfile) (p : FrrBFDProfile) : Prop := {
  pf_name : FBFD_Name p = BFDProfile_Name b;
  pf_receive : FBFD_ReceiveInterval p = BFDProfile_ReceiveInterval b;
  pf_transmit : FBFD_TransmitInterval p = BFDProfile_TransmitInterval b;
  pf_multiplier : FBFD_DetectMultiplier p = BFDProfile_DetectMultiplier b;
  pf_echo_interval : FBFD_EchoInterval p = BFDProfile_EchoInterval b;
  pf_echo : FBFD_EchoMode p = true ↔ BFDProfile_EchoMode b = Some true;
  pf_passive : FBFD_PassiveMode p = true ↔ BFDProfile_PassiveMode b = Some true;
  pf_ttl : FBFD_MinimumTTL p = BFDProfile_MinimumTTL b }.

Lemma bfdProfileToFRR_as b p : bfdProfileToFRR b = p ↔ profile_as b p.
Proof.
  assert (∀ o, default false o = true ↔ o = Some true) as Hd by (intros [[]|]; cbn; naive_solver). split.
  - intros <-. split; try done; apply Hd.
  - destruct p as [n r t m ei e pm ttl]. intros [H1 H2 H3 H4 H5 H6 H7 H8]. cbn in *. unfold bfdProfileToFRR.
    rewrite <-Hd in H6, H7. apply eq_true_iff_eq in H6, H7. congruence.
Qed.

(** C24: the BFD profiles of the result are the profiles of all the configurations,
    one per name, in name order, each with the intervals, the multiplier, the modes and the minimum TTL
    of the profile it comes from, and every profile a neighbor of the result
    refers to is among them. *)
Theorem apiToFRR_bfd_profiles resources ab c :
  apiToFRR resources ab = Ok c →
  is_sorted (FBFD_Name <$> Config_BFDProfiles c) ∧
  (∀ p, p ∈ Config_BFDProfiles c ↔ ∃ b, b ∈ profiles_of (FRRConfigs resources) ∧ profile_as b p) ∧
  (∀ rc n, rc ∈ Config_Routers c → n ∈ RC_Neighbors rc → NC_BFDProfile n ≠ "" →
     NC_BFDProfile n ∈ FBFD_Name <$> Config_BFDProfiles c).
Proof.
  intros Hc.
  assert (result_ok (names_profile resources) resources c) as Hok.
  { eapply apiToFRR_result; [apply names_profile_merge| |done].
    intros cfg bfd ??. by apply names_profile_establishes. }
  split_and!; [apply Hok|..].
  - intros p. rewrite (rk_profiles _ _ _ Hok), list_elem_of_fmap. setoid_rewrite <-bfdProfileToFRR_as. naive_solver.
  - intros rc n Hrc Hn Hne.
    destruct (rk_neighbor _ _ _ Hok rc n Hrc Hn) as [[?|(b & Hb & Hname)] _]; [done|].
    rewrite <-Hname, list_elem_of_fmap. exists (bfdProfileToFRR b). split; [done|].
    apply (rk_profiles _ _ _ Hok). by apply list_elem_of_fmap_2.
Qed.

Lemma apiToFRR_bfd_profiles_witness :
  ∃ c p, apiToFRR sampleResources sampleBlock = Ok c ∧ p ∈ Config_BFDProfiles c ∧ profile_as bfdSample p ∧
    FBFD_ReceiveInterval p = Some 100%N ∧ FBFD_TransmitInterval p = None.
Proof.
  assert (∀ p, p = mkFrrBFDProfile (BFDProfile_Name bfdSample) (BFDProfile_ReceiveInterval bfdSample)
    (BFDProfile_TransmitInterval bfdSample) (BFDProfile_DetectMultiplier bfdSample) (BFDProfile_EchoInterval bfdSample)
    (bool_decide (BFDProfile_EchoMode bfdSample = Some true)) (bool_decide (BFDProfile_PassiveMode bfdSample = Some true))
    (BFDProfile_MinimumTTL bfdSample) → profile_as bfdSample p) as Hp.
  { intros p ->. split; try reflexivity; apply bool_decide_eq_true. }
  run_ok (apiToFRR sampleResources sampleBlock) c E. exists c. eexists. split; [reflexivity|].
  split; [apply (proj1 (proj2 (apiToFRR_bfd_profiles _ _ _ E))); exists bfdSample; split; [left|]|split]; [by apply Hp..|split; reflexivity].
Defined.

(** ** EVPN *)

(** C23: in every configuration the conversion returns, each router with EVPN either
    needs no neighbor or has one with the EVPN family, a router with an L3 VNI
    has no neighbors, and no VNI is used twice, in any VRF. *)
Theorem apiToFRR_evpn resources ab c :
  apiToFRR resources ab = Ok c →
  (∀ rc, rc ∈ Config_Routers c → evpn_valid rc) ∧ NoDup (Config_Routers c ≫= router_vnis).
Proof. intros []%apiToFRR_shape. auto. Qed.

Lemma apiToFRR_evpn_witness :
  ∃ c, apiToFRR sampleResources sampleBlock = Ok c ∧ NoDup (Config_Routers c ≫= router_vnis) ∧
    100%N ∈ (Config_Routers c ≫= router_vnis).
Proof.
  assert ((λ c, Config_Routers c ≫= router_vnis) <$> apiToFRR sampleResources sampleBlock = Ok [100%N])
    as Hv by (vm_compute; reflexivity).
  run_ok (apiToFRR sampleResources sampleBlock) c E. exists c. split; [reflexivity|].
  split; [exact (proj2 (apiToFRR_evpn _ _ _ E))|].
  injection Hv as Hv. rewrite Hv. left.
Defined.

(** [validateEVPN] ranges over a Go map, in an order that changes from run to run;
    whether it accepts does not depend on that order. *)
Theorem validateEVPN_order rs rs' :
  rs ≡ₚ rs' → is_ok (validateEVPN rs) = is_ok (validateEVPN rs').
Proof.
  intros Hp. apply eq_true_iff_eq. rewrite !is_ok_true.
  split; intros [u H]; exists u; rewrite validateEVPN_Ok in *; [by rewrite <-Hp|by rewrite Hp].
Qed.

Definition evpnRouter (vrf : string) (vni : N) : RouterConfig NeighborConfig :=
  mkRouterConfig 64512 "" [] vrf [] [] []
    (Some (mkFrrEVPNConfig None false [] (Some (mkFrrL3VNI vni (mkFrrVNIProperties "" [] []) [])))).

Lemma validateEVPN_order_witness :
  is_ok (validateEVPN [("red", evpnRouter "red" 10); ("blue", evpnRouter "blue" 20)]) = true ∧
  is_ok (validateEVPN [("blue", evpnRouter "blue" 20); ("red", evpnRouter "red" 10)]) = true.
Proof.
  split; [vm_compute; reflexivity|].
  rewrite <-(validateEVPN_order [("red", evpnRouter "red" 10); ("blue", evpnRouter "blue" 20)]
    [("blue", evpnRouter "blue" 20); ("red", evpnRouter "red" 10)]).
  - vm_compute. reflexivity.
  - constructor.
Defined.

(** ** The order of the configurations *)

Lemma is_sorted_unique l1 l2 :
  is_sorted l1 → is_sorted l2 → (∀ x, x ∈ l1 ↔ x ∈ l2) → l1 = l2.
Proof.
  intros [Hs1 Hn1] [Hs2 Hn2] Hin. apply (StronglySorted_unique String.le); [done..|].
  by apply NoDup_Permutation.
Qed.

Lemma Forall2_by_key {A B K} (f : A → K) (g : B → K) (R : A → B → Prop) l1 l2 :
  f <$> l1 = g <$> l2 → (∀ x y, x ∈ l1 → y ∈ l2 → f x = g y → R x y) → Forall2 R l1 l2.
Proof.
  revert l2; induction l1 as [|x l1 IH]; intros [|y l2] Hk HR; try discriminate; [constructor|].
  injection Hk as Hxy Hk. constructor; [apply HR; [left|left|done]|].
  apply IH; [done|]. intros; apply HR; [by right..|done].
Qed.

Lemma raw_less_order :
  Transitive (in_order raw_less) ∧ Total (in_order raw_less).
Proof.
  set (key := λ r, (RawConfig_Priority (NRC_RawConfig r), NRC_configName r)).
  assert (∀ a b, raw_less a b = lex_lt Z.ltb string_lt (key a) (key b)) as Hk.
  { intros a b. unfold raw_less, lex_lt, key; simpl.
    destruct (Z.eqb_spec (RawConfig_Priority (NRC_RawConfig a)) (RawConfig_Priority (NRC_RawConfig b)));
      by case_bool_decide. }
  split.
  - intros x y z. unfold in_order. rewrite !Hk.
    apply (in_order_preimage_trans key (lex_lt Z.ltb string_lt)).
  - intros x y. unfold in_order. rewrite !Hk.
    apply (in_order_preimage_total key (lex_lt Z.ltb string_lt)).
Qed.

(** The raw configurations of distinct names come out in one order. *)
Lemma joinRawConfigs_Permutation l l' :
  NoDup (NRC_configName <$> l) → l ≡ₚ l' → joinRawConfigs l = joinRawConfigs l'.
Proof.
  intros Hnd Hp. unfold joinRawConfigs. f_equal.
  destruct raw_less_order as [Htr Htot].
  apply (@sort_Slice_unique _ raw_less Htr Htot);
    [by apply (@sort_Slice_sorted _ raw_less Htr Htot)|by rewrite sort_Slice_Permutation|].
  intros x y Hx Hy Hxy Hyx.
  assert (NRC_configName x = NRC_configName y) as Hname.
  { unfold raw_less in *. rewrite (Z.eqb_sym (RawConfig_Priority (NRC_RawConfig y))) in Hyx.
    destruct (Z.eqb_spec (RawConfig_Priority (NRC_RawConfig x)) (RawConfig_Priority (NRC_RawConfig y))).
    - by apply (st_total (less := string_lt)).
    - rewrite !Z.ltb_ge in *. lia. }
  apply list_elem_of_lookup in Hx as [i Hi], Hy as [j Hj].
  assert (i = j) as ->; [|congruence].
  eapply NoDup_lookup; [exact Hnd|..]; rewrite list_lookup_fmap; [by rewrite Hi|].
  rewrite Hj; simpl. by rewrite Hname.
Qed.

Lemma raws_of_Permutation cfgs cfgs' : cfgs ≡ₚ cfgs' → raws_of cfgs ≡ₚ raws_of cfgs'.
Proof. intros Hp. unfold raws_of. by rewrite Hp. Qed.

Lemma raws_of_names cfgs : NoDup (Cfg_Name <$> cfgs) → NoDup (NRC_configName <$> raws_of cfgs).
Proof.
  unfold raws_of. rewrite <-list_fmap_compose. intros Hnd.
  exact (sublist_NoDup _ _ Hnd (fmap_sublist Cfg_Name _ _ (sublist_filter _ cfgs))).
Qed.

(** The parts of a router that the order of the configurations cannot change. *)
Record same_router (a b : RouterConfig NeighborConfig) : Prop := {
  sm_vrf : RC_VRF a = RC_VRF b;
  sm_asn : RC_MyASN a = RC_MyASN b;
  sm_id : RC_RouterID a = RC_RouterID b;
  sm_v4 : RC_IPV4Prefixes a = RC_IPV4Prefixes b;
  sm_v6 : RC_IPV6Prefixes a = RC_IPV6Prefixes b;
  sm_imports : RC_ImportVRFs a = RC_ImportVRFs b;
  sm_sessions : ID <$> RC_Neighbors a = ID <$> RC_Neighbors b
}.

Lemma merges_same rs ids1 ids2 (a b : RouterConfig NeighborConfig) :
  rs ≠ [] → merges rs ids1 a → sorted_router ids1 a → merges rs ids2 b → sorted_router ids2 b →
  RC_VRF a = RC_VRF b ∧ RC_MyASN a = RC_MyASN b ∧ RC_RouterID a = RC_RouterID b ∧
  RC_IPV4Prefixes a = RC_IPV4Prefixes b ∧ RC_IPV6Prefixes a = RC_IPV6Prefixes b ∧
  RC_ImportVRFs a = RC_ImportVRFs b ∧ ids1 = ids2.
Proof.
  intros Hne Ma [] Mb []. destruct rs as [|r rs']; [done|]. set (rs := r :: rs') in *.
  assert (r ∈ rs) as Hr by left. split_and!.
  - rewrite <-(mr_vrf _ _ _ Ma r Hr). by apply (mr_vrf _ _ _ Mb).
  - rewrite <-(mr_asn _ _ _ Ma r Hr). by apply (mr_asn _ _ _ Mb).
  - destruct (mr_id_from _ _ _ Ma) as [Ha|(r1 & Hr1 & Ha)],
      (mr_id_from _ _ _ Mb) as [Hb|(r2 & Hr2 & Hb)].
    + congruence.
    + destruct (mr_id _ _ _ Ma r2 Hr2); congruence.
    + destruct (mr_id _ _ _ Mb r1 Hr1); congruence.
    + destruct (mr_id _ _ _ Ma r2 Hr2), (mr_id _ _ _ Mb r1 Hr1); congruence.
  - apply is_sorted_unique; [done..|]. intros p. by rewrite (mr_v4 _ _ _ Ma), (mr_v4 _ _ _ Mb).
  - apply is_sorted_unique; [done..|]. intros p. by rewrite (mr_v6 _ _ _ Ma), (mr_v6 _ _ _ Mb).
  - apply is_sorted_unique; [done..|]. intros p.
    by rewrite (mr_imports _ _ _ Ma), (mr_imports _ _ _ Mb).
  - apply is_sorted_unique; [done..|]. intros p. by rewrite (mr_ids _ _ _ Ma), (mr_ids _ _ _ Mb).
Qed.

(** The API server lists configurations in any order.  When two orders both
    convert, the results have the same routers (VRF, AS number, router ID,
    prefixes, imports and sessions), the same BFD profiles and, if
    configuration names are distinct, the same raw configuration. *)
Theorem apiToFRR_order_independent res1 res2 ab c1 c2 :
  FRRConfigs res1 ≡ₚ FRRConfigs res2 → NoDup (Cfg_Name <$> FRRConfigs res1) →
  apiToFRR res1 ab = Ok c1 → apiToFRR res2 ab = Ok c2 →
  Forall2 same_router (Config_Routers c1) (Config_Routers c2) ∧
  FBFD_Name <$> Config_BFDProfiles c1 = FBFD_Name <$> Config_BFDProfiles c2 ∧
  (∀ p, p ∈ Config_BFDProfiles c1 ↔ p ∈ Config_BFDProfiles c2) ∧
  Config_ExtraConfig c1 = Config_ExtraConfig c2.
Proof.
  intros Hp Hnd Hc1%apiToFRR_shape Hc2%apiToFRR_shape.
  assert (routers_of res1 ≡ₚ routers_of res2) as Hrs by (unfold routers_of; by rewrite Hp).
  assert (∀ p, p ∈ Config_BFDProfiles c1 ↔ p ∈ Config_BFDProfiles c2) as Hbfd.
  { intros p. rewrite (rk_profiles _ _ _ Hc1), (rk_profiles _ _ _ Hc2).
    unfold profiles_of. by rewrite Hp. }
  split_and!; [|apply is_sorted_unique; [apply Hc1|apply Hc2|]|done|].
  - apply (Forall2_by_key RC_VRF RC_VRF).
    + apply is_sorted_unique; [apply Hc1|apply Hc2|]. intros v.
      by rewrite (rk_vrfs _ _ _ Hc1), (rk_vrfs _ _ _ Hc2), Hrs.
    + intros a b Ha Hb Hv. destruct (rk_router _ _ _ Hc1 a Ha) as [Ma Sa].
      destruct (rk_router _ _ _ Hc2 b Hb) as [Mb Sb].
      assert (for_vrf (RC_VRF a) (routers_of res1) ≠ []) as Hne.
      { apply for_vrf_nonempty, (rk_vrfs _ _ _ Hc1), list_elem_of_fmap_2. done. }
      eapply merges_proper in Mb; [|intros r; rewrite <-Hv; unfold for_vrf; by rewrite <-Hrs].
      edestruct merges_same as (? & ? & ? & ? & ? & ? & ?); [exact Hne|exact Ma|exact Sa|exact Mb|exact Sb|].
      by split.
  - intros x. rewrite !list_elem_of_fmap. by setoid_rewrite Hbfd.
  - rewrite (rk_raw _ _ _ Hc1), (rk_raw _ _ _ Hc2). apply joinRawConfigs_Permutation.
    + by apply raws_of_names.
    + by apply raws_of_Permutation.
Qed.

Definition sampleResources' : ClusterResources :=
  mkClusterResources
    [sampleConfig "second" [routerAgain; routerBlue] "";
     sampleConfig "first" [routerDefault; routerRed] "log stdout"] sampleSecrets.

Lemma apiToFRR_order_independent_witness :
  ∃ c1 c2, apiToFRR sampleResources sampleBlock = Ok c1 ∧
    apiToFRR sampleResources' sampleBlock = Ok c2 ∧
    Forall2 same_router (Config_Routers c1) (Config_Routers c2).
Proof.
  run_ok (apiToFRR sampleResources sampleBlock) c1 E1.
  run_ok (apiToFRR sampleResources' sampleBlock) c2 E2.
  exists c1, c2. split; [reflexivity|]. split; [reflexivity|].
  refine (proj1 (apiToFRR_order_independent _ _ _ _ _ _ _ E1 E2)).
  - constructor.
  - by_evaluation.
Defined.

(** ** Sessions *)

(** What every session has, whatever configurations it was merged from. *)
Record session_ok (ab : list IPNet) (nc : NeighborConfig) : Prop := {
  so_peer : NC_Addr nc = "" ↔ NC_Iface nc ≠ "";
  so_asn : NC_ASN nc = InternalASNMode ∨ NC_ASN nc = ExternalASNMode ∨
           ∃ asn, asn ≠ 0%N ∧ NC_ASN nc = pretty asn;
  so_family : NC_IPFamily nc ≠ Unknown;
  so_unnumbered : NC_Iface nc ≠ "" → NC_IPFamily nc = DualStack;
  so_block : NC_AlwaysBlock nc = alwaysBlockToFRR ab
}.

Lemma session_ok_merge ab : merge_closed (session_ok ab).
Proof. intros d s d' _ [] _ (_ & out & _ & ->)%mergeIntoNeighbor_Ok. by split. Qed.

Lemma addressFamily_known n bfd fam :
  neighbor_valid n bfd → addressFamilyForNeighbor n = Ok fam → fam ≠ Unknown.
Proof.
  intros [Hpeer _ _ _]. unfold addressFamilyForNeighbor, ForAddresses, ForAddress.
  intros (f & Hf & [= <-])%bind_Ok. case_bool_decide as Ha; simpl in Hf.
  - rewrite (bool_decide_eq_false_2 (Neighbor_Interface n = "")) by (by apply Hpeer). done.
  - destruct (ParseIP _) as [ip|]; [|done]. injection Hf as <-.
    destruct (_ || _); [done|]. by destruct (To4 ip).
Qed.

Lemma addressFamily_unnumbered n fam :
  Neighbor_Interface n ≠ "" → addressFamilyForNeighbor n = Ok fam → fam = DualStack.
Proof.
  intros Hi. unfold addressFamilyForNeighbor. intros (f & Hf & [= <-])%bind_Ok.
  by rewrite (bool_decide_eq_false_2 (Neighbor_Interface n = "")).
Qed.

Lemma session_ok_establishes ab cfg secrets bfd : establishes (session_ok ab) cfg ab secrets bfd.
Proof.
  intros r imported n nc _ _ _ _ (Hv & fam & tm & pw & out & inc & Hfam & _ & _ & _ & _ & ->)%neighborToFRR_Ok.
  pose proof (addressFamily_known _ _ _ Hv Hfam) as Hknown.
  destruct Hv as [Hpeer _ Hasn Hdyn]. split; simpl; [done| |done| |done].
  2:{ intros Hi. by eapply addressFamily_unnumbered. }
  unfold asnFor. case_bool_decide as Hd; [|tauto]. right; right.
  exists (Neighbor_ASN n). split; [|done]. intros Hz. by apply Hasn in Hz.
Qed.

(** C5: every session of the result has exactly one of an address and an interface, an
    AS number that is non-zero or one of the dynamic modes, a known address
    family, which is both families on an interface, and the prefixes the operator always blocks: no configuration can
    opt a neighbor out of them. *)
Theorem apiToFRR_sessions resources ab c rc n :
  apiToFRR resources ab = Ok c → rc ∈ Config_Routers c → n ∈ RC_Neighbors rc → session_ok ab n.
Proof.
  intros Hc Hrc Hn. eapply (apiToFRR_result (session_ok ab)) in Hc;
    [|apply session_ok_merge|intros; apply session_ok_establishes].
  by destruct (rk_neighbor _ _ _ Hc rc n Hrc Hn).
Qed.

Lemma apiToFRR_sessions_witness :
  ∃ c rc n, apiToFRR sampleResources sampleBlock = Ok c ∧ rc ∈ Config_Routers c ∧
    n ∈ RC_Neighbors rc ∧ NC_AlwaysBlock n = [mkIncomingFilter IPv4 "192.168.0.0/16" 32 0].
Proof.
  assert (match apiToFRR sampleResources sampleBlock with
          | Ok c => match Config_Routers c with rc :: _ => negb (length (RC_Neighbors rc) =? 0)%nat | [] => false end
          | Err _ => false end = true) as Hx by (vm_compute; reflexivity).
  run_ok (apiToFRR sampleResources sampleBlock) c E.
  destruct (Config_Routers c) as [|rc rcs] eqn:Er; [discriminate Hx|].
  destruct (RC_Neighbors rc) as [|n ns] eqn:En; [discriminate Hx|].
  assert (rc ∈ Config_Routers c) as Hrc by (rewrite Er; left).
  assert (n ∈ RC_Neighbors rc) as Hn by (rewrite En; left).
  exists c, rc, n. split; [reflexivity|]. split; [exact Hrc|]. split; [exact Hn|].
  rewrite (so_block _ _ (apiToFRR_sessions _ _ _ _ _ E Hrc Hn)). vm_compute. reflexivity.
Defined.

(** ** Imports *)

Definition redRouter (prefix : string) : Router := mkRouter 64512 "" "red" [] [prefix] [] None.

Definition importingRouter : Router :=
  mkRouter 64512 "" ""
    [sampleNeighbor 64513 "10.1.1.1"
       (mkAdvertise (mkAllowedOutPrefixes ["198.51.100.0/24"] AllowRestricted) (mkNextHop "" "") [] [])
       emptyReceive] [] [mkImport "red"] None.

Definition importResources (routers : list Router) : ClusterResources :=
  mkClusterResources [mkFRRConfiguration "one" "ns" ∅
    (mkSpec (mkBGPConfig routers []) (mkRawConfig 0 "") emptySelector)] ∅.

(** The prefixes of an imported VRF are those of its last router only: when a
    configuration describes the VRF red in two routers, advertising a prefix
    of the first one through an import of red is refused as not configured, and
    accepted when the two routers are listed the other way round. *)
Theorem import_of_split_vrf_depends_on_order :
  apiToFRR (importResources [importingRouter; redRouter "198.51.100.0/24"; redRouter "203.0.113.0/24"]) []
    = Err (EPrefixNotConfigured "198.51.100.0/24" "64513@10.1.1.1" "") ∧
  is_ok (apiToFRR (importResources
    [importingRouter; redRouter "203.0.113.0/24"; redRouter "198.51.100.0/24"]) []) = true.
Proof. vm_compute. split; reflexivity. Qed.

(** ** No configurations *)

(** With no configuration at all the conversion succeeds with the empty
    configuration, so the fallback [applyEmptyConfig] of the controller, which panics
    on an error, cannot. *)
Theorem apiToFRR_empty secrets ab :
  apiToFRR (mkClusterResources [] secrets) ab = Ok (mkConfig "" "" [] [] "").
Proof. reflexivity. Qed.
