(* ===== verification/Conflicts.v ===== *)
(** * What configurations say, and when they contradict each other

    Merging fails when two configurations say different things about the same session, router or VNI.
    Here every such statement is a fact: a key (the AS number of a session, its port, the local preference
    of a prefix sent to it, the route distinguisher of a VNI, ...) and a value.  Two values merge exactly when their facts together
    give no key two values, and the facts of the result are those of both. *)

From Stdlib Require Import Lia.
From S2P Require Import Prelude GoStrings GoNet IPFamily Community Api FrrConfig Errors Merge.
From S2P Require Import ApiToConfig Samples MergeFacts MergeNeighbors MergeProps HeapLogic ConvertFacts ApiHeap Advertised.

Inductive fval := VS (s : string) | VN (n : N) | VZ (z : Z) | VB (b : bool) | VF (f : Family).

(** The keys: of a VNI, of an L3 VNI, of the EVPN configuration and of a session.  The elements of a set
    are keys of their own, with the value true. *)
Inductive pkey := PRD | PImport | PExport | PImportRT (rt : string) | PExportRT (rt : string).
Inductive l3key := L3Number | L3Advertises (type : string) | L3Property (k : pkey).
Inductive ekey := EAdvertise | ESVI | EL2 (vni : N) (k : pkey) | EL3 (k : l3key).
Inductive nkey :=
  | KASN | KPort | KSrcAddr | KPassword | KBFD | KMultiHop | KFamily | KHold | KKeepalive | KConnect | KLocalASN
  | KNextHop4 | KNextHop6 | KLocalPref (prefix : string) | KSends4 (prefix : string) | KSends6 (prefix : string)
  | KCommunity (list prefix : string) | KAccepts4 (filter : string) | KAccepts6 (filter : string)
  | KAddressFamily (family : string).

(** No key has two values. *)
Definition functional {K} (R : K → fval → Prop) : Prop := ∀ k v1 v2, R k v1 → R k v2 → v1 = v2.
Definition both {K} (R1 R2 : K → fval → Prop) : K → fval → Prop := λ k v, R1 k v ∨ R2 k v.

Lemma functional_sub {K} (R1 R2 : K → fval → Prop) :
  (∀ k v, R1 k v → R2 k v) → functional R2 → functional R1.
Proof. intros Hs Hf k v1 v2 H1 H2. eapply Hf; eauto. Qed.

(** An optional setting: an empty string says nothing. *)
Definition unless_empty (s : string) (v : fval) : Prop := s ≠ "" ∧ v = VS s.

Lemma unless_empty_both a b :
  (∀ v1 v2, unless_empty a v1 ∨ unless_empty b v1 → unless_empty a v2 ∨ unless_empty b v2 → v1 = v2) ↔
  a = "" ∨ b = "" ∨ a = b.
Proof.
  unfold unless_empty. split.
  - intros H. destruct (decide (a = "")); [by left|]. destruct (decide (b = "")); [by right; left|]. right; right.
    specialize (H (VS a) (VS b)). naive_solver.
  - naive_solver.
Qed.

Lemma unless_empty_merged a b v :
  a = "" ∨ b = "" ∨ a = b →
  unless_empty (if bool_decide (a = "") then b else a) v ↔ unless_empty a v ∨ unless_empty b v.
Proof. unfold unless_empty. case_bool_decide; naive_solver. Qed.

(** An element of a set. *)
Definition element (P : Prop) (v : fval) : Prop := P ∧ v = VB true.

Lemma element_both P Q v1 v2 : element P v1 ∨ element Q v1 → element P v2 ∨ element Q v2 → v1 = v2.
Proof. unfold element. naive_solver. Qed.
Lemma element_or P Q v : element (P ∨ Q) v ↔ element P v ∨ element Q v.
Proof. unfold element. tauto. Qed.

(** ** VNIs *)

Definition pfact (p : FrrVNIProperties) (k : pkey) (v : fval) : Prop :=
  match k with
  | PRD => unless_empty (FVP_RD p) v
  | PImport => v = VB (bool_decide (FVP_ImportRTs p = []))
  | PExport => v = VB (bool_decide (FVP_ExportRTs p = []))
  | PImportRT rt => element (rt ∈ FVP_ImportRTs p) v
  | PExportRT rt => element (rt ∈ FVP_ExportRTs p) v
  end.

Lemma pfact_functional p : functional (pfact p).
Proof. intros [] v1 v2; cbn; unfold unless_empty, element; naive_solver. Qed.

Lemma rts_both (a b : list string) :
  (∀ v1 v2, v1 = VB (bool_decide (a = [])) ∨ v1 = VB (bool_decide (b = [])) →
    v2 = VB (bool_decide (a = [])) ∨ v2 = VB (bool_decide (b = [])) → v1 = v2) ↔ rts_agree a b.
Proof.
  unfold rts_agree. split.
  - intros H. specialize (H (VB (bool_decide (a = []))) (VB (bool_decide (b = []))) (or_introl eq_refl) (or_intror eq_refl)).
    injection H as H. rewrite <-(bool_decide_eq_true (a = [])), <-(bool_decide_eq_true (b = [])), H. done.
  - intros H. assert (bool_decide (a = []) = bool_decide (b = [])) as -> by (by apply bool_decide_ext). naive_solver.
Qed.

Lemma mergeRTs_nil a b : rts_agree a b → mergeRTs a b = [] ↔ a = [].
Proof.
  unfold rts_agree, mergeRTs. destruct a as [|x a], b as [|y b]; cbn; try naive_solver. intros _. split; [|done].
  intros H. assert (x ∈ sets_List (sets_New ((x :: a) ++ y :: b))) as Hx.
  { rewrite elem_of_sets_List, elem_of_sets_New. left. }
  cbn in Hx. rewrite H in Hx. by apply elem_of_nil in Hx.
Qed.

Lemma elem_of_mergeRTs a b x : x ∈ mergeRTs a b ↔ x ∈ a ∨ x ∈ b.
Proof.
  unfold mergeRTs. destruct a as [|y a], b as [|z b]; cbn [length Nat.eqb andb]; rewrite ?elem_of_nil; try tauto.
  by rewrite elem_of_sets_List, elem_of_sets_New, elem_of_app.
Qed.

(** The properties of two VNIs. *)
Lemma vni_both_functional a b :
  functional (both (pfact a) (pfact b)) ↔ ∃ c, mergeVNIProperties a b = Ok c.
Proof.
  unfold functional, both. split.
  - intros H. eexists. apply mergeVNIProperties_Ok. split_and!; [..|done].
    + apply unless_empty_both, (H PRD).
    + apply rts_both, (H PImport).
    + apply rts_both, (H PExport).
  - intros (c & (H1 & H2 & H3 & _)%mergeVNIProperties_Ok) [].
    + by apply unless_empty_both.
    + by apply rts_both.
    + by apply rts_both.
    + intros v1 v2. apply element_both.
    + intros v1 v2. apply element_both.
Qed.

Lemma vni_merged a b c : mergeVNIProperties a b = Ok c → ∀ k v, pfact c k v ↔ both (pfact a) (pfact b) k v.
Proof.
  intros (Hrd & Hi & He & ->)%mergeVNIProperties_Ok [| | |rt|rt] v; unfold both; cbn.
  - by apply unless_empty_merged.
  - rewrite (bool_decide_ext _ _ (mergeRTs_nil _ _ Hi)), (bool_decide_ext _ _ Hi). naive_solver.
  - rewrite (bool_decide_ext _ _ (mergeRTs_nil _ _ He)), (bool_decide_ext _ _ He). naive_solver.
  - rewrite <-element_or. unfold element. by rewrite elem_of_mergeRTs.
  - rewrite <-element_or. unfold element. by rewrite elem_of_mergeRTs.
Qed.

(** A list of L2 VNIs, and a map of them. *)
Definition l2fact (l : list FrrL2VNI) (k : N * pkey) (v : fval) : Prop :=
  ∃ x, x ∈ l ∧ FL2_VNI x = k.1 ∧ pfact (FL2_Properties x) k.2 v.
Definition m2fact (m : gmap N FrrL2VNI) (k : N * pkey) (v : fval) : Prop :=
  ∃ x, m !! k.1 = Some x ∧ pfact (FL2_Properties x) k.2 v.

Lemma m2fact_functional m : functional (m2fact m).
Proof. intros [vni k] v1 v2 (x & Hx & H1) (y & Hy & H2). cbn in *. simplify_eq. by eapply pfact_functional. Qed.

Lemma mergeL2_step m x :
  match mergeL2VNIStep m x with
  | Ok m' => functional (both (m2fact m) (l2fact [x])) ∧ ∀ k v, m2fact m' k v ↔ both (m2fact m) (l2fact [x]) k v
  | Err _ => ¬ functional (both (m2fact m) (l2fact [x]))
  end.
Proof.
  assert (∀ k v, l2fact [x] k v ↔ FL2_VNI x = k.1 ∧ pfact (FL2_Properties x) k.2 v) as Hx.
  { intros k v. unfold l2fact. setoid_rewrite list_elem_of_singleton. naive_solver. }
  unfold mergeL2VNIStep. destruct (m !! FL2_VNI x) as [e|] eqn:E.
  - destruct (mergeVNIProperties (FL2_Properties e) (FL2_Properties x)) as [c|err] eqn:Ec; cbn.
    + assert (functional (both (pfact (FL2_Properties e)) (pfact (FL2_Properties x)))) as Hf
        by (apply vni_both_functional; eauto). pose proof (vni_merged _ _ _ Ec) as Hm. split.
      * intros [vni k] v1 v2. unfold both. rewrite !Hx. unfold m2fact; cbn [fst snd].
        intros [(y & Hy & H1)|[<- H1]] [(z & Hz & H2)|[Hv H2]]; simplify_eq; try (by eapply pfact_functional);
          eapply (Hf k); unfold both; eauto.
      * intros [vni k] v. unfold both. rewrite Hx. unfold m2fact; cbn [fst snd].
        destruct (decide (FL2_VNI x = vni)) as [<-|Hne].
        -- setoid_rewrite lookup_insert_eq. rewrite E. setoid_rewrite (inj_iff Some). split.
           ++ intros (y & <- & Hp%Hm). destruct Hp; eauto.
           ++ intros [(y & <- & Hp)|[_ Hp]]; eexists; (split; [done|]); apply Hm; unfold both; eauto.
        -- setoid_rewrite lookup_insert_ne; [|done]. naive_solver.
    + intros Hf. assert (∃ c, mergeVNIProperties (FL2_Properties e) (FL2_Properties x) = Ok c) as [c Hc];
        [|congruence]. apply vni_both_functional. intros k v1 v2 H1 H2. apply (Hf (FL2_VNI x, k)); unfold both in *;
        rewrite Hx; unfold m2fact; cbn; naive_solver.
  - split.
    + intros [vni k] v1 v2. unfold both. rewrite !Hx. unfold m2fact; cbn [fst snd].
      intros [(y & Hy & H1)|[<- H1]] [(z & Hz & H2)|[Hv H2]]; simplify_eq; by eapply pfact_functional.
    + intros [vni k] v. unfold both. rewrite Hx. unfold m2fact; cbn [fst snd].
      destruct (decide (FL2_VNI x = vni)) as [<-|Hne].
      * setoid_rewrite lookup_insert_eq. rewrite E. naive_solver.
      * setoid_rewrite lookup_insert_ne; [|done]. naive_solver.
Qed.

Lemma mergeL2_all m b :
  match foldM mergeL2VNIStep m b with
  | Ok m' => functional (both (m2fact m) (l2fact b)) ∧ ∀ k v, m2fact m' k v ↔ both (m2fact m) (l2fact b) k v
  | Err _ => ¬ functional (both (m2fact m) (l2fact b))
  end.
Proof.
  revert m. induction b as [|x b IH]; intros m; cbn [foldM].
  { assert (∀ k v, both (m2fact m) (l2fact []) k v ↔ m2fact m k v) as Hb.
    { intros k v. unfold both, l2fact. split; [|by left]. by intros [?|(y & []%elem_of_nil & _)]. }
    split; [|by intros; rewrite Hb]. eapply functional_sub; [by intros ?? ?%Hb|apply m2fact_functional]. }
  assert (∀ m', (∀ k v, m2fact m' k v ↔ both (m2fact m) (l2fact [x]) k v) →
    ∀ k v, both (m2fact m') (l2fact b) k v ↔ both (m2fact m) (l2fact (x :: b)) k v) as Hcons.
  { intros m' Hm' k v. unfold both. rewrite Hm'. unfold both, l2fact.
    setoid_rewrite elem_of_cons. setoid_rewrite elem_of_nil. naive_solver. }
  pose proof (mergeL2_step m x) as Hs. destruct (mergeL2VNIStep m x) as [m'|e]; cbn.
  - destruct Hs as [_ Hs]. specialize (IH m'). destruct (foldM mergeL2VNIStep m' b) as [m2|e].
    + destruct IH as [Hf Hm]. split; [eapply functional_sub; [|exact Hf]; intros k v; by apply Hcons|].
      intros k v. by rewrite Hm, Hcons.
    + intros Hf. apply IH. eapply functional_sub; [|exact Hf]. intros k v. by apply Hcons.
  - intros Hf. apply Hs. eapply functional_sub; [|exact Hf]. unfold both, l2fact. intros k v.
    setoid_rewrite elem_of_cons. setoid_rewrite elem_of_nil. naive_solver.
Qed.

(** One entry per VNI. *)
Definition l2_wf (l : list FrrL2VNI) : Prop := NoDup (FL2_VNI <$> l).

Lemma l2fact_functional l : l2_wf l → functional (l2fact l).
Proof.
  intros Hnd [vni k] v1 v2 (x & Hx & Hvx & H1) (y & Hy & Hvy & H2). cbn in *.
  assert (x = y) as -> by (eapply (NoDup_key_inj FL2_VNI); eauto; congruence). by eapply pfact_functional.
Qed.

Lemma index_l2fact l k v : m2fact (index_by FL2_VNI l) k v → l2fact l k v.
Proof. intros (x & [Hx Hk]%index_by_Some & Hp). exists x. done. Qed.
Lemma l2fact_index l k v : l2_wf l → l2fact l k v → m2fact (index_by FL2_VNI l) k v.
Proof.
  intros Hnd (x & Hx & Hk & Hp). exists x. split; [|done]. apply index_by_lookup; [|done].
  intros a b Ha Hb Hab. by eapply (NoDup_key_inj FL2_VNI).
Qed.

Lemma foldL2_keyed m b m' :
  (∀ k x, m !! k = Some x → FL2_VNI x = k) → foldM mergeL2VNIStep m b = Ok m' →
  ∀ k x, m' !! k = Some x → FL2_VNI x = k.
Proof.
  intros Hm. apply (foldM_inv (λ m, ∀ k x, m !! k = Some x → FL2_VNI x = k)); [done|].
  clear. intros m x m' _ Hm. unfold mergeL2VNIStep. destruct (m !! FL2_VNI x) as [e|] eqn:E.
  - intros (c & _ & [= <-])%bind_Ok k y [[<- <-]|[_ Hy]]%lookup_insert_Some; [|by apply Hm]. cbn. by apply Hm in E.
  - intros [= <-] k y [[<- <-]|[_ Hy]]%lookup_insert_Some; [done|]. by apply Hm.
Qed.

Lemma sortMap_m2fact m k v :
  (∀ k x, m !! k = Some x → FL2_VNI x = k) → l2fact (sortMap m) k v ↔ m2fact m k v.
Proof.
  intros Hk. unfold l2fact, m2fact. setoid_rewrite elem_of_sortMap. split.
  - intros (x & [i Hi] & Hv & Hp). exists x. split; [|done]. rewrite <-Hv. by rewrite (Hk _ _ Hi).
  - intros (x & Hx & Hp). exists x. split_and!; [eauto|by apply Hk in Hx|done].
Qed.

(** Merging two lists with one entry per VNI, or a list with itself. *)
Lemma l2_both a b :
  (l2_wf a ∧ l2_wf b) ∨ a = b →
  match mergeL2VNIs a b with
  | Ok c => functional (both (l2fact a) (l2fact b)) ∧ l2_wf c ∧ (∀ k v, l2fact c k v ↔ both (l2fact a) (l2fact b) k v) ∧
      (c = [] ↔ a = [] ∧ b = [])
  | Err _ => ¬ functional (both (l2fact a) (l2fact b))
  end.
Proof.
  intros Hwf. assert (∀ k v, ¬ l2fact [] k v) as Hnil by (intros k v (x & []%elem_of_nil & _)).
  unfold mergeL2VNIs. destruct a as [|x a'], b as [|y b']; cbn [length Nat.eqb andb].
  - split_and!; [intros k v1 v2 [H|H]; by apply Hnil in H|constructor|intros k v; unfold both; naive_solver|naive_solver].
  - destruct Hwf as [[_ Hb]|?]; [|done]. split_and!; [|done|intros k v; unfold both; naive_solver|naive_solver].
    eapply functional_sub; [|by apply l2fact_functional]. intros k v [H|H]; [by apply Hnil in H|done].
  - destruct Hwf as [[Ha _]|?]; [|done]. split_and!; [|done|intros k v; unfold both; naive_solver|naive_solver].
    eapply functional_sub; [|by apply l2fact_functional]. intros k v [H|H]; [done|by apply Hnil in H].
  - set (a := x :: a') in *. set (b := y :: b') in *.
    assert (∀ k v, both (m2fact (index_by FL2_VNI a)) (l2fact b) k v ↔ both (l2fact a) (l2fact b) k v) as Hi.
    { intros k v. unfold both. split; [intros [H%index_l2fact|H]; auto|].
      intros [H|H]; [|by right]. destruct Hwf as [[Ha _]|<-]; [left; by apply l2fact_index|by right]. }
    pose proof (mergeL2_all (index_by FL2_VNI a) b) as H.
    destruct (foldM mergeL2VNIStep (index_by FL2_VNI a) b) as [m|e] eqn:E; cbn.
    + destruct H as [Hf Hm].
      assert (∀ k x, m !! k = Some x → FL2_VNI x = k) as Hk.
      { eapply foldL2_keyed; [|exact E]. by intros k z [_ ?]%index_by_Some. }
      assert (∀ k v, l2fact (sortMap m) k v ↔ both (l2fact a) (l2fact b) k v) as Hc.
      { intros k v. by rewrite sortMap_m2fact, Hm, Hi. }
      split_and!; [eapply functional_sub; [|exact Hf]; intros; by apply Hi|by apply (sortMap_sorted FL2_VNI)|done|].
      split; [|naive_solver]. intros Hs. rewrite Hs in Hc. exfalso.
      apply (Hnil (FL2_VNI x, PImport) (VB (bool_decide (FVP_ImportRTs (FL2_Properties x) = [])))), Hc. left.
      exists x. split; [left|done].
    + intros Hf. apply H. eapply functional_sub; [|exact Hf]. intros k v. by apply Hi.
Qed.

(** The L3 VNI: its number, what it advertises and its properties. *)
Definition l3fact (o : option FrrL3VNI) (k : l3key) (v : fval) : Prop :=
  ∃ l3, o = Some l3 ∧
    match k with
    | L3Number => v = VN (FL3_VNI l3)
    | L3Advertises t => element (t ∈ FL3_AdvertisePrefixes l3) v
    | L3Property k => pfact (FL3_Properties l3) k v
    end.

Lemma l3fact_functional o : functional (l3fact o).
Proof.
  intros k v1 v2 (x & Hx & H1) (y & Hy & H2). simplify_eq.
  destruct k; [congruence|unfold element in *; naive_solver|by eapply pfact_functional].
Qed.

Lemma l3_both a b :
  match mergeL3VNIs a b with
  | Ok c => functional (both (l3fact a) (l3fact b)) ∧ (∀ k v, l3fact c k v ↔ both (l3fact a) (l3fact b) k v)
  | Err _ => ¬ functional (both (l3fact a) (l3fact b))
  end.
Proof.
  assert (∀ k v, ¬ l3fact None k v) as Hnone by (by intros k v (? & ? & _)).
  destruct a as [a|]; cbn [mergeL3VNIs].
  2:{ split; [|unfold both; naive_solver]. eapply functional_sub; [|apply (l3fact_functional b)]. unfold both. naive_solver. }
  destruct b as [b|].
  2:{ split; [|unfold both; naive_solver]. eapply functional_sub; [|apply (l3fact_functional (Some a))].
      unfold both. naive_solver. }
  assert (∀ x k v, l3fact (Some x) k v ↔ match k with L3Number => v = VN (FL3_VNI x)
    | L3Advertises t => element (t ∈ FL3_AdvertisePrefixes x) v | L3Property k => pfact (FL3_Properties x) k v end)
    as Hs by (unfold l3fact; naive_solver).
  assert (functional (both (l3fact (Some a)) (l3fact (Some b))) ↔
    FL3_VNI a = FL3_VNI b ∧ functional (both (pfact (FL3_Properties a)) (pfact (FL3_Properties b)))) as Hf.
  { unfold functional, both. setoid_rewrite Hs. split.
    - intros H. split; [|intros k; apply (H (L3Property k))].
      specialize (H L3Number (VN (FL3_VNI a)) (VN (FL3_VNI b))). naive_solver.
    - intros [Hv H] [|t|k]; [rewrite Hv; naive_solver|intros v1 v2; apply element_both|apply H]. }
  rewrite vni_both_functional in Hf. unfold fail_if.
  destruct (N.eqb_spec (FL3_VNI a) (FL3_VNI b)) as [Hv|Hv]; cbn; [|rewrite Hf; naive_solver].
  destruct (mergeVNIProperties _ _) as [c|e] eqn:E; cbn; rewrite Hf; [|naive_solver]. split; [eauto|].
  intros k v. unfold both. rewrite !Hs. cbn. destruct k as [|t|k]; [rewrite Hv; naive_solver| |apply (vni_merged _ _ _ E)].
  rewrite <-element_or. unfold element. by rewrite elem_of_sets_List, elem_of_sets_New, elem_of_app.
Qed.

(** ** EVPN *)

Definition efact (e : option FrrEVPNConfig) (k : ekey) (v : fval) : Prop :=
  ∃ c, e = Some c ∧
  match k with
  | EAdvertise => v = VS (default VNIAdvertisementDisabled (FE_AdvertiseVNIs c))
  | ESVI => v = VB (FE_AdvertiseSVI c)
  | EL2 vni k => l2fact (FE_L2VNIs c) (vni, k) v
  | EL3 k => l3fact (FE_L3VNI c) k v
  end.

Lemma efact_functional e : evpn_wf e → functional (efact e).
Proof.
  intros Hwf k v1 v2 (c & -> & H1) (c' & [= <-] & H2). specialize (Hwf c eq_refl).
  destruct k; try congruence; [by eapply l2fact_functional|by eapply l3fact_functional].
Qed.

Lemma evpn_both a b :
  (evpn_wf a ∧ evpn_wf b) ∨ a = b →
  match mergeEVPNConfigs a b with
  | Ok c => functional (both (efact a) (efact b)) ∧ evpn_wf c ∧ (∀ k v, efact c k v ↔ both (efact a) (efact b) k v)
  | Err _ => ¬ functional (both (efact a) (efact b))
  end.
Proof.
  intros Hwf. assert (∀ k v, ¬ efact None k v) as Hnone by (by intros k v (? & ? & _)).
  destruct a as [a|], b as [b|]; cbn [mergeEVPNConfigs].
  - assert ((l2_wf (FE_L2VNIs a) ∧ l2_wf (FE_L2VNIs b)) ∨ FE_L2VNIs a = FE_L2VNIs b) as Hl2.
    { destruct Hwf as [[Ha Hb]|[= ->]]; [left; split; [by apply Ha|by apply Hb]|by right]. }
    assert (∀ x k v, efact (Some x) k v ↔ match k with
      | EAdvertise => v = VS (default VNIAdvertisementDisabled (FE_AdvertiseVNIs x)) | ESVI => v = VB (FE_AdvertiseSVI x)
      | EL2 vni k => l2fact (FE_L2VNIs x) (vni, k) v | EL3 k => l3fact (FE_L3VNI x) k v end) as Hs by (unfold efact; naive_solver).
    assert (functional (both (efact (Some a)) (efact (Some b))) ↔
      default VNIAdvertisementDisabled (FE_AdvertiseVNIs a) = default VNIAdvertisementDisabled (FE_AdvertiseVNIs b) ∧
      FE_AdvertiseSVI a = FE_AdvertiseSVI b ∧ functional (both (l2fact (FE_L2VNIs a)) (l2fact (FE_L2VNIs b))) ∧
      functional (both (l3fact (FE_L3VNI a)) (l3fact (FE_L3VNI b)))) as Hf.
    { unfold functional, both. setoid_rewrite Hs. split.
      - intros H. split_and!.
        + specialize (H EAdvertise _ _ (or_introl eq_refl) (or_intror eq_refl)). by injection H.
        + specialize (H ESVI _ _ (or_introl eq_refl) (or_intror eq_refl)). by injection H.
        + intros [vni k]. apply (H (EL2 vni k)).
        + intros k. apply (H (EL3 k)).
      - intros (H1 & H2 & H3 & H4) []; [rewrite H1; naive_solver|rewrite H2; naive_solver|apply H3|apply H4]. }
    pose proof (l2_both _ _ Hl2) as H2. pose proof (l3_both (FE_L3VNI a) (FE_L3VNI b)) as H3.
    unfold fail_if. destruct (ptrsEqual _ _ _) eqn:E1; cbn.
    2:{ rewrite Hf. intros (H & _). apply not_true_iff_false in E1. by apply E1, ptrsEqual_spec. }
    apply ptrsEqual_spec in E1. case_bool_decide as E2; cbn; [|rewrite Hf; naive_solver].
    destruct (mergeL2VNIs _ _) as [l2|e]; cbn; [|rewrite Hf; naive_solver]. destruct H2 as (F2 & Hwf2 & H2 & _).
    destruct (mergeL3VNIs _ _) as [l3|e]; cbn; [|rewrite Hf; naive_solver]. destruct H3 as [F3 H3]. rewrite Hf.
    split_and!; [done..|by intros c [= <-]|]. intros k v. unfold both. rewrite !Hs. cbn.
    destruct k; [|rewrite E2; naive_solver|apply H2|apply H3].
    destruct (FE_AdvertiseVNIs a), (FE_AdvertiseVNIs b); cbn in *; rewrite ?E1; naive_solver.
  - destruct Hwf as [[Ha _]|?]; [|done]. split_and!; [|done|unfold both; naive_solver].
    eapply functional_sub; [|by apply (efact_functional (Some a))]. unfold both. naive_solver.
  - destruct Hwf as [[_ Hb]|?]; [|done]. split_and!; [|done|unfold both; naive_solver].
    eapply functional_sub; [|by apply (efact_functional (Some b))]. unfold both. naive_solver.
  - split_and!; [|done|unfold both; naive_solver]. intros k v1 v2 [H|H]; by apply Hnone in H.
Qed.

(** ** Sessions *)

(** The session accepts everything, or has a filter with this key. *)
Definition admits (inc : AllowedIn) (filters : AllowedIn → list IncomingFilter) (key : string) : Prop :=
  AI_All inc = true ∨ key ∈ incomingFilterKey <$> filters inc.

Lemma mergeIncomingFilters_keys a b key :
  key ∈ incomingFilterKey <$> mergeIncomingFilters a b ↔
  key ∈ incomingFilterKey <$> a ∨ key ∈ incomingFilterKey <$> b.
Proof.
  rewrite <-elem_of_app, <-fmap_app, !list_elem_of_fmap. unfold mergeIncomingFilters. setoid_rewrite elem_of_sortMap. split.
  - intros (f & -> & k & [Hf _]%index_by_Some). eauto.
  - intros (f & -> & Hf). destruct (index_by_is_Some incomingFilterKey (a ++ b) (incomingFilterKey f)) as [_ H].
    destruct H as [g Hg]; [by apply list_elem_of_fmap_2|]. exists g. split; [|eauto].
    by apply index_by_Some in Hg as [_ ?].
Qed.

Lemma admits_merged a b filters key :
  filters = AI_PrefixesV4 ∨ filters = AI_PrefixesV6 →
  admits (mergeAllowedIn a b) filters key ↔ admits a filters key ∨ admits b filters key.
Proof.
  intros Hf. unfold admits, mergeAllowedIn. destruct (AI_All a), (AI_All b); cbn; [tauto..|].
  destruct Hf as [-> | ->]; cbn; rewrite mergeIncomingFilters_keys; intuition done.
Qed.

Definition nfact (n : NeighborConfig) (k : nkey) (v : fval) : Prop :=
  match k with
  | KASN => v = VS (NC_ASN n)
  | KPort => v = VN (default defaultBGPPort (NC_Port n))
  | KSrcAddr => v = VS (NC_SrcAddr n)
  | KPassword => v = VS (NC_Password n)
  | KBFD => unless_empty (NC_BFDProfile n) v
  | KMultiHop => v = VB (NC_EBGPMultiHop n)
  | KFamily => v = VF (NC_IPFamily n)
  | KHold => v = VZ (default defaultHoldTime (NC_HoldTime n))
  | KKeepalive => v = VZ (default defaultKeepaliveTime (NC_KeepaliveTime n))
  | KConnect => v = VZ (default defaultConnectTime (NC_ConnectTime n))
  | KLocalASN => v = VN (NC_LocalASN n)
  | KNextHop4 => unless_empty (AO_NextHopV4 (NC_Outgoing n)) v
  | KNextHop6 => unless_empty (AO_NextHopV6 (NC_Outgoing n)) v
  | KLocalPref p => ∃ lp, lp_of (AO_LocalPrefPrefixesModifiers (NC_Outgoing n)) p lp ∧ v = VN lp
  | KSends4 p => element (p ∈ AO_PrefixesV4 (NC_Outgoing n)) v
  | KSends6 p => element (p ∈ AO_PrefixesV6 (NC_Outgoing n)) v
  | KCommunity l p => element (comm_tagged (AO_CommunityPrefixesModifiers (NC_Outgoing n)) l p) v
  | KAccepts4 f => element (admits (NC_Incoming n) AI_PrefixesV4 f) v
  | KAccepts6 f => element (admits (NC_Incoming n) AI_PrefixesV6 f) v
  | KAddressFamily f => element (f ∈ NC_AddressFamilies n) v
  end.

Lemma nfact_functional n : out_wf (NC_Outgoing n) → functional (nfact n).
Proof.
  intros [_ _ Hlp] k v1 v2. destruct k; cbn; unfold unless_empty, element; try naive_solver.
  intros (lp1 & H1 & ->) (lp2 & H2 & ->). f_equal. by eapply Hlp.
Qed.

(** Two values of a mandatory setting. *)
Lemma same_value {A} (f : A → fval) (a b : A) :
  (∀ x y, f x = f y → x = y) →
  (∀ v1 v2, v1 = f a ∨ v1 = f b → v2 = f a ∨ v2 = f b → v1 = v2) ↔ a = b.
Proof.
  intros Hf. split; [|intros ->; naive_solver]. intros H. apply Hf, H; auto.
Qed.

Lemma session_both d s :
  ID d = ID s → out_wf (NC_Outgoing d) → out_wf (NC_Outgoing s) →
  functional (both (nfact d) (nfact s)) ↔ ∃ d', mergeIntoNeighbor d s = Ok d'.
Proof.
  intros Hid Hd Hs.
  assert ((∃ d', mergeIntoNeighbor d s = Ok d') ↔ compatible d s ∧
    nexthop_compat (AO_NextHopV4 (NC_Outgoing d)) (AO_NextHopV4 (NC_Outgoing s)) ∧
    nexthop_compat (AO_NextHopV6 (NC_Outgoing d)) (AO_NextHopV6 (NC_Outgoing s)) ∧
    ∀ p lp e, lp_of (AO_LocalPrefPrefixesModifiers (NC_Outgoing s)) p lp →
      lp_of (AO_LocalPrefPrefixesModifiers (NC_Outgoing d)) p e → e = lp) as ->.
  { split.
    - intros (d' & (Hc & out & (H4 & H6 & Hlp & _)%mergeAllowedOut_inv & _)%mergeIntoNeighbor_Ok).
      split_and!; [done..|]. intros p lp e H1 H2. eapply Hlp; [done|]. by apply localPrefForPrefix_functional; [apply Hd|].
    - intros (Hc & H4 & H6 & Hlp). apply mergeIntoNeighbor_is_Ok; [done..|].
      intros p lp e H1 H2%localPrefForPrefix_Some. by eapply Hlp. }
  unfold functional, both. split.
  - intros H. split_and!.
    + constructor; [done|..].
      * apply (same_value VS); [congruence|apply (H KASN)].
      * apply (same_value VN); [congruence|apply (H KPort)].
      * apply (same_value VS); [congruence|apply (H KSrcAddr)].
      * apply (same_value VS); [congruence|apply (H KPassword)].
      * apply unless_empty_both, (H KBFD).
      * apply (same_value VB); [congruence|apply (H KMultiHop)].
      * apply (same_value VF); [congruence|apply (H KFamily)].
      * apply (same_value VZ); [congruence|apply (H KHold)].
      * apply (same_value VZ); [congruence|apply (H KKeepalive)].
      * apply (same_value VZ); [congruence|apply (H KConnect)].
      * apply (same_value VN); [congruence|apply (H KLocalASN)].
    + apply unless_empty_both, (H KNextHop4).
    + apply unless_empty_both, (H KNextHop6).
    + intros p lp e H1 H2. assert (VN e = VN lp) as [= ->]; [|done]. apply (H (KLocalPref p)); cbn; eauto.
  - intros ([] & H4 & H6 & Hlp) k. destruct k; cbn [nfact].
    1-4, 6-11: apply same_value; [congruence|done].
    + by apply unless_empty_both.
    + by apply unless_empty_both.
    + by apply unless_empty_both.
    + pose proof (out_lp_functional _ Hd) as Fd. pose proof (out_lp_functional _ Hs) as Fs.
      intros v1 v2 [(l1 & H1 & ->)|(l1 & H1 & ->)] [(l2 & H2 & ->)|(l2 & H2 & ->)]; f_equal; eauto.
      symmetry. eauto.
    + apply element_both.
    + apply element_both.
    + apply element_both.
    + apply element_both.
    + apply element_both.
    + apply element_both.
Qed.

Lemma session_merged d s d' :
  out_wf (NC_Outgoing d) → mergeIntoNeighbor d s = Ok d' →
  ∀ k v, nfact d' k v ↔ both (nfact d) (nfact s) k v.
Proof.
  intros Hd (Hc & out & Ho & ->)%mergeIntoNeighbor_Ok k v. apply mergeAllowedOut_inv in Ho as (H4 & H6 & Hlp & ->).
  destruct Hc. unfold both. destruct k; cbn; rewrite ?unset_default_value;
    try (split; [by left|intros [->| ->]; congruence]); try (by apply unless_empty_merged).
  - setoid_rewrite lp_of_merge; [|apply Hd]. naive_solver.
  - rewrite <-element_or. unfold element. by rewrite elem_of_unionList.
  - rewrite <-element_or. unfold element. by rewrite elem_of_unionList.
  - rewrite <-element_or. unfold element. rewrite community_tagged_merge; [done|apply Hd].
  - rewrite <-element_or. unfold element. rewrite admits_merged by auto. done.
  - rewrite <-element_or. unfold element. rewrite admits_merged by auto. done.
  - rewrite <-element_or. unfold element. by rewrite elem_of_sets_List, elem_of_sets_New, elem_of_app.
Qed.
