(* ===== verification/HeapConflicts.v ===== *)
(** * Contradictions found through pointers

    The facts of [Conflicts.v] followed through the store: merging lists of pointers to sessions, and merging
    routers, succeeds exactly when the facts of the two contradict each other nowhere, and the result has the facts of both.
    The lists may share pointers, as they do in [validateRouterConfig]. *)

From Stdlib Require Import Lia.
From S2P Require Import Prelude GoStrings GoNet IPFamily Community Api FrrConfig Errors Merge.
From S2P Require Import ApiToConfig MergeFacts MergeProps ApiHeap Conflicts.

(** ** Runs that succeed or have a reason to fail *)

(** [m] succeeds with [Q], or fails for the reason [E]. *)
Definition runs {A} (m : M A) (h : heap) (Q : A → heap → Prop) (E : Prop) : Prop :=
  match m h with Ok (a, h') => Q a h' | Err _ => E end.

Lemma runs_mono {A} (m : M A) h (Q1 Q2 : A → heap → Prop) (E1 E2 : Prop) :
  runs m h Q1 E1 → (∀ a h', Q1 a h' → Q2 a h') → (E1 → E2) → runs m h Q2 E2.
Proof. unfold runs. destruct (m h) as [[a h']|e]; naive_solver. Qed.

Lemma runs_ret {A} (a : A) h (Q : A → heap → Prop) (E : Prop) : Q a h → runs (mret a) h Q E.
Proof. done. Qed.

Lemma runs_bind {A B} (m : M A) (f : A → M B) h (Q : B → heap → Prop) (E : Prop) :
  runs m h (λ a h', runs (f a) h' Q E) E → runs (m ≫= f) h Q E.
Proof. unfold runs, mbind, M_bind. by destruct (m h) as [[??]|]. Qed.

Lemma runs_lift {A} (r : res A) h (Q : A → heap → Prop) (E : Prop) :
  (∀ a, r = Ok a → Q a h) → ((¬ ∃ a, r = Ok a) → E) → runs (lift r) h Q E.
Proof. unfold runs, lift. destruct r; naive_solver. Qed.

Lemma runs_load p h n (Q : NeighborConfig → heap → Prop) (E : Prop) :
  h !! p = Some n → Q n h → runs (load p) h Q E.
Proof. unfold runs, load. by intros ->. Qed.

Lemma runs_store p n h (Q : unit → heap → Prop) (E : Prop) : Q () (<[p := n]> h) → runs (store p n) h Q E.
Proof. done. Qed.

Lemma runs_alloc n h (Q : positive → heap → Prop) (E : Prop) :
  (∀ p, h !! p = None → Q p (<[p := n]> h)) → runs (alloc n) h Q E.
Proof. unfold runs, alloc. intros HQ. apply HQ, not_elem_of_dom, is_fresh. Qed.

Lemma runs_foldMH {A S} (I : list A → S → heap → Prop) (E : Prop) (f : S → A → M S) l s h :
  I [] s h →
  (∀ done x s h, x ∈ l → I done s h → runs (f s x) h (I (done ++ [x])) E) →
  runs (foldMH f s l) h (I l) E.
Proof.
  intros H0 Hf.
  assert (∀ done, I done s h → runs (foldMH f s l) h (I (done ++ l)) E) as Hgen; [|by apply (Hgen [])].
  clear H0. revert s h. induction l as [|x l IH]; intros s h dn Hs; cbn [foldMH].
  { apply runs_ret. by rewrite app_nil_r. }
  apply runs_bind. eapply runs_mono; [apply Hf; [by left|done]| |done]. intros s' h' Hs'; cbn.
  rewrite cons_middle, (assoc_L (++)). apply IH; [|done]. intros; apply Hf; [by right|done].
Qed.

(** ** Sessions through pointers *)

Notation session_wf n := (out_wf (NC_Outgoing n)).

(** The pointers lead to sessions with one local preference per prefix. *)
Definition valid (h : heap) (ps : list loc) : Prop := ∀ p, p ∈ ps → ∃ n, h !! p = Some n ∧ session_wf n.

Definition sfact (h : heap) (ps : list loc) (k : string * nkey) (v : fval) : Prop :=
  ∃ p n, p ∈ ps ∧ h !! p = Some n ∧ ID n = k.1 ∧ nfact n k.2 v.

(** While [mergeNeighborsLists] runs: objects only learn facts of sessions with their ID, and the
    object registered for an ID knows what was said of it so far. *)
Record collecting (h : heap) (all dn : list loc) (ml : gmap string loc) (h1 : heap) : Prop := {
  co_frame q : q ∉ all → h1 !! q = h !! q;
  co_grown p n : p ∈ all → h !! p = Some n → ∃ n1, h1 !! p = Some n1 ∧ ID n1 = ID n ∧ session_wf n1 ∧
    (∀ k v, nfact n k v → nfact n1 k v) ∧ (∀ k v, nfact n1 k v → sfact h all (ID n, k) v);
  co_map id d : ml !! id = Some d → d ∈ all ∧ ∃ n1, h1 !! d = Some n1 ∧ ID n1 = id;
  co_done p n : p ∈ dn → h !! p = Some n →
    ∃ d n1, ml !! ID n = Some d ∧ h1 !! d = Some n1 ∧ ∀ k v, nfact n k v → nfact n1 k v }.

Lemma collecting_start h all : valid h all → collecting h all [] ∅ h.
Proof.
  intros Hv. split; [done| |intros id d; by rewrite lookup_empty|by intros p n []%elem_of_nil].
  intros p n Hp Hn. exists n. destruct (Hv p Hp) as (n' & Hn' & Hwf). simplify_eq. split_and!; [done..|].
  intros k v Hk. by exists p, n.
Qed.

Lemma collecting_merge h all dn ml h1 p n n1 d nd d' :
  collecting h all dn ml h1 → p ∈ all → h !! p = Some n → h1 !! p = Some n1 →
  ml !! ID n = Some d → h1 !! d = Some nd → session_wf d' → ID d' = ID nd →
  (∀ k v, nfact d' k v ↔ both (nfact nd) (nfact n1) k v) →
  collecting h all (dn ++ [p]) ml (<[d := d']> h1).
Proof.
  intros [Hfr Hgr Hmap Hdn] Hp Hn Hn1 Hd Hnd Hwf Hid Hm.
  destruct (Hmap _ _ Hd) as (Hda & nd' & Hnd' & Hidd). simplify_eq.
  destruct (Hgr p n Hp Hn) as (n1' & Hn1' & Hid1 & _ & Hg1 & Hs1). simplify_eq.
  split.
  - intros q Hq. rewrite lookup_insert_ne by congruence. by apply Hfr.
  - intros q m Hq Hm0. destruct (decide (d = q)) as [<-|Hne].
    + destruct (Hgr d m Hq Hm0) as (m1 & Hm1 & Hmid & _ & Hg & Hs). simplify_eq. exists d'.
      rewrite lookup_insert_eq. split_and!; [done|congruence|done|..].
      * intros k v Hk. apply Hm. left. by apply Hg.
      * intros k v [Hk|Hk]%Hm; [by apply Hs|]. rewrite <-Hmid, Hidd. by apply Hs1.
    + destruct (Hgr q m Hq Hm0) as (m1 & Hm1 & ?). exists m1. by rewrite lookup_insert_ne.
  - intros id q Hq. destruct (Hmap _ _ Hq) as (Hqa & m1 & Hm1 & Hmid). split; [done|].
    destruct (decide (d = q)) as [<-|Hne].
    + exists d'. rewrite lookup_insert_eq. split; [done|congruence].
    + exists m1. by rewrite lookup_insert_ne.
  - intros q m [Hq|Hq]%elem_of_app Hm0.
    + destruct (Hdn q m Hq Hm0) as (e & m1 & He & Hm1 & Hf). destruct (decide (d = e)) as [<-|Hne].
      * simplify_eq. exists d, d'. rewrite lookup_insert_eq. split_and!; [done..|]. intros k v Hk. apply Hm. left. auto.
      * exists e, m1. by rewrite lookup_insert_ne.
    + apply list_elem_of_singleton in Hq as ->. simplify_eq. exists d, d'. rewrite lookup_insert_eq. split_and!; [done..|].
      intros k v Hk. apply Hm. right. auto.
Qed.

Lemma runs_mergeNeighborsStep h all dn ml h1 p :
  valid h all → p ∈ all → collecting h all dn ml h1 →
  runs (mergeNeighborsStep ml p) h1 (collecting h all (dn ++ [p])) (¬ functional (sfact h all)).
Proof.
  intros Hv Hp Hco. destruct (Hv p Hp) as (n & Hn & _).
  destruct (co_grown _ _ _ _ _ Hco p n Hp Hn) as (n1 & Hn1 & Hid1 & Hwf1 & Hg1 & Hs1).
  unfold mergeNeighborsStep. apply runs_bind, (runs_load _ _ n1); [done|]. rewrite Hid1.
  destruct (ml !! ID n) as [d|] eqn:Hd.
  - destruct (co_map _ _ _ _ _ Hco _ _ Hd) as (Hda & nd & Hnd & Hidd).
    destruct (Hv d Hda) as (nd0 & Hnd0 & _).
    destruct (co_grown _ _ _ _ _ Hco d nd0 Hda Hnd0) as (nd' & Hnd' & Hid0 & Hwfd & _ & Hsd). simplify_eq.
    apply runs_bind, (runs_load _ _ nd); [done|].
    pose proof (session_both nd n1 ltac:(congruence) Hwfd Hwf1) as Hb.
    apply runs_bind, runs_lift.
    + intros d' Hd'. apply runs_bind, runs_store, runs_ret.
      eapply (collecting_merge _ _ _ _ _ _ n n1 d nd); [done..| | |].
      * apply mergeIntoNeighbor_Ok in Hd' as (_ & out & Ho & ->). by eapply mergeAllowedOut_wf; [| |exact Ho].
      * by eapply mergeIntoNeighbor_ID.
      * by eapply session_merged.
    + intros Hno Hf. apply Hno, Hb. intros k v1 v2 H1 H2. apply (Hf (ID n, k)).
      * destruct H1 as [H1|H1]; [rewrite <-Hidd, Hid0; by apply Hsd|by apply Hs1].
      * destruct H2 as [H2|H2]; [rewrite <-Hidd, Hid0; by apply Hsd|by apply Hs1].
  - apply runs_ret. destruct Hco as [Hfr Hgr Hmap Hdn]. split; [done..| |].
    + intros id q [[<- <-]|[_ Hq]]%lookup_insert_Some; [by eauto|by apply Hmap].
    + intros q m [Hq|Hq]%elem_of_app Hm.
      * destruct (Hdn q m Hq Hm) as (e & m1 & He & Hm1 & Hf). exists e, m1.
        rewrite lookup_insert_ne by congruence. done.
      * apply list_elem_of_singleton in Hq as ->. simplify_eq. exists p, n1. by rewrite lookup_insert_eq.
Qed.

(** The merge of two lists, which may share pointers: it succeeds when no session is said two
    different things, and then says the same. *)
Lemma runs_mergeNeighborsLists h first toMerge :
  valid h (first ++ toMerge) →
  runs (mergeNeighborsLists first toMerge) h (λ ps h',
    functional (sfact h (first ++ toMerge)) ∧ (∀ k v, sfact h' ps k v ↔ sfact h (first ++ toMerge) k v) ∧
    valid h' ps ∧ (∀ p, p ∈ ps → p ∈ first ++ toMerge) ∧ (∀ q, q ∉ first ++ toMerge → h' !! q = h !! q))
    (¬ functional (sfact h (first ++ toMerge))).
Proof.
  intros Hv. unfold mergeNeighborsLists. set (all := first ++ toMerge) in *.
  destruct (Nat.eqb_spec (length all) 0) as [H0|_].
  { apply nil_length_inv in H0. rewrite H0 in *. apply runs_ret. split_and!; [|done..].
    by intros k v1 v2 (p & _ & []%elem_of_nil & _). }
  apply runs_bind. eapply runs_mono; [apply (runs_foldMH (collecting h all))| |done].
  - by apply collecting_start.
  - intros dn p ml h1 Hp Hco. by apply runs_mergeNeighborsStep.
  - intros ml h' [Hfr Hgr Hmap Hdn]. apply runs_ret.
    assert (∀ p, p ∈ sortMap ml → ∃ n n', p ∈ all ∧ h !! p = Some n ∧ h' !! p = Some n' ∧ ID n' = ID n ∧ session_wf n' ∧
      ml !! ID n' = Some p ∧ ∀ k v, nfact n' k v → sfact h all (ID n, k) v) as Hps.
    { intros p [id Hid]%elem_of_sortMap. destruct (Hmap _ _ Hid) as (Hp & n' & Hn' & Hid').
      destruct (Hv p Hp) as (n & Hn & _). destruct (Hgr p n Hp Hn) as (n1 & Hn1 & ? & ? & _ & ?). simplify_eq.
      exists n, n'. by split_and!. }
    assert (∀ k v, sfact h' (sortMap ml) k v ↔ sfact h all k v) as Hs.
    { intros [id k] v. split.
      - intros (p & n & (n0 & n' & _ & _ & Hn' & Hid' & _ & _ & Hs)%Hps & Hn & Hid & Hk). cbn in *.
        simplify_eq. rewrite Hid'. by apply Hs.
      - intros (p & n & Hp & Hn & Hid & Hk). cbn in *. subst id. destruct (Hdn p n Hp Hn) as (d & n1 & Hd & Hn1 & Hf).
        destruct (Hmap _ _ Hd) as (_ & n1' & ? & ?). simplify_eq. exists d, n1. split_and!; [|done|done|by apply Hf].
        apply elem_of_sortMap. eauto. }
    split_and!; [|done|..|done].
    + eapply functional_sub; [intros k v; apply (Hs k v)|].
      intros [id k] v1 v2 (p & n & (_ & n' & _ & _ & Hn' & _ & Hwf & Hml & _)%Hps & Hn & Hid & H1)
        (q & m & (_ & m' & _ & _ & Hm' & _ & _ & Hml' & _)%Hps & Hm & Hidm & H2). cbn [fst snd] in *. simplify_eq.
      rewrite Hidm in Hml'. simplify_eq. by eapply nfact_functional.
    + intros p (_ & n' & _ & _ & Hn' & _ & Hwf & _)%Hps. eauto.
    + by intros p (_ & _ & Hp & _)%Hps.
Qed.

Lemma sfact_app h ps qs k v : sfact h (ps ++ qs) k v ↔ both (sfact h ps) (sfact h qs) k v.
Proof. unfold both, sfact. setoid_rewrite elem_of_app. naive_solver. Qed.

Lemma sfact_frame h h' ps k v : (∀ p, p ∈ ps → h' !! p = h !! p) → sfact h' ps k v ↔ sfact h ps k v.
Proof.
  intros Hfr. unfold sfact. split; intros (p & n & Hp & Hn & Hrest); exists p, n; specialize (Hfr p Hp);
    (split_and!; [done|congruence|apply Hrest..]).
Qed.

(** A list without sessions is one without facts: every session has an AS number. *)
Lemma sfact_nil h ps : valid h ps → ps = [] ↔ ∀ k v, ¬ sfact h ps k v.
Proof.
  intros Hv. split; [intros -> k v (p & n & []%elem_of_nil & _)|]. destruct ps as [|p ps]; [done|]. intros Hno.
  destruct (Hv p) as (n & Hn & _); [left|]. destruct (Hno (ID n, KASN) (VS (NC_ASN n))). exists p, n. split; [left|done].
Qed.

(** ** Routers *)

Inductive rkey :=
  | RAsn | RId | RPrefix4 (p : string) | RPrefix6 (p : string) | RImport (vrf : string)
  | RSession (id : string) (k : nkey) | REVPN (k : ekey).

(** What is said of a router, given what is said of its sessions. *)
Definition router_fact {A} (rc : RouterConfig A) (sessions : string * nkey → fval → Prop) (k : rkey) (v : fval) : Prop :=
  match k with
  | RAsn => v = VN (RC_MyASN rc)
  | RId => unless_empty (RC_RouterID rc) v
  | RPrefix4 p => element (p ∈ RC_IPV4Prefixes rc) v
  | RPrefix6 p => element (p ∈ RC_IPV6Prefixes rc) v
  | RImport vrf => element (vrf ∈ RC_ImportVRFs rc) v
  | RSession id k => sessions (id, k) v
  | REVPN k => efact (RC_EVPN rc) k v
  end.

Definition rfact (h : heap) (rc : RouterConfig loc) : rkey → fval → Prop := router_fact rc (sfact h (RC_Neighbors rc)).

Lemma router_fact_both {A} (a b : RouterConfig A) s1 s2 :
  functional (both (router_fact a s1) (router_fact b s2)) ↔
  RC_MyASN a = RC_MyASN b ∧ (RC_RouterID a = "" ∨ RC_RouterID b = "" ∨ RC_RouterID a = RC_RouterID b) ∧
  functional (both s1 s2) ∧ functional (both (efact (RC_EVPN a)) (efact (RC_EVPN b))).
Proof.
  unfold functional, both. split.
  - intros H. split_and!.
    + apply (same_value VN); [congruence|apply (H RAsn)].
    + apply unless_empty_both, (H RId).
    + intros [id k]. apply (H (RSession id k)).
    + intros k. apply (H (REVPN k)).
  - intros (Hasn & Hid & Hs & He) []; cbn; [rewrite Hasn; naive_solver|by apply unless_empty_both|apply element_both..|apply Hs|apply He].
Qed.

Definition router_ok (h : heap) (rc : RouterConfig loc) : Prop := valid h (RC_Neighbors rc) ∧ evpn_wf (RC_EVPN rc).

Lemma rfact_frame h h' rc :
  (∀ p, p ∈ RC_Neighbors rc → h' !! p = h !! p) → ∀ k v, rfact h' rc k v ↔ rfact h rc k v.
Proof. intros Hfr [] v; try done. by apply sfact_frame. Qed.

Lemma router_ok_frame h h' rc : (∀ p, p ∈ RC_Neighbors rc → h' !! p = h !! p) → router_ok h rc → router_ok h' rc.
Proof. intros Hfr [Hv He]. split; [|done]. intros p Hp. rewrite Hfr by done. by apply Hv. Qed.

(** Two routers of a VRF, or a router with itself: they merge when they do not contradict each other. *)
Lemma runs_mergeRouterConfigs h a b :
  RC_VRF a = RC_VRF b → valid h (RC_Neighbors a ++ RC_Neighbors b) →
  (evpn_wf (RC_EVPN a) ∧ evpn_wf (RC_EVPN b)) ∨ RC_EVPN a = RC_EVPN b →
  runs (mergeRouterConfigs a b) h (λ c h',
    functional (both (rfact h a) (rfact h b)) ∧ (∀ k v, rfact h' c k v ↔ both (rfact h a) (rfact h b) k v) ∧
    RC_VRF c = RC_VRF a ∧ router_ok h' c ∧
    (∀ p, p ∈ RC_Neighbors c → p ∈ RC_Neighbors a ++ RC_Neighbors b) ∧
    (∀ q, q ∉ RC_Neighbors a ++ RC_Neighbors b → h' !! q = h !! q))
    (¬ functional (both (rfact h a) (rfact h b))).
Proof.
  intros Hvrf Hv He. unfold mergeRouterConfigs.
  assert (functional (both (sfact h (RC_Neighbors a)) (sfact h (RC_Neighbors b))) ↔
    functional (sfact h (RC_Neighbors a ++ RC_Neighbors b))) as Hs.
  { split; apply functional_sub; intros k v; by rewrite sfact_app. }
  pose proof (router_fact_both a b (sfact h (RC_Neighbors a)) (sfact h (RC_Neighbors b))) as HF.
  rewrite Hs in HF. clear Hs. pose proof (evpn_both _ _ He) as Hb.
  apply runs_bind, runs_lift.
  2:{ rewrite HF. intros Hno (Hasn & Hid & _). apply Hno. exists (). by apply routersAreCompatible_Ok. }
  intros _ (_ & Hasn & Hid)%routersAreCompatible_Ok.
  apply runs_bind. eapply runs_mono; [by apply runs_mergeNeighborsLists| |rewrite HF; tauto].
  intros ps h' (Hf & Hfacts & Hv' & Hsub & Hfr). apply runs_bind, runs_lift.
  2:{ rewrite HF. intros Hno (_ & _ & _ & Hef). destruct (mergeEVPNConfigs _ _) as [c|e]; [|done]. apply Hno. by eexists. }
  intros c Hc%wrap_Ok. rewrite Hc in Hb. destruct Hb as (Hef & Hwf & Hefacts). apply runs_ret.
  split_and!; [by apply HF| |done..]. intros k v. unfold both. destruct k; cbn.
  - rewrite Hasn. naive_solver.
  - by apply unless_empty_merged.
  - rewrite <-element_or. unfold element. by rewrite elem_of_merged.
  - rewrite <-element_or. unfold element. by rewrite elem_of_merged.
  - rewrite <-element_or. unfold element. by rewrite elem_of_merged.
  - rewrite Hfacts. apply sfact_app.
  - apply Hefacts.
Qed.

(** ** The routers of all VRFs *)

(** What is said of every VRF; [R] is said of [vrf] besides. *)
Definition saying (S : string → rkey → fval → Prop) (vrf : string) (R : rkey → fval → Prop) (vrf' : string) (k : rkey)
    (v : fval) : Prop := S vrf' k v ∨ (vrf' = vrf ∧ R k v).

(** The routers built so far have the facts [S], and share no session. *)
Record routers_said (h : heap) (m : gmap string (RouterConfig loc)) (S : string → rkey → fval → Prop) : Prop := {
  rs_none vrf : m !! vrf = None → ∀ k v, ¬ S vrf k v;
  rs_some vrf rc : m !! vrf = Some rc →
    RC_VRF rc = vrf ∧ router_ok h rc ∧ functional (S vrf) ∧ ∀ k v, rfact h rc k v ↔ S vrf k v;
  rs_apart vrf1 vrf2 rc1 rc2 p : m !! vrf1 = Some rc1 → m !! vrf2 = Some rc2 →
    p ∈ RC_Neighbors rc1 → p ∈ RC_Neighbors rc2 → vrf1 = vrf2 }.

Lemma routers_said_ext h m S S' :
  (∀ vrf k v, S vrf k v ↔ S' vrf k v) → routers_said h m S → routers_said h m S'.
Proof.
  intros Hext [Hn Hs Ha]. split; [|intros vrf rc Hrc|done].
  - intros vrf Hm k v Hk%Hext. by eapply Hn.
  - destruct (Hs vrf rc Hrc) as (? & ? & Hf & Hr). split_and!; [done..| |].
    + eapply functional_sub; [|exact Hf]. intros k v. by apply Hext.
    + intros k v. by rewrite Hr.
Qed.

(** Objects elsewhere do not matter. *)
Lemma routers_said_frame h h' m S :
  (∀ p, is_Some (h !! p) → h' !! p = h !! p) → routers_said h m S → routers_said h' m S.
Proof.
  intros Hfr [Hn Hs Ha]. split; [done| |done]. intros vrf rc Hrc. destruct (Hs vrf rc Hrc) as (? & Ho & ? & Hr).
  assert (∀ p, p ∈ RC_Neighbors rc → h' !! p = h !! p) as Hp.
  { intros p Hp. apply Hfr. destruct Ho as [Hv _]. destruct (Hv p Hp) as (n & Hn' & _). eauto. }
  split_and!; [done|by eapply router_ok_frame|done|]. intros k v. rewrite <-Hr. by apply rfact_frame.
Qed.

Lemma routers_said_insert h h' m S vrf rc R :
  routers_said h m S →
  (∀ vrf' rc' p, vrf' ≠ vrf → m !! vrf' = Some rc' → p ∈ RC_Neighbors rc' → h' !! p = h !! p ∧ p ∉ RC_Neighbors rc) →
  RC_VRF rc = vrf → router_ok h' rc → functional (saying S vrf R vrf) →
  (∀ k v, rfact h' rc k v ↔ saying S vrf R vrf k v) →
  routers_said h' (<[vrf := rc]> m) (saying S vrf R).
Proof.
  intros [Hn Hs Ha] Hfr Hvrf Hok Hf Hr. split.
  - intros vrf' [Hm Hne]%lookup_insert_None k v [Hk|[-> _]]; [by eapply Hn|done].
  - intros vrf' rc' [[<- <-]|[Hne Hm]]%lookup_insert_Some; [done|]. destruct (Hs vrf' rc' Hm) as (? & Ho & Hf' & Hr').
    assert (∀ k v, saying S vrf R vrf' k v ↔ S vrf' k v) as HS by (unfold saying; naive_solver).
    split_and!; [done|..].
    + eapply router_ok_frame; [|exact Ho]. intros p Hp. by eapply Hfr.
    + eapply functional_sub; [|exact Hf']. intros k v. apply HS.
    + intros k v. rewrite HS, <-Hr'. apply rfact_frame. intros p Hp. by eapply Hfr.
  - intros vrf1 vrf2 rc1 rc2 p [[<- <-]|[Hne1 H1]]%lookup_insert_Some [[<- <-]|[Hne2 H2]]%lookup_insert_Some Hp1 Hp2.
    + done.
    + by destruct (Hfr vrf2 rc2 p ltac:(done) H2 Hp2).
    + by destruct (Hfr vrf1 rc1 p ltac:(done) H1 Hp1).
    + by eapply Ha.
Qed.

(** The end of the loop over the routers: a new router joins those of its VRF. *)
Definition addRouter (m : gmap string (RouterConfig loc)) (vrf : string) (rc : RouterConfig loc)
    : M (gmap string (RouterConfig loc)) :=
  rc ← validateRouterConfig rc;
  match m !! vrf with
  | None => mret (<[vrf := rc]> m)
  | Some curr => curr ← mergeRouterConfigs curr rc; mret (<[vrf := curr]> m)
  end.

Lemma runs_addRouter h m S rc :
  routers_said h m S → valid h (RC_Neighbors rc) →
  (∀ vrf' rc' p, m !! vrf' = Some rc' → p ∈ RC_Neighbors rc' → p ∉ RC_Neighbors rc) →
  runs (addRouter m (RC_VRF rc) rc) h (λ m' h', routers_said h' m' (saying S (RC_VRF rc) (rfact h rc)))
    (¬ functional (saying S (RC_VRF rc) (rfact h rc) (RC_VRF rc))).
Proof.
  intros Hm Hv Hnew. unfold addRouter, validateRouterConfig.
  assert (∀ p, p ∈ RC_Neighbors rc ++ RC_Neighbors rc → p ∈ RC_Neighbors rc) as Hdup by (intros p; rewrite elem_of_app; tauto).
  apply runs_bind. eapply runs_mono; [apply runs_mergeRouterConfigs; [done| |by right]| |].
  { intros p Hp%Hdup. by apply Hv. }
  2:{ intros Hno Hf. apply Hno. eapply functional_sub; [|exact Hf]. unfold both, saying. naive_solver. }
  intros rc1 h1 (Hf1 & Hr1 & Hvrf1 & Hok1 & Hsub1 & Hfr1).
  assert (∀ k v, rfact h1 rc1 k v ↔ rfact h rc k v) as Hr1' by (intros k v; rewrite Hr1; unfold both; tauto).
  assert (∀ vrf' rc' p, m !! vrf' = Some rc' → p ∈ RC_Neighbors rc' → h1 !! p = h !! p) as Hkeep.
  { intros vrf' rc' p Hm' Hp. apply Hfr1. intros Hin%Hdup. by eapply Hnew. }
  destruct (m !! RC_VRF rc) as [curr|] eqn:Ec.
  - destruct (rs_some _ _ _ Hm _ _ Ec) as (Hcv & Hcok & Hcf & Hcr).
    assert (∀ k v, rfact h1 curr k v ↔ S (RC_VRF rc) k v) as Hcr'.
    { intros k v. rewrite <-Hcr. apply rfact_frame. intros p Hp. by eapply Hkeep. }
    assert (∀ k v, both (rfact h1 curr) (rfact h1 rc1) k v ↔ saying S (RC_VRF rc) (rfact h rc) (RC_VRF rc) k v) as Hb.
    { intros k v. unfold both, saying. rewrite Hcr', Hr1'. naive_solver. }
    apply (router_ok_frame h h1) in Hcok as [Hcv1 Hce]; [|intros p Hp; by eapply Hkeep]. destruct Hok1 as [Hv1 He1].
    apply runs_bind. eapply runs_mono; [apply runs_mergeRouterConfigs; [congruence| |by left]| |].
    { intros p [Hp|Hp]%elem_of_app; [by apply Hcv1|by apply Hv1]. }
    2:{ intros Hno Hf. apply Hno. eapply functional_sub; [|exact Hf]. intros k v. apply Hb. }
    intros rc2 h2 (Hf2 & Hr2 & Hvrf2 & Hok2 & Hsub2 & Hfr2). apply runs_ret.
    eapply routers_said_insert; [done| |congruence|done| |].
    + intros vrf' rc' p Hne Hm' Hp.
      assert (p ∉ RC_Neighbors curr ++ RC_Neighbors rc1) as Hout.
      { intros [Hin|Hin%Hsub1%Hdup]%elem_of_app; [|by eapply Hnew]. apply Hne. by eapply (rs_apart _ _ _ Hm). }
      split; [rewrite Hfr2 by done; by eapply Hkeep|]. intros Hin%Hsub2. done.
    + eapply functional_sub; [|exact Hf2]. intros k v. apply Hb.
    + intros k v. by rewrite Hr2, Hb.
  - assert (∀ k v, saying S (RC_VRF rc) (rfact h rc) (RC_VRF rc) k v ↔ rfact h rc k v) as HS.
    { intros k v. unfold saying. pose proof (rs_none _ _ _ Hm _ Ec k v). naive_solver. }
    apply runs_ret. eapply routers_said_insert; [done| |done|done| |].
    + intros vrf' rc' p Hne Hm' Hp. split; [by eapply Hkeep|]. intros Hin%Hsub1%Hdup. by eapply Hnew.
    + eapply functional_sub; [|exact Hf1]. intros k v Hk%HS. by left.
    + intros k v. by rewrite HS, Hr1'.
Qed.
