(* ===== verification/Convertible.v ===== *)
(** * Which resources can be converted

    The facts of [Conflicts.v] followed through the whole conversion: [apiToFRR] succeeds exactly when every
    resource is valid on its own, the facts of all of them contradict each other nowhere, and the EVPN
    configuration they add up to is valid.  The condition speaks of the set of the resources only, so neither
    their order nor a repetition matters. *)

From Stdlib Require Import Lia.
From S2P Require Import Prelude GoStrings GoNet IPFamily Community Api FrrConfig Errors Merge.
From S2P Require Import ApiToConfig Samples MergeFacts MergeProps HeapLogic ConvertFacts EVPNFacts.
From S2P Require Import ApiHeap ApiResult Advertised ApiProps Conflicts HeapConflicts.

(** ** What one resource says *)

Section resource.
Context (ab : list IPNet) (secrets : gmap string Secret) (cfg : FRRConfiguration).
Notation api_routers := (BGP_Routers (Spec_BGP (Cfg_Spec cfg))).
Notation api_profiles := (BGP_BFDProfiles (Spec_BGP (Cfg_Spec cfg))).
Notation per_vrf := (prefixesForVRFs api_routers).

Definition own_profiles : gmap string FrrBFDProfile := index_by FBFD_Name (bfdProfileToFRR <$> api_profiles).

(** The session a neighbor of a router becomes. *)
Definition converts_to (r : Router) (n : Neighbor) (nc : NeighborConfig) : Prop :=
  ∃ imported, importedPrefixes r per_vrf = Ok imported ∧
    neighborToFRR n (Router_Prefixes r ++ imported) (alwaysBlockToFRR ab) (Router_VRF r) secrets own_profiles = Ok nc.

(** The checks of one router that do not look at the others. *)
Definition router_valid (r : Router) : Prop :=
  validatePrefixes (Router_Prefixes r) = Ok () ∧ validateImportVRFs r per_vrf = Ok () ∧
  (∃ imported, importedPrefixes r per_vrf = Ok imported ∧
     validateOutgoingPrefixes (Router_Prefixes r ++ imported) r = Ok ()) ∧
  ∀ n, n ∈ Router_Neighbors r →
    (Neighbor_LocalASN n = 0%N ∨ Neighbor_ASN n = 0%N ∨ Neighbor_ASN n ≠ Router_ASN r) ∧ ∃ nc, converts_to r n nc.

Definition resource_valid : Prop :=
  NoDup (BFDProfile_Name <$> api_profiles) ∧ ∀ r, r ∈ api_routers → router_valid r.

Definition session_facts (r : Router) (ns : list Neighbor) (k : string * nkey) (v : fval) : Prop :=
  ∃ n nc, n ∈ ns ∧ converts_to r n nc ∧ ID nc = k.1 ∧ nfact nc k.2 v.

(** The router it becomes, without its sessions. *)
Definition own_router (r : Router) : RouterConfig NeighborConfig :=
  mkRouterConfig (Router_ASN r) (Router_ID r) [] (Router_VRF r) (FilterPrefixes (Router_Prefixes r) IPv4)
    (FilterPrefixes (Router_Prefixes r) IPv6) (Import_VRF <$> Router_Imports r) (evpnToFRR (Router_EVPN r)).

Definition says (r : Router) : rkey → fval → Prop :=
  router_fact (own_router r) (session_facts r (Router_Neighbors r)).

(** ** One router *)

Lemma converts_to_unique r n nc nc' : converts_to r n nc → converts_to r n nc' → nc = nc'.
Proof using Type.
  intros (i & Hi & Hn) (i' & Hi' & Hn'). assert (i' = i) as -> by congruence. congruence.
Qed.

Lemma runs_routerToFRRConfig h r imported :
  importedPrefixes r per_vrf = Ok imported → validateOutgoingPrefixes (Router_Prefixes r ++ imported) r = Ok () →
  runs (routerToFRRConfig r (alwaysBlockToFRR ab) secrets own_profiles (Router_Prefixes r ++ imported)) h (λ rc h',
    (∀ n, n ∈ Router_Neighbors r →
       (Neighbor_LocalASN n = 0%N ∨ Neighbor_ASN n = 0%N ∨ Neighbor_ASN n ≠ Router_ASN r) ∧ ∃ nc, converts_to r n nc) ∧
    RC_VRF rc = Router_VRF r ∧ valid h' (RC_Neighbors rc) ∧ (∀ p, p ∈ RC_Neighbors rc → h !! p = None) ∧
    (∀ p, is_Some (h !! p) → h' !! p = h !! p) ∧ ∀ k v, rfact h' rc k v ↔ says r k v)
    (¬ router_valid r).
Proof using Type.
  intros Himp Hout. unfold routerToFRRConfig.
  assert (∀ n nc, n ∈ Router_Neighbors r → converts_to r n nc → session_wf nc) as Hwf.
  { intros n nc Hn (imported' & Himp' & Hnc).
    assert (imported' = imported) as -> by congruence. unfold validateOutgoingPrefixes in Hout.
    rewrite each_Ok, Forall_forall in Hout. specialize (Hout n Hn). apply validateOutgoingForNeighbor_Ok in Hout.
    eapply (sf_wf (λ _, True)), (out_safe_converted _ n (Router_Prefixes r ++ imported)); [exact Hout|done|exact Hnc]. }
  apply runs_bind. eapply runs_mono; [apply (runs_foldMH (λ dn ps h1,
    (∀ n, n ∈ dn →
       (Neighbor_LocalASN n = 0%N ∨ Neighbor_ASN n = 0%N ∨ Neighbor_ASN n ≠ Router_ASN r) ∧ ∃ nc, converts_to r n nc) ∧
    valid h1 ps ∧ (∀ p, p ∈ ps → h !! p = None) ∧ (∀ p, is_Some (h !! p) → h1 !! p = h !! p) ∧
    ∀ k v, sfact h1 ps k v ↔ session_facts r dn k v) (¬ router_valid r))| |done].
  - split_and!; [by intros n []%elem_of_nil|by intros p []%elem_of_nil|by intros p []%elem_of_nil|done|].
    intros k v. split; [intros (p & _ & []%elem_of_nil & _)|intros (n & _ & []%elem_of_nil & _)].
  - intros dn n ps h1 Hn (Hacc & Hv & Hfresh & Hkeep & Hfacts). apply runs_bind, runs_lift.
    2:{ intros Hno (_ & _ & _ & Hall). destruct (Hall n Hn) as [Hasn _]. apply Hno. exists ().
        rewrite fail_if_Ok, !andb_false_iff, !negb_false_iff, !N.eqb_eq, N.eqb_neq. tauto. }
    intros u. rewrite fail_if_Ok, !andb_false_iff, !negb_false_iff, !N.eqb_eq, N.eqb_neq. intros Hasn.
    apply runs_bind, runs_lift.
    2:{ intros Hno (_ & _ & _ & Hall). destruct (Hall n Hn) as [_ (nc & imported' & ? & Hnc)].
        assert (imported' = imported) as -> by congruence. apply Hno. exists nc. by rewrite Hnc. }
    intros nc Hnc%wrap_Ok. apply runs_bind, runs_alloc. intros p Hp. apply runs_ret.
    assert (converts_to r n nc) as Hc by (by exists imported).
    assert (∀ q, q ∈ ps → h1 !! q ≠ None) as Hps by (intros q Hq; destruct (Hv q Hq) as (m & -> & _); done).
    assert (∀ q, q ∈ ps → q ≠ p) as Hneq by (intros q Hq ->; by apply (Hps p)). split_and!.
    + intros m [Hm|Hm%list_elem_of_singleton]%elem_of_app; [by apply Hacc|subst m]. split; [tauto|eauto].
    + intros q [Hq|Hq%list_elem_of_singleton]%elem_of_app.
      * rewrite lookup_insert_ne by (symmetry; by apply Hneq). by apply Hv.
      * subst q. exists nc. rewrite lookup_insert_eq. split; [done|by eapply Hwf].
    + intros q [Hq|Hq%list_elem_of_singleton]%elem_of_app; [by apply Hfresh|subst q].
      destruct (h !! p) eqn:E; [|done]. rewrite Hkeep in Hp by eauto. congruence.
    + intros q Hq. rewrite <-(Hkeep q Hq). apply lookup_insert_ne. intros <-. rewrite Hkeep in Hp by done.
      rewrite Hp in Hq. by destruct Hq.
    + intros k v. rewrite sfact_app. unfold both. rewrite (sfact_frame h1), Hfacts.
      2:{ intros q Hq. rewrite lookup_insert_ne; [done|]. symmetry. by apply Hneq. }
      unfold session_facts. setoid_rewrite elem_of_app. setoid_rewrite list_elem_of_singleton. split.
      * intros [(m & mc & ? & ?)|(q & mc & ->%list_elem_of_singleton & Hmc & Hk)]; [exists m, mc; by split; [left|]|].
        rewrite lookup_insert_eq in Hmc. injection Hmc as <-. exists n, nc. by split; [right|split].
      * intros (m & mc & [Hm| ->] & Hmc & Hk); [left; by exists m, mc|right]. exists p, nc.
        rewrite lookup_insert_eq. split_and!; [by apply list_elem_of_singleton|done|..];
          rewrite (converts_to_unique r n nc mc) by done; apply Hk.
  - intros ps h' (Hacc & Hv & Hfresh & Hkeep & Hfacts). apply runs_ret. split_and!; [done..|].
    intros [] v; try done. apply Hfacts.
Qed.

Lemma runs_routerStep h m S r :
  routers_said h m S →
  runs (routerStep (alwaysBlockToFRR ab) secrets own_profiles per_vrf m r) h
    (λ m' h', router_valid r ∧ routers_said h' m' (saying S (Router_VRF r) (says r)))
    (¬ (router_valid r ∧ functional (saying S (Router_VRF r) (says r) (Router_VRF r)))).
Proof using Type.
  intros Hm. unfold routerStep.
  apply runs_bind, runs_lift; [intros [] Hp|intros Hno [(Hp & _) _]; apply Hno; by eexists].
  apply runs_bind, runs_lift; [intros [] Hi|intros Hno [(_ & Hi & _) _]; apply Hno; by eexists].
  apply runs_bind, runs_lift; [intros imported Himp|intros Hno [(_ & _ & (imported & Himp & _) & _) _]; apply Hno; by eexists].
  apply runs_bind, runs_lift.
  2:{ intros Hno [(_ & _ & (imported' & Himp' & Hout) & _) _]. apply Hno. exists (). congruence. }
  intros [] Hout. apply runs_bind. eapply runs_mono; [by apply runs_routerToFRRConfig| |tauto].
  intros rc h1 (Hacc & Hvrf & Hv & Hfresh & Hkeep & Hfacts).
  assert (router_valid r) as Hr by (split_and!; eauto).
  assert (∀ vrf k v, saying S (RC_VRF rc) (rfact h1 rc) vrf k v ↔ saying S (Router_VRF r) (says r) vrf k v) as HS.
  { intros vrf k v. unfold saying. by rewrite Hvrf, Hfacts. }
  pose proof (runs_addRouter h1 m S rc) as Hadd. rewrite Hvrf in Hadd, HS. eapply runs_mono; [apply Hadd| |].
  - by eapply routers_said_frame.
  - done.
  - intros vrf' rc' p Hm' Hp' Hin. destruct (rs_some _ _ _ Hm _ _ Hm') as (_ & [Hv' _] & _).
    destruct (Hv' p Hp') as (n & Hn & _). rewrite Hfresh in Hn by done. done.
  - intros m' h' Hm'. split; [done|]. by eapply routers_said_ext.
  - intros Hno [_ Hf]. apply Hno. eapply functional_sub; [|exact Hf]. intros k v. apply HS.
Qed.
End resource.

(** ** BFD profiles *)

(** Profiles of the same name are the same. *)
Definition agree (bs : list BFDProfile) : Prop :=
  ∀ b b', b ∈ bs → b' ∈ bs → BFDProfile_Name b = BFDProfile_Name b' → bfdProfileToFRR b = bfdProfileToFRR b'.

Lemma profiles_at_agree bs m : profiles_at bs m → agree bs.
Proof.
  intros Hm b b' Hb Hb' Hn. assert (m !! BFDProfile_Name b = Some (bfdProfileToFRR b)) as H1 by (apply Hm; eauto).
  assert (m !! BFDProfile_Name b = Some (bfdProfileToFRR b')) as H2 by (apply Hm; eauto). congruence.
Qed.

Lemma profiles_at_name bs m name : profiles_at bs m → is_Some (m !! name) ↔ name ∈ BFDProfile_Name <$> bs.
Proof.
  intros Hm. rewrite list_elem_of_fmap. split.
  - intros [p (b & ? & _ & <-)%Hm]. eauto.
  - intros (b & -> & Hb). exists (bfdProfileToFRR b). apply Hm. eauto.
Qed.

Lemma bfdProfiles_decides name bs seen all :
  profiles_at seen all →
  match foldM (bfdProfilesStep name) (∅, all) bs with
  | Ok (own, all') => NoDup (BFDProfile_Name <$> bs) ∧ profiles_at bs own ∧ profiles_at (seen ++ bs) all'
  | Err _ => ¬ (NoDup (BFDProfile_Name <$> bs) ∧ agree (seen ++ bs))
  end.
Proof.
  intros Ha.
  assert (∀ dn own all, profiles_at dn own → profiles_at (seen ++ dn) all → NoDup (BFDProfile_Name <$> dn) →
    match foldM (bfdProfilesStep name) (own, all) bs with
    | Ok (own', all') => NoDup (BFDProfile_Name <$> dn ++ bs) ∧ profiles_at (dn ++ bs) own' ∧ profiles_at (seen ++ dn ++ bs) all'
    | Err _ => ¬ (NoDup (BFDProfile_Name <$> dn ++ bs) ∧ agree (seen ++ dn ++ bs))
    end) as Hgen.
  { clear all Ha. induction bs as [|b bs IH]; intros dn own all Ho Ha Hnd; cbn [foldM].
    { by rewrite app_nil_r. }
    destruct (bfdProfilesStep name (own, all) b) as [[own1 all1]|e] eqn:E; cbn [mbind result_bind].
    - destruct (bfdProfilesStep_Ok _ _ _ _ _ _ _ _ Ho Ha E) as [Ho1 Ha1]. rewrite <-(assoc_L (++)) in Ha1.
      assert (NoDup (BFDProfile_Name <$> dn ++ [b])) as Hnd1.
      { rewrite fmap_app. apply NoDup_app. split_and!; [done| |apply NoDup_singleton].
        intros x Hx ->%list_elem_of_singleton. unfold bfdProfilesStep in E. cbn in E. apply guard_Ok in E as [E _].
        rewrite bool_decide_eq_false in E. apply E. by apply (profiles_at_name dn). }
      specialize (IH (dn ++ [b]) own1 all1 Ho1 Ha1 Hnd1). by rewrite <-(assoc_L (++)) in IH.
    - intros [Hnd' Hag]. unfold bfdProfilesStep in E. cbn in E.
      rewrite bool_decide_eq_false_2 in E.
      2:{ intros Hin%(profiles_at_name dn); [|done]. rewrite fmap_app in Hnd'. apply NoDup_app in Hnd' as (_ & Hdis & _).
          apply (Hdis _ Hin). left. }
      cbn in E. destruct (all !! BFDProfile_Name b) as [old|] eqn:Eold; [|done].
      apply Ha in Eold as (b' & Hb' & <- & Hn). rewrite bool_decide_eq_true_2 in E; [done|].
      apply Hag; [|set_solver|done]. rewrite elem_of_app in Hb'. set_solver. }
  apply (Hgen [] ∅ all); [|by rewrite app_nil_r|constructor].
  intros n p. rewrite lookup_empty. split; [done|]. by intros (b & []%elem_of_nil & _).
Qed.

Lemma own_profiles_unique cfg m :
  NoDup (BFDProfile_Name <$> BGP_BFDProfiles (Spec_BGP (Cfg_Spec cfg))) →
  profiles_at (BGP_BFDProfiles (Spec_BGP (Cfg_Spec cfg))) m → m = own_profiles cfg.
Proof.
  intros Hnd Hm. apply map_eq. intros name. apply option_eq. intros p. rewrite (Hm name p). unfold own_profiles.
  rewrite index_by_lookup.
  - rewrite list_elem_of_fmap. split; [intros (b & Hb & <- & <-); eauto|intros [(b & -> & Hb) <-]; by exists b].
  - intros x y (b & -> & Hb)%list_elem_of_fmap (b' & -> & Hb')%list_elem_of_fmap Hn. cbn in Hn.
    by rewrite (NoDup_key_inj BFDProfile_Name _ b b' Hnd).
Qed.

(** ** All resources *)

Section resources.
Context (ab : list IPNet) (secrets : gmap string Secret).
Implicit Types (cfgs : list FRRConfiguration).

(** What the resources say of a VRF together. *)
Definition said cfgs (vrf : string) (k : rkey) (v : fval) : Prop :=
  ∃ cfg r, cfg ∈ cfgs ∧ r ∈ BGP_Routers (Spec_BGP (Cfg_Spec cfg)) ∧ Router_VRF r = vrf ∧ says ab secrets cfg r k v.

(** EVPN that the sessions of the VRF have to carry, and a session that does. *)
Definition wants_evpn (R : rkey → fval → Prop) : Prop :=
  R (REVPN EAdvertise) (VS VNIAdvertisementAll) ∨ R (REVPN ESVI) (VB true) ∨ ∃ vni k v, R (REVPN (EL2 vni k)) v.
Definition carries_evpn (R : rkey → fval → Prop) : Prop := ∃ id, R (RSession id (KAddressFamily AddressFamilyEVPN)) (VB true).
Definition has_sessions (R : rkey → fval → Prop) : Prop := ∃ id k v, R (RSession id k) v.

(** A VNI is used by a VRF, as the VNI of layer 3 or as one of layer 2. *)
Definition uses (R : rkey → fval → Prop) (l3 : bool) (vni : N) : Prop :=
  if l3 then R (REVPN (EL3 L3Number)) (VN vni) else ∃ k v, R (REVPN (EL2 vni k)) v.

Record convertible cfgs : Prop := {
  cv_valid cfg : cfg ∈ cfgs → resource_valid ab secrets cfg;
  cv_profiles : agree (profiles_of cfgs);
  cv_facts vrf : functional (said cfgs vrf);
  cv_carried vrf : wants_evpn (said cfgs vrf) → carries_evpn (said cfgs vrf);
  cv_l3 vrf v : said cfgs vrf (REVPN (EL3 L3Number)) v → ¬ has_sessions (said cfgs vrf);
  cv_vnis vrf l3 vrf' l3' vni : uses (said cfgs vrf) l3 vni → uses (said cfgs vrf') l3' vni → vrf = vrf' ∧ l3 = l3' }.

(** The condition depends on the set of the resources only. *)
Lemma convertible_sub cfgs cfgs' :
  (∀ cfg, cfg ∈ cfgs ↔ cfg ∈ cfgs') → convertible cfgs → convertible cfgs'.
Proof using Type.
  intros Hs [H1 H2 H3 H4 H5 H6].
  assert (∀ vrf k v, said cfgs' vrf k v ↔ said cfgs vrf k v) as Hsaid by (intros; unfold said; by setoid_rewrite Hs).
  split.
  - intros cfg Hcfg%Hs. by apply H1.
  - intros b b' Hb Hb'. apply H2; unfold profiles_of in *; rewrite list_elem_of_bind in *; setoid_rewrite Hs; done.
  - intros vrf. eapply functional_sub; [|apply (H3 vrf)]. intros k v. apply Hsaid.
  - intros vrf. unfold wants_evpn, carries_evpn. setoid_rewrite Hsaid. apply H4.
  - intros vrf v. unfold has_sessions. setoid_rewrite Hsaid. apply H5.
  - intros vrf l3 vrf' l3' vni. specialize (H6 vrf l3 vrf' l3' vni). unfold uses in *.
    destruct l3, l3'; setoid_rewrite Hsaid; exact H6.
Qed.

(** After the resources [cfgs]. *)
Record converting (h : heap) cfgs (st : convState) : Prop := {
  cg_valid cfg : cfg ∈ cfgs → resource_valid ab secrets cfg;
  cg_routers : routers_said h (CS_routersForVRF st) (said cfgs);
  cg_profiles : profiles_at (profiles_of cfgs) (CS_bfdProfilesAllConfigs st) }.

Lemma runs_configStep h all cfgs cfg st :
  (∀ c, c ∈ cfgs ++ [cfg] → c ∈ all) → converting h cfgs st →
  runs (configStep secrets ab st cfg) h (λ st' h', converting h' (cfgs ++ [cfg]) st') (¬ convertible all).
Proof using Type.
  intros Hall [Hval Hr Hp]. unfold configStep.
  set (bs := BGP_BFDProfiles (Spec_BGP (Cfg_Spec cfg))). set (rs := BGP_Routers (Spec_BGP (Cfg_Spec cfg))).
  pose proof (bfdProfiles_decides (Cfg_Name cfg) bs _ _ Hp) as Hb.
  apply runs_bind, runs_lift.
  2:{ intros Hno [Hv Hag _ _ _ _]. destruct (foldM _ _ _) as [st'|e]; [by apply Hno; eexists|]. apply Hb.
      split; [apply (Hv cfg), Hall; set_solver|]. intros b b' Hb1 Hb2. apply Hag.
      - apply list_elem_of_bind. unfold profiles_of in Hb1. rewrite elem_of_app, list_elem_of_bind in Hb1.
        destruct Hb1 as [(c & ? & ?)|?]; [exists c|exists cfg]; set_solver.
      - apply list_elem_of_bind. unfold profiles_of in Hb2. rewrite elem_of_app, list_elem_of_bind in Hb2.
        destruct Hb2 as [(c & ? & ?)|?]; [exists c|exists cfg]; set_solver. }
  intros [own all'] E. rewrite E in Hb. destruct Hb as (Hnd & Hown & Hall').
  apply own_profiles_unique in Hown as ->; [|done].
  apply runs_bind. eapply runs_mono; [apply (runs_foldMH (λ dn m h1, (∀ r, r ∈ dn → r ∈ rs ∧ router_valid ab secrets cfg r) ∧
    routers_said h1 m (λ vrf k v, said cfgs vrf k v ∨
      ∃ r, r ∈ dn ∧ Router_VRF r = vrf ∧ says ab secrets cfg r k v)) (¬ convertible all))| |done].
  - split; [by intros r []%elem_of_nil|]. eapply routers_said_ext; [|exact Hr]. intros vrf k v. split; [by left|].
    intros [?|(r & []%elem_of_nil & _)]; done.
  - intros dn r m h1 Hin [Hdn Hm]. eapply runs_mono; [by apply runs_routerStep| |].
    + intros m' h' [Hrv Hm']. split.
      * intros r' [Hr'|Hr'%list_elem_of_singleton]%elem_of_app; [by apply Hdn|by subst r'].
      * eapply routers_said_ext; [|exact Hm']. intros vrf k v. unfold saying. setoid_rewrite elem_of_app.
        setoid_rewrite list_elem_of_singleton. split.
        -- intros [[?|(r' & ? & ?)]|[-> ?]]; [by left|right; exists r'; tauto|right; exists r; tauto].
        -- intros [?|(r' & [?| ->] & <- & ?)]; [by left; left|left; right; by exists r'|by right].
    + intros Hno [Hv _ Hf _ _ _]. apply Hno. split; [by apply (Hv cfg); [apply Hall; set_solver|]|].
      eapply functional_sub; [|apply (Hf (Router_VRF r))]. intros k v.
      intros [[(c & r' & ? & ?)|(r' & Hr' & ?)]|[_ ?]].
      * exists c, r'. split; [apply Hall; set_solver|done].
      * exists cfg, r'. split; [apply Hall; set_solver|]. split; [by apply Hdn|done].
      * exists cfg, r. split; [apply Hall; set_solver|done].
  - intros m h' [Hdn Hm]. apply runs_ret. split; cbn.
    + intros c [Hc|Hc%list_elem_of_singleton]%elem_of_app; [by apply Hval|subst c]. split; [done|]. intros r Hin. by apply Hdn.
    + eapply routers_said_ext; [|exact Hm]. intros vrf k v. unfold said. setoid_rewrite elem_of_app.
      setoid_rewrite list_elem_of_singleton. split.
      * intros [(c & r & ? & ?)|(r & ? & ?)]; [exists c, r; tauto|exists cfg, r; tauto].
      * intros (c & r & [?| ->] & ? & ?); [left; by exists c, r|right; by exists r].
    + unfold profiles_of. rewrite bind_app, bind_singleton. done.
Qed.

(** ** EVPN *)

Lemma l2fact_nonempty l vni : (∃ k v, l2fact l (vni, k) v) ↔ vni ∈ FL2_VNI <$> l.
Proof using Type.
  rewrite list_elem_of_fmap. split.
  - intros (k & v & x & Hx & Hv & _). by exists x.
  - intros (x & -> & Hx). exists PImport, (VB (bool_decide (FVP_ImportRTs (FL2_Properties x) = []))), x. done.
Qed.

#[local] Instance VS_inj : Inj (=) (=) VS.
Proof using Type. intros a b H. by injection H. Qed.
#[local] Instance VB_inj : Inj (=) (=) VB.
Proof using Type. intros a b H. by injection H. Qed.

Section router.
Context (h : heap) (rc : RouterConfig loc) (rc' : RouterConfig NeighborConfig) (R : rkey → fval → Prop).
Hypothesis Hok : router_ok h rc.
Hypothesis Hseen : seen_in h rc rc'.
Hypothesis HR : ∀ k v, rfact h rc k v ↔ R k v.

Lemma wants_evpn_iff : wants_evpn R ↔ ∃ evpn, RC_EVPN rc' = Some evpn ∧ evpnNeedsNeighbor evpn = true.
Proof using HR Hseen.
  destruct Hseen as (ns & _ & ->). unfold wants_evpn. setoid_rewrite <-HR. cbn.
  unfold efact, evpnNeedsNeighbor. destruct (RC_EVPN rc) as [e|].
  2:{ split; [|by intros (c & ? & _)]. intros [(c & ? & _)|[(c & ? & _)|(vni & k & v & c & ? & _)]]; done. }
  trans (VNIAdvertisementAll = default VNIAdvertisementDisabled (FE_AdvertiseVNIs e) ∨ FE_AdvertiseSVI e = true ∨
    ∃ vni, vni ∈ FL2_VNI <$> FE_L2VNIs e).
  { setoid_rewrite <-l2fact_nonempty. split.
    - intros [(c & [= <-] & H)|[(c & [= <-] & H)|(vni & k & v & c & [= <-] & H)]].
      + left. by apply (inj VS).
      + right; left. symmetry. by apply (inj VB).
      + right; right. by exists vni, k, v.
    - intros [H|[H|(vni & k & v & H)]]; [left; exists e; by rewrite <-H|right; left; exists e; by rewrite H|].
      right; right. by exists vni, k, v, e. }
  trans (evpnNeedsNeighbor e = true); [|naive_solver].
  unfold evpnNeedsNeighbor. rewrite !orb_true_iff, bool_decide_eq_true, Nat.ltb_lt.
  assert ((∃ vni, vni ∈ FL2_VNI <$> FE_L2VNIs e) ↔ (0 < length (FE_L2VNIs e))%nat) as ->.
  { destruct (FE_L2VNIs e) as [|x l]; cbn; [split; [by intros (? & []%elem_of_nil)|lia]|]. split; [lia|]. intros _.
    exists (FL2_VNI x). left. }
  destruct (FE_AdvertiseVNIs e) as [a|]; cbn; [naive_solver|]. split; naive_solver.
Qed.

Lemma carries_evpn_iff : carries_evpn R ↔ ∃ n, n ∈ RC_Neighbors rc' ∧ AddressFamilyEVPN ∈ NC_AddressFamilies n.
Proof using HR Hseen.
  destruct Hseen as (ns & Hns & ->). unfold carries_evpn. setoid_rewrite <-HR. cbn. unfold sfact. cbn. split.
  - intros (id & p & n & Hp & Hn & _ & Hf & _). apply list_elem_of_lookup in Hp as [i Hi].
    destruct (Forall2_lookup_l _ _ _ _ _ Hns Hi) as (n' & Hn' & ?). simplify_eq. exists n.
    split; [by eapply list_elem_of_lookup_2|done].
  - intros (n & [i Hi]%list_elem_of_lookup & Hf). destruct (Forall2_lookup_r _ _ _ _ _ Hns Hi) as (p & Hp & Hn).
    exists (ID n), p, n. split_and!; [by eapply list_elem_of_lookup_2|done..].
Qed.

Lemma has_sessions_iff : has_sessions R ↔ RC_Neighbors rc' ≠ [].
Proof using HR Hseen.
  destruct Hseen as (ns & Hns & ->). unfold has_sessions. setoid_rewrite <-HR. cbn. unfold sfact. cbn. split.
  - intros (id & k & v & p & n & Hp & _) ->. apply Forall2_nil_inv_r in Hns. rewrite Hns in Hp. by apply elem_of_nil in Hp.
  - destruct Hns as [|p n ps ns Hn _]; [done|]. intros _. exists (ID n), KASN, (VS (NC_ASN n)), p, n. split; [left|done].
Qed.

Lemma l3_said : (∃ v, R (REVPN (EL3 L3Number)) v) ↔ ∃ evpn, RC_EVPN rc' = Some evpn ∧ is_Some (FE_L3VNI evpn).
Proof using HR Hseen.
  destruct Hseen as (ns & _ & ->). setoid_rewrite <-HR. cbn. unfold efact, l3fact, is_Some. naive_solver.
Qed.

(** The router is valid exactly when what is said of it is. *)
Lemma evpn_valid_iff :
  evpn_valid rc' ↔ (wants_evpn R → carries_evpn R) ∧ ∀ v, R (REVPN (EL3 L3Number)) v → ¬ has_sessions R.
Proof using HR Hseen.
  assert ((∀ v, R (REVPN (EL3 L3Number)) v → ¬ has_sessions R) ↔ ((∃ v, R (REVPN (EL3 L3Number)) v) → ¬ has_sessions R)) as -> by naive_solver.
  rewrite wants_evpn_iff, carries_evpn_iff, l3_said, has_sessions_iff. unfold evpn_valid. split.
  - intros H. split; [intros (e & He & ?); by apply (H e He)|]. intros (e & He & ?) Hne. by apply Hne, (H e He).
  - intros [H1 H2] e He. split; [by eauto|]. intros Hl3. destruct (RC_Neighbors rc'); [done|].
    exfalso. apply H2; [by eauto|done].
Qed.

Lemma uses_iff l3 vni : uses R l3 vni ↔ ∃ evpn, RC_EVPN rc' = Some evpn ∧
  if l3 then FL3_VNI <$> FE_L3VNI evpn = Some vni else vni ∈ FL2_VNI <$> FE_L2VNIs evpn.
Proof using HR Hseen.
  destruct Hseen as (ns & _ & ->). unfold uses. destruct l3; setoid_rewrite <-HR; cbn.
  - unfold efact, l3fact. setoid_rewrite fmap_Some. naive_solver.
  - setoid_rewrite <-l2fact_nonempty. unfold efact. naive_solver.
Qed.

Lemma elem_of_router_vnis vni : vni ∈ router_vnis rc' ↔ ∃ l3, uses R l3 vni.
Proof using HR Hseen.
  setoid_rewrite uses_iff. unfold router_vnis. destruct (RC_EVPN rc') as [e|].
  2:{ rewrite elem_of_nil. naive_solver. }
  rewrite elem_of_app. trans (vni ∈ FL2_VNI <$> FE_L2VNIs e ∨ FL3_VNI <$> FE_L3VNI e = Some vni).
  - destruct (FE_L3VNI e) as [l|]; cbn; [rewrite list_elem_of_singleton|rewrite elem_of_nil]; naive_solver.
  - split; [intros [H|H]; [exists false|exists true]; eauto|]. intros ([] & e' & [= <-] & H); auto.
Qed.

Lemma NoDup_router_vnis : NoDup (router_vnis rc') ↔ ∀ vni, uses R true vni → uses R false vni → False.
Proof using HR Hok Hseen.
  setoid_rewrite uses_iff. destruct Hok as [_ Hwf]. unfold router_vnis.
  assert (∀ e, RC_EVPN rc' = Some e → NoDup (FL2_VNI <$> FE_L2VNIs e)) as Hnd.
  { destruct Hseen as (ns & _ & ->). exact Hwf. }
  destruct (RC_EVPN rc') as [e|]; [|split; [naive_solver|constructor]]. specialize (Hnd e eq_refl).
  rewrite NoDup_app. destruct (FE_L3VNI e) as [l|] eqn:El; split.
  - intros (_ & Hdis & _) vni (e' & [= <-] & Hl) (e2 & [= <-] & H2). rewrite El in Hl. injection Hl as <-.
    apply (Hdis _ H2). left.
  - intros H. split_and!; [done| |apply NoDup_singleton]. intros vni H2 ->%list_elem_of_singleton.
    apply (H (FL3_VNI l)); exists e; [by rewrite El|done].
  - intros _ vni (e' & [= <-] & Hl). by rewrite El in Hl.
  - intros _. split_and!; [done|set_solver|constructor].
Qed.
End router.

(** ** The whole conversion *)

Lemma deref_routers_Ok h (l : list (string * RouterConfig loc)) :
  (∀ k r, (k, r) ∈ l → valid h (RC_Neighbors r)) →
  ∃ l', deref_routers l h = Ok (l', h) ∧ Forall2 (λ kr kr', kr'.1 = kr.1 ∧ seen_in h kr.2 kr'.2) l l'.
Proof using Type.
  induction l as [|[k r] l IH]; intros Hl; [exists []; split; [done|constructor]|]. cbn [deref_routers].
  destruct IH as (l' & Hrun & Hl'); [intros; eapply Hl; by right|].
  assert (∃ ns, Forall2 (λ p n, h !! p = Some n) (RC_Neighbors r) ns) as [ns Hns].
  { specialize (Hl k r ltac:(left)). induction (RC_Neighbors r) as [|p ps IHp]; [by exists []|].
    destruct (Hl p) as (n & Hn & _); [left|]. destruct IHp as [ns Hns]; [intros q Hq; apply Hl; by right|].
    exists (n :: ns). by constructor. }
  eexists. split.
  - unfold deref_router. unfold mbind, M_bind, load_all. apply mapM_Some in Hns as Hmap. rewrite Hmap. cbn.
    unfold mbind, M_bind. rewrite Hrun. reflexivity.
  - constructor; [|done]. split; [done|]. by exists ns.
Qed.

(** [validateEVPN] decides the conditions on EVPN, whatever the order of the routers. *)
Lemma validateEVPN_decides h m S l' :
  routers_said h m S →
  Forall2 (λ kr kr', kr'.1 = kr.1 ∧ seen_in h kr.2 kr'.2) (map_to_list m) l' →
  (∃ u, validateEVPN l' = Ok u) ↔
  (∀ vrf, wants_evpn (S vrf) → carries_evpn (S vrf)) ∧ (∀ vrf v, S vrf (REVPN (EL3 L3Number)) v → ¬ has_sessions (S vrf)) ∧
  (∀ vrf l3 vrf' l3' vni, uses (S vrf) l3 vni → uses (S vrf') l3' vni → vrf = vrf' ∧ l3 = l3').
Proof using Type.
  intros Hm Hl. destruct (deref_map _ _ _ Hl) as [Hnd Hlook].
  assert (∀ k r', (k, r') ∈ l' ↔ ∃ r, m !! k = Some r ∧ seen_in h r r') as Hin.
  { intros k r'. by rewrite <-Hlook, <-elem_of_list_to_map. }
  assert (∀ vrf, (∃ rc rc', m !! vrf = Some rc ∧ seen_in h rc rc' ∧ (vrf, rc') ∈ l') ∨ ∀ k v, ¬ S vrf k v) as Hcase.
  { intros vrf. destruct (m !! vrf) as [rc|] eqn:E; [left|right; by apply (rs_none _ _ _ Hm)].
    apply elem_of_map_to_list, list_elem_of_lookup in E as Hi. destruct Hi as [i Hi].
    destruct (Forall2_lookup_l _ _ _ _ _ Hl Hi) as ([k rc'] & Hrc' & Hk & Hs). cbn in *. subst k.
    exists rc, rc'. split_and!; [done..|by eapply list_elem_of_lookup_2]. }
  assert (∀ vrf l3 vni, uses (S vrf) l3 vni → ∃ k v, S vrf k v) as Huses.
  { intros vrf [] vni; cbn; [eauto|]. intros (k & v & ?); eauto. }
  assert (∀ k r' vni, (k, r') ∈ l' → vni ∈ router_vnis r' ↔ ∃ l3, uses (S k) l3 vni) as Hvni.
  { intros k r' vni (r & Hr & Hs)%Hin. destruct (rs_some _ _ _ Hm _ _ Hr) as (_ & Hok & _ & HR).
    by apply (elem_of_router_vnis h r). }
  trans (Forall (λ kr, evpn_valid kr.2) l' ∧ NoDup (l' ≫= λ kr, router_vnis kr.2)).
  { split; [intros [u Hu]; by eapply validateEVPN_Ok|]. intros H. exists (). by apply validateEVPN_Ok. }
  assert (Forall (λ kr, evpn_valid kr.2) l' ↔ (∀ vrf, wants_evpn (S vrf) → carries_evpn (S vrf)) ∧
    ∀ vrf v, S vrf (REVPN (EL3 L3Number)) v → ¬ has_sessions (S vrf)) as ->.
  { rewrite Forall_forall. split.
    - intros Hall. split; intros vrf.
      + destruct (Hcase vrf) as [(rc & rc' & Hrc & Hs & Hi)|Hno].
        * destruct (rs_some _ _ _ Hm _ _ Hrc) as (_ & Hok & _ & HR). by apply (evpn_valid_iff h rc rc' _ Hs HR), (Hall _ Hi).
        * intros [?|[?|(? & ? & ? & ?)]]; by edestruct Hno.
      + intros v Hv. destruct (Hcase vrf) as [(rc & rc' & Hrc & Hs & Hi)|Hno]; [|by edestruct Hno].
        destruct (rs_some _ _ _ Hm _ _ Hrc) as (_ & Hok & _ & HR).
        by eapply (evpn_valid_iff h rc rc' _ Hs HR); [apply (Hall _ Hi)|].
    - intros [H1 H2] [k r'] (r & Hr & Hs)%Hin. destruct (rs_some _ _ _ Hm _ _ Hr) as (_ & Hok & _ & HR).
      apply (evpn_valid_iff h r r' _ Hs HR). split; [apply H1|apply H2]. }
  rewrite <-(assoc (∧)). do 2 f_equiv. split.
  - intros [Hone Hapart]%NoDup_bind_inv vrf l3 vrf' l3' vni Hu Hu'.
    destruct (Hcase vrf) as [(rc & rc' & Hrc & Hs & Hi)|Hno]; [|by apply Huses in Hu as (? & ? & ?); edestruct Hno].
    destruct (Hcase vrf') as [(rc2 & rc2' & Hrc2 & Hs2 & Hi2)|Hno]; [|by apply Huses in Hu' as (? & ? & ?); edestruct Hno].
    apply list_elem_of_lookup in Hi as Hj, Hi2 as Hj2. destruct Hj as [i Hj], Hj2 as [i2 Hj2].
    assert (i = i2) as ->.
    { eapply Hapart; [exact Hj|exact Hj2|apply (Hvni _ _ vni Hi); eauto|apply (Hvni _ _ vni Hi2); eauto]. }
    assert (vrf = vrf') as <- by congruence. split; [done|].
    destruct (rs_some _ _ _ Hm _ _ Hrc) as (_ & Hok & _ & HR).
    pose proof (proj1 (NoDup_router_vnis h rc rc' (S vrf) Hok Hs HR) (Hone _ Hi) vni) as Hx.
    destruct l3, l3'; [done|by destruct Hx|by destruct Hx|done].
  - intros Hu. apply NoDup_bind.
    + by eapply NoDup_fmap_1.
    + intros [k r'] Hkr. apply Hin in Hkr as (r & Hr & Hs). destruct (rs_some _ _ _ Hm _ _ Hr) as (_ & Hok & _ & HR).
      apply (NoDup_router_vnis h r r' (S k) Hok Hs HR). intros vni H1 H2. by destruct (Hu _ _ _ _ _ H1 H2).
    + intros [k r] [k2 r2] vni H1 H2 Hl3 Hl32. cbn in Hl3, Hl32.
      apply (Hvni k) in Hl3 as [l3 Hl3]; [|done]. apply (Hvni k2) in Hl32 as [l32 Hl32]; [|done].
      destruct (Hu _ _ _ _ _ Hl3 Hl32) as [<- _]. by apply (NoDup_key_inj fst l').
Qed.

(** What a configuration says of a VRF. *)
Definition config_fact (c : Config NeighborConfig) (vrf : string) (k : rkey) (v : fval) : Prop :=
  ∃ rc, rc ∈ Config_Routers c ∧ RC_VRF rc = vrf ∧
    router_fact rc (λ k v, ∃ n, n ∈ RC_Neighbors rc ∧ ID n = k.1 ∧ nfact n k.2 v) k v.

Lemma seen_fact h r r' k v :
  seen_in h r r' →
  router_fact r' (λ k v, ∃ n, n ∈ RC_Neighbors r' ∧ ID n = k.1 ∧ nfact n k.2 v) k v ↔ rfact h r k v.
Proof using Type.
  intros (ns & Hns & ->). destruct k; try done. cbn. unfold sfact. split.
  - intros (n & [i Hi]%list_elem_of_lookup & Hn). destruct (Forall2_lookup_r _ _ _ _ _ Hns Hi) as (p & Hp & ?).
    exists p, n. split; [by eapply list_elem_of_lookup_2|done].
  - intros (p & n & [i Hi]%list_elem_of_lookup & Hp & Hn). destruct (Forall2_lookup_l _ _ _ _ _ Hns Hi) as (n' & Hn' & ?).
    simplify_eq. exists n. split; [by eapply list_elem_of_lookup_2|done].
Qed.

Lemma deref_facts h m S l' vrf k v :
  routers_said h m S →
  Forall2 (λ kr kr', kr'.1 = kr.1 ∧ seen_in h kr.2 kr'.2) (map_to_list m) l' →
  (∃ rc, rc ∈ sortMap (list_to_map l' : gmap string (RouterConfig NeighborConfig)) ∧ RC_VRF rc = vrf ∧
    router_fact rc (λ k v, ∃ n, n ∈ RC_Neighbors rc ∧ ID n = k.1 ∧ nfact n k.2 v) k v) ↔ S vrf k v.
Proof using Type.
  intros Hm Hl. destruct (deref_map _ _ _ Hl) as [Hnd Hlook]. setoid_rewrite elem_of_sortMap. setoid_rewrite Hlook. split.
  - intros (rc & (k0 & r & Hr & Hs) & <- & Hf). destruct (rs_some _ _ _ Hm _ _ Hr) as (Hvrf & _ & _ & HR).
    apply (seen_fact h r rc), HR in Hf; [|done]. destruct Hs as (ns & _ & ->). cbn. by rewrite Hvrf.
  - intros HS. destruct (m !! vrf) as [r|] eqn:Hr; [|by edestruct (rs_none _ _ _ Hm vrf)].
    destruct (rs_some _ _ _ Hm _ _ Hr) as (Hvrf & _ & _ & HR). apply elem_of_map_to_list, list_elem_of_lookup in Hr as Hi.
    destruct Hi as [i Hi]. destruct (Forall2_lookup_l _ _ _ _ _ Hl Hi) as ([k0 rc] & _ & _ & Hs). cbn in Hs.
    exists rc. split_and!; [exists vrf, r; split; [by apply elem_of_map_to_list|exact Hs]|by destruct Hs as (ns & _ & ->)|]. by apply (seen_fact h r rc), HR.
Qed.

Lemma runs_apiToFRR cfgs :
  runs (apiToFRR_heap (mkClusterResources cfgs secrets) ab) ∅
    (λ c _, convertible cfgs ∧ ∀ vrf k v, config_fact c vrf k v ↔ said cfgs vrf k v) (¬ convertible cfgs).
Proof using Type.
  unfold apiToFRR_heap; cbn [FRRConfigs PasswordSecrets].
  apply runs_bind. eapply runs_mono; [apply (runs_foldMH (λ dn st h,
    (∀ c, c ∈ dn → c ∈ cfgs) ∧ converting h dn st) (¬ convertible cfgs))| |done].
  - split; [by intros c []%elem_of_nil|]. split; cbn.
    + by intros c []%elem_of_nil.
    + split; cbn; [intros vrf _ k v (c & _ & []%elem_of_nil & _)|intros vrf rc; by rewrite lookup_empty..].
    + intros name p. rewrite lookup_empty. split; [done|]. by intros (b & []%elem_of_nil & _).
  - intros dn cfg st h Hcfg [Hsub Hst].
    assert (∀ c, c ∈ dn ++ [cfg] → c ∈ cfgs) as Hsub'.
    { intros c [Hc|Hc%list_elem_of_singleton]%elem_of_app; [by apply Hsub|by subst c]. }
    eapply runs_mono; [by eapply (runs_configStep h cfgs)| |done]. intros st' h' Hst'. done.
  - intros st h [_ [Hv Hr Hp]]. apply runs_bind.
    destruct (deref_routers_Ok h (map_to_list (CS_routersForVRF st))) as (l' & Hrun & Hl').
    { intros k r Hkr%elem_of_map_to_list. by destruct (rs_some _ _ _ Hr _ _ Hkr) as (_ & [? _] & _). }
    unfold runs at 1. rewrite Hrun. pose proof (validateEVPN_decides _ _ _ _ Hr Hl') as Hev.
    apply runs_bind, runs_lift; [intros u Hu; apply runs_ret|intros Hno [_ _ _ H1 H2 H3]; by apply Hno, Hev].
    destruct (proj1 Hev) as (H1 & H2 & H3); [by eexists|].
    split; [|intros vrf k v; exact (deref_facts h _ _ _ vrf k v Hr Hl')]. split; [done|by eapply profiles_at_agree| |done..].
    intros vrf. destruct (CS_routersForVRF st !! vrf) as [rc|] eqn:E.
    + by destruct (rs_some _ _ _ Hr _ _ E) as (_ & _ & ? & _).
    + intros k v1 v2 H. by apply (rs_none _ _ _ Hr _ E) in H.
Qed.
End resources.

(** ** What merging chooses *)

(** Merging does not compare everything: of the definitions of a session, it takes graceful restart from one, and of filters with the
    same key it keeps one. *)
Section chosen.
Context (ab : list IPNet) (secrets : gmap string Secret) (cfgs : list FRRConfiguration).

(** A definition of the session [id] of a VRF: a neighbor of a router of a resource, and what it becomes. *)
Definition defines (vrf id : string) (nb : Neighbor) (nc : NeighborConfig) : Prop :=
  ∃ cfg r, cfg ∈ cfgs ∧ r ∈ BGP_Routers (Spec_BGP (Cfg_Spec cfg)) ∧ Router_VRF r = vrf ∧ nb ∈ Router_Neighbors r ∧
    converts_to ab secrets cfg r nb nc ∧ ID nc = id.

(** What is chosen comes from the definitions. *)
Record chosen (vrf : string) (n : NeighborConfig) : Prop := {
  ch_restart : ∃ nb nc, defines vrf (ID n) nb nc ∧ NC_GracefulRestart n = Neighbor_EnableGracefulRestart nb;
  ch_accepts4 f : f ∈ AI_PrefixesV4 (NC_Incoming n) →
    ∃ nb nc, defines vrf (ID n) nb nc ∧ f ∈ AI_PrefixesV4 (NC_Incoming nc);
  ch_accepts6 f : f ∈ AI_PrefixesV6 (NC_Incoming n) →
    ∃ nb nc, defines vrf (ID n) nb nc ∧ f ∈ AI_PrefixesV6 (NC_Incoming nc);
  ch_all : AI_All (NC_Incoming n) = true → AI_PrefixesV4 (NC_Incoming n) = [] ∧ AI_PrefixesV6 (NC_Incoming n) = [] }.

Lemma chosen_merge : merge_closed (λ n, chosen (NC_VRFName n) n).
Proof using Type.
  intros d s d' Hv Hd Hs (Hc & out & _ & ->)%mergeIntoNeighbor_Ok. destruct Hd as [H1 H2 H3 H4], Hs as [_ H2' H3' _].
  assert (ID d = ID s) as Hid by apply Hc. rewrite <-Hid, <-Hv in H2', H3'.
  split; cbn [cleanNeighborDefaults joined NC_VRFName NC_GracefulRestart NC_Incoming]; [exact H1|..];
    unfold mergeAllowedIn; destruct (AI_All (NC_Incoming d) || AI_All (NC_Incoming s)); cbn;
    try (by intros f []%elem_of_nil); try done.
  - intros f [?|?]%elem_of_mergeIncomingFilters_sub; eauto.
  - intros f [?|?]%elem_of_mergeIncomingFilters_sub; eauto.
Qed.

Lemma chosen_establishes cfg :
  cfg ∈ cfgs → NoDup (BFDProfile_Name <$> BGP_BFDProfiles (Spec_BGP (Cfg_Spec cfg))) →
  establishes (λ n, chosen (NC_VRFName n) n) cfg ab secrets (own_profiles cfg).
Proof using Type.
  intros Hcfg Hnd r imported nb nc Hr Hnb Himp _ Hnc.
  assert (defines (NC_VRFName nc) (ID nc) nb nc) as Hdef.
  { exists cfg, r. split_and!; [done..| |done|by exists imported|done].
    by apply neighborToFRR_Ok in Hnc as (_ & fam & tm & pw & out & inc & _ & _ & _ & _ & _ & ->). }
  split; [|by eauto..|].
  - exists nb, nc. split; [done|].
    by apply neighborToFRR_Ok in Hnc as (_ & fam & tm & pw & out & inc & _ & _ & _ & _ & _ & ->).
  - apply neighborToFRR_Ok in Hnc as (_ & fam & tm & pw & out & inc & _ & _ & _ & _ & Hin & ->).
    cbn. revert Hin. unfold toReceiveToFRR. case_bool_decide; [by intros [= <-]|].
    by intros (fs & _ & [= <-])%bind_Ok.
Qed.
End chosen.

(** ** The theorems *)

Lemma apiToFRR_facts resources ab :
  match apiToFRR resources ab with
  | Ok c => convertible ab (PasswordSecrets resources) (FRRConfigs resources) ∧
      ∀ vrf k v, config_fact c vrf k v ↔ said ab (PasswordSecrets resources) (FRRConfigs resources) vrf k v
  | Err _ => ¬ convertible ab (PasswordSecrets resources) (FRRConfigs resources)
  end.
Proof.
  destruct resources as [cfgs secrets]. pose proof (runs_apiToFRR ab secrets cfgs) as H.
  cbn [PasswordSecrets FRRConfigs]. unfold runs in H. unfold apiToFRR.
  by destruct (apiToFRR_heap _ _ _) as [[c h]|e].
Qed.

(** Every session of the configuration is chosen from its definitions. *)
Definition choices resources ab (c : Config NeighborConfig) : Prop :=
  ∀ rc n, rc ∈ Config_Routers c → n ∈ RC_Neighbors rc →
    chosen ab (PasswordSecrets resources) (FRRConfigs resources) (RC_VRF rc) n.

Lemma apiToFRR_choices resources ab c : apiToFRR resources ab = Ok c → choices resources ab c.
Proof.
  intros Hc rc n Hrc Hn. pose proof (apiToFRR_facts resources ab) as H. rewrite Hc in H. destruct H as [[Hval _ _ _ _ _] _].
  eapply (apiToFRR_result (λ n, chosen ab (PasswordSecrets resources) (FRRConfigs resources) (NC_VRFName n) n)) in Hc.
  - destruct (rk_neighbor _ _ _ Hc rc n Hrc Hn) as [H <-]. exact H.
  - apply chosen_merge.
  - intros cfg bfd Hcfg Hbfd. destruct (Hval cfg Hcfg) as [Hnd _].
    rewrite (own_profiles_unique cfg bfd Hnd Hbfd). by apply chosen_establishes.
Qed.

Lemma apiToFRR_decides resources ab :
  match apiToFRR resources ab with
  | Ok c => convertible ab (PasswordSecrets resources) (FRRConfigs resources) ∧
      (∀ vrf k v, config_fact c vrf k v ↔ said ab (PasswordSecrets resources) (FRRConfigs resources) vrf k v) ∧
      choices resources ab c
  | Err _ => ¬ convertible ab (PasswordSecrets resources) (FRRConfigs resources)
  end.
Proof.
  pose proof (apiToFRR_facts resources ab) as H. destruct (apiToFRR resources ab) as [c|e] eqn:E; [|done].
  destruct H as [H1 H2]. split_and!; [done..|]. by apply apiToFRR_choices.
Qed.


Lemma apiToFRR_succeeds_iff resources ab :
  (∃ c, apiToFRR resources ab = Ok c) ↔ convertible ab (PasswordSecrets resources) (FRRConfigs resources).
Proof.
  pose proof (apiToFRR_decides resources ab) as H.
  destruct (apiToFRR resources ab) as [c|e]; [split; [by intros _; apply H|by eexists]|]. split; [by intros [c Hc]|done].
Qed.

(** Whether resources convert depends on which they are only. *)
Lemma apiToFRR_succeeds_same cfgs cfgs' secrets ab :
  (∀ cfg, cfg ∈ cfgs ↔ cfg ∈ cfgs') →
  (∃ c, apiToFRR (mkClusterResources cfgs secrets) ab = Ok c) →
  ∃ c, apiToFRR (mkClusterResources cfgs' secrets) ab = Ok c.
Proof. rewrite !apiToFRR_succeeds_iff. intros Hs. by apply convertible_sub. Qed.

Lemma profiles_same resources resources' ab c c' :
  FRRConfigs resources ≡ₚ FRRConfigs resources' → apiToFRR resources ab = Ok c → apiToFRR resources' ab = Ok c' →
  Config_BFDProfiles c = Config_BFDProfiles c'.
Proof.
  intros Hp Hc%apiToFRR_shape Hc'%apiToFRR_shape.
  assert (∀ p, p ∈ Config_BFDProfiles c ↔ p ∈ Config_BFDProfiles c') as Hbfd.
  { intros p. rewrite (rk_profiles _ _ _ Hc), (rk_profiles _ _ _ Hc'). unfold profiles_of. by rewrite Hp. }
  apply list_eq_Forall2, (Forall2_by_key FBFD_Name FBFD_Name).
  - apply is_sorted_unique; [apply Hc|apply Hc'|]. intros x. rewrite !list_elem_of_fmap. by setoid_rewrite Hbfd.
  - intros p q Hp1%Hbfd Hq Hn. destruct (rk_profiles_sorted _ _ _ Hc') as [_ Hnd].
    by apply (NoDup_key_inj FBFD_Name _ _ _ Hnd).
Qed.

(** The session of a VRF with an identifier is the only one its facts are about. *)
Lemma session_fact resources ab c rc n k v :
  apiToFRR resources ab = Ok c → rc ∈ Config_Routers c → n ∈ RC_Neighbors rc →
  config_fact c (RC_VRF rc) (RSession (ID n) k) v ↔ nfact n k v.
Proof.
  intros Hc%apiToFRR_shape Hrc Hn. split.
  - intros (rc' & Hrc' & Hv & n' & Hn' & Hid & Hf). cbn in *.
    assert (rc' = rc) as -> by (eapply (NoDup_key_inj RC_VRF); [apply (rk_vrfs_sorted _ _ _ Hc)|done..]).
    destruct (rk_router _ _ _ Hc rc Hrc) as [_ [_ _ _ [_ Hids]]].
    by assert (n' = n) as -> by (by eapply (NoDup_key_inj ID)).
  - intros Hf. exists rc. split_and!; [done..|]. by exists n.
Qed.

(** Two sessions with the same facts accept everything, or both do not; in the latter case their filters have the same keys. *)
Lemma same_accepts (n1 n2 : NeighborConfig) :
  (∀ k v, nfact n1 k v ↔ nfact n2 k v) → AI_All (NC_Incoming n1) = AI_All (NC_Incoming n2).
Proof.
  intros Hf.
  set (keys := incomingFilterKey <$> (AI_PrefixesV4 (NC_Incoming n1) ++ AI_PrefixesV4 (NC_Incoming n2))).
  assert (fresh keys ∉ keys) as Hfresh by apply infinite_is_fresh.
  unfold keys at 2 in Hfresh. rewrite fmap_app, not_elem_of_app in Hfresh. destruct Hfresh as [H1 H2].
  pose proof (Hf (KAccepts4 (fresh keys)) (VB true)) as H. cbn in H. unfold element, admits in H.
  apply eq_true_iff_eq. naive_solver.
Qed.

Section same_choices.
Context (ab : list IPNet) (secrets : gmap string Secret) (cfgs : list FRRConfiguration).

(** The definitions of a session give graceful restart one value. *)
Definition one_restart (vrf id : string) : Prop := ∀ nb nc nb' nc',
  defines ab secrets cfgs vrf id nb nc → defines ab secrets cfgs vrf id nb' nc' →
  Neighbor_EnableGracefulRestart nb = Neighbor_EnableGracefulRestart nb'.

(** No two filters of the definitions of a session have the same merge key. *)
Definition keys_apart (vrf id : string) : Prop := ∀ nb nc nb' nc' f f',
  defines ab secrets cfgs vrf id nb nc → defines ab secrets cfgs vrf id nb' nc' →
  f ∈ AI_PrefixesV4 (NC_Incoming nc) ++ AI_PrefixesV6 (NC_Incoming nc) →
  f' ∈ AI_PrefixesV4 (NC_Incoming nc') ++ AI_PrefixesV6 (NC_Incoming nc') →
  incomingFilterKey f = incomingFilterKey f' → f = f'.

Record same_choices (vrf : string) (n1 n2 : NeighborConfig) : Prop := {
  sc_restart : one_restart vrf (ID n1) → NC_GracefulRestart n1 = NC_GracefulRestart n2;
  sc_all : AI_All (NC_Incoming n1) = AI_All (NC_Incoming n2);
  sc_accepts4 f : keys_apart vrf (ID n1) → f ∈ AI_PrefixesV4 (NC_Incoming n1) ↔ f ∈ AI_PrefixesV4 (NC_Incoming n2);
  sc_accepts6 f : keys_apart vrf (ID n1) → f ∈ AI_PrefixesV6 (NC_Incoming n1) ↔ f ∈ AI_PrefixesV6 (NC_Incoming n2) }.

(** A filter of one session is a filter of the other. *)
Lemma chosen_filters vrf n1 n2 (filters : AllowedIn → list IncomingFilter) (key : string → nkey) f :
  (∀ n k v, nfact n (key k) v ↔ element (admits (NC_Incoming n) filters k) v) →
  (∀ n f, chosen ab secrets cfgs vrf n → f ∈ filters (NC_Incoming n) →
     ∃ nb nc, defines ab secrets cfgs vrf (ID n) nb nc ∧
       f ∈ AI_PrefixesV4 (NC_Incoming nc) ++ AI_PrefixesV6 (NC_Incoming nc)) →
  (∀ n, chosen ab secrets cfgs vrf n → AI_All (NC_Incoming n) = true → filters (NC_Incoming n) = []) →
  chosen ab secrets cfgs vrf n1 → chosen ab secrets cfgs vrf n2 → ID n1 = ID n2 →
  (∀ k v, nfact n1 k v ↔ nfact n2 k v) → keys_apart vrf (ID n1) →
  f ∈ filters (NC_Incoming n1) → f ∈ filters (NC_Incoming n2).
Proof using Type.
  intros Hkey Hfrom Hall H1 H2 Hid Hf Hk Hin. destruct (AI_All (NC_Incoming n1)) eqn:Ea.
  { rewrite (Hall _ H1 Ea) in Hin. by apply elem_of_nil in Hin. }
  destruct (proj1 (Hkey n2 (incomingFilterKey f) (VB true))) as [[Ha|Ha] _].
  - apply Hf, Hkey. split; [|done]. right. by apply list_elem_of_fmap_2.
  - rewrite (same_accepts n1 n2 Hf) in Ea. congruence.
  - apply list_elem_of_fmap in Ha as (f' & He & Hin').
    destruct (Hfrom n1 f H1 Hin) as (nb & nc & Hd & Hm), (Hfrom n2 f' H2 Hin') as (nb' & nc' & Hd' & Hm').
    rewrite <-Hid in Hd'. by rewrite (Hk _ _ _ _ _ _ Hd Hd' Hm Hm' He).
Qed.

Lemma chosen_same vrf n1 n2 :
  chosen ab secrets cfgs vrf n1 → chosen ab secrets cfgs vrf n2 → ID n1 = ID n2 →
  (∀ k v, nfact n1 k v ↔ nfact n2 k v) → same_choices vrf n1 n2.
Proof using Type.
  intros H1 H2 Hid Hf.
  assert (∀ k v, nfact n2 k v ↔ nfact n1 k v) as Hf' by (intros; by rewrite Hf).
  assert (∀ n f, chosen ab secrets cfgs vrf n → f ∈ AI_PrefixesV4 (NC_Incoming n) ∨ f ∈ AI_PrefixesV6 (NC_Incoming n) →
    ∃ nb nc, defines ab secrets cfgs vrf (ID n) nb nc ∧
      f ∈ AI_PrefixesV4 (NC_Incoming nc) ++ AI_PrefixesV6 (NC_Incoming nc)) as Hfrom.
  { intros n f [_ H4 H6 _]. setoid_rewrite elem_of_app.
    intros [(nb & nc & ? & ?)%H4|(nb & nc & ? & ?)%H6]; exists nb, nc; auto. }
  split.
  - intros Ho. destruct H1 as [(nb & nc & Hd & ->) _ _ _], H2 as [(nb' & nc' & Hd' & ->) _ _ _].
    rewrite <-Hid in Hd'. by eapply Ho.
  - by apply same_accepts.
  - intros f Hk. split; apply (chosen_filters vrf _ _ AI_PrefixesV4 KAccepts4); rewrite <-?Hid; auto;
      by intros n []; apply ch_all0.
  - intros f Hk. split; apply (chosen_filters vrf _ _ AI_PrefixesV6 KAccepts6); rewrite <-?Hid; auto;
      by intros n []; apply ch_all0.
Qed.
End same_choices.

(** C15: for resources of different names, the order in which the API server lists them does not matter to what merging compares: either all orders convert or none
    does, and then they give the same BFD profiles, the same raw configuration, and the same routers: with
    the same VRF, AS number, router ID, prefixes, imports and session names, and the same facts of their sessions
    and of EVPN.  What merging does not compare may depend on the order: a session has the same graceful restart when its definitions
    all give it the same value, and accepts the same filters when no two different filters of its definitions have the same merge key;
    whether it accepts everything never depends on the order. *)
Theorem conversion_order_independent res1 res2 ab :
  FRRConfigs res1 ≡ₚ FRRConfigs res2 → PasswordSecrets res1 = PasswordSecrets res2 →
  NoDup (Cfg_Name <$> FRRConfigs res1) →
  match apiToFRR res1 ab, apiToFRR res2 ab with
  | Ok c1, Ok c2 =>
      Forall2 same_router (Config_Routers c1) (Config_Routers c2) ∧
      (∀ vrf k v, config_fact c1 vrf k v ↔ config_fact c2 vrf k v) ∧
      (∀ rc1 rc2 n1 n2, rc1 ∈ Config_Routers c1 → rc2 ∈ Config_Routers c2 → RC_VRF rc1 = RC_VRF rc2 →
         n1 ∈ RC_Neighbors rc1 → n2 ∈ RC_Neighbors rc2 → ID n1 = ID n2 →
         same_choices ab (PasswordSecrets res1) (FRRConfigs res1) (RC_VRF rc1) n1 n2) ∧
      Config_BFDProfiles c1 = Config_BFDProfiles c2 ∧ Config_ExtraConfig c1 = Config_ExtraConfig c2
  | Err _, Err _ => True
  | _, _ => False
  end.
Proof.
  intros Hp Hsec Hnd. pose proof (apiToFRR_decides res1 ab) as H1. pose proof (apiToFRR_decides res2 ab) as H2.
  assert (∀ cfg, cfg ∈ FRRConfigs res1 ↔ cfg ∈ FRRConfigs res2) as Hs by (intros; by rewrite Hp).
  rewrite <-Hsec in H2. destruct (apiToFRR res1 ab) as [c1|e1] eqn:E1, (apiToFRR res2 ab) as [c2|e2] eqn:E2; [|..|done].
  - destruct (apiToFRR_order_independent res1 res2 ab c1 c2) as (Hr & _ & _ & Hx); [exact Hp|exact Hnd|exact E1|exact E2|].
    destruct H1 as (_ & Hf1 & Hc1), H2 as (_ & Hf2 & Hc2).
    assert (∀ vrf k v, config_fact c1 vrf k v ↔ config_fact c2 vrf k v) as Hf.
    { intros vrf k v. rewrite Hf1, Hf2. unfold said. by setoid_rewrite Hs. }
    split_and!; [exact Hr|exact Hf| |exact (profiles_same _ _ ab _ _ Hp E1 E2)|exact Hx].
    intros rc1 rc2 n1 n2 Hrc1 Hrc2 Hv Hn1 Hn2 Hid. apply chosen_same; [by apply Hc1| |done|].
    + rewrite Hv. destruct (Hc2 rc2 n2 Hrc2 Hn2) as [A B C D]. rewrite <-Hsec in *.
      assert (∀ vrf id nb nc, defines ab (PasswordSecrets res1) (FRRConfigs res2) vrf id nb nc ↔
        defines ab (PasswordSecrets res1) (FRRConfigs res1) vrf id nb nc) as He by (intros; unfold defines; by setoid_rewrite Hs).
      split; [|intros f|intros f|done]; setoid_rewrite <-He; auto.
    + intros k v. rewrite <-(session_fact res1 ab c1 rc1 n1 k v E1 Hrc1 Hn1), <-(session_fact res2 ab c2 rc2 n2 k v E2 Hrc2 Hn2).
      by rewrite Hf, Hv, Hid.
  - destruct H2, H1 as [H1 _]. by eapply convertible_sub.
  - destruct H1, H2 as [H2 _]. eapply convertible_sub; [|exact H2]. intros. by rewrite Hp.
Qed.

Lemma conversion_order_independent_witness :
  ∃ c1 c2, apiToFRR sampleResources sampleBlock = Ok c1 ∧ apiToFRR sampleResources' sampleBlock = Ok c2 ∧
    ∀ vrf k v, config_fact c1 vrf k v ↔ config_fact c2 vrf k v.
Proof.
  pose proof (conversion_order_independent sampleResources sampleResources' sampleBlock) as H.
  run_ok (apiToFRR sampleResources sampleBlock) c1 E1. run_ok (apiToFRR sampleResources' sampleBlock) c2 E2.
  exists c1, c2. split; [reflexivity|]. split; [reflexivity|].
  refine (proj1 (proj2 (H _ eq_refl _))).
  - constructor.
  - by_evaluation.
Defined.

(** The sample resources are convertible; with a router of another AS number in one of their VRFs they are not. *)
Definition sampleConflict : ClusterResources :=
  mkClusterResources (FRRConfigs sampleResources ++
    [sampleConfig "third" [mkRouter 65001 "" (Router_VRF routerBlue) [] [] [] None] ""]) sampleSecrets.

Lemma sample_convertible :
  convertible sampleBlock (PasswordSecrets sampleResources) (FRRConfigs sampleResources) ∧
  ¬ convertible sampleBlock (PasswordSecrets sampleConflict) (FRRConfigs sampleConflict).
Proof.
  rewrite <-!apiToFRR_succeeds_iff, <-!is_ok_true.
  assert (is_ok (apiToFRR sampleResources sampleBlock) = true) as -> by (vm_compute; reflexivity).
  assert (is_ok (apiToFRR sampleConflict sampleBlock) = false) as -> by (vm_compute; reflexivity). done.
Qed.
