(* ===== verification/ApiBlock.v ===== *)
(** * What the conversion depends on

    [apiToFRR] is called by the controller, with the prefixes to always block and the
    secrets of the cluster, and by the webhook, without them.  This file relates
    the two: the blocked prefixes are copied to every session and change nothing
    else, and the secrets matter only to neighbors that refer to one. *)

From Stdlib Require Import Lia.
From S2P Require Import Prelude GoStrings GoNet IPFamily Community Api FrrConfig Errors.
From S2P Require Import Merge ApiToConfig MergeFacts HeapLogic ConvertFacts.

(** Running a sequence, as an equation. *)
Lemma M_bind_eq {A B} (m : M A) (f : A → M B) h :
  (m ≫= f) h = match m h with Ok (a, h') => f a h' | Err e => Err e end.
Proof. done. Qed.

(** ** Replacing the blocked prefixes *)

Section block.
Context (ab : list IncomingFilter).

Definition set_block (n : NeighborConfig) : NeighborConfig :=
  mkNeighborConfig (NC_IPFamily n) (NC_Name n) (NC_ASN n) (NC_SrcAddr n) (NC_Addr n)
    (NC_Iface n) (NC_Port n) (NC_HoldTime n) (NC_KeepaliveTime n) (NC_ConnectTime n)
    (NC_Password n) (NC_BFDProfile n) (NC_GracefulRestart n) (NC_EBGPMultiHop n)
    (NC_LocalASN n) (NC_VRFName n) (NC_Incoming n) (NC_Outgoing n) ab
    (NC_AddressFamilies n).

(** [m] with other blocked prefixes everywhere does what [m'] does: it fails alike, and
    ends with the same value and the store of [m'] with the prefixes replaced. *)
Definition mirrors {A} (m m' : M A) : Prop :=
  ∀ h : heap, m (set_block <$> h) =
    match m' h with Ok (a, h') => Ok (a, set_block <$> h') | Err e => Err e end.

Lemma mirrors_ret {A} (a : A) : mirrors (mret a) (mret a).
Proof. by intros h. Qed.

Lemma mirrors_bind {A B} (m m' : M A) (f f' : A → M B) :
  mirrors m m' → (∀ a, mirrors (f a) (f' a)) → mirrors (m ≫= f) (m' ≫= f').
Proof.
  intros Hm Hf h. unfold mbind, M_bind. rewrite Hm.
  destruct (m' h) as [[a h']|e]; simpl; [apply Hf|done].
Qed.

Lemma mirrors_lift {A} (r : res A) : mirrors (lift r) (lift r).
Proof. intros h. unfold lift. by destruct r. Qed.

Lemma mirrors_foldMH {A S} (f f' : S → A → M S) s l :
  (∀ s x, x ∈ l → mirrors (f s x) (f' s x)) → mirrors (foldMH f s l) (foldMH f' s l).
Proof.
  revert s; induction l as [|x l IH]; intros s Hf; [apply mirrors_ret|].
  apply mirrors_bind; [apply Hf; by left|]. intros s'. apply IH. intros; apply Hf; by right.
Qed.

Lemma mergeIntoNeighbor_block d s :
  mergeIntoNeighbor (set_block d) (set_block s) = set_block <$> mergeIntoNeighbor d s.
Proof.
  unfold mergeIntoNeighbor; cbn [NC_Outgoing set_block].
  change (neighborsAreCompatible (set_block d) (set_block s)) with (neighborsAreCompatible d s).
  destruct (neighborsAreCompatible d s); simpl; [|done].
  destruct (mergeAllowedOut _ _); done.
Qed.

Lemma mirrors_mergeNeighborsStep ml p :
  mirrors (mergeNeighborsStep ml p) (mergeNeighborsStep ml p).
Proof.
  intros h. unfold mergeNeighborsStep, mbind, M_bind, load. rewrite lookup_fmap.
  destruct (h !! p) as [n|]; simpl; [|done].
  change (ID (set_block n)) with (ID n). destruct (ml !! ID n) as [d|]; [|done].
  rewrite lookup_fmap. destruct (h !! d) as [dest|]; simpl; [|done].
  rewrite mergeIntoNeighbor_block. destruct (mergeIntoNeighbor dest n); simpl; [|done].
  unfold store. by rewrite fmap_insert.
Qed.

Lemma mirrors_mergeRouterConfigs r t : mirrors (mergeRouterConfigs r t) (mergeRouterConfigs r t).
Proof.
  unfold mergeRouterConfigs, mergeNeighborsLists.
  apply mirrors_bind; [apply mirrors_lift|intros _].
  apply mirrors_bind; [|intros ps; apply mirrors_bind; [apply mirrors_lift|intros; apply mirrors_ret]].
  destruct (_ =? 0)%nat; [apply mirrors_ret|].
  apply mirrors_bind; [|intros; apply mirrors_ret].
  apply mirrors_foldMH. intros. apply mirrors_mergeNeighborsStep.
Qed.
End block.

Lemma neighborToFRR_block n ps ab ab' vrf secrets bfd :
  neighborToFRR n ps ab vrf secrets bfd =
  set_block ab <$> neighborToFRR n ps ab' vrf secrets bfd.
Proof.
  unfold neighborToFRR; cbv zeta.
  repeat match goal with |- context [fail_if ?b ?e ≫= _] => destruct (fail_if b e); simpl; [|done] end.
  destruct (addressFamilyForNeighbor n); simpl; [|done].
  destruct (parseTimers _ _) as [[ht ka]|]; simpl; [|done].
  destruct (passwordForNeighbor n secrets); simpl; [|done].
  match goal with |- context [toAdvertiseToFRR ?a ?b ?c] => set (o := toAdvertiseToFRR a b c) end.
  match goal with |- context [toAdvertiseToFRR ?a ?b ?c] =>
    change (toAdvertiseToFRR a b c) with o end.
  destruct o; simpl; [|done]. by destruct (toReceiveToFRR _).
Qed.

(** ** The loops of [apiToFRR] *)

Lemma mirrors_routerToFRRConfig r ab ab' secrets bfd ps :
  mirrors ab (routerToFRRConfig r ab secrets bfd ps) (routerToFRRConfig r ab' secrets bfd ps).
Proof.
  unfold routerToFRRConfig. apply mirrors_bind; [|intros; apply mirrors_ret].
  apply mirrors_foldMH. intros acc n _. apply mirrors_bind; [apply mirrors_lift|intros _].
  intros h. rewrite !M_bind_eq.
  rewrite (neighborToFRR_block n ps ab ab'). unfold lift.
  destruct (neighborToFRR n ps ab' _ _ _) as [nc|e]; simpl; [|done].
  rewrite !M_bind_eq. unfold alloc. rewrite dom_fmap_L. by rewrite fmap_insert.
Qed.

Lemma mirrors_routerStep r ab ab' secrets bfd per_vrf m :
  mirrors ab (routerStep ab secrets bfd per_vrf m r) (routerStep ab' secrets bfd per_vrf m r).
Proof.
  unfold routerStep. do 4 (apply mirrors_bind; [apply mirrors_lift|intros ?]).
  apply mirrors_bind; [apply mirrors_routerToFRRConfig|intros rc].
  apply mirrors_bind; [apply mirrors_mergeRouterConfigs|intros rc2].
  destruct (m !! Router_VRF r); [|apply mirrors_ret].
  apply mirrors_bind; [apply mirrors_mergeRouterConfigs|intros; apply mirrors_ret].
Qed.

Lemma mirrors_configStep secrets ab ab' st cfg :
  mirrors (alwaysBlockToFRR ab) (configStep secrets ab st cfg) (configStep secrets ab' st cfg).
Proof.
  unfold configStep. apply mirrors_bind; [apply mirrors_lift|intros [loc all]].
  apply mirrors_bind; [|intros; apply mirrors_ret].
  apply mirrors_foldMH. intros. apply mirrors_routerStep.
Qed.

(** ** The result *)

Definition block_router (ab : list IncomingFilter) (r : RouterConfig NeighborConfig)
    : RouterConfig NeighborConfig :=
  mkRouterConfig (RC_MyASN r) (RC_RouterID r) (set_block ab <$> RC_Neighbors r) (RC_VRF r)
    (RC_IPV4Prefixes r) (RC_IPV6Prefixes r) (RC_ImportVRFs r) (RC_EVPN r).

Definition block_config (ab : list IncomingFilter) (c : Config NeighborConfig)
    : Config NeighborConfig :=
  mkConfig (Config_Loglevel c) (Config_Hostname c) (block_router ab <$> Config_Routers c)
    (Config_BFDProfiles c) (Config_ExtraConfig c).

Lemma mapM_lookup_block ab (h : heap) ps :
  mapM (λ p, (set_block ab <$> h) !! p) ps = fmap (set_block ab) <$> mapM (λ p, h !! p) ps.
Proof.
  induction ps as [|p ps IH]; [done|]. cbn [mapM]. rewrite lookup_fmap.
  destruct (h !! p); simpl; [|done]. rewrite IH. clear IH. by destruct (mapM (λ p, h !! p) ps).
Qed.

Lemma deref_router_block ab r (h : heap) :
  deref_router r (set_block ab <$> h) =
  match deref_router r h with
  | Ok (r', h') => Ok (block_router ab r', set_block ab <$> h') | Err e => Err e end.
Proof.
  unfold deref_router, mbind, M_bind, load_all. rewrite mapM_lookup_block.
  by destruct (mapM _ (RC_Neighbors r)).
Qed.

Lemma deref_routers_block ab l (h : heap) :
  deref_routers l (set_block ab <$> h) =
  match deref_routers l h with
  | Ok (l', h') => Ok (prod_map id (block_router ab) <$> l', set_block ab <$> h')
  | Err e => Err e end.
Proof.
  revert h; induction l as [|[k r] l IH]; intros h; [done|]. cbn [deref_routers].
  rewrite !M_bind_eq, deref_router_block.
  destruct (deref_router r h) as [[r' h']|e]; [|done].
  rewrite !M_bind_eq, IH. by destruct (deref_routers l h') as [[l' h'']|e].
Qed.

Lemma hasEVPNNeighbor_block ab ns : hasEVPNNeighbor (set_block ab <$> ns) = hasEVPNNeighbor ns.
Proof. induction ns as [|n ns IH]; [done|]. cbn. f_equal. exact IH. Qed.

Lemma validateEVPN_block ab l :
  validateEVPN (prod_map id (block_router ab) <$> l) = validateEVPN l.
Proof.
  assert (∀ seen, foldM uniqueVNIsStep seen (prod_map id (block_router ab) <$> l) =
    foldM uniqueVNIsStep seen l) as Hu.
  { induction l as [|[k r] l IH]; intros seen; [done|]. cbn [fmap list_fmap foldM prod_map fst snd].
    change (uniqueVNIsStep seen (id k, block_router ab r)) with (uniqueVNIsStep seen (k, r)).
    destruct (uniqueVNIsStep seen (k, r)); [apply IH|done]. }
  unfold validateEVPN, validateUniqueVNIs. rewrite Hu. clear Hu.
  set (rest := foldM uniqueVNIsStep ∅ l ≫= λ _, Ok ()). clearbody rest.
  induction l as [|[k r] l IH]; [done|]. cbn [fmap list_fmap each prod_map id fst snd].
  assert (validateEVPNConfig (block_router ab r) = validateEVPNConfig r) as ->.
  { unfold validateEVPNConfig; cbn [RC_EVPN RC_Neighbors block_router].
    destruct (RC_EVPN r) as [evpn|]; [|done]. by rewrite hasEVPNNeighbor_block, length_fmap. }
  destruct (wrap _ (validateEVPNConfig r)); [apply IH|done].
Qed.

Lemma sortMap_fmap {A B} (f : A → B) (m : gmap string A) : sortMap (f <$> m) = f <$> sortMap m.
Proof.
  unfold sortMap.
  assert (sortedKeys (f <$> m) = sortedKeys m) as ->.
  { unfold sortedKeys. by rewrite map_to_list_fmap, <-list_fmap_compose. }
  induction (sortedKeys m) as [|k ks IH]; [done|]. cbn [omap list_omap].
  rewrite lookup_fmap. destruct (m !! k) as [v|]; [|exact IH]. cbn. f_equal. exact IH.
Qed.

(** The part of [apiToFRR] after the loops. *)
Definition assemble (st : convState) : M (Config NeighborConfig) :=
  routers ← deref_routers (map_to_list (CS_routersForVRF st));
  _ ← lift (validateEVPN routers);
  mret (mkConfig "" "" (sortMap (list_to_map routers : gmap string _))
          (sortMap (CS_bfdProfilesAllConfigs st)) (joinRawConfigs (CS_rawConfigs st))).

Lemma apiToFRR_assemble resources ab :
  apiToFRR resources ab =
  match foldMH (configStep (PasswordSecrets resources) ab) (mkConvState [] ∅ ∅)
          (FRRConfigs resources) ∅ with
  | Ok (st, h) => fst <$> assemble st h | Err e => Err e end.
Proof.
  change (fst <$> match foldMH (configStep (PasswordSecrets resources) ab)
    (mkConvState [] ∅ ∅) (FRRConfigs resources) ∅ with
    Ok (st, h) => assemble st h | Err e => Err e end = match foldMH (configStep (PasswordSecrets resources) ab) (mkConvState [] ∅ ∅)
          (FRRConfigs resources) ∅ with
  | Ok (st, h) => fst <$> assemble st h | Err e => Err e end).
  by destruct (foldMH _ _ (FRRConfigs resources) ∅) as [[st h]|e].
Qed.

Lemma assemble_block ab st (h : heap) :
  fst <$> assemble st (set_block ab <$> h) = block_config ab <$> (fst <$> assemble st h).
Proof.
  unfold assemble. rewrite !M_bind_eq, deref_routers_block.
  destruct (deref_routers _ h) as [[l h']|e]; [|done].
  rewrite !M_bind_eq, validateEVPN_block. unfold lift.
  destruct (validateEVPN l); [|done].
  unfold mret, M_ret, fmap at 1 2 3, result_fmap; cbn [fst]. f_equal. unfold block_config; cbn.
  do 2 f_equal. rewrite <-sortMap_fmap. apply (f_equal sortMap), (list_to_map_fmap (block_router ab) l).
Qed.

Lemma apiToFRR_block resources ab ab' :
  apiToFRR resources ab = block_config (alwaysBlockToFRR ab) <$> apiToFRR resources ab'.
Proof.
  rewrite !apiToFRR_assemble.
  pose proof (mirrors_foldMH (alwaysBlockToFRR ab) (configStep (PasswordSecrets resources) ab)
    (configStep (PasswordSecrets resources) ab') (mkConvState [] ∅ ∅) (FRRConfigs resources)
    (λ st cfg _, mirrors_configStep _ ab ab' st cfg) ∅) as Hf.
  rewrite fmap_empty in Hf. revert Hf.
  generalize (foldMH (configStep (PasswordSecrets resources) ab) (mkConvState [] ∅ ∅)
    (FRRConfigs resources) ∅) (foldMH (configStep (PasswordSecrets resources) ab')
    (mkConvState [] ∅ ∅) (FRRConfigs resources) ∅).
  intros m m' ->. destruct m' as [[st h]|e]; [|done]. apply assemble_block.
Qed.

(** ** The secrets *)

(** Two computations that do the same on every store. *)
Definition same {A} (m m' : M A) : Prop := ∀ h, m h = m' h.

Lemma same_refl {A} (m : M A) : same m m.
Proof. by intros h. Qed.

Lemma same_bind {A B} (m m' : M A) (f f' : A → M B) :
  same m m' → (∀ a, same (f a) (f' a)) → same (m ≫= f) (m' ≫= f').
Proof.
  intros Hm Hf h. rewrite !M_bind_eq, Hm. destruct (m' h) as [[a h']|e]; [apply Hf|done].
Qed.

Lemma same_foldMH {A S} (f f' : S → A → M S) s l :
  (∀ s x, x ∈ l → same (f s x) (f' s x)) → same (foldMH f s l) (foldMH f' s l).
Proof.
  revert s; induction l as [|x l IH]; intros s Hf; [apply same_refl|].
  apply same_bind; [apply Hf; by left|]. intros s'. apply IH. intros; apply Hf; by right.
Qed.

Definition no_secret (n : Neighbor) : Prop :=
  SecretReference_Name (Neighbor_PasswordSecret n) = "".

(** No neighbor of the configuration refers to a secret. *)
Definition no_secrets (cfg : FRRConfiguration) : Prop :=
  ∀ r n, r ∈ BGP_Routers (Spec_BGP (Cfg_Spec cfg)) → n ∈ Router_Neighbors r → no_secret n.

Lemma neighborToFRR_secrets n ps ab vrf s s' bfd :
  no_secret n → neighborToFRR n ps ab vrf s bfd = neighborToFRR n ps ab vrf s' bfd.
Proof.
  intros Hn. unfold neighborToFRR.
  assert (passwordForNeighbor n s = passwordForNeighbor n s') as ->; [|done].
  unfold passwordForNeighbor. by rewrite Hn, andb_false_r.
Qed.

Lemma same_routerToFRRConfig r ab s s' bfd ps :
  (∀ n, n ∈ Router_Neighbors r → no_secret n) →
  same (routerToFRRConfig r ab s bfd ps) (routerToFRRConfig r ab s' bfd ps).
Proof.
  intros Hr. unfold routerToFRRConfig. apply same_bind; [|intros; apply same_refl].
  apply same_foldMH. intros acc n Hn. apply same_bind; [apply same_refl|intros _].
  rewrite (neighborToFRR_secrets n ps ab _ s s' bfd) by auto. apply same_refl.
Qed.

Lemma same_configStep s s' ab st cfg :
  no_secrets cfg → same (configStep s ab st cfg) (configStep s' ab st cfg).
Proof.
  intros Hc. unfold configStep. apply same_bind; [apply same_refl|intros [bfd all]].
  apply same_bind; [|intros; apply same_refl].
  apply same_foldMH. intros m r Hr. unfold routerStep.
  do 4 (apply same_bind; [apply same_refl|intros ?]).
  apply same_bind; [|intros; apply same_refl].
  apply same_routerToFRRConfig. intros n Hn. exact (Hc r n Hr Hn).
Qed.

Lemma apiToFRR_secrets cfgs s s' ab :
  Forall no_secrets cfgs →
  apiToFRR (mkClusterResources cfgs s) ab = apiToFRR (mkClusterResources cfgs s') ab.
Proof.
  intros Hc. rewrite !apiToFRR_assemble. cbn [FRRConfigs PasswordSecrets].
  rewrite (same_foldMH (configStep s ab) (configStep s' ab)); [done|].
  intros st cfg Hcfg. apply same_configStep. by apply (proj1 (Forall_forall _ _) Hc).
Qed.
