(* ===== verification/Logging.v ===== *)
(** * Log levels ([internal/logging], [internal/frr/level.go])

    The levels of the API, of the controllers' logger and of the FRR daemons,
    and the logger whose level changes at run time. *)

From S2P Require Import Prelude GoStrings.

(** [type Level string]. *)
Definition Level := string.
Definition LevelAll : Level := "all".
Definition LevelDebug : Level := "debug".
Definition LevelInfo : Level := "info".
Definition LevelWarn : Level := "warn".
Definition LevelError : Level := "error".
Definition LevelNone : Level := "none".
Definition LevelFallback : Level := LevelInfo.

Inductive levelError := EInvalidLogLevel (l : string) | EInvalidLevel.

#[global] Instance levelError_eq_dec : EqDecision levelError.
Proof. solve_decision. Defined.

(** A level comes back also with an error, and callers may use it. *)
Definition ParseLevel (l : string) : Level * option levelError :=
  if bool_decide (l = LevelAll) || bool_decide (l = LevelDebug) then (LevelDebug, None)
  else if bool_decide (l = LevelInfo) then (LevelInfo, None)
  else if bool_decide (l = LevelWarn) then (LevelWarn, None)
  else if bool_decide (l = LevelError) then (LevelError, None)
  else if bool_decide (l = LevelNone) then (LevelNone, None)
  else (LevelFallback, Some (EInvalidLogLevel l)).

Definition IsAllOrDebug (l : Level) : bool :=
  bool_decide (l = LevelAll) || bool_decide (l = LevelDebug).

(** The values of go-kit's [level.Option], by the function that makes them. *)
Inductive LevelOption := OptAll | OptDebug | OptInfo | OptWarn | OptError | OptNone.

#[global] Instance LevelOption_eq_dec : EqDecision LevelOption.
Proof. solve_decision. Defined.

Definition optionFallback : LevelOption := OptInfo.

Definition ToOption (l : Level) : LevelOption * option levelError :=
  if bool_decide (l = LevelAll) then (OptAll, None)
  else if bool_decide (l = LevelDebug) then (OptDebug, None)
  else if bool_decide (l = LevelInfo) then (OptInfo, None)
  else if bool_decide (l = LevelWarn) then (OptWarn, None)
  else if bool_decide (l = LevelError) then (OptError, None)
  else if bool_decide (l = LevelNone) then (OptNone, None)
  else (optionFallback, Some EInvalidLevel).

Definition Levels : list Level :=
  [LevelAll; LevelDebug; LevelInfo; LevelWarn; LevelError; LevelNone].

(** [levelSlice.String]: [strings.Join(strs, ", ")]. *)
Definition levelSlice_String (l : list Level) : string := String.concat ", " l.

(** ** The logger *)

(** [loggerAndLevel], stored in one atomic pointer: the filter in front of
    the writer and the level it was made from. *)
Record Logger := mkLogger {
  Logger_filter : LevelOption;
  Logger_level : Level }.

(** The logger [initLogger] makes, once the pipe for glog is there. *)
Definition initLogger : Logger := mkLogger optionFallback LevelFallback.

Definition SetLogLevel (l : Logger) (lvl : Level) : Logger :=
  let '(opt, err) := ToOption lvl in
  let lvl := match err with Some _ => LevelFallback | None => lvl end in
  mkLogger opt lvl.

Definition GetLogLevel (l : Logger) : Level := Logger_level l.

(** ** The daemons' levels *)

Definition LevelDebugging : string := "debugging".
Definition LevelInformational : string := "informational".
Definition LevelWarnings : string := "warnings".
Definition LevelErrors : string := "errors".
Definition LevelEmergencies : string := "emergencies".
Definition levelFallback : string := LevelInformational.

Definition LevelFrom (l : Level) : string :=
  if bool_decide (l = LevelAll) || bool_decide (l = LevelDebug) then LevelDebugging
  else if bool_decide (l = LevelInfo) then LevelInformational
  else if bool_decide (l = LevelWarn) then LevelWarnings
  else if bool_decide (l = LevelError) then LevelErrors
  else if bool_decide (l = LevelNone) then LevelEmergencies
  else levelFallback.

(** ** Properties *)

(** Case analysis on every comparison with a level. *)
Ltac by_level := repeat case_bool_decide; subst; cbn; try discriminate; try done.

Lemma ParseLevel_valid s :
  match ParseLevel s with
  | (l, None) => s ∈ Levels ∧ l ∈ Levels ∧ LevelFrom l = LevelFrom s
  | (l, Some _) => s ∉ Levels ∧ l = LevelFallback
  end.
Proof.
  unfold ParseLevel, Levels. by_level; try (split_and!; [by_evaluation|by_evaluation|done]).
  split; [|done]. rewrite !not_elem_of_cons. split_and!; [done..|apply not_elem_of_nil].
Qed.

(** The logger of a level, as [SetLogLevel] leaves it. *)
Definition logger_ok (l : Logger) : Prop :=
  Logger_level l ∈ Levels ∧ ToOption (Logger_level l) = (Logger_filter l, None).

Lemma initLogger_ok : logger_ok initLogger.
Proof. split; [by_evaluation|done]. Qed.

Lemma SetLogLevel_ok l lvl : logger_ok (SetLogLevel l lvl).
Proof.
  unfold logger_ok, SetLogLevel, ToOption, Levels. by_level; (split; [by_evaluation|done]).
Qed.

(** Whatever sequence of levels is set, valid or not, the level the logger reports
    is a valid one and is the level its filter was made from; after a valid level
    it is that level, after an invalid one the fallback; parsing fails exactly on the
    invalid ones, and never changes the verbosity asked of FRR. *)
Theorem log_level_coherent (levels : list Level) (lvl : Level) :
  let l := foldl SetLogLevel initLogger levels in
  (GetLogLevel l ∈ Levels ∧ ToOption (GetLogLevel l) = (Logger_filter l, None)) ∧
  GetLogLevel (SetLogLevel l lvl) = (if bool_decide (lvl ∈ Levels) then lvl else LevelFallback) ∧
  (snd (ParseLevel lvl) = None ↔ lvl ∈ Levels) ∧
  LevelFrom (fst (ParseLevel lvl)) = LevelFrom lvl.
Proof.
  cbv zeta. split; [|split_and!].
  - change (logger_ok (foldl SetLogLevel initLogger levels)).
    generalize initLogger_ok. generalize initLogger.
    induction levels as [|x levels IH]; intros l Hl; [done|]. apply IH, SetLogLevel_ok.
  - unfold SetLogLevel, ToOption, GetLogLevel, Levels.
    by_level; exfalso; rewrite ?elem_of_cons, ?elem_of_nil in *; naive_solver.
  - pose proof (ParseLevel_valid lvl) as H. destruct (ParseLevel lvl) as [l [e|]]; naive_solver.
  - unfold ParseLevel. by_level. unfold LevelFrom. by rewrite !(bool_decide_false (lvl = _)) by done.
Qed.
