(* ===== verification/Debouncer.v ===== *)
(** * The debouncer ([internal/frr/config.go])

    The goroutine started by [debouncer]: it receives reload requests, waits for the
    reload interval so that requests arriving together are handled once, calls
    [body] (which writes the file and reloads FRR), and retries after a
    failure.  Its [select] loop is a step relation: one step per received
    request and per expiry of the pending timer, each with the time at
    which it happens and, for the timer, whether [body] succeeded.  The configuration
    is a parameter: the loop only stores it and compares it with
    [reflect.DeepEqual]. *)

From Stdlib Require Import Lia.
From S2P Require Import Prelude.

Section debouncer.
Context {C : Type} `{EqDecision C}.

(** [reloadEvent]: [config] is nil in the requests that ask for the old one. *)
Record reloadEvent := mkReloadEvent {
  RE_config : option C;
  RE_useOld : bool }.

(** The variables of the goroutine.  [timeOut] is the expiry time of the timer
    channel, [None] when there is none or it has been drained. *)
Record debouncerState := mkDebouncerState {
  D_config : option C;
  D_timeOut : option Z;
  D_timerSet : bool }.

Definition initial : debouncerState := mkDebouncerState None None false.

Section code.
Context (reloadInterval failureRetryInterval : Z).

(** [case newCfg, ok := <-reload]. *)
Definition onReload (now : Z) (st : debouncerState) (newCfg : reloadEvent) : debouncerState :=
  if RE_useOld newCfg && bool_decide (D_config st = None) then st
  else if negb (RE_useOld newCfg) && bool_decide (RE_config newCfg = D_config st) then st
  else
    let config := if RE_useOld newCfg then D_config st else RE_config newCfg in
    if D_timerSet st then mkDebouncerState config (D_timeOut st) true
    else mkDebouncerState config (Some (now + reloadInterval)%Z) true.

(** [case <-timeOut], after [body] returned. *)
Definition onTimeOut (now : Z) (st : debouncerState) (bodyOk : bool) : debouncerState :=
  if bodyOk then mkDebouncerState (D_config st) None false
  else mkDebouncerState (D_config st) (Some (now + failureRetryInterval)%Z) true.

Inductive label :=
  | LReload (now : Z) (ev : reloadEvent)
  | LBody (now : Z) (config : option C) (ok : bool).

Definition label_time (l : label) : Z :=
  match l with LReload t _ => t | LBody t _ _ => t end.

Inductive step : debouncerState → label → debouncerState → Prop :=
  | step_reload st now ev : step st (LReload now ev) (onReload now st ev)
  | step_body st now deadline ok :
      D_timeOut st = Some deadline → (deadline ≤ now)%Z →
      step st (LBody now (D_config st) ok) (onTimeOut now st ok).

(** The runs of the goroutine: the labels so far, the state and the time. *)
Inductive run : list label → debouncerState → Z → Prop :=
  | run_start t : run [] initial t
  | run_step tr st t l st' :
      run tr st t → (t ≤ label_time l)%Z → step st l st' →
      run (tr ++ [l]) st' (label_time l).

(** ** What a run has asked for and done *)

Definition requested (cfg : option C) (l : label) : option C :=
  match l with
  | LReload _ ev => if RE_useOld ev then cfg else RE_config ev
  | LBody _ _ _ => cfg
  end.
(** The configuration of the last request that carried one. *)
Definition last_requested (tr : list label) : option C := foldl requested None tr.

Definition applied (cfg : option C) (l : label) : option C :=
  match l with LBody _ c true => c | _ => cfg end.
(** The configuration of the last successful call of [body]. *)
Definition last_applied (tr : list label) : option C := foldl applied None tr.

(** ** The invariant *)

Record inv (tr : list label) (st : debouncerState) (t : Z) : Prop := {
  inv_config : D_config st = last_requested tr;
  inv_timer : D_timerSet st = true ↔ is_Some (D_timeOut st);
  inv_clean : D_timerSet st = false → D_config st = last_applied tr;
  inv_deadline d : D_timeOut st = Some d →
    (d ≤ t + Z.max reloadInterval failureRetryInterval)%Z
}.

Lemma onReload_cases now st ev :
  (onReload now st ev = st ∧
     (RE_useOld ev = true ∧ D_config st = None ∨
      RE_useOld ev = false ∧ RE_config ev = D_config st)) ∨
  (D_config (onReload now st ev) = (if RE_useOld ev then D_config st else RE_config ev) ∧
   D_timerSet (onReload now st ev) = true ∧
   D_timeOut (onReload now st ev) =
     if D_timerSet st then D_timeOut st else Some (now + reloadInterval)%Z).
Proof using Type.
  unfold onReload. destruct (RE_useOld ev); simpl.
  - case_bool_decide; [by auto|]. by destruct (D_timerSet st); auto.
  - case_bool_decide; [by auto|]. by destruct (D_timerSet st); auto.
Qed.

Lemma last_requested_snoc tr l : last_requested (tr ++ [l]) = requested (last_requested tr) l.
Proof using Type. unfold last_requested. by rewrite foldl_snoc. Qed.

Lemma last_applied_snoc tr l : last_applied (tr ++ [l]) = applied (last_applied tr) l.
Proof using Type. unfold last_applied. by rewrite foldl_snoc. Qed.

Lemma run_inv tr st t : run tr st t → inv tr st t.
Proof using Type.
  induction 1 as [t|tr st t l st' Hrun [Hc Ht Hcl Hd] Hle Hstep].
  { split; simpl; [done|split; [done|by intros []]|done|done]. }
  destruct Hstep as [st now ev|st now deadline ok Hdl Hnow]; simpl in *.
  - destruct (onReload_cases now st ev) as [[-> Hsame]|(Hcfg & Hset & Hout)].
    + assert (last_requested (tr ++ [LReload now ev]) = D_config st) as Hreq.
      { rewrite last_requested_snoc; simpl. destruct Hsame as [[-> _]|[-> ->]]; done. }
      split; [done|done|by rewrite last_applied_snoc|].
      intros d Hd'. specialize (Hd d Hd'). lia.
    + split.
      * rewrite Hcfg, last_requested_snoc; simpl. by rewrite Hc.
      * rewrite Hset, Hout. split; [|done]. intros _.
        destruct (D_timerSet st); [by apply Ht|done].
      * by rewrite Hset.
      * intros d. rewrite Hout. destruct (D_timerSet st); [|intros [= <-]; lia].
        intros Hd'. specialize (Hd d Hd'). lia.
  - unfold onTimeOut. split; simpl.
    + rewrite last_requested_snoc; simpl. by destruct ok.
    + destruct ok; simpl; [split; [done|by intros []]|done].
    + rewrite last_applied_snoc. by destruct ok.
    + destruct ok; simpl; [done|]. intros d [= <-]. lia.
Qed.

(** The debouncer always acts on the latest request: every call of [body] is with
    the configuration of the most recent request that carried one, however
    many requests were squashed into that call. *)
Theorem debouncer_applies_latest tr st t now config ok :
  run (tr ++ [LBody now config ok]) st t → config = last_requested tr.
Proof using Type.
  intros Hrun. inversion Hrun as [|tr' st0 t0 l st' Hrun' Hle Hstep Heq]; subst.
  { by destruct tr. }
  apply app_inj_tail in Heq as [-> ->]. inversion Hstep; subst.
  by apply (inv_config _ _ _ (run_inv _ _ _ Hrun')).
Qed.

(** C25: no update is lost: whenever the debouncer is idle (no timer is set), the last
    configuration requested is the last one successfully applied; and while
    it is not idle, the timer expires within the longer of the reload and
    retry intervals, so [body] will be called again. *)
Theorem debouncer_no_lost_update tr st t :
  run tr st t →
  (D_timerSet st = false → last_applied tr = last_requested tr) ∧
  (D_timerSet st = true → ∃ d, D_timeOut st = Some d ∧
     (d ≤ t + Z.max reloadInterval failureRetryInterval)%Z ∧
     ∀ now ok, (d ≤ now)%Z →
       step st (LBody now (last_requested tr) ok) (onTimeOut now st ok)).
Proof using Type.
  intros [Hc Ht Hcl Hd]%run_inv. split.
  - intros Hset. by rewrite <-Hcl, Hc.
  - intros Hset. apply Ht in Hset as [d Hdl]. exists d. split_and!; [done|auto|].
    intros now ok Hle. rewrite <-Hc. by econstructor.
Qed.
End code.
End debouncer.

(** ** A run: two requests squashed, the first attempt fails, the retry succeeds *)

Definition sampleRun : list (label (C := N)) :=
  [LReload 0 (mkReloadEvent (Some 1%N) false); LReload 1 (mkReloadEvent (Some 2%N) false);
   LBody 3 (Some 2%N) false; LBody 8 (Some 2%N) true].

Lemma sampleRun_prefix :
  run 3 5 (take 3 sampleRun) (mkDebouncerState (Some 2%N) (Some 8%Z) true) 3.
Proof.
  change (take 3 sampleRun) with ((([] ++ [LReload 0 (mkReloadEvent (Some 1%N) false)])
    ++ [LReload 1 (mkReloadEvent (Some 2%N) false)]) ++ [LBody 3 (Some 2%N) false]).
  apply (run_step 3 5 _ (mkDebouncerState (Some 2%N) (Some 3%Z) true) 1 (LBody 3 (Some 2%N) false));
    [|done|by apply (step_body 3 5 (mkDebouncerState (Some 2%N) (Some 3%Z) true) 3 3 false)].
  apply (run_step 3 5 _ (mkDebouncerState (Some 1%N) (Some 3%Z) true) 0
    (LReload 1 (mkReloadEvent (Some 2%N) false))); [|done|].
  2: exact (step_reload 3 5 (mkDebouncerState (Some 1%N) (Some 3%Z) true) 1 (mkReloadEvent (Some 2%N) false)).
  apply (run_step 3 5 [] initial 0 (LReload 0 (mkReloadEvent (Some 1%N) false)));
    [constructor|done|].
  exact (step_reload 3 5 initial 0 (mkReloadEvent (Some 1%N) false)).
Qed.

Lemma sampleRun_run : run 3 5 sampleRun (mkDebouncerState (Some 2%N) None false) 8.
Proof.
  apply (run_step 3 5 (take 3 sampleRun) (mkDebouncerState (Some 2%N) (Some 8%Z) true) 3
    (LBody 8 (Some 2%N) true)); [apply sampleRun_prefix|done|].
  by apply (step_body 3 5 (mkDebouncerState (Some 2%N) (Some 8%Z) true) 8 8 true).
Qed.

Lemma debouncer_applies_latest_witness : Some 2%N = last_requested (take 3 sampleRun).
Proof.
  exact (debouncer_applies_latest 3 5 (take 3 sampleRun) _ 8 8 (Some 2%N) true sampleRun_run).
Defined.

Lemma debouncer_no_lost_update_witness : last_applied sampleRun = last_requested sampleRun.
Proof. exact (proj1 (debouncer_no_lost_update 3 5 _ _ _ sampleRun_run) eq_refl). Defined.
