(* ===== verification/FRRManager.v ===== *)
(** * The FRR manager ([internal/frr/frr.go])

    [FRR.ApplyConfig], the router-id fallback for IPv6-only nodes, and the
    status poller, which reads what the reloader sidecar left in its files,
    reports changes and asks for the old configuration again after a failed
    reload.  The debouncer of [Debouncer.v] is at the other end of the
    [reloadConfig] channel.  Files and the host name are arguments. *)

From Stdlib Require Import Ascii Lia.
From S2P Require Import Prelude GoStrings GoNet IPFamily Community Api FrrConfig Debouncer.

(** ** Strings *)

Fixpoint HasPrefix (s pre : string) : bool :=
  match pre, s with
  | EmptyString, _ => true
  | String a pre, String b s => bool_decide (a = b) && HasPrefix s pre
  | _, EmptyString => false
  end.

(** [strings.Contains]. *)
Fixpoint Contains (s substr : string) : bool :=
  HasPrefix s substr ||
  match s with EmptyString => false | String _ s => Contains s substr end.

(** The number of bytes of the white space character [s] starts with
    ([unicode.IsSpace] in UTF-8), 0 if it starts with another one. *)
Definition spaceLen (s : string) : nat :=
  match s with
  | EmptyString => 0
  | String a s1 =>
      let x := N_of_ascii a in
      if ((9 <=? x) && (x <=? 13) || (x =? 32))%N then 1
      else match s1 with
      | EmptyString => 0
      | String b s2 =>
          let y := N_of_ascii b in
          if ((x =? 194) && ((y =? 133) || (y =? 160)))%N then 2
          else match s2 with
          | EmptyString => 0
          | String c _ =>
              let z := N_of_ascii c in
              if ((x =? 225) && (y =? 154) && (z =? 128) ||
                  (x =? 226) && (y =? 128) && ((128 <=? z) && (z <=? 138) || (z =? 168) || (z =? 169) || (z =? 175)) ||
                  (x =? 226) && (y =? 129) && (z =? 159) ||
                  (x =? 227) && (y =? 128) && (z =? 128))%N then 3 else 0
          end
      end
  end.

(** [strings.Fields]: the maximal runs of characters that are not white space.
    [skip] counts the bytes of a space still to be dropped. *)
Fixpoint Fields_go (s : string) (skip : nat) (word : string) : list string :=
  match s with
  | EmptyString => if bool_decide (word = "") then [] else [word]
  | String a s' =>
      match skip with
      | S k => Fields_go s' k word
      | O =>
          match spaceLen s with
          | O => Fields_go s' 0 (word +:+ String a "")
          | S k => (if bool_decide (word = "") then [] else [word]) ++ Fields_go s' k ""
          end
      end
  end.
Definition Fields (s : string) : list string := Fields_go s 0 "".

(** ** The fallback router ID *)

(** [crc32.ChecksumIEEE]: the reflected CRC-32, a byte at a time. *)
Fixpoint crc_bits (n : nat) (crc : N) : N :=
  match n with
  | O => crc
  | S n => crc_bits n (if N.odd crc then N.lxor (N.shiftr crc 1) 3988292384 else N.shiftr crc 1)
  end.
Fixpoint crc_bytes (s : string) (crc : N) : N :=
  match s with
  | EmptyString => crc
  | String c s => crc_bytes s (crc_bits 8 (N.lxor crc (N_of_ascii c)))
  end.
Definition ChecksumIEEE (s : string) : N :=
  N.lxor (crc_bytes s (2 ^ 32 - 1)) (2 ^ 32 - 1).

Example ChecksumIEEE_check : ChecksumIEEE "123456789" = 3421780262%N.
Proof. vm_compute. reflexivity. Qed.

(** [binary.LittleEndian.PutUint32]. *)
Definition PutUint32 (v : N) : list N :=
  [v `mod` 256; N.shiftr v 8 `mod` 256; N.shiftr v 16 `mod` 256; N.shiftr v 24 `mod` 256]%N.

(** What [os.Hostname] returned. *)
Definition hostResult := result string string.

Definition hashRouterID (osHostname : hostResult) : hostResult :=
  hostname ← osHostname;
  Ok (IP_String (PutUint32 (ChecksumIEEE hostname))).

(** An address of [net.InterfaceAddrs]: only [*net.IPNet] ones are looked at. *)
Inductive ifaceAddr := AddrIPNet (n : IPNet) | AddrOther.

Definition hasIPv4Address (addrs : result string (list ifaceAddr)) : bool :=
  match addrs with
  | Err _ => false
  | Ok addrs => existsb (λ a,
      match a with
      | AddrIPNet ipnet => negb (bool_decide (To4 (IPNet_IP ipnet) = None))
      | AddrOther => false
      end) addrs
  end.

(** ** The manager *)

Record Status := mkStatus {
  updateTime : string;
  Current : string;
  LastReloadResult : string }.

#[global] Instance Status_eq_dec : EqDecision Status.
Proof. solve_decision. Defined.

Definition zeroStatus : Status := mkStatus "" "" "".
Definition ReloadSuccess : string := "success".

Record FRR := mkFRR {
  FRR_Status : Status;
  FRR_fallbackRouterID : string }.

(** [NewFRR], before the two goroutines start. *)
Definition NewFRR (addrs : result string (list ifaceAddr)) (osHostname : hostResult)
    : result string FRR :=
  if hasIPv4Address addrs then Ok (mkFRR zeroStatus "")
  else
    routerID ← wrap (λ e, "failed to generate fallback router-id: " +:+ e) (hashRouterID osHostname);
    Ok (mkFRR zeroStatus routerID).

Definition setRouterID (fallback : string) {A} (r : RouterConfig A) : RouterConfig A :=
  if bool_decide (RC_RouterID r = "")
  then mkRouterConfig (RC_MyASN r) fallback (RC_Neighbors r) (RC_VRF r) (RC_IPV4Prefixes r)
         (RC_IPV6Prefixes r) (RC_ImportVRFs r) (RC_EVPN r)
  else r.

(** [ApplyConfig]: the event it sends on the channel. *)
Definition ApplyConfig (f : FRR) (osHostname : hostResult) (config : Config NeighborConfig)
    : result string (reloadEvent (C := Config NeighborConfig)) :=
  hostname ← osHostname;
  let routers := if bool_decide (FRR_fallbackRouterID f = "") then Config_Routers config
                 else setRouterID (FRR_fallbackRouterID f) <$> Config_Routers config in
  Ok (mkReloadEvent (Some (mkConfig (Config_Loglevel config) hostname routers
        (Config_BFDProfiles config) (Config_ExtraConfig config))) false).

(** ** The status *)

Definition statusFileName : string := "/etc/frr_reloader/.status".
Definition runningConfig : string := "/etc/frr_reloader/running-config".
Definition lastAppliedResult : string := "/etc/frr_reloader/last-error".

(** What [os.ReadFile] returns: [ENotExist] is what [os.IsNotExist] recognises. *)
Inductive fileError := ENotExist | EIO.
Definition files := string → result fileError string.

Inductive statusError :=
  | EReadStatus (e : fileError)
  | EStatusFormat (content : string)
  | EReadLastError (e : fileError)
  | EReadRunningConfig (e : fileError).

Definition readLastReloadResult (ReadFile : files) : result statusError (string * string) :=
  match ReadFile statusFileName with
  | Err e => Err (EReadStatus e)
  | Ok bytes =>
      match Fields bytes with
      | [timeStamp; status] => Ok (timeStamp, status)
      | _ => Err (EStatusFormat bytes)
      end
  end.

(** A missing file reads as empty, another failure is an error. *)
Definition readOptional (err : fileError → statusError) (r : result fileError string)
    : result statusError string :=
  match r with
  | Ok bytes => Ok bytes
  | Err ENotExist => Ok ""
  | Err e => Err (err e)
  end.

Definition fetchStatus (ReadFile : files) : result statusError Status :=
  '(timeStamp, status) ← readLastReloadResult ReadFile;
  lastError ← readOptional EReadLastError (ReadFile lastAppliedResult);
  let lastReloadResult := if Contains status "failure" then lastError else ReloadSuccess in
  current ← readOptional EReadRunningConfig (ReadFile runningConfig);
  Ok (mkStatus timeStamp current lastReloadResult).

(** One tick of [pollStatus]: the new state, the request sent to the debouncer, if
    any, and whether [onStatusChanged] is called. *)
Definition pollTick (f : FRR) (ReadFile : files)
    : FRR * option (reloadEvent (C := Config NeighborConfig)) * bool :=
  match fetchStatus ReadFile with
  | Err _ => (f, None, false)
  | Ok status =>
      if bool_decide (updateTime status = updateTime (FRR_Status f)) then (f, None, false)
      else
        let ev := if bool_decide (LastReloadResult status = ReloadSuccess) then None
                  else Some (mkReloadEvent None true) in
        (mkFRR status (FRR_fallbackRouterID f), ev, true)
  end.

(** ** Properties *)

(** What [ApplyConfig] leaves alone of a router: everything but the router ID, and that where there is one. *)
Definition same_router (r' r : RouterConfig NeighborConfig) : Prop :=
  RC_VRF r' = RC_VRF r ∧ RC_MyASN r' = RC_MyASN r ∧
  RC_Neighbors r' = RC_Neighbors r ∧ RC_IPV4Prefixes r' = RC_IPV4Prefixes r ∧
  RC_IPV6Prefixes r' = RC_IPV6Prefixes r ∧ RC_EVPN r' = RC_EVPN r ∧
  RC_ImportVRFs r' = RC_ImportVRFs r ∧
  (RC_RouterID r ≠ "" → RC_RouterID r' = RC_RouterID r).
Definition same_routers (applied cfg : Config NeighborConfig) : Prop :=
  Forall2 same_router (Config_Routers applied) (Config_Routers cfg).

(** [applied] is [cfg] with a host name and, where there was none, a router ID. *)
Definition completes (applied cfg : Config NeighborConfig) : Prop :=
  Config_Loglevel applied = Config_Loglevel cfg ∧
  Config_BFDProfiles applied = Config_BFDProfiles cfg ∧
  Config_ExtraConfig applied = Config_ExtraConfig cfg ∧ same_routers applied cfg.

Lemma ApplyConfig_completes f host config ev :
  ApplyConfig f host config = Ok ev →
  RE_useOld ev = false ∧ ∃ a, RE_config ev = Some a ∧ completes a config.
Proof.
  unfold ApplyConfig. intros (h & _ & [= <-])%bind_Ok. split; [done|]. eexists; split; [done|].
  unfold completes; cbn. split_and!; [done..|]. case_bool_decide.
  - by apply Forall_Forall2_diag, Forall_true.
  - apply Forall2_fmap_l, Forall_Forall2_diag, Forall_true. intros r. unfold setRouterID.
    unfold compose; cbv beta. case_bool_decide; cbn; by split_and!.
Qed.

Lemma PutUint32_bytes v : Forall (λ b, (b < 256)%N) (PutUint32 v).
Proof. unfold PutUint32. repeat constructor; by apply N.mod_lt. Qed.

Lemma hashRouterID_parses osHostname id :
  hashRouterID osHostname = Ok id →
  ∃ hostname ip, osHostname = Ok hostname ∧ ParseIP id = Some ip ∧
    To4 ip = Some (PutUint32 (ChecksumIEEE hostname)).
Proof.
  unfold hashRouterID. intros (hostname & -> & [= <-])%bind_Ok.
  pose proof (PutUint32_bytes (ChecksumIEEE hostname)) as Hb. unfold PutUint32 in *.
  set (v := ChecksumIEEE hostname) in *. rewrite !Forall_cons in Hb. destruct Hb as (?&?&?&?&_).
  exists hostname. eexists. split; [done|].
  unfold IP_String; cbn [length Nat.eqb negb andb To4].
  split; [by apply ParseIP_string4|done].
Qed.

(** On a node with no IPv4 address, every router the daemon configures has a router
    ID: the one of the API, or an IPv4 address derived from the host name,
    so that FRR never falls back to 0.0.0.0; on other nodes router IDs are
    left as they are, and nothing else of the configuration changes but the
    host name. *)
Theorem ApplyConfig_router_ids addrs osHostname f hostname config ev :
  NewFRR addrs osHostname = Ok f → ApplyConfig f (Ok hostname) config = Ok ev →
  ∃ c, RE_config ev = Some c ∧ RE_useOld ev = false ∧ Config_Hostname c = hostname ∧
    Config_BFDProfiles c = Config_BFDProfiles config ∧
    Config_ExtraConfig c = Config_ExtraConfig config ∧
    if hasIPv4Address addrs then Config_Routers c = Config_Routers config
    else ∃ id ip, hashRouterID osHostname = Ok id ∧ ParseIP id = Some ip ∧ To4 ip ≠ None ∧
      Forall2 (λ r r', RC_RouterID r' = (if bool_decide (RC_RouterID r = "") then id else RC_RouterID r) ∧
                       RC_RouterID r' ≠ "" ∧ RC_VRF r' = RC_VRF r ∧ RC_MyASN r' = RC_MyASN r ∧
                       RC_Neighbors r' = RC_Neighbors r)
        (Config_Routers config) (Config_Routers c).
Proof.
  unfold NewFRR, ApplyConfig. intros Hf [= <-]. eexists; split; [done|]. simpl.
  split_and!; [done..|]. destruct (hasIPv4Address addrs); [injection Hf as <-; done|].
  apply bind_Ok in Hf as (id & Hid%wrap_Ok & [= <-]). simpl.
  destruct (hashRouterID_parses _ _ Hid) as (h & ip & _ & Hip & H4).
  exists id, ip. split_and!; [done..|by rewrite H4|].
  assert (id ≠ "") as Hne by (intros ->; by vm_compute in Hip).
  rewrite bool_decide_eq_false_2 by done. apply Forall2_fmap_r, Forall_Forall2_diag.
  apply Forall_forall. intros r _. unfold setRouterID, compose.
  case_bool_decide; by split_and!.
Qed.

Definition ipv6Only : result string (list ifaceAddr) :=
  Ok [AddrIPNet (mkIPNet [32;1;13;184;0;0;0;0;0;0;0;0;0;0;0;1]%N [255;255]%N); AddrOther].

Definition oneRouter : Config NeighborConfig :=
  mkConfig "" "" [mkRouterConfig 64512 "" [] "" [] [] [] None] [] "".


Lemma ApplyConfig_router_ids_witness :
  ∃ f ev c, NewFRR ipv6Only (Ok "node-1") = Ok f ∧ ApplyConfig f (Ok "node-1") oneRouter = Ok ev ∧
    RE_config ev = Some c ∧ Forall (λ r, RC_RouterID r = "95.28.242.19") (Config_Routers c).
Proof.
  destruct (ApplyConfig_router_ids ipv6Only (Ok "node-1") (mkFRR zeroStatus "95.28.242.19") "node-1"
    oneRouter _ ltac:(vm_compute; reflexivity) eq_refl) as (c & Hc & _ & _ & _ & _ & H).
  change (hasIPv4Address ipv6Only) with false in H. destruct H as (id & ip & Hid & _ & _ & Hr).
  assert (hashRouterID (Ok "node-1") = Ok "95.28.242.19") as Hh by (vm_compute; reflexivity).
  rewrite Hh in Hid. injection Hid as <-.
  exists (mkFRR zeroStatus "95.28.242.19").
  eexists. exists c. split; [vm_compute; reflexivity|]. split; [reflexivity|]. split; [exact Hc|].
  clear Hc Hh. cbn [Config_Routers oneRouter] in Hr.
  inversion Hr as [|r r' rs rs' [Hr' _] Hrs]; subst. inversion Hrs; subst.
  constructor; [exact Hr'|constructor].
Defined.

(** C26: after a failed reload is seen in the status file, a reload of the old configuration
    is scheduled: the poller asks the debouncer for it, which arms its
    timer if it has a configuration and none is armed; a successful reload only
    updates the status.  Each change of the status is reported once: polling
    the same files again does nothing. *)
Theorem pollTick_retries_failed_reload f ReadFile status interval now st :
  fetchStatus ReadFile = Ok status → updateTime status ≠ updateTime (FRR_Status f) →
  ∃ ev, pollTick f ReadFile = (mkFRR status (FRR_fallbackRouterID f), ev, true) ∧
    pollTick (mkFRR status (FRR_fallbackRouterID f)) ReadFile =
      (mkFRR status (FRR_fallbackRouterID f), None, false) ∧
    (LastReloadResult status = ReloadSuccess → ev = None) ∧
    (LastReloadResult status ≠ ReloadSuccess →
       ∃ e, ev = Some e ∧
         (D_config st ≠ None → D_timerSet (onReload interval now st e) = true ∧
            D_config (onReload interval now st e) = D_config st) ∧
         (D_config st = None → onReload interval now st e = st)).
Proof.
  intros Hs Ht. unfold pollTick. rewrite Hs; simpl.
  rewrite (bool_decide_eq_false_2 (updateTime status = updateTime (FRR_Status f))) by done.
  rewrite (bool_decide_eq_true_2 (updateTime status = updateTime status)) by done.
  eexists; split; [done|]. split; [done|]. case_bool_decide; (split; [done|]); [done|].
  intros _. eexists; split; [done|]. unfold onReload; simpl. split.
  - intros Hc. rewrite bool_decide_eq_false_2 by done. by destruct (D_timerSet st).
  - intros ->. by rewrite bool_decide_eq_true_2.
Qed.

Definition failedFiles : files := λ name,
  if bool_decide (name = statusFileName) then Ok "1700000000 failure"
  else if bool_decide (name = lastAppliedResult) then Ok "vtysh failed"
  else Err ENotExist.

Lemma pollTick_retries_failed_reload_witness :
  ∃ ev, pollTick (mkFRR zeroStatus "") failedFiles =
      (mkFRR (mkStatus "1700000000" "" "vtysh failed") "", Some ev, true) ∧
    D_timerSet (onReload 3 10 (mkDebouncerState (Some oneRouter) None false) ev) = true.
Proof.
  destruct (pollTick_retries_failed_reload (mkFRR zeroStatus "") failedFiles
    (mkStatus "1700000000" "" "vtysh failed") 3 10 (mkDebouncerState (Some oneRouter) None false))
    as (ev & Hp & _ & _ & Hf); [vm_compute; reflexivity|discriminate|].
  destruct Hf as (e & -> & Hs & _); [discriminate|].
  exists e. split; [exact Hp|]. apply Hs. discriminate.
Defined.
