(* ===== verification/Template.v ===== *)
(** * The configuration file ([internal/frr/config.go], [internal/frr/templates])

    The functions [templateConfig] registers, the statements that
    prefixlists.tmpl prints for a session (prefix lists and route maps, as data, with
    the sequence numbers drawn from the template's counters).
    The text itself is in [Render.v]. *)

From Stdlib Require Import Ascii Lia.
From S2P Require Import Prelude GoStrings GoNet IPFamily Community Api FrrConfig.

(** ** The function map *)

(** [counterMap]. *)
Notation counters := (gmap string N).

Definition counter (name : string) (c : counters) : N * counters :=
  let n := (default 0 (c !! name) + 1)%N in (n, <[name := n]> c).

Definition templateIPFamily (f : Family) : string :=
  if bool_decide (f = IPv6) then "ipv6" else "ip".

Definition hasAddressFamilyEVPN (addressFamilies : list string) : bool :=
  bool_decide (AddressFamilyEVPN ∈ addressFamilies).

Definition hasAdvertiseVNIsAll (advertiseVNIs : option string) : bool :=
  bool_decide (advertiseVNIs = Some VNIAdvertisementAll).

Definition hasAdvertisesEVPNPrefixUnicast (prefixType : string) : bool :=
  bool_decide (prefixType = AdvertisePrefixUnicast).

Definition activateNeighborFor (family : string) (neighbourFamily : Family)
    (addressFamilies : list string) : bool :=
  let hasUnicast := (length addressFamilies =? 0)%nat ||
                    bool_decide (AddressFamilyUnicast ∈ addressFamilies) in
  hasUnicast && (bool_decide (Family_String neighbourFamily = family) ||
                 bool_decide (neighbourFamily = DualStack)).

Definition allowedIncomingList (n : NeighborConfig) : string :=
  ID n +:+ "-inpl-" +:+ Family_String (NC_IPFamily n).
Definition deniedIncomingList (n : NeighborConfig) : string :=
  ID n +:+ "-denied-inpl-" +:+ Family_String (NC_IPFamily n).

Definition mustDisableConnectedCheck (ipFamily : Family) (myASN : N) (asn iface : string)
    (eBGPMultiHop : bool) : bool :=
  if negb (bool_decide (ipFamily = IPv6)) then false
  else if eBGPMultiHop then false
  else if negb (bool_decide (iface = "")) then true
  else if bool_decide (asn = "internal") then false
  else if bool_decide (asn = "external") then true
  else negb (bool_decide (pretty myASN = asn)).

(** The values of a [dict] call; keys must be strings. *)
Inductive dictValue := DString (s : string) | DOther (n : nat).
Inductive dictError := EOddArguments | EKeyNotString (v : dictValue).

Fixpoint dict_go (values : list dictValue) (d : gmap string dictValue)
    : result dictError (gmap string dictValue) :=
  match values with
  | k :: v :: values =>
      match k with
      | DString key => dict_go values (<[key := v]> d)
      | _ => Err (EKeyNotString k)
      end
  | _ => Ok d
  end.
Definition dict (values : list dictValue) : result dictError (gmap string dictValue) :=
  if negb (length values `mod` 2 =? 0)%nat then Err EOddArguments else dict_go values ∅.

(** ** Statements *)

Inductive pattern := PAny | PPrefix (prefix : string) (le ge : N).

Inductive stmt :=
  (** [ip prefix-list name seq n permit pattern] *)
  | SPrefixList (family name : string) (seq : N) (permit : bool) (what : pattern)
  (** [route-map name permit n], [match ip address prefix-list l], set
      statements, and [on-match next]; the name is the session's with a suffix *)
  | SRouteMap (session suffix : string) (permit : bool) (seq : N) (family plist : string)
      (sets : list string) (next : bool).

(** What a part of a template prints, with the counters: statements, or the lines of [Render.v]. *)
Definition printerOf (S : Type) := counters → list S * counters.
Notation printer := (printerOf stmt).

Definition skip {S} : printerOf S := λ c, ([], c).
Definition andThen {S} (p q : printerOf S) : printerOf S := λ c,
  let '(s, c) := p c in let '(t, c) := q c in (s ++ t, c).
Fixpoint forEach {S A} (l : list A) (f : A → printerOf S) : printerOf S :=
  match l with [] => skip | x :: l => andThen (f x) (forEach l f) end.
Definition onlyIf {S} (b : bool) (p : printerOf S) : printerOf S := if b then p else skip.

Declare Scope printer_scope.
Delimit Scope printer_scope with printer.
Infix ";;" := andThen (at level 100, right associativity) : printer_scope.

(** The sequence number of a prefix list is counted by its name, that of a route map by
    the session: the maps of both directions share it. *)
Definition prefixListEntry (family name : string) (permit : bool) (what : pattern) : printer := λ c,
  let '(n, c) := counter name c in ([SPrefixList family name n permit what], c).

Definition routeMapEntry (session suffix : string) (permit : bool) (family plist : string)
    (sets : list string) (next : bool) : printer := λ c,
  let '(n, c) := counter session c in
  ([SRouteMap session suffix permit n family plist sets next], c).

Definition empty {A} (l : list A) : bool := (length l =? 0)%nat.

Open Scope printer_scope.

(** The lists and maps of the properties set on some prefixes. *)
Definition modifierFilters (n : NeighborConfig) : printer :=
  forEach (PrefixLists (NC_Outgoing n)) (λ pl,
    forEach (SortedPrefixes pl) (λ prefix,
      prefixListEntry (PPL_IPFamily pl) (PrefixListName pl) true (PPrefix prefix 0 0)) ;;
    routeMapEntry (ID n) "-out" true (PPL_IPFamily pl) (PrefixListName pl) [SetStatement pl] true).

Definition outgoingFilters (n : NeighborConfig) : printer :=
  let out := NC_Outgoing n in
  let v4 := ToAdvertisePrefixListV4 n in
  let v6 := ToAdvertisePrefixListV6 n in
  onlyIf (empty (AO_PrefixesV4 out)) (prefixListEntry "ip" v4 false PAny) ;;
  forEach (AO_PrefixesV4 out) (λ a, prefixListEntry "ip" v4 true (PPrefix a 0 0)) ;;
  onlyIf (empty (AO_PrefixesV6 out)) (prefixListEntry "ipv6" v6 false PAny) ;;
  forEach (AO_PrefixesV6 out) (λ a, prefixListEntry "ipv6" v6 true (PPrefix a 0 0)) ;;
  routeMapEntry (ID n) "-out" true "ip" v4
    (if bool_decide (AO_NextHopV4 out = "") then [] else ["set ip next-hop " +:+ AO_NextHopV4 out]) false ;;
  routeMapEntry (ID n) "-out" true "ipv6" v6
    (if bool_decide (AO_NextHopV6 out = "") then []
     else ["set ipv6 next-hop global " +:+ AO_NextHopV6 out]) false.

Definition filterEntry (name : string) (i : IncomingFilter) : printer :=
  prefixListEntry (templateIPFamily (IF_IPFamily i)) name true
    (PPrefix (IF_Prefix i) (IF_LE i) (IF_GE i)).

Definition incomingFilters (n : NeighborConfig) : printer :=
  let inc := NC_Incoming n in
  let plistName := allowedIncomingList n in
  forEach (AllPrefixes inc) (filterEntry plistName) ;;
  (if AI_All inc then
     prefixListEntry "ip" plistName true PAny ;; prefixListEntry "ipv6" plistName true PAny
   else
     onlyIf (empty (AI_PrefixesV4 inc)) (prefixListEntry "ip" plistName false PAny) ;;
     onlyIf (empty (AI_PrefixesV6 inc)) (prefixListEntry "ipv6" plistName false PAny)) ;;
  onlyIf (negb (empty (NC_AlwaysBlock n)))
    (forEach (NC_AlwaysBlock n) (filterEntry (deniedIncomingList n)) ;;
     routeMapEntry (ID n) "-in" false "ip" (deniedIncomingList n) [] false ;;
     routeMapEntry (ID n) "-in" false "ipv6" (deniedIncomingList n) [] false) ;;
  routeMapEntry (ID n) "-in" true "ip" plistName [] false ;;
  routeMapEntry (ID n) "-in" true "ipv6" plistName [] false.

(** The template [neighborfilters]. *)
Definition neighborFilters (n : NeighborConfig) : printer :=
  modifierFilters n ;; outgoingFilters n ;; incomingFilters n.

(** The filters of all the sessions, in the order frr.tmpl ranges over them. *)
Definition fileFilters (config : Config NeighborConfig) : printer :=
  forEach (Config_Routers config) (λ r, forEach (RC_Neighbors r) neighborFilters).

Close Scope printer_scope.
