(* ===== verification/TemplateProps.v ===== *)
(** * What the printed filters let through

    The statements of [Template.v] are given the meaning FRR documents for prefix lists (the
    first entry that matches decides, nothing matches: deny) and route maps (the
    first matching entry decides unless it says to go on).  FRR keeps the entries of a list and of a map by their
    sequence numbers: it tries them in the order of the numbers, wherever they are in the file, and an entry replaces
    the one that had its number.  The numbers the templates draw from their counters are shown to keep every entry, in the
    order it is printed. *)

From Stdlib Require Import Ascii Lia.
From S2P Require Import Prelude GoStrings GoNet IPFamily Community Api FrrConfig Merge ApiToConfig.
From S2P Require Import Samples Template.

(** ** Reading statements *)

Definition list_entry (family name : string) (s : stmt) : option (bool * pattern) :=
  match s with
  | SPrefixList f n _ permit what =>
      if bool_decide (f = family ∧ n = name) then Some (permit, what) else None
  | SRouteMap _ _ _ _ _ _ _ _ => None
  end.

Record map_entry := mkMapEntry {
  ME_permit : bool;
  ME_family : string;
  ME_list : string;
  ME_sets : list string;
  ME_next : bool }.

Definition route_map_entry (name : string) (s : stmt) : option map_entry :=
  match s with
  | SRouteMap session suffix permit _ family plist sets next =>
      if bool_decide (session +:+ suffix = name) then Some (mkMapEntry permit family plist sets next) else None
  | SPrefixList _ _ _ _ _ => None
  end.

(** The entries with their sequence numbers. *)
Definition list_numbered (family name : string) (s : stmt) : option (N * (bool * pattern)) :=
  match s with
  | SPrefixList _ _ seq _ _ => pair seq <$> list_entry family name s
  | SRouteMap _ _ _ _ _ _ _ _ => None
  end.
Definition route_map_numbered (name : string) (s : stmt) : option (N * map_entry) :=
  match s with
  | SRouteMap _ _ _ seq _ _ _ _ => pair seq <$> route_map_entry name s
  | SPrefixList _ _ _ _ _ => None
  end.

(** ** The entries FRR keeps *)

(** An entry takes the place of its number; it replaces the entry that had the number. *)
Fixpoint put {A} (k : N) (x : A) (l : list (N * A)) : list (N * A) :=
  match l with
  | [] => [(k, x)]
  | (k', y) :: rest =>
      if (k <? k')%N then (k, x) :: l
      else if (k =? k')%N then (k, x) :: rest
      else (k', y) :: put k x rest
  end.
(** The entries in the order FRR tries them. *)
Definition installed {A} (l : list (N * A)) : list A :=
  snd <$> foldl (λ kept e, put e.1 e.2 kept) [] l.

Lemma put_last {A} k (x : A) l : Forall (λ e, e.1 < k)%N l → put k x l = l ++ [(k, x)].
Proof.
  induction 1 as [|[k' y] l Hk _ IH]; [done|]. cbn in *.
  rewrite (proj2 (N.ltb_ge _ _)), (proj2 (N.eqb_neq _ _)) by lia. by rewrite IH.
Qed.

Lemma installed_from {A} (l kept : list (N * A)) :
  StronglySorted N.lt (fst <$> (kept ++ l)) → foldl (λ kept e, put e.1 e.2 kept) kept l = kept ++ l.
Proof.
  revert kept. induction l as [|[k x] l IH]; intros kept Hs; [by rewrite app_nil_r|]. cbn [foldl fst snd].
  rewrite put_last.
  - rewrite IH; by rewrite <-app_assoc.
  - rewrite fmap_app in Hs. apply Forall_forall. intros e He.
    apply StronglySorted_app in Hs as (Hlt & _ & _). apply Hlt; [by apply list_elem_of_fmap_2|left].
Qed.

(** Entries whose numbers increase are all kept, in order. *)
Lemma installed_increasing {A} (l : list (N * A)) : StronglySorted N.lt (fst <$> l) → installed l = snd <$> l.
Proof. intros Hs. unfold installed. by rewrite installed_from. Qed.

Section semantics.
(** A route has an address family, "ip" or "ipv6"; [covers p le ge r] says whether the
    pattern [p le ge] matches the prefix of the route. *)
Context {route : Type} (family_of : route → string) (covers : string → N → N → route → bool).
(** Whether FRR accepts a route that only matched entries with [on-match next]. *)
Context (at_end : bool).

Definition pattern_matches (p : pattern) (r : route) : bool :=
  match p with PAny => true | PPrefix p le ge => covers p le ge r end.

Fixpoint list_permits (entries : list (bool * pattern)) (r : route) : bool :=
  match entries with
  | [] => false
  | (permit, p) :: entries => if pattern_matches p r then permit else list_permits entries r
  end.

Definition permits (stmts : list stmt) (family name : string) (r : route) : bool :=
  list_permits (installed (omap (list_numbered family name) stmts)) r.

(** The result: denied, or permitted with these settings. *)
Fixpoint run_map (matches : map_entry → bool) (entries : list map_entry) (acc : option (list string))
    : option (list string) :=
  match entries with
  | [] => if at_end then acc else None
  | e :: entries =>
      if matches e then
        if ME_permit e then
          let acc := default [] acc ++ ME_sets e in
          if ME_next e then run_map matches entries (Some acc) else Some acc
        else None
      else run_map matches entries acc
  end.

Definition apply_map (stmts : list stmt) (name : string) (r : route) : option (list string) :=
  run_map (λ e, bool_decide (ME_family e = family_of r) && permits stmts (ME_family e) (ME_list e) r)
    (installed (omap (route_map_numbered name) stmts)) None.

(** ** What a printer prints, whatever the counters are *)

Definition prints_list (p : printer) family name (l : list (bool * pattern)) : Prop :=
  ∀ c, omap (list_entry family name) (fst (p c)) = l.
Definition prints_map (p : printer) name (l : list map_entry) : Prop :=
  ∀ c, omap (route_map_entry name) (fst (p c)) = l.

Lemma fst_andThen {S} (p q : printerOf S) c : fst (andThen p q c) = fst (p c) ++ fst (q (snd (p c))).
Proof using Type. unfold andThen. destruct (p c) as [s c']; cbn. by destruct (q c') as [t c'']. Qed.

Lemma list_andThen p q f n a b :
  prints_list p f n a → prints_list q f n b → prints_list (andThen p q) f n (a ++ b).
Proof using Type. intros Hp Hq c. by rewrite fst_andThen, omap_app, Hp, Hq. Qed.

Lemma map_andThen p q n a b :
  prints_map p n a → prints_map q n b → prints_map (andThen p q) n (a ++ b).
Proof using Type. intros Hp Hq c. by rewrite fst_andThen, omap_app, Hp, Hq. Qed.

Lemma list_forEach {A} (l : list A) p f n (g : A → list (bool * pattern)) :
  (∀ x, x ∈ l → prints_list (p x) f n (g x)) → prints_list (forEach l p) f n (l ≫= g).
Proof using Type.
  intros Hp. induction l as [|x l IH]; [done|]. apply list_andThen; [apply Hp; by left|].
  apply IH. intros; apply Hp; by right.
Qed.

Lemma map_forEach {A} (l : list A) p n (g : A → list map_entry) :
  (∀ x, x ∈ l → prints_map (p x) n (g x)) → prints_map (forEach l p) n (l ≫= g).
Proof using Type.
  intros Hp. induction l as [|x l IH]; [done|]. apply map_andThen; [apply Hp; by left|].
  apply IH. intros; apply Hp; by right.
Qed.

Lemma list_onlyIf (b : bool) p f n l :
  prints_list p f n l → prints_list (onlyIf b p) f n (if b then l else []).
Proof using Type. by destruct b. Qed.
Lemma map_onlyIf (b : bool) p n l :
  prints_map p n l → prints_map (onlyIf b p) n (if b then l else []).
Proof using Type. by destruct b. Qed.

Lemma list_prefixListEntry f n f' n' permit what :
  prints_list (prefixListEntry f' n' permit what) f n
    (if bool_decide (f' = f ∧ n' = n) then [(permit, what)] else []).
Proof using Type. intros c. cbn. by case_bool_decide. Qed.
Lemma list_routeMapEntry f n s x permit f' l sets next :
  prints_list (routeMapEntry s x permit f' l sets next) f n [].
Proof using Type. by intros c. Qed.
Lemma map_prefixListEntry m f n permit what : prints_map (prefixListEntry f n permit what) m [].
Proof using Type. by intros c. Qed.
Lemma map_routeMapEntry m s x permit f l sets next :
  prints_map (routeMapEntry s x permit f l sets next) m
    (if bool_decide (s +:+ x = m) then [mkMapEntry permit f l sets next] else []).
Proof using Type. intros c. cbn. by case_bool_decide. Qed.

(** ** The lists and maps of a session *)

(** The names of the prefix lists are told apart. *)
Record names_ok (n : NeighborConfig) : Prop := {
  names_modifiers pl : pl ∈ PrefixLists (NC_Outgoing n) →
    PrefixListName pl ∉ [ToAdvertisePrefixListV4 n; ToAdvertisePrefixListV6 n;
                         allowedIncomingList n; deniedIncomingList n];
  names_distinct : NoDup (PrefixListName <$> PrefixLists (NC_Outgoing n)) }.

Lemma session_names n :
  NoDup [ToAdvertisePrefixListV4 n; ToAdvertisePrefixListV6 n;
         allowedIncomingList n; deniedIncomingList n].
Proof using Type.
  unfold ToAdvertisePrefixListV4, ToAdvertisePrefixListV6, allowedIncomingList, deniedIncomingList.
  rewrite !NoDup_cons, !not_elem_of_cons.
  split_and!; try apply not_elem_of_nil; try apply NoDup_nil_2;
    intros H%(inj (String.append (ID n))); discriminate H.
Qed.

(** A loop that prints one entry per element, or nothing. *)
Lemma bind_singletons {A B} (h : A → B) l : (l ≫= λ x, [h x]) = h <$> l.
Proof using Type. induction l as [|x l IH]; [done|]. cbn. by rewrite IH. Qed.
Lemma bind_empty {A B} (g : A → list B) l : (∀ x, x ∈ l → g x = []) → l ≫= g = [].
Proof using Type.
  induction l as [|x l IH]; intros Hg; [done|]. cbn. rewrite Hg by (by left). apply IH.
  intros; apply Hg; by right.
Qed.
Lemma bind_one {A B} `{EqDecision K} (key : A → K) (g : A → list B) l x :
  NoDup (key <$> l) → x ∈ l → (l ≫= λ y, if bool_decide (key y = key x) then g y else []) = g x.
Proof using Type.
  induction l as [|y l IH]; intros Hnd Hx; [by apply elem_of_nil in Hx|].
  cbn [fmap list_fmap] in Hnd. apply NoDup_cons in Hnd as [Hy Hnd]. cbn [mbind list_bind].
  apply elem_of_cons in Hx as [->|Hx].
  - rewrite bool_decide_true, bind_empty; [by rewrite app_nil_r| |done].
    intros z Hz. rewrite bool_decide_false; [done|]. intros He. apply Hy. rewrite <-He.
    apply list_elem_of_fmap. by exists z.
  - rewrite bool_decide_false; [by apply IH|]. intros He. apply Hy. rewrite He.
    apply list_elem_of_fmap. by exists x.
Qed.

Lemma list_permits_all (ps : list pattern) rest r :
  list_permits ((pair true <$> ps) ++ rest) r =
  existsb (λ p, pattern_matches p r) ps || list_permits rest r.
Proof using Type. induction ps as [|p ps IH]; [done|]. cbn. by destruct (pattern_matches p r). Qed.

Lemma prints_list_eq p f n l l' : prints_list p f n l → l = l' → prints_list p f n l'.
Proof using Type. by intros ? <-. Qed.
Lemma prints_map_eq p n l l' : prints_map p n l → l = l' → prints_map p n l'.
Proof using Type. by intros ? <-. Qed.

(** An entry of the list asked for, or none. *)
Definition entry_if (b : bool) (e : bool * pattern) : list (bool * pattern) := if b then [e] else [].

Lemma bind_entry_if {A} (b : bool) (h : A → bool * pattern) l :
  (l ≫= λ x, if b then [h x] else []) = if b then h <$> l else [].
Proof using Type. destruct b; [apply bind_singletons|by apply bind_empty]. Qed.
End semantics.

(** Print a template, collecting the entries of a list or of a map. *)
Ltac prints :=
  repeat first
    [ apply list_andThen | apply list_forEach; intros ? _ | apply list_onlyIf
    | apply list_prefixListEntry | apply list_routeMapEntry
    | apply map_andThen | apply map_forEach; intros ? _ | apply map_onlyIf
    | apply map_prefixListEntry | apply map_routeMapEntry ].

Section sessions.
Context (n : NeighborConfig).
Notation out := (NC_Outgoing n).

Lemma modifierFilters_list f nm :
  prints_list (modifierFilters n) f nm
    (PrefixLists out ≫= λ pl, if bool_decide (PPL_IPFamily pl = f ∧ PrefixListName pl = nm)
       then pair true <$> ((λ p, PPrefix p 0 0) <$> SortedPrefixes pl) else []).
Proof.
  eapply prints_list_eq; [prints|]. cbn beta. apply list_bind_ext; [|done].
  intros pl. rewrite bind_entry_if, app_nil_r, <-list_fmap_compose. done.
Qed.

Definition allowed (l : list string) : list (bool * pattern) :=
  (if empty l then [(false, PAny)] else []) ++ (pair true <$> ((λ p, PPrefix p 0 0) <$> l)).

Lemma outgoingFilters_list f nm :
  prints_list (outgoingFilters n) f nm
    ((if bool_decide ("ip" = f ∧ ToAdvertisePrefixListV4 n = nm) then allowed (AO_PrefixesV4 out) else []) ++
     (if bool_decide ("ipv6" = f ∧ ToAdvertisePrefixListV6 n = nm) then allowed (AO_PrefixesV6 out) else [])).
Proof.
  eapply prints_list_eq; [unfold outgoingFilters; prints|]. cbn beta.
  rewrite !bind_entry_if, !app_nil_r, app_assoc. unfold allowed.
  rewrite <-!list_fmap_compose.
  repeat case_bool_decide; destruct (empty (AO_PrefixesV4 out)), (empty (AO_PrefixesV6 out)); done.
Qed.

Definition filter_pattern (i : IncomingFilter) : pattern := PPrefix (IF_Prefix i) (IF_LE i) (IF_GE i).
Definition of_family (f : string) (l : list IncomingFilter) : list IncomingFilter :=
  filter (λ i, templateIPFamily (IF_IPFamily i) = f) l.

Lemma filterEntry_list l name f nm :
  prints_list (forEach l (filterEntry name)) f nm
    (if bool_decide (name = nm) then pair true <$> (filter_pattern <$> of_family f l) else []).
Proof.
  eapply prints_list_eq; [unfold filterEntry; prints|]. cbn beta.
  induction l as [|i l IH]; [by case_bool_decide|]. cbn [mbind list_bind]. rewrite IH.
  unfold of_family. rewrite filter_cons. repeat (case_bool_decide || case_decide); naive_solver.
Qed.

(** The last entry of the list of allowed prefixes. *)
Definition last_entry (f : string) : list (bool * pattern) :=
  if AI_All (NC_Incoming n) then [(true, PAny)]
  else if bool_decide (f = "ip") then
    if empty (AI_PrefixesV4 (NC_Incoming n)) then [(false, PAny)] else []
  else if empty (AI_PrefixesV6 (NC_Incoming n)) then [(false, PAny)] else [].

Lemma last_entry_list f nm :
  f = "ip" ∨ f = "ipv6" →
  let name := allowedIncomingList n in
  prints_list (if AI_All (NC_Incoming n)
    then andThen (prefixListEntry "ip" name true PAny) (prefixListEntry "ipv6" name true PAny)
    else andThen
      (onlyIf (empty (AI_PrefixesV4 (NC_Incoming n))) (prefixListEntry "ip" name false PAny))
      (onlyIf (empty (AI_PrefixesV6 (NC_Incoming n))) (prefixListEntry "ipv6" name false PAny))) f nm
    (if bool_decide (name = nm) then last_entry f else []).
Proof.
  intros Hf name. unfold last_entry.
  destruct (AI_All (NC_Incoming n)); (eapply prints_list_eq; [prints|]);
    destruct Hf as [-> | ->];
    repeat case_bool_decide; try naive_solver;
    by destruct (empty (AI_PrefixesV4 _)), (empty (AI_PrefixesV6 _)).
Qed.

Lemma blocked_list f nm :
  prints_list (onlyIf (negb (empty (NC_AlwaysBlock n)))
    (andThen (forEach (NC_AlwaysBlock n) (filterEntry (deniedIncomingList n)))
      (andThen (routeMapEntry (ID n) "-in" false "ip" (deniedIncomingList n) [] false)
        (routeMapEntry (ID n) "-in" false "ipv6" (deniedIncomingList n) [] false)))) f nm
    (if bool_decide (deniedIncomingList n = nm)
     then pair true <$> (filter_pattern <$> of_family f (NC_AlwaysBlock n)) else []).
Proof.
  eapply prints_list_eq.
  { apply list_onlyIf, list_andThen; [apply filterEntry_list|prints]. }
  rewrite app_nil_r. destruct (NC_AlwaysBlock n); [by case_bool_decide|done].
Qed.

Lemma incomingFilters_list f nm :
  f = "ip" ∨ f = "ipv6" →
  prints_list (incomingFilters n) f nm
    ((if bool_decide (allowedIncomingList n = nm)
      then (pair true <$> (filter_pattern <$> of_family f (AllPrefixes (NC_Incoming n)))) ++ last_entry f
      else []) ++
     (if bool_decide (deniedIncomingList n = nm)
      then pair true <$> (filter_pattern <$> of_family f (NC_AlwaysBlock n)) else [])).
Proof.
  intros Hf. eapply prints_list_eq.
  { apply list_andThen; [apply filterEntry_list|].
    apply list_andThen; [by apply last_entry_list|].
    apply list_andThen; [apply blocked_list|]. apply list_andThen; apply list_routeMapEntry. }
  rewrite app_nil_r. by destruct (bool_decide (allowedIncomingList n = nm)); rewrite <-?app_assoc.
Qed.

(** ** The route maps *)

Definition map_out : list map_entry :=
  ((λ pl, mkMapEntry true (PPL_IPFamily pl) (PrefixListName pl) [SetStatement pl] true) <$> PrefixLists out) ++
  [mkMapEntry true "ip" (ToAdvertisePrefixListV4 n)
     (if bool_decide (AO_NextHopV4 out = "") then [] else ["set ip next-hop " +:+ AO_NextHopV4 out]) false;
   mkMapEntry true "ipv6" (ToAdvertisePrefixListV6 n)
     (if bool_decide (AO_NextHopV6 out = "") then []
      else ["set ipv6 next-hop global " +:+ AO_NextHopV6 out]) false].

Definition map_in : list map_entry :=
  (if empty (NC_AlwaysBlock n) then []
   else [mkMapEntry false "ip" (deniedIncomingList n) [] false;
         mkMapEntry false "ipv6" (deniedIncomingList n) [] false]) ++
  [mkMapEntry true "ip" (allowedIncomingList n) [] false;
   mkMapEntry true "ipv6" (allowedIncomingList n) [] false].

Lemma in_out_differ : ID n +:+ "-in" ≠ ID n +:+ "-out".
Proof. intros H%(inj (String.append (ID n))). discriminate H. Qed.

(** The printers of prefix lists print no route map. *)
Lemma last_entry_map m :
  let name := allowedIncomingList n in
  prints_map (if AI_All (NC_Incoming n)
    then andThen (prefixListEntry "ip" name true PAny) (prefixListEntry "ipv6" name true PAny)
    else andThen
      (onlyIf (empty (AI_PrefixesV4 (NC_Incoming n))) (prefixListEntry "ip" name false PAny))
      (onlyIf (empty (AI_PrefixesV6 (NC_Incoming n))) (prefixListEntry "ipv6" name false PAny))) m [].
Proof.
  intros name. destruct (AI_All (NC_Incoming n)); (eapply prints_map_eq; [prints|]); [done|].
  by destruct (empty (AI_PrefixesV4 _)), (empty (AI_PrefixesV6 _)).
Qed.

Lemma incomingFilters_map m :
  prints_map (incomingFilters n) m (if bool_decide (ID n +:+ "-in" = m) then map_in else []).
Proof.
  eapply prints_map_eq.
  { apply map_andThen; [unfold filterEntry; prints|]. apply map_andThen; [apply last_entry_map|].
    unfold filterEntry. prints. }
  rewrite !bind_empty by done. unfold map_in.
  destruct (empty (NC_AlwaysBlock n)); by case_bool_decide.
Qed.

Lemma neighborFilters_out : prints_map (neighborFilters n) (ID n +:+ "-out") map_out.
Proof.
  eapply prints_map_eq.
  { apply map_andThen; [unfold modifierFilters; prints|].
    apply map_andThen; [unfold outgoingFilters; prints|apply incomingFilters_map]. }
  rewrite (bool_decide_true (_ = _)), (bool_decide_false (ID n +:+ "-in" = _)) by
    (done || apply in_out_differ).
  rewrite !app_nil_r. unfold map_out. f_equal.
  - rewrite <-bind_singletons. apply list_bind_ext; [|done]. intros pl. by rewrite bind_empty.
  - rewrite !bind_empty by done.
    by destruct (empty (AO_PrefixesV4 out)), (empty (AO_PrefixesV6 out)).
Qed.

Lemma neighborFilters_in : prints_map (neighborFilters n) (ID n +:+ "-in") map_in.
Proof.
  eapply prints_map_eq.
  { apply map_andThen; [unfold modifierFilters; prints|].
    apply map_andThen; [unfold outgoingFilters; prints|apply incomingFilters_map]. }
  rewrite (bool_decide_false (ID n +:+ "-out" = _)), (bool_decide_true (_ = _)) by
    (done || (intros H; by apply in_out_differ)).
  rewrite (bind_empty _ (AO_PrefixesV4 out)), (bind_empty _ (AO_PrefixesV6 out)),
    (bind_empty _ (PrefixLists out)) by (done || (intros pl _; by rewrite bind_empty)).
  by destruct (empty (AO_PrefixesV4 out)), (empty (AO_PrefixesV6 out)).
Qed.
End sessions.

(** ** Sequence numbers *)

(** The sequence number a statement took from a counter. *)
Definition counted (k : string) (s : stmt) : option N :=
  match s with
  | SPrefixList _ name seq _ _ => if bool_decide (name = k) then Some seq else None
  | SRouteMap session _ _ seq _ _ _ _ => if bool_decide (session = k) then Some seq else None
  end.

Definition reached (c : counters) (k : string) : N := default 0%N (c !! k).

(** A route map is the incoming or the outgoing one of its session. *)
Definition known_suffix (s : stmt) : Prop :=
  match s with SRouteMap _ suffix _ _ _ _ _ _ => suffix ∈ ["-in"; "-out"] | SPrefixList _ _ _ _ _ => True end.

(** The numbers printed are increasing, above the counter before and up to the counter after. *)
Definition increasing (p : printer) : Prop := ∀ c, Forall known_suffix (fst (p c)) ∧ ∀ k,
  StronglySorted N.lt (omap (counted k) (fst (p c))) ∧
  Forall (λ x, reached c k < x ≤ reached (snd (p c)) k)%N (omap (counted k) (fst (p c))) ∧
  (reached c k ≤ reached (snd (p c)) k)%N.

Lemma increasing_skip : increasing skip.
Proof. intros c. split; [constructor|]. intros k. split_and!; [constructor..|cbn; lia]. Qed.

Lemma StronglySorted_app_lt l1 l2 m :
  StronglySorted N.lt l1 → StronglySorted N.lt l2 →
  Forall (λ x, x ≤ m)%N l1 → Forall (λ x, m < x)%N l2 → StronglySorted N.lt (l1 ++ l2).
Proof.
  intros H1 H2 Hm1 Hm2. induction H1 as [|x l H1 IH Hx]; [done|]. cbn.
  apply Forall_cons in Hm1 as [? Hm1]. constructor; [by apply IH|]. apply Forall_app. split; [done|].
  eapply Forall_impl; [exact Hm2|]. cbn. intros; lia.
Qed.

Lemma increasing_andThen p q : increasing p → increasing q → increasing (andThen p q).
Proof.
  intros Hp Hq c. rewrite fst_andThen. destruct (Hp c) as [Sfp Hpc], (Hq (snd (p c))) as [Sfq Hqc].
  split; [by apply Forall_app|]. intros k. rewrite omap_app.
  assert (snd (andThen p q c) = snd (q (snd (p c)))) as ->.
  { unfold andThen. destruct (p c) as [s c']; cbn. by destruct (q c'). }
  destruct (Hpc k) as (Sp & Fp & Lp), (Hqc k) as (Sq & Fq & Lq). split_and!; [|..|lia].
  - apply (StronglySorted_app_lt _ _ (reached (snd (p c)) k)); [done..| |].
    + eapply Forall_impl; [exact Fp|]. cbn. intros; lia.
    + eapply Forall_impl; [exact Fq|]. cbn. intros; lia.
  - apply Forall_app. split.
    + eapply Forall_impl; [exact Fp|]. cbn. intros; lia.
    + eapply Forall_impl; [exact Fq|]. cbn. intros; lia.
Qed.

Lemma increasing_forEach {A} (l : list A) p : (∀ x, increasing (p x)) → increasing (forEach l p).
Proof. intros Hp. induction l; [apply increasing_skip|by apply increasing_andThen]. Qed.

Lemma increasing_onlyIf b p : increasing p → increasing (onlyIf b p).
Proof. destruct b; [done|intros _; apply increasing_skip]. Qed.

(** A statement numbered by the counter [name]. *)
Lemma increasing_counter name (mk : N → stmt) :
  (∀ seq, known_suffix (mk seq)) →
  (∀ seq k, counted k (mk seq) = if bool_decide (name = k) then Some seq else None) →
  increasing (λ c, let '(i, c) := counter name c in ([mk i], c)).
Proof.
  intros Hs Hmk c. cbn. split; [by apply Forall_singleton|]. intros k. rewrite Hmk. unfold reached. case_bool_decide as Hk.
  - subst k. rewrite lookup_insert_eq. cbn. split_and!; [repeat constructor| |lia].
    apply Forall_singleton. lia.
  - rewrite lookup_insert_ne by done. split_and!; [constructor..|lia].
Qed.

Lemma increasing_prefixListEntry f nm permit what : increasing (prefixListEntry f nm permit what).
Proof. by apply (increasing_counter nm (λ i, SPrefixList f nm i permit what)). Qed.
Lemma increasing_routeMapEntry s x permit f l sets next :
  x ∈ ["-in"; "-out"] → increasing (routeMapEntry s x permit f l sets next).
Proof. intros Hx. by apply (increasing_counter s (λ i, SRouteMap s x permit i f l sets next)). Qed.

(** The statements of a prefix list, and those of a route map, are printed in the order of
    their sequence numbers, which are all different: FRR keeps them in the order of the
    file. *)
Lemma neighborFilters_increasing n : increasing (neighborFilters n).
Proof.
  unfold neighborFilters, modifierFilters, outgoingFilters, incomingFilters, filterEntry.
  destruct (AI_All (NC_Incoming n));
    repeat first [ apply increasing_andThen | apply increasing_forEach; intros ?
      | apply increasing_onlyIf | apply increasing_prefixListEntry | apply increasing_routeMapEntry; by_evaluation ].
Qed.

(** Some of the numbers of a counter, in order. *)
Lemma numbered_increasing {A} (sel : stmt → option (N * A)) k (ss : list stmt) :
  Forall (λ s, ∀ e, sel s = Some e → counted k s = Some e.1) ss →
  StronglySorted N.lt (omap (counted k) ss) → StronglySorted N.lt (fst <$> omap sel ss).
Proof.
  intros Hsel Hs.
  assert (fst <$> omap sel ss `sublist_of` omap (counted k) ss) as Hsub.
  { clear Hs. induction Hsel as [|s ss Hsel _ IH]; [constructor|]. cbn [omap list_omap].
    destruct (sel s) as [e|] eqn:E.
    - rewrite (Hsel e eq_refl). by constructor.
    - destruct (counted k s); [by constructor|done]. }
  revert Hs. induction Hsub as [|x l1 l2 Hsub IH|x l1 l2 _ IH]; [done|..]; intros [Hs Hx]%StronglySorted_inv; [|auto].
  constructor; [auto|]. apply Forall_forall. intros y Hy. rewrite Forall_forall in Hx. apply Hx.
  by apply (elem_of_sublist l1).
Qed.

Lemma snd_omap {A} (sel : stmt → option (N * A)) (sel' : stmt → option A) (ss : list stmt) :
  (∀ s, snd <$> sel s = sel' s) → snd <$> omap sel ss = omap sel' ss.
Proof.
  intros Hs. induction ss as [|s ss IH]; [done|]. cbn [omap list_omap]. rewrite <-Hs.
  destruct (sel s); cbn; by rewrite <-IH.
Qed.

(** FRR keeps the printed entries of every list and of every map, in the order of the file. *)
Lemma installed_list p c f nm :
  increasing p → installed (omap (list_numbered f nm) (fst (p c))) = omap (list_entry f nm) (fst (p c)).
Proof.
  intros Hp. destruct (Hp c) as [_ Hs]. rewrite installed_increasing.
  - apply snd_omap. intros []; [|done]. cbn. by case_bool_decide.
  - apply (numbered_increasing _ nm); [|apply Hs]. apply Forall_true. intros []; [|done]. cbn.
    intros e. case_bool_decide as Hd; [|done]. intros [= <-]. by rewrite bool_decide_true by apply Hd.
Qed.

Lemma installed_map p c session suffix :
  increasing p → suffix ∈ ["-in"; "-out"] →
  installed (omap (route_map_numbered (session +:+ suffix)) (fst (p c))) =
  omap (route_map_entry (session +:+ suffix)) (fst (p c)).
Proof.
  intros Hp Hx. destruct (Hp c) as [Hk Hs]. rewrite installed_increasing.
  - apply snd_omap. intros []; [done|]. cbn. by case_bool_decide.
  - apply (numbered_increasing _ session); [|apply Hs]. eapply Forall_impl; [exact Hk|].
    intros [|s x]; [done|]. cbn. intros Hx' e. case_bool_decide as Hd; [|done]. intros [= <-].
    rewrite bool_decide_true; [done|]. rewrite !elem_of_cons, elem_of_nil in Hx, Hx'.
    by destruct Hx as [->|[->|[]]], Hx' as [->|[->|[]]]; apply sep_inj_r in Hd as [? ?].
Qed.

(** ** What the maps decide *)

Section decisions.
Context {route : Type} (family_of : route → string) (covers : string → N → N → route → bool).
Context (at_end : bool) (n : NeighborConfig) (Hnames : names_ok n).

Notation stmts c := (fst (neighborFilters n c)).
Notation out := (NC_Outgoing n).

(** A filter of the family of the route covers it. *)
Definition covered (l : list IncomingFilter) (r : route) : bool :=
  existsb (λ i, bool_decide (IF_IPFamily i = IPv6 ↔ family_of r = "ipv6") &&
    covers (IF_Prefix i) (IF_LE i) (IF_GE i) r) l.
Definition exactly (l : list string) (r : route) : bool := existsb (λ p, covers p 0 0 r) l.

Lemma covered_family l r :
  family_of r = "ip" ∨ family_of r = "ipv6" →
  covered l r = existsb (λ i, covers (IF_Prefix i) (IF_LE i) (IF_GE i) r) (of_family (family_of r) l).
Proof using Type.
  intros Hf. unfold covered, of_family. induction l as [|i l IH]; [done|]. cbn [existsb]. rewrite filter_cons, IH.
  assert (templateIPFamily (IF_IPFamily i) = family_of r ↔ (IF_IPFamily i = IPv6 ↔ family_of r = "ipv6")) as Hi.
  { unfold templateIPFamily. case_bool_decide; destruct Hf as [-> | ->]; naive_solver. }
  destruct (decide (templateIPFamily (IF_IPFamily i) = family_of r)) as [Hd|Hd].
  - by rewrite (bool_decide_eq_true_2 _ (proj1 Hi Hd)).
  - by rewrite bool_decide_eq_false_2 by (intros He; by apply Hd, (proj2 Hi)).
Qed.

Lemma no_modifier nm f :
  nm ∈ [ToAdvertisePrefixListV4 n; ToAdvertisePrefixListV6 n;
        allowedIncomingList n; deniedIncomingList n] →
  prints_list (modifierFilters n) f nm [].
Proof using Hnames.
  intros Hnm. eapply prints_list_eq; [apply modifierFilters_list|].
  apply bind_empty. intros pl Hpl. rewrite bool_decide_false; [done|].
  intros [_ Hp]. apply (names_modifiers _ Hnames pl Hpl). by rewrite Hp.
Qed.

Lemma existsb_fmap {A B} (g : B → bool) (h : A → B) l : existsb g (h <$> l) = existsb (g ∘ h) l.
Proof using Type. induction l as [|x l IH]; [done|]. cbn. by rewrite IH. Qed.

Lemma permits_patterns {A} (h : A → pattern) l rest r :
  list_permits covers ((pair true <$> (h <$> l)) ++ rest) r =
  existsb (λ x, pattern_matches covers (h x) r) l || list_permits covers rest r.
Proof using Type. by rewrite list_permits_all, existsb_fmap. Qed.

(** The entries of one of the lists of the session itself. *)
Lemma session_list nm f c :
  nm ∈ [ToAdvertisePrefixListV4 n; ToAdvertisePrefixListV6 n;
        allowedIncomingList n; deniedIncomingList n] →
  f = "ip" ∨ f = "ipv6" →
  omap (list_entry f nm) (stmts c) =
  ((if bool_decide ("ip" = f ∧ ToAdvertisePrefixListV4 n = nm) then allowed (AO_PrefixesV4 out) else []) ++
   (if bool_decide ("ipv6" = f ∧ ToAdvertisePrefixListV6 n = nm) then allowed (AO_PrefixesV6 out) else [])) ++
  ((if bool_decide (allowedIncomingList n = nm)
    then (pair true <$> (filter_pattern <$> of_family f (AllPrefixes (NC_Incoming n)))) ++ last_entry n f
    else []) ++
   (if bool_decide (deniedIncomingList n = nm)
    then pair true <$> (filter_pattern <$> of_family f (NC_AlwaysBlock n)) else [])).
Proof using Hnames.
  intros Hnm Hf.
  exact (list_andThen _ _ _ _ _ _ (no_modifier nm f Hnm)
    (list_andThen _ _ _ _ _ _ (outgoingFilters_list n f nm) (incomingFilters_list n f nm Hf)) c).
Qed.

Lemma permits_allowed_in c r :
  family_of r = "ip" ∨ family_of r = "ipv6" →
  permits covers (stmts c) (family_of r) (allowedIncomingList n) r =
  AI_All (NC_Incoming n) || covered (AllPrefixes (NC_Incoming n)) r.
Proof using Hnames.
  intros Hf. pose proof (session_names n) as Hs.
  rewrite !NoDup_cons, !not_elem_of_cons in Hs. destruct Hs as ((?&?&?&?)&(?&?&?)&(?&?)&?).
  unfold permits. rewrite installed_list by apply neighborFilters_increasing.
  rewrite session_list by (done || set_solver).
  rewrite (bool_decide_false ("ip" = _ ∧ _)), (bool_decide_false ("ipv6" = _ ∧ _)) by naive_solver.
  rewrite (bool_decide_true (_ = allowedIncomingList n)), (bool_decide_false (deniedIncomingList n = _)) by done.
  cbn [app]. rewrite app_nil_r, permits_patterns, covered_family, orb_comm by done. f_equal.
  unfold last_entry. destruct (AI_All (NC_Incoming n)); [done|].
  case_bool_decide; [by destruct (empty (AI_PrefixesV4 _))|by destruct (empty (AI_PrefixesV6 _))].
Qed.

Lemma permits_denied_in c r :
  family_of r = "ip" ∨ family_of r = "ipv6" →
  permits covers (stmts c) (family_of r) (deniedIncomingList n) r = covered (NC_AlwaysBlock n) r.
Proof using Hnames.
  intros Hf. pose proof (session_names n) as Hs.
  rewrite !NoDup_cons, !not_elem_of_cons in Hs. destruct Hs as ((?&?&?&?)&(?&?&?)&(?&?)&?).
  unfold permits. rewrite installed_list by apply neighborFilters_increasing.
  rewrite session_list by (done || set_solver).
  rewrite (bool_decide_false ("ip" = _ ∧ _)), (bool_decide_false ("ipv6" = _ ∧ _)) by naive_solver.
  rewrite (bool_decide_false (allowedIncomingList n = _)), (bool_decide_true (_ = deniedIncomingList n)) by done.
  cbn [app]. rewrite <-(app_nil_r (pair true <$> _)), permits_patterns, covered_family by done. apply orb_false_r.
Qed.

(** The printed incoming filters accept exactly what is allowed: a route of a session is
    accepted by the route map of the session if and only if no prefix to always
    block covers it and either everything is allowed or an allowed prefix of its family, with its
    length bounds, covers it; whatever pattern matching is, and whatever
    the counters were when the template started. *)
Theorem incoming_filters_exact c r :
  family_of r = "ip" ∨ family_of r = "ipv6" →
  apply_map family_of covers at_end (stmts c) (ID n +:+ "-in") r =
  if covered (NC_AlwaysBlock n) r then None
  else if AI_All (NC_Incoming n) || covered (AllPrefixes (NC_Incoming n)) r then Some [] else None.
Proof using Hnames.
  intros Hf. unfold apply_map. rewrite installed_map, (neighborFilters_in n c)
    by (apply neighborFilters_increasing || by_evaluation). unfold map_in.
  assert (NC_AlwaysBlock n = [] → covered (NC_AlwaysBlock n) r = false) as Hb by (by intros ->).
  pose proof (permits_allowed_in c r Hf) as Ha. pose proof (permits_denied_in c r Hf) as Hd.
  destruct (NC_AlwaysBlock n) as [|b bs]; cbn [empty length Nat.eqb app run_map ME_family ME_list ME_permit ME_next ME_sets default];
    destruct Hf as [Hf|Hf]; rewrite Hf in *; cbn [bool_decide] in *;
    rewrite ?(bool_decide_true ("ip" = "ip")), ?(bool_decide_false ("ipv6" = "ip")),
      ?(bool_decide_false ("ip" = "ipv6")), ?(bool_decide_true ("ipv6" = "ipv6")) by done; cbn [andb];
    rewrite ?Ha, ?Hd, ?Hb by done;
    destruct (AI_All (NC_Incoming n) || covered (AllPrefixes (NC_Incoming n)) r), at_end;
    try done; by destruct (covered _ r).
Qed.

(** ** Outgoing routes *)

(** The prefixes of the family of a route. *)
Definition advertised (r : route) : list string :=
  if bool_decide (family_of r = "ip") then AO_PrefixesV4 out else AO_PrefixesV6 out.
Definition next_hop_set (r : route) : list string :=
  if bool_decide (family_of r = "ip")
  then if bool_decide (AO_NextHopV4 out = "") then [] else ["set ip next-hop " +:+ AO_NextHopV4 out]
  else if bool_decide (AO_NextHopV6 out = "") then []
       else ["set ipv6 next-hop global " +:+ AO_NextHopV6 out].
(** The property applies to the route. *)
Definition applies (r : route) (pl : PropertyPrefixList) : bool :=
  bool_decide (PPL_IPFamily pl = family_of r) && exactly (SortedPrefixes pl) r.

Lemma permits_allowed l r : list_permits covers (allowed l) r = exactly l r.
Proof using Type.
  unfold allowed. destruct l as [|p l]; [done|]. cbn [empty length Nat.eqb app].
  rewrite <-(app_nil_r (pair true <$> _)), permits_patterns. apply orb_false_r.
Qed.

Lemma permits_out c r :
  family_of r = "ip" ∨ family_of r = "ipv6" →
  permits covers (stmts c) (family_of r)
    (if bool_decide (family_of r = "ip") then ToAdvertisePrefixListV4 n else ToAdvertisePrefixListV6 n) r =
  exactly (advertised r) r.
Proof using Hnames.
  intros Hf. pose proof (session_names n) as Hs. unfold advertised.
  rewrite !NoDup_cons, !not_elem_of_cons in Hs. destruct Hs as ((?&?&?&?)&(?&?&?)&(?&?)&?).
  unfold permits. rewrite installed_list by apply neighborFilters_increasing.
  destruct Hf as [Hf|Hf]; rewrite Hf; cbn [bool_decide];
    rewrite ?(bool_decide_true ("ip" = "ip")), ?(bool_decide_false ("ipv6" = "ip")) by done;
    rewrite session_list by first [by left | by right | right; by left].
  - rewrite (bool_decide_true ("ip" = "ip" ∧ _)), (bool_decide_false ("ipv6" = "ip" ∧ _)) by naive_solver.
    rewrite !bool_decide_false by done. rewrite !app_nil_r. apply permits_allowed.
  - rewrite (bool_decide_false ("ip" = "ipv6" ∧ _)), (bool_decide_true ("ipv6" = "ipv6" ∧ _)) by naive_solver.
    rewrite !bool_decide_false by done. rewrite !app_nil_r. apply permits_allowed.
Qed.

Lemma permits_modifier c r pl :
  pl ∈ PrefixLists out → PPL_IPFamily pl = family_of r →
  family_of r = "ip" ∨ family_of r = "ipv6" →
  permits covers (stmts c) (PPL_IPFamily pl) (PrefixListName pl) r = exactly (SortedPrefixes pl) r.
Proof using Hnames.
  intros Hpl Hfam Hf. pose proof (names_modifiers _ Hnames pl Hpl) as Hno.
  rewrite !not_elem_of_cons in Hno. destruct Hno as (?&?&?&?&_).
  unfold permits. rewrite installed_list by apply neighborFilters_increasing. rewrite Hfam.
  change (neighborFilters n c) with
    (andThen (modifierFilters n) (andThen (outgoingFilters n) (incomingFilters n)) c).
  rewrite (list_andThen _ _ _ _ _ _ (modifierFilters_list n (family_of r) (PrefixListName pl))
    (list_andThen _ _ _ _ _ _ (outgoingFilters_list n _ _) (incomingFilters_list n _ _ Hf)) c).
  rewrite (bool_decide_false ("ip" = _ ∧ _)), (bool_decide_false ("ipv6" = _ ∧ _)),
    (bool_decide_false (allowedIncomingList n = _)), (bool_decide_false (deniedIncomingList n = _))
    by naive_solver.
  rewrite !app_nil_r.
  rewrite (list_bind_ext _ (λ y, if bool_decide (PrefixListName y = PrefixListName pl) then
     if bool_decide (PPL_IPFamily y = family_of r)
     then pair true <$> ((λ p, PPrefix p 0 0) <$> SortedPrefixes y) else [] else []) _ (PrefixLists out));
    [|by intros y; repeat case_bool_decide; naive_solver|done].
  rewrite bind_one by (done || apply names_distinct, Hnames).
  rewrite bool_decide_true by done.
  rewrite <-(app_nil_r (pair true <$> _)), permits_patterns. apply orb_false_r.
Qed.

Lemma run_modifiers matches rest (pls : list PropertyPrefixList) (f : PropertyPrefixList → bool) acc :
  (∀ pl, pl ∈ pls → matches (mkMapEntry true (PPL_IPFamily pl) (PrefixListName pl) [SetStatement pl] true)
     = f pl) →
  run_map at_end matches
    (((λ pl, mkMapEntry true (PPL_IPFamily pl) (PrefixListName pl) [SetStatement pl] true) <$> pls) ++ rest) acc =
  run_map at_end matches rest
    (match SetStatement <$> filter (λ pl, f pl = true) pls with
     | [] => acc | sets => Some (default [] acc ++ sets) end).
Proof using Type.
  revert acc; induction pls as [|pl pls IH]; intros acc Hm; [done|]. cbn [fmap list_fmap app run_map].
  rewrite (Hm pl) by (by left). cbn [ME_permit ME_next ME_sets]. rewrite filter_cons.
  destruct (f pl) eqn:E; [rewrite decide_True by done|rewrite decide_False by congruence];
    rewrite IH by (intros; apply Hm; by right); [|done].
  rewrite fmap_cons. destruct (SetStatement <$> filter _ pls); [done|].
  cbn [default id]. by rewrite <-app_assoc.
Qed.

(** Every property is set on prefixes that are advertised. *)
Definition modifiers_advertised : Prop :=
  Forall (λ pl, Forall (λ p,
    (PPL_IPFamily pl = "ip" → p ∈ AO_PrefixesV4 out) ∧ (PPL_IPFamily pl = "ipv6" → p ∈ AO_PrefixesV6 out))
      (SortedPrefixes pl)) (PrefixLists out).

Lemma applies_advertised r pl :
  modifiers_advertised → family_of r = "ip" ∨ family_of r = "ipv6" →
  pl ∈ PrefixLists out → applies r pl = true → exactly (advertised r) r = true.
Proof using Type.
  unfold applies, exactly, advertised. intros Hmod Hf Hpl [Hfam Hp]%andb_true_iff.
  apply bool_decide_eq_true in Hfam. apply existsb_exists in Hp as (p & Hp & Hc).
  apply existsb_exists. exists p. split; [|done].
  apply list_elem_of_In in Hp. unfold modifiers_advertised in Hmod. rewrite Forall_forall in Hmod.
  specialize (Hmod pl Hpl). rewrite Forall_forall in Hmod. destruct (Hmod p Hp) as [H4 H6].
  apply list_elem_of_In.
  destruct Hf as [Hf|Hf]; rewrite Hf in *; [apply H4|apply H6]; done.
Qed.

(** The printed outgoing filters send exactly what is advertised: a route passes the outgoing
    route map of a session if and only if its prefix is one of the advertised
    prefixes of its family, and it leaves with exactly the local preferences and communities
    requested for its prefix and the next hop of its family, whichever way
    FRR ends a route map whose last match said to go on. *)
Theorem outgoing_filters_exact c r :
  modifiers_advertised → family_of r = "ip" ∨ family_of r = "ipv6" →
  apply_map family_of covers at_end (stmts c) (ID n +:+ "-out") r =
  if exactly (advertised r) r
  then Some ((SetStatement <$> filter (λ pl, applies r pl = true) (PrefixLists out)) ++ next_hop_set r)
  else None.
Proof using Hnames.
  intros Hmod Hf. unfold apply_map. rewrite installed_map, (neighborFilters_out n c)
    by (apply neighborFilters_increasing || by_evaluation). unfold map_out.
  rewrite (run_modifiers _ _ _ (applies r)).
  2:{ intros pl Hpl. cbn [ME_family ME_list]. unfold applies. case_bool_decide as Hfam; [|done].
      by rewrite permits_modifier. }
  pose proof (permits_out c r Hf) as Hout. cbn [run_map ME_family ME_list ME_permit ME_next ME_sets].
  unfold next_hop_set.
  assert (exactly (advertised r) r = false →
    filter (λ pl, applies r pl = true) (PrefixLists out) = []) as Hnone.
  { intros Hno. apply elem_of_nil_inv. intros pl [Ha Hpl]%list_elem_of_filter.
    by rewrite (applies_advertised r pl) in Hno. }
  destruct Hf as [Hf|Hf]; rewrite Hf in Hout |- *;
    change (bool_decide ("ip" = "ipv6")) with false in *;
    change (bool_decide ("ipv6" = "ip")) with false in *;
    change (bool_decide ("ip" = "ip")) with true in *;
    change (bool_decide ("ipv6" = "ipv6")) with true in *;
    cbn [andb]; rewrite Hout;
    (destruct (exactly (advertised r) r); [|rewrite Hnone by done; by destruct at_end]);
    by destruct (SetStatement <$> _).
Qed.
End decisions.

(** ** A sample session *)

(** The session of the sample cluster in the default VRF, as converted. *)
Definition filteredSession : NeighborConfig := Eval vm_compute in
  match apiToFRR sampleResources sampleBlock with
  | Ok c => default ncA (head (Config_Routers c ≫= RC_Neighbors))
  | Err _ => ncA
  end.

Definition sampleCovers (p : string) (_ _ : N) (r : string * string) : bool := bool_decide (p = r.2).

Lemma filteredSession_names : names_ok filteredSession.
Proof.
  split; [|by_evaluation]. intros pl.
  apply (proj1 (Forall_forall (λ pl, PrefixListName pl ∉ [ToAdvertisePrefixListV4 filteredSession;
    ToAdvertisePrefixListV6 filteredSession; allowedIncomingList filteredSession; deniedIncomingList filteredSession]) _)).
  by_evaluation.
Qed.

Lemma incoming_filters_exact_witness :
  apply_map fst sampleCovers false (fst (neighborFilters filteredSession ∅)) (ID filteredSession +:+ "-in")
    ("ip", "172.16.0.0/16") = Some [].
Proof.
  rewrite (incoming_filters_exact fst sampleCovers false filteredSession filteredSession_names ∅ ("ip", "172.16.0.0/16")).
  - vm_compute; reflexivity.
  - left; reflexivity.
Defined.

Lemma outgoing_filters_exact_witness :
  apply_map fst sampleCovers false (fst (neighborFilters filteredSession ∅)) (ID filteredSession +:+ "-out")
    ("ip", "192.0.2.0/24") = Some ["set local-preference 200"; "set community 65000:10 additive"].
Proof.
  rewrite (outgoing_filters_exact fst sampleCovers false filteredSession filteredSession_names ∅ ("ip", "192.0.2.0/24")).
  - vm_compute; reflexivity.
  - by_evaluation.
  - left; reflexivity.
Defined.
