(* ===== verification/FilterNames.v ===== *)
(** * The names of the prefix lists

    FRR has one name space of prefix lists for the whole file.  A list is named after the session
    it belongs to and what it is for; this file shows when two names can be the
    same, that conversion and merging give every list its name, and hence that the lists
    of a converted session are told apart. *)

From Stdlib Require Import Ascii Lia.
From S2P Require Import Prelude GoStrings GoNet IPFamily Community Api FrrConfig Errors Merge.
From S2P Require Import ApiToConfig MergeFacts HeapLogic ConvertFacts EVPNFacts ApiHeap ApiResult.
From S2P Require Import Advertised ApiProps Template TemplateProps.

(** ** What a list is for *)

Inductive list_kind :=
  | KAllowed4
  | KAllowed6
  | KIncoming (f : Family)
  | KDenied (f : Family)
  | KLocalPref (localPref : N) (family : string)
  | KCommunity (c : BGPCommunity) (family : string).

Definition community_token (c : BGPCommunity) : string :=
  (if IsLarge c then "large:" else "") +:+ Community_String c.

Definition list_name (id : string) (k : list_kind) : string :=
  match k with
  | KAllowed4 => id +:+ "-allowed-ipv4"
  | KAllowed6 => id +:+ "-allowed-ipv6"
  | KIncoming f => id +:+ "-inpl-" +:+ Family_String f
  | KDenied f => id +:+ "-denied-inpl-" +:+ Family_String f
  | KLocalPref lp f => localPrefPrefixListName id lp f
  | KCommunity c f => communityPrefixListName id c f
  end.

(** The families lists are printed for. *)
Definition kind_ok (k : list_kind) : Prop :=
  match k with
  | KLocalPref _ f | KCommunity _ f => f = "ip" ∨ f = "ipv6"
  | _ => True
  end.

(** A name ends in two words, after a stem. *)
Definition stem (id : string) (k : list_kind) : string :=
  match k with
  | KAllowed4 | KAllowed6 | KIncoming _ => id
  | KDenied _ => id +:+ "-denied"
  | KLocalPref lp f => (id +:+ String "-" (pretty lp)) +:+ String "-" f
  | KCommunity c f => (id +:+ String "-" (community_token c)) +:+ String "-" f
  end.
Definition word1 (k : list_kind) : string :=
  match k with
  | KAllowed4 | KAllowed6 => "allowed"
  | KIncoming _ | KDenied _ => "inpl"
  | KLocalPref _ _ => "localpref"
  | KCommunity _ _ => "community"
  end.
Definition word2 (k : list_kind) : string :=
  match k with
  | KAllowed4 => "ipv4"
  | KAllowed6 => "ipv6"
  | KIncoming f | KDenied f => Family_String f
  | KLocalPref _ _ | KCommunity _ _ => "prefixes"
  end.

Lemma list_name_words id k :
  list_name id k = (stem id k +:+ String "-" (word1 k)) +:+ String "-" (word2 k).
Proof.
  destruct k as [| | | |lp f|c f]; cbn [list_name stem word1 word2];
    unfold localPrefPrefixListName, communityPrefixListName, community_token;
    try destruct (IsLarge c); by rewrite ?app_assoc_string.
Qed.

Lemma words_no_dash k : contains_char "-" (word1 k) = false ∧ contains_char "-" (word2 k) = false.
Proof. by destruct k as [| |[]|[]| |]. Qed.

Lemma community_token_no_dash c : contains_char "-" (community_token c) = false.
Proof.
  unfold community_token. rewrite contains_char_app, Community_String_no_dash, orb_false_r.
  by destruct (IsLarge c).
Qed.

Lemma community_token_inj c1 c2 : community_token c1 = community_token c2 → c1 = c2.
Proof.
  assert (∀ c, contains_char "l" (Community_String c) = false) as Hl.
  { intros []; simpl; rewrite !contains_char_app, ?pretty_no_char by done; done. }
  unfold community_token. intros H.
  destruct (IsLarge c1), (IsLarge c2).
  - by apply (inj (String.append "large:")), Community_String_inj in H.
  - specialize (Hl c2). change ("" +:+ Community_String c2) with (Community_String c2) in H.
    by rewrite <-H in Hl.
  - specialize (Hl c1). change ("" +:+ Community_String c1) with (Community_String c1) in H.
    by rewrite H in Hl.
  - by apply Community_String_inj.
Qed.

(** Two names are the same only for the same list of the same session, or when one
    session's ID is the other's followed by "-denied". *)
Lemma list_name_inj id1 k1 id2 k2 :
  kind_ok k1 → kind_ok k2 → list_name id1 k1 = list_name id2 k2 →
  (id1 = id2 ∧ k1 = k2) ∨
  (∃ f, k1 = KDenied f ∧ k2 = KIncoming f ∧ id2 = id1 +:+ "-denied") ∨
  (∃ f, k1 = KIncoming f ∧ k2 = KDenied f ∧ id1 = id2 +:+ "-denied").
Proof.
  intros Hk1 Hk2 H. rewrite !list_name_words in H.
  apply sep_inj_r in H as [H Hw2]; [|apply words_no_dash..].
  apply sep_inj_r in H as [H Hw1]; [|apply words_no_dash..].
  assert (∀ f, f = "ip" ∨ f = "ipv6" → contains_char "-" f = false) as Hf by (by intros f [->| ->]).
  destruct k1 as [| |f1|f1|l1 f1|c1 f1], k2 as [| |f2|f2|l2 f2|c2 f2]; try discriminate Hw1;
    try discriminate Hw2; cbn [stem word2] in *; try (by left; auto);
    try (apply (inj Family_String) in Hw2 as ->).
  - left; auto.
  - right; right. eauto.
  - right; left. eauto.
  - left. apply (sep_inj_r "-" id1 "denied" id2 "denied") in H as [-> _]; [done..].
  - left. apply sep_inj_r in H as [H ->]; [|by apply Hf..].
    apply sep_inj_r in H as [-> ->%(inj _)]; [done|by apply pretty_no_char..].
  - left. apply sep_inj_r in H as [H ->]; [|by apply Hf..].
    apply sep_inj_r in H as [-> ->%community_token_inj]; [done|apply community_token_no_dash..].
Qed.

(** ** Every list has its name *)

(** The prefixes of a list are of its family. *)
Definition family_ok (pl : PrefixList) : Prop :=
  ∃ fam, (fam = IPv4 ∨ fam = IPv6) ∧ PL_IPFamily pl = frrIPFamily fam ∧
    ∀ p, p ∈ PL_Prefixes pl → ForCIDRString p = fam.

Definition lp_kind (pl : LocalPrefPrefixList) : list_kind :=
  KLocalPref (LPL_LocalPref pl) (PL_IPFamily (LPL_PrefixList pl)).
Definition comm_kind (pl : CommunityPrefixList) : list_kind :=
  KCommunity (CPL_Community pl) (PL_IPFamily (CPL_PrefixList pl)).

Definition lp_named (id : string) (pl : LocalPrefPrefixList) : Prop :=
  PL_Name (LPL_PrefixList pl) = list_name id (lp_kind pl) ∧ family_ok (LPL_PrefixList pl).
Definition comm_named (id : string) (pl : CommunityPrefixList) : Prop :=
  PL_Name (CPL_PrefixList pl) = list_name id (comm_kind pl) ∧ family_ok (CPL_PrefixList pl).

Definition named (nc : NeighborConfig) : Prop :=
  Forall (lp_named (ID nc)) (AO_LocalPrefPrefixesModifiers (NC_Outgoing nc)) ∧
  Forall (comm_named (ID nc)) (AO_CommunityPrefixesModifiers (NC_Outgoing nc)).

Lemma frrIPFamily_inj f1 f2 :
  (f1 = IPv4 ∨ f1 = IPv6) → (f2 = IPv4 ∨ f2 = IPv6) → frrIPFamily f1 = frrIPFamily f2 → f1 = f2.
Proof. by intros [->| ->] [->| ->]. Qed.

Lemma family_ok_ip pl : family_ok pl → PL_IPFamily pl = "ip" ∨ PL_IPFamily pl = "ipv6".
Proof. intros (fam & [->| ->] & -> & _); [by left|by right]. Qed.

Lemma family_ok_union a b :
  PL_IPFamily a = PL_IPFamily b → family_ok a → family_ok b → family_ok (union_prefixes a b).
Proof.
  intros Hab (fa & Ha & Ea & Pa) (fb & Hb & Eb & Pb).
  assert (fa = fb) as <- by (apply frrIPFamily_inj; congruence).
  exists fa. split_and!; [done..|]. intros p [?|?]%elem_of_union; auto.
Qed.

(** A property of lists that joining keeps holds of the merged lists. *)
Lemma mergePrefixLists_Forall {PL} (key : PL → string) (join : PL → PL → PL) (P : PL → Prop) a b :
  (∀ x y, key (join x y) = key x) → (∀ x y, key x = key y → P x → P y → P (join x y)) →
  Forall P a → Forall P b → Forall P (mergePrefixLists key join a b).
Proof.
  intros Hkey Hjoin Ha Hb.
  assert (∀ l m, Forall P l → keyed key m → (∀ k v, m !! k = Some v → P v) →
    ∀ k v, foldl (add_list key join) m l !! k = Some v → P v) as Hgen.
  { induction l as [|x l IH]; intros m Hl Hk Hm; [done|]. apply Forall_cons in Hl as [Hx Hl].
    cbn [foldl]. apply IH; [done|by apply (keyed_add_all key join Hkey [x])|].
    intros k v. unfold add_list. destruct (m !! key x) as [y|] eqn:E; rewrite lookup_insert_Some.
    - intros [[_ <-]|[_ ?]]; [|by eauto]. apply Hjoin; [by apply Hk|by eauto|done].
    - intros [[_ <-]|[_ ?]]; by eauto. }
  apply Forall_forall. intros v [k Hv]%elem_of_sortMap. eapply Hgen; [exact Hb|..|exact Hv].
  - intros k' v' Hv'. by apply index_by_Some in Hv' as [_ ?].
  - intros k' v' Hv'. apply index_by_Some in Hv' as [? _]. rewrite Forall_forall in Ha. auto.
Qed.

Lemma named_merge : merge_closed named.
Proof.
  intros d s d' _ [Hdl Hdc] [Hsl Hsc] Hm. pose proof (mergeIntoNeighbor_ID _ _ _ Hm) as Hid.
  unfold named. rewrite Hid. apply mergeIntoNeighbor_Ok in Hm as (Hc & out & Hout & ->).
  rewrite <-(c_ID _ _ Hc) in Hsl, Hsc. apply mergeAllowedOut_inv in Hout as (_ & _ & _ & ->). cbn.
  split; apply mergePrefixLists_Forall; try done.
  - intros x y [_ Hf]%localPrefPrefixListKey_inj [Hx Hfx] [_ Hfy]. split; [done|].
    by apply family_ok_union.
  - intros x y [_ Hf]%communityPrefixListKey_inj [Hx Hfx] [_ Hfy]. split; [done|].
    by apply family_ok_union.
Qed.

(** The routers' prefixes of a family, as the conversion passes them. *)
Lemma prefixes_for_family adv ps fam p :
  p ∈ prefixes_for adv ps fam → ForCIDRString p = fam ∧ (fam = IPv4 ∨ fam = IPv6).
Proof.
  unfold prefixes_for. destruct fam; try (by intros ?%not_elem_of_empty);
    intros [? _]%elem_of_prefixesToAdvertise; auto.
Qed.

Lemma collected_family adv ps fam unknown duplicate l s name :
  (length l =? 0)%nat = false →
  collectPrefixes unknown duplicate (prefixes_for adv ps fam) l = Ok s →
  family_ok (mkPrefixList name (frrIPFamily fam) s).
Proof.
  intros Hl (Hall & _ & ->)%collectPrefixes_Ok. destruct l as [|p l]; [done|].
  exists fam. split_and!; [|done|].
  - by destruct (prefixes_for_family adv ps fam p) as [_ ?]; [apply Hall; left|].
  - cbn [PL_Prefixes]. intros q Hq%elem_of_list_to_set. by destruct (prefixes_for_family adv ps fam q (Hall q Hq)).
Qed.

Definition all_values {V} (P : V → Prop) (m : gmap string V) : Prop := ∀ k v, m !! k = Some v → P v.

Lemma all_values_insert {V} (P : V → Prop) m k v : all_values P m → P v → all_values P (<[k := v]> m).
Proof. intros Hm Hv k' v'. rewrite lookup_insert_Some. intros [[_ <-]|[_ ?]]; eauto. Qed.

Lemma localPref_names m nb adv ps fam m' :
  all_values (lp_named (ID nb)) m →
  prefixesWithLocalPrefToFRR m nb adv fam (prefixes_for adv ps fam) = Ok m' →
  all_values (lp_named (ID nb)) m'.
Proof.
  intros Hm. unfold prefixesWithLocalPrefToFRR; cbv zeta. apply foldM_inv; [done|].
  intros m1 e m2 _ Hm1 [_ H]%guard_Ok.
  destruct (_ =? 0)%nat eqn:El in H; [by injection H as <-|].
  apply bind_Ok in H as (s & Hs & [= <-]). apply all_values_insert; [done|]. split; [done|].
  by eapply collected_family.
Qed.

Lemma community_names m nb adv ps fam m' :
  all_values (comm_named (ID nb)) m →
  prefixesWithCommunityToFRR m nb adv fam (prefixes_for adv ps fam) = Ok m' →
  all_values (comm_named (ID nb)) m'.
Proof.
  intros Hm. unfold prefixesWithCommunityToFRR; cbv zeta. apply foldM_inv; [done|].
  intros m1 e m2 _ Hm1 (c & _ & H)%bind_Ok. apply guard_Ok in H as [_ H].
  destruct (_ =? 0)%nat eqn:El in H; [by injection H as <-|].
  apply bind_Ok in H as (s & Hs & [= <-]). apply all_values_insert; [done|]. split; [done|].
  by eapply collected_family.
Qed.

Lemma toAdvertise_names nb adv ps out :
  toAdvertiseToFRR nb adv ps = Ok out →
  Forall (lp_named (ID nb)) (AO_LocalPrefPrefixesModifiers out) ∧
  Forall (comm_named (ID nb)) (AO_CommunityPrefixesModifiers out).
Proof.
  unfold toAdvertiseToFRR; cbv zeta. intros H. apply bind_Ok in H as ([nh4 nh6] & _ & H).
  apply bind_Ok in H as ([lps comms] & Hl & [= <-]).
  apply (foldM_inv (λ lc : gmap string _ * gmap string _,
    all_values (lp_named (ID nb)) lc.1 ∧ all_values (comm_named (ID nb)) lc.2)) in Hl as [Hlp Hc].
  - cbn in *. split; apply Forall_forall; intros v [k Hv]%elem_of_sortMap; eauto.
  - split; by intros ??.
  - intros [m1 m2] fam [m1' m2'] _ [H1 H2] H. fold (prefixes_for adv ps fam) in H.
    apply bind_Ok in H as (x1 & Hx1%wrap_Ok & H). apply bind_Ok in H as (x2 & Hx2%wrap_Ok & [= <- <-]).
    split; [by eapply localPref_names|by eapply community_names].
Qed.

Lemma named_establishes cfg ab secrets bfd : establishes named cfg ab secrets bfd.
Proof.
  intros r imported n nc _ _ _ _ (_ & fam & tm & pw & out & inc & _ & _ & _ & Hout & _ & ->)%neighborToFRR_Ok.
  exact (toAdvertise_names _ _ _ _ Hout).
Qed.

(** ** The lists of a session *)

(** What the lists of the properties are for, in the order of [PrefixLists]'s argument. *)
Definition modifier_kinds (n : NeighborConfig) : list list_kind :=
  (lp_kind <$> AO_LocalPrefPrefixesModifiers (NC_Outgoing n)) ++
  (comm_kind <$> AO_CommunityPrefixesModifiers (NC_Outgoing n)).

Definition session_kinds (n : NeighborConfig) : list list_kind :=
  [KAllowed4; KAllowed6; KIncoming (NC_IPFamily n); KDenied (NC_IPFamily n)] ++ modifier_kinds n.

Lemma session_lists n :
  [ToAdvertisePrefixListV4 n; ToAdvertisePrefixListV6 n; allowedIncomingList n; deniedIncomingList n]
  = list_name (ID n) <$> [KAllowed4; KAllowed6; KIncoming (NC_IPFamily n); KDenied (NC_IPFamily n)].
Proof. done. Qed.

Lemma Forall_fmap_eq {A B} (f g : A → B) l : Forall (λ x, f x = g x) l → f <$> l = g <$> l.
Proof. induction 1 as [|x l Hx _ IH]; [done|]. rewrite !fmap_cons. by f_equal. Qed.

Lemma modifier_names n :
  named n →
  PrefixListName <$> PrefixLists (NC_Outgoing n) ≡ₚ list_name (ID n) <$> modifier_kinds n.
Proof.
  intros [Hlp Hcm]. unfold PrefixLists, modifier_kinds. rewrite sort_Slice_Permutation.
  rewrite !fmap_app, <-!list_fmap_compose.
  rewrite (Forall_fmap_eq (PrefixListName ∘ localPref_property) (list_name (ID n) ∘ lp_kind)),
    (Forall_fmap_eq (PrefixListName ∘ community_property) (list_name (ID n) ∘ comm_kind)).
  - done.
  - eapply Forall_impl; [exact Hcm|]. by intros pl [? _].
  - eapply Forall_impl; [exact Hlp|]. by intros pl [? _].
Qed.

Lemma modifier_kinds_ok n : named n → Forall kind_ok (session_kinds n).
Proof.
  intros [Hlp Hcm]. unfold session_kinds, modifier_kinds. rewrite !Forall_app, !Forall_fmap.
  split_and!; [by repeat constructor|..].
  - eapply Forall_impl; [exact Hlp|]. intros pl [_ ?]. by apply family_ok_ip.
  - eapply Forall_impl; [exact Hcm|]. intros pl [_ ?]. by apply family_ok_ip.
Qed.

Lemma session_kinds_NoDup n : out_wf (NC_Outgoing n) → NoDup (session_kinds n).
Proof.
  intros [Hlp Hcm _].
  assert (∀ k, k ∈ modifier_kinds n → (∃ pl, k = lp_kind pl) ∨ (∃ pl, k = comm_kind pl)) as Hk.
  { intros k [(pl & -> & _)%list_elem_of_fmap|(pl & -> & _)%list_elem_of_fmap]%elem_of_app; eauto. }
  apply NoDup_app. split_and!.
  - by repeat constructor; rewrite ?not_elem_of_cons, ?elem_of_nil; intuition.
  - intros k Hin [[pl ->]|[pl ->]]%Hk; rewrite !elem_of_cons, elem_of_nil in Hin;
      unfold lp_kind, comm_kind in *; naive_solver.
  - apply NoDup_app. split_and!.
    + eapply NoDup_of_key; [|exact Hlp]. unfold lp_kind, localPref_key. intros x y [= H1 H2].
      by rewrite H1, H2.
    + intros k (pl & -> & _)%list_elem_of_fmap (pl' & [=] & _)%list_elem_of_fmap.
    + eapply NoDup_of_key; [|exact Hcm]. unfold comm_kind, community_key. intros x y [= H1 H2].
      by rewrite H1, H2.
Qed.

(** Within a session, a name determines the list. *)
Lemma own_name_inj id k1 k2 :
  kind_ok k1 → kind_ok k2 → list_name id k1 = list_name id k2 → k1 = k2.
Proof.
  assert (id ≠ id +:+ "-denied") as Hid.
  { intros H. apply (f_equal String.length) in H. rewrite length_app_string in H. simpl in H. lia. }
  intros H1 H2 [[_ ?]|[(f & _ & _ & ?)|(f & _ & _ & ?)]]%list_name_inj; done.
Qed.

Lemma session_names_NoDup n :
  named n → out_wf (NC_Outgoing n) → NoDup (list_name (ID n) <$> session_kinds n).
Proof.
  intros Hn Hwf. pose proof (modifier_kinds_ok n Hn) as Hok. pose proof (session_kinds_NoDup n Hwf) as Hnd.
  rewrite Forall_forall in Hok. induction (session_kinds n) as [|k l IH]; [by constructor|].
  rewrite fmap_cons. apply NoDup_cons in Hnd as [Hk Hnd]. constructor.
  - intros (k' & He & Hk')%list_elem_of_fmap. apply Hk.
    rewrite (own_name_inj (ID n) k k'); [done|..|done]; apply Hok; set_solver.
  - apply IH; [|done]. set_solver.
Qed.

(** Hence the lists of a converted session are told apart. *)
Lemma named_names_ok n : named n → out_wf (NC_Outgoing n) → names_ok n.
Proof.
  intros Hn Hwf. pose proof (session_names_NoDup n Hn Hwf) as Hnd.
  unfold session_kinds in Hnd. rewrite fmap_app, <-session_lists in Hnd.
  apply NoDup_app in Hnd as (_ & Hdisj & Hnd).
  rewrite <-(modifier_names n Hn) in Hnd. split; [|done].
  intros pl Hpl Hin. apply (Hdisj _ Hin). rewrite <-(modifier_names n Hn).
  apply list_elem_of_fmap. eauto.
Qed.

(** And their properties are set on prefixes that are sent. *)
Lemma safe_modifiers_advertised avail n : named n → out_safe avail n → modifiers_advertised n.
Proof.
  intros [Hlp Hcm] Hsafe. apply Forall_forall. intros pl. unfold PrefixLists.
  rewrite elem_of_sort_Slice, elem_of_app, !list_elem_of_fmap. rewrite Forall_forall in Hlp. rewrite Forall_forall in Hcm.
  assert (∀ l p, family_ok l → p ∈ PL_Prefixes l →
    p ∈ AO_PrefixesV4 (NC_Outgoing n) ∨ p ∈ AO_PrefixesV6 (NC_Outgoing n) →
    (PL_IPFamily l = "ip" → p ∈ AO_PrefixesV4 (NC_Outgoing n)) ∧
    (PL_IPFamily l = "ipv6" → p ∈ AO_PrefixesV6 (NC_Outgoing n))) as Hfam.
  { intros l p (fam & Hf & -> & Hp) Hin Hs. specialize (Hp p Hin).
    pose proof (sf_v4 _ _ Hsafe p). pose proof (sf_v6 _ _ Hsafe p).
    destruct Hf as [-> | ->]; split; try (intros [=]); intuition congruence. }
  intros [(l & -> & Hl)|(l & -> & Hl)]; apply Forall_forall; cbn; intros p Hp%elem_of_sets_List.
  - destruct (Hlp l Hl) as [_ Hok]. apply Hfam; [done..|]. apply (sf_lp _ _ Hsafe (localPref_key l)).
    by exists l.
  - destruct (Hcm l Hl) as [_ Hok]. apply Hfam; [done..|]. apply (sf_comm _ _ Hsafe (community_key l)).
    by exists l.
Qed.

(** ** Converted sessions *)

Lemma apiToFRR_named resources ab c rc n :
  apiToFRR resources ab = Ok c → rc ∈ Config_Routers c → n ∈ RC_Neighbors rc →
  named n ∧ out_safe (available resources (RC_VRF rc)) n.
Proof.
  intros Hc Hrc Hn. split.
  - eapply (apiToFRR_result named) in Hc; [|apply named_merge|intros; apply named_establishes].
    by destruct (rk_neighbor _ _ _ Hc rc n Hrc Hn).
  - eapply (apiToFRR_result (sent_only_available resources)) in Hc;
      [|apply sent_only_available_merge|intros; by apply sent_only_available_establishes].
    by destruct (rk_neighbor _ _ _ Hc rc n Hrc Hn) as [Hp <-].
Qed.
