(* ===== verification/FileFilters.v ===== *)
(** * The filters of the whole file

    The file has the filters of every session one after the other, in one name space of
    prefix lists and route maps.  The sessions of a converted configuration do not disturb each
    other when their IDs are told apart ([apart]); then the decisions of the file are those of
    each session, and the theorems of [TemplateProps.v] hold of the file.  The last section has
    configurations whose sessions do disturb each other. *)

From Stdlib Require Import Ascii Lia.
From S2P Require Import Prelude GoStrings GoNet IPFamily Community Api FrrConfig Errors Merge.
From S2P Require Import ApiToConfig Samples MergeFacts HeapLogic ConvertFacts EVPNFacts ApiHeap.
From S2P Require Import ApiResult Advertised ApiProps Template TemplateProps FilterNames.

Definition config_sessions (c : Config NeighborConfig) : list NeighborConfig :=
  Config_Routers c ≫= RC_Neighbors.

(** No two sessions share a list or a route map. *)
Definition apart (l : list NeighborConfig) : Prop :=
  NoDup (ID <$> l) ∧ Forall (λ a, Forall (λ b, ID a ≠ ID b +:+ "-denied") l) l.

#[global] Instance apart_dec l : Decision (apart l).
Proof. unfold apart. apply _. Defined.

(** ** What one session prints does not depend on the counters *)

Lemma andThen_assoc {S} (p q r : printerOf S) c : andThen (andThen p q) r c = andThen p (andThen q r) c.
Proof.
  unfold andThen. destruct (p c) as [s1 c1], (q c1) as [s2 c2], (r c2) as [s3 c3].
  by rewrite app_assoc.
Qed.

Lemma andThen_ext {S} (p p' q q' : printerOf S) c : (∀ c, p c = p' c) → (∀ c, q c = q' c) → andThen p q c = andThen p' q' c.
Proof. intros Hp Hq. unfold andThen. rewrite Hp. destruct (p' c) as [s c']. by rewrite Hq. Qed.

Lemma forEach_app {S A} (l1 l2 : list A) (p : A → printerOf S) c :
  forEach (l1 ++ l2) p c = andThen (forEach l1 p) (forEach l2 p) c.
Proof.
  revert c. induction l1 as [|x l1 IH]; intros c.
  - cbn. unfold andThen, skip. by destruct (forEach l2 p c).
  - cbn [app forEach]. rewrite andThen_assoc. by apply andThen_ext.
Qed.

Lemma fileFilters_sessions c ct : fileFilters c ct = forEach (config_sessions c) neighborFilters ct.
Proof.
  unfold fileFilters, config_sessions. revert ct. induction (Config_Routers c) as [|r rs IH]; intros ct; [done|].
  cbn [forEach mbind list_bind]. rewrite forEach_app. by apply andThen_ext.
Qed.

Section session.
Context (n : NeighborConfig).

Lemma neighborFilters_list f nm :
  f = "ip" ∨ f = "ipv6" →
  ∃ l, prints_list (neighborFilters n) f nm l ∧
    (named n → nm ∉ list_name (ID n) <$> session_kinds n → l = []).
Proof.
  intros Hf. eexists. split.
  { exact (list_andThen _ _ _ _ _ _ (modifierFilters_list n f nm)
      (list_andThen _ _ _ _ _ _ (outgoingFilters_list n f nm) (incomingFilters_list n f nm Hf))). }
  intros Hn Hno. unfold session_kinds in Hno.
  rewrite fmap_app, not_elem_of_app, <-session_lists, <-(modifier_names n Hn), !not_elem_of_cons in Hno.
  destruct Hno as ((?&?&?&?&_) & Hmod).
  rewrite (bool_decide_false ("ip" = f ∧ _)), (bool_decide_false ("ipv6" = f ∧ _)),
    (bool_decide_false (allowedIncomingList n = _)), (bool_decide_false (deniedIncomingList n = _))
    by naive_solver.
  rewrite !app_nil_r. apply bind_empty. intros pl Hpl. rewrite bool_decide_false; [done|].
  intros [_ <-]. apply Hmod, list_elem_of_fmap. eauto.
Qed.

Lemma neighborFilters_other m :
  m ≠ ID n +:+ "-in" → m ≠ ID n +:+ "-out" → prints_map (neighborFilters n) m [].
Proof.
  intros Hin Hout. eapply prints_map_eq.
  { apply map_andThen; [unfold modifierFilters; prints|].
    apply map_andThen; [unfold outgoingFilters; prints|apply incomingFilters_map]. }
  rewrite !bool_decide_false by done.
  rewrite (bind_empty _ (AO_PrefixesV4 _)), (bind_empty _ (AO_PrefixesV6 _)),
    (bind_empty _ (PrefixLists _)) by (done || (intros pl _; by rewrite bind_empty)).
  by destruct (empty (AO_PrefixesV4 _)), (empty (AO_PrefixesV6 _)).
Qed.

(** The entries of the maps name lists of the session. *)
Lemma map_lists e :
  named n → e ∈ map_out n ++ map_in n → ∃ k, k ∈ session_kinds n ∧ ME_list e = list_name (ID n) k.
Proof.
  intros Hn He.
  assert (ME_list e ∈ [ToAdvertisePrefixListV4 n; ToAdvertisePrefixListV6 n;
    allowedIncomingList n; deniedIncomingList n] ++ (PrefixListName <$> PrefixLists (NC_Outgoing n))) as Hl.
  { unfold map_out, map_in in He. rewrite !elem_of_app in He.
    destruct He as [[(pl & -> & Hpl)%list_elem_of_fmap|He]|[He|He]].
    - apply elem_of_app. right. apply list_elem_of_fmap. eauto.
    - rewrite !elem_of_cons, elem_of_nil in He. set_solver.
    - destruct (empty (NC_AlwaysBlock n)); rewrite ?elem_of_cons, ?elem_of_nil in He; set_solver.
    - rewrite !elem_of_cons, elem_of_nil in He. set_solver. }
  rewrite (modifier_names n Hn), session_lists, <-fmap_app in Hl.
  apply list_elem_of_fmap in Hl as (k & ? & ?). eauto.
Qed.
End session.

(** ** The file decides what each session decides *)

Section file.
Context {route : Type} (family_of : route → string) (covers : string → N → N → route → bool).
Context (at_end : bool) (l : list NeighborConfig).
Context (Hapart : apart l) (Hnamed : Forall named l).

Notation file ct := (fst (forEach l neighborFilters ct)).

Lemma run_map_ext m1 m2 es acc :
  (∀ e, e ∈ es → m1 e = m2 e) → run_map at_end m1 es acc = run_map at_end m2 es acc.
Proof using Type.
  revert acc; induction es as [|e es IH]; intros acc Hm; [done|]. cbn.
  rewrite (Hm e) by (by left). rewrite !IH by (intros; apply Hm; by right). done.
Qed.

(** Another session has none of the lists of this one. *)
Lemma other_lists n x k :
  n ∈ l → x ∈ l → ID x ≠ ID n → k ∈ session_kinds n →
  list_name (ID n) k ∉ list_name (ID x) <$> session_kinds x.
Proof using Hapart Hnamed.
  intros Hn Hx Hid Hk (k' & Heq & Hk')%list_elem_of_fmap. rewrite Forall_forall in Hnamed.
  destruct Hapart as [_ Hden]. rewrite Forall_forall in Hden.
  pose proof (modifier_kinds_ok _ (Hnamed n Hn)) as Hok. rewrite Forall_forall in Hok.
  pose proof (modifier_kinds_ok _ (Hnamed x Hx)) as Hok'. rewrite Forall_forall in Hok'.
  pose proof (Hden n Hn) as H1. pose proof (Hden x Hx) as H2. rewrite Forall_forall in H1, H2.
  apply list_name_inj in Heq as [[? _]|[(f & _ & _ & ?)|(f & _ & _ & ?)]]; [done|..|by auto|by auto].
  - by apply (H2 n Hn).
  - by apply (H1 x Hx).
Qed.

Lemma session_stmts_list n f nm ct ct' :
  f = "ip" ∨ f = "ipv6" →
  omap (list_entry f nm) (fst (neighborFilters n ct)) = omap (list_entry f nm) (fst (neighborFilters n ct')).
Proof using Type. intros Hf. destruct (neighborFilters_list n f nm Hf) as (x & Hx & _). by rewrite !Hx. Qed.

(** The entries a session prints are the file's. *)
Lemma file_entries {B} (sel : stmt → option B) n ct ct' :
  n ∈ l → (∀ x c, x ∈ l → ID x ≠ ID n → omap sel (fst (neighborFilters x c)) = []) →
  (∀ c, omap sel (fst (neighborFilters n c)) = omap sel (fst (neighborFilters n ct'))) →
  omap sel (file ct) = omap sel (fst (neighborFilters n ct')).
Proof using Hapart.
  intros Hn Hother Hsame. destruct Hapart as [Hnd _]. revert ct. clear Hapart Hnamed.
  induction l as [|x xs IH]; intros ct; [by apply elem_of_nil in Hn|].
  rewrite fmap_cons, NoDup_cons in Hnd. destruct Hnd as [Hx Hnd]. cbn [forEach].
  rewrite fst_andThen, omap_app.
  apply elem_of_cons in Hn as [->|Hn].
  - rewrite Hsame.
    enough (∀ c, omap sel (fst (forEach xs neighborFilters c)) = []) as -> by apply app_nil_r.
    assert (∀ y, y ∈ xs → ID y ≠ ID x) as Hne.
    { intros y Hy He. apply Hx. rewrite <-He. apply list_elem_of_fmap. eauto. }
    clear IH Hsame Hnd Hx.
    induction xs as [|y ys IH]; intros c; [done|]. cbn [forEach].
    rewrite fst_andThen, omap_app, Hother, IH; [done|..].
    + intros z c' Hz. apply Hother. apply elem_of_cons in Hz as [->|?]; [by left|by right; right].
    + intros z Hz. apply Hne. by right.
    + right; by left.
    + apply Hne. by left.
  - rewrite Hother, IH; [done|done|by intros; apply Hother; [right|]|done|by left|].
    intros He. apply Hx. rewrite He. apply list_elem_of_fmap. eauto.
Qed.

Lemma file_list n k f ct ct' :
  n ∈ l → k ∈ session_kinds n → f = "ip" ∨ f = "ipv6" →
  omap (list_entry f (list_name (ID n) k)) (file ct) =
  omap (list_entry f (list_name (ID n) k)) (fst (neighborFilters n ct')).
Proof using Hapart Hnamed.
  intros Hn Hk Hf. apply file_entries; [done| |by intros c; apply session_stmts_list].
  intros x c Hx Hid. destruct (neighborFilters_list x f (list_name (ID n) k) Hf) as (e & He & Hnil).
  rewrite He. apply Hnil; [by rewrite Forall_forall in Hnamed; apply Hnamed|by apply other_lists].
Qed.

Lemma file_map n suffix ct :
  n ∈ l → suffix = "-in" ∨ suffix = "-out" →
  omap (route_map_entry (ID n +:+ suffix)) (file ct) =
  if bool_decide (suffix = "-in") then map_in n else map_out n.
Proof using Hapart.
  intros Hn Hs. rewrite (file_entries _ n ct ∅ Hn).
  - destruct Hs as [->| ->]; [rewrite bool_decide_true by done; apply neighborFilters_in|].
    rewrite bool_decide_false by done. apply neighborFilters_out.
  - intros x c _ Hid. apply neighborFilters_other; intros He; apply Hid;
      destruct Hs as [->| ->]; by apply sep_inj_r in He as [? ?].
  - intros c. destruct Hs as [->| ->]; [by rewrite !(neighborFilters_in n)|by rewrite !(neighborFilters_out n)].
Qed.

Lemma file_decides n suffix ct ct' r :
  n ∈ l → suffix = "-in" ∨ suffix = "-out" → family_of r = "ip" ∨ family_of r = "ipv6" →
  apply_map family_of covers at_end (file ct) (ID n +:+ suffix) r =
  apply_map family_of covers at_end (fst (neighborFilters n ct')) (ID n +:+ suffix) r.
Proof using Hapart Hnamed.
  intros Hn Hs Hf. unfold apply_map.
  assert (suffix ∈ ["-in"; "-out"]) as Hx by (destruct Hs as [->| ->]; by_evaluation).
  rewrite !installed_map, (file_map n suffix ct Hn Hs)
    by (done || apply neighborFilters_increasing || apply increasing_forEach, neighborFilters_increasing).
  assert (omap (route_map_entry (ID n +:+ suffix)) (fst (neighborFilters n ct')) =
    if bool_decide (suffix = "-in") then map_in n else map_out n) as ->.
  { destruct Hs as [->| ->]; [rewrite bool_decide_true by done; apply neighborFilters_in|].
    rewrite bool_decide_false by done. apply neighborFilters_out. }
  apply run_map_ext. intros e He.
  destruct (decide (ME_family e = family_of r)) as [Hfam|]; [|by rewrite !bool_decide_false].
  rewrite !bool_decide_true by done. cbn [andb]. unfold permits.
  rewrite !installed_list by (apply neighborFilters_increasing || apply increasing_forEach, neighborFilters_increasing).
  pose proof (proj1 (Forall_forall _ _) Hnamed n Hn) as Hnn.
  destruct (map_lists n e Hnn) as (k & Hk & ->).
  { apply elem_of_app. by destruct (bool_decide (suffix = _)); [right|left]. }
  rewrite Hfam. by rewrite (file_list n k _ ct ct').
Qed.
End file.

(** ** Converted configurations *)

Lemma sessions_named resources ab c n :
  apiToFRR resources ab = Ok c → n ∈ config_sessions c →
  named n ∧ ∃ rc, rc ∈ Config_Routers c ∧ out_safe (available resources (RC_VRF rc)) n.
Proof.
  intros Hc (rc & Hn & Hrc)%list_elem_of_bind. destruct (apiToFRR_named _ _ _ _ _ Hc Hrc Hn). eauto.
Qed.

Section converted.
Context {route : Type} (family_of : route → string) (covers : string → N → N → route → bool).
Context (at_end : bool).

(** The outgoing filters of the file, as statements. *)
Lemma file_sends_spec resources ab c n ct r :
  apiToFRR resources ab = Ok c → apart (config_sessions c) → n ∈ config_sessions c →
  family_of r = "ip" ∨ family_of r = "ipv6" →
  apply_map family_of covers at_end (fst (fileFilters c ct)) (ID n +:+ "-out") r =
  if exactly covers (advertised family_of n r) r
  then Some ((SetStatement <$> filter (λ pl, applies family_of covers r pl = true)
                (PrefixLists (NC_Outgoing n))) ++ next_hop_set family_of n r)
  else None.
Proof.
  intros Hc Hap Hn Hf. rewrite fileFilters_sessions.
  assert (Forall named (config_sessions c)) as Hnamed.
  { apply Forall_forall. intros x Hx. by eapply sessions_named. }
  rewrite (file_decides family_of covers at_end _ Hap Hnamed n "-out" ct ∅) by auto.
  destruct (sessions_named _ _ _ _ Hc Hn) as (Hnm & rc & _ & Hsafe).
  apply outgoing_filters_exact; [|by eapply safe_modifiers_advertised|done].
  apply named_names_ok; [done|apply Hsafe].
Qed.

(** The incoming filters of the file, as statements. *)
Lemma file_accepts_spec resources ab c n ct r :
  apiToFRR resources ab = Ok c → apart (config_sessions c) → n ∈ config_sessions c →
  family_of r = "ip" ∨ family_of r = "ipv6" →
  apply_map family_of covers at_end (fst (fileFilters c ct)) (ID n +:+ "-in") r =
  if covered family_of covers (alwaysBlockToFRR ab) r then None
  else if AI_All (NC_Incoming n) || covered family_of covers (AllPrefixes (NC_Incoming n)) r
  then Some [] else None.
Proof.
  intros Hc Hap Hn Hf. rewrite fileFilters_sessions.
  assert (Forall named (config_sessions c)) as Hnamed.
  { apply Forall_forall. intros x Hx. by eapply sessions_named. }
  rewrite (file_decides family_of covers at_end _ Hap Hnamed n "-in" ct ∅) by auto.
  destruct (sessions_named _ _ _ _ Hc Hn) as (Hnm & rc & Hrc & Hsafe).
  rewrite incoming_filters_exact; [|by apply named_names_ok; [|apply Hsafe]|done].
  apply list_elem_of_bind in Hn as (rc' & Hn & Hrc').
  eapply (apiToFRR_result (session_ok ab)) in Hc;
    [|apply session_ok_merge|intros; apply session_ok_establishes].
  destruct (rk_neighbor _ _ _ Hc rc' n Hrc' Hn) as [Hok _]. by rewrite (so_block _ _ Hok).
Qed.

End converted.

(** ** Samples *)

Definition converted_sample : Config NeighborConfig := Eval vm_compute in
  match apiToFRR sampleResources sampleBlock with
  | Ok c => c
  | Err _ => mkConfig "" "" [] [] ""
  end.

Lemma converted_sample_Ok : apiToFRR sampleResources sampleBlock = Ok converted_sample.
Proof. vm_compute. reflexivity. Qed.

(** ** Sessions that share a list *)

Definition receiveAll : Receive := mkReceive (mkAllowedInPrefixes [] AllowAll).

(** What the incoming and the outgoing route maps of a name decide in the file of a configuration. *)
Definition decides (routers : list Router) (name : string) (r : string * string)
    : res (option (list string)) :=
  c ← apiToFRR (mkClusterResources [sampleConfig "clash" routers ""] ∅) sampleBlock;
  Ok (apply_map fst sampleCovers false (fst (fileFilters c ∅)) name r).

Definition routerVRF (vrf : string) (n : Neighbor) (prefixes : list string) : Router :=
  mkRouter 64512 "" vrf [n] prefixes [] None.

(** A session with the same peer in a VRF called "denied" has the list of the prefixes that the session of
    the default VRF must refuse: as the former accepts everything, the latter
    accepts nothing, although it alone would accept the route. *)
Theorem vrf_named_denied_blocks_all :
  let n := sampleNeighbor 64513 "10.1.1.1" emptyAdvertise receiveAll in
  decides [routerVRF "" n []] "10.1.1.1-in" ("ip", "172.16.0.0/16") = Ok (Some []) ∧
  decides [routerVRF "" n []; routerVRF "denied" n []] "10.1.1.1-in" ("ip", "172.16.0.0/16") = Ok None.
Proof. split; vm_compute; reflexivity. Qed.

Definition unnumbered (iface : string) (adv : Advertise) : Neighbor :=
  mkNeighbor 64513 "" "" "" iface None "" (mkSecretReference "" "") None None None false "" false
    adv emptyReceive false false 0 [AddressFamilyUnicast].

(** The interface "eth0-red" of the default VRF and the interface "eth0" of the VRF "red" have the same
    ID, hence the same route maps: the second session, which advertises nothing, sends what the
    first one advertises. *)
Theorem same_id_leaks :
  let silent := routerVRF "red" (unnumbered "eth0" emptyAdvertise) ["198.51.100.0/24"] in
  let other := routerVRF "" (unnumbered "eth0-red" advertiseAll) ["198.51.100.0/24"] in
  decides [silent] "eth0-red-out" ("ip", "198.51.100.0/24") = Ok None ∧
  decides [other; silent] "eth0-red-out" ("ip", "198.51.100.0/24") = Ok (Some ["set ip next-hop 10.0.0.1"]).
Proof. split; vm_compute; reflexivity. Qed.
