(* ===== verification/Render.v ===== *)
(** * The text of the configuration file ([internal/frr/templates])

    What [templateConfig] prints, to the byte: every template as the lines it adds to the file, with the
    white space its actions leave.  A line is its indentation and what follows; the templates
    print each line after a newline, so that a part of a template is a list of lines, and the sequence numbers come from
    the counters of [Template.v]. *)

From Stdlib Require Import Ascii Lia.
From S2P Require Import Prelude GoStrings GoNet IPFamily Community Api FrrConfig Template.

(** ** Lines *)

Record line := mkLine { L_indent : string; L_words : list string }.

(** The values of a line are separated by one space. *)
Definition unwords (ws : list string) : string := String.concat " " ws.
Definition line_text (l : line) : string := L_indent l +:+ unwords (L_words l).

(** A newline, then the lines with newlines between them. *)
Definition newline : string := String "010" "".
Definition lines_text (ls : list line) : string := String.concat newline (line_text <$> ls).

Definition blank : line := mkLine "" [].
Notation top ws := (mkLine "" ws).
Notation ind2 ws := (mkLine "  " ws).
Notation ind4 ws := (mkLine "    " ws).
Notation ind6 ws := (mkLine "      " ws).

Definition when {A} (b : bool) (l : list A) : list A := if b then l else [].
Definition whenSome {A B} (o : option A) (f : A → list B) : list B := match o with Some x => f x | None => [] end.
Definition set (s : string) : bool := negb (bool_decide (s = "")).

(** ** prefixlists.tmpl *)

Notation linePrinter := (printerOf line).
Definition emit (ls : list line) : linePrinter := λ c, (ls, c).

Definition permission (permit : bool) : string := if permit then "permit" else "deny".

(** [{{family}} prefix-list {{name}} seq {{counter name}} permit {{what}}]. *)
Definition prefixListLine (family name : string) (permit : bool) (what : string) : linePrinter := λ c,
  let '(n, c) := counter name c in
  ([top [family; "prefix-list"; name; "seq"; pretty n; permission permit; what]], c).

(** [route-map {{ID}}{{suffix}} permit {{counter ID}}] and its [match] and [set] lines. *)
Definition routeMapLines (session suffix : string) (permit : bool) (family plist : string) (rest : list line)
    : linePrinter := λ c,
  let '(n, c) := counter session c in
  ([top ["route-map"; session +:+ suffix; permission permit; pretty n];
    ind2 ["match"; family; "address"; "prefix-list"; plist]] ++ rest, c).

Definition filterLine (name : string) (i : IncomingFilter) : linePrinter :=
  prefixListLine (templateIPFamily (IF_IPFamily i)) name true (IF_Prefix i +:+ Matcher i).

Open Scope printer_scope.

Definition modifierLines (n : NeighborConfig) : linePrinter :=
  forEach (PrefixLists (NC_Outgoing n)) (λ pl,
    forEach (SortedPrefixes pl) (λ prefix, prefixListLine (PPL_IPFamily pl) (PrefixListName pl) true prefix) ;;
    emit [blank] ;;
    routeMapLines (ID n) "-out" true (PPL_IPFamily pl) (PrefixListName pl)
      [ind2 [SetStatement pl]; ind2 ["on-match"; "next"]; blank]).

Definition outgoingLines (n : NeighborConfig) : linePrinter :=
  let out := NC_Outgoing n in
  let v4 := ToAdvertisePrefixListV4 n in
  let v6 := ToAdvertisePrefixListV6 n in
  emit [blank; blank] ;;
  onlyIf (empty (AO_PrefixesV4 out)) (prefixListLine "ip" v4 false "any") ;;
  forEach (AO_PrefixesV4 out) (λ a, prefixListLine "ip" v4 true a) ;;
  emit [blank; blank] ;;
  onlyIf (empty (AO_PrefixesV6 out)) (prefixListLine "ipv6" v6 false "any") ;;
  forEach (AO_PrefixesV6 out) (λ a, prefixListLine "ipv6" v6 true a) ;;
  emit [blank] ;;
  routeMapLines (ID n) "-out" true "ip" v4
    (when (set (AO_NextHopV4 out)) [ind2 ["set"; "ip"; "next-hop"; AO_NextHopV4 out]]) ;;
  emit [blank] ;;
  routeMapLines (ID n) "-out" true "ipv6" v6
    (when (set (AO_NextHopV6 out)) [ind2 ["set"; "ipv6"; "next-hop"; "global"; AO_NextHopV6 out]]).

Definition incomingLines (n : NeighborConfig) : linePrinter :=
  let inc := NC_Incoming n in
  let plistName := allowedIncomingList n in
  emit [blank; blank; blank; blank] ;;
  forEach (AllPrefixes inc) (filterLine plistName) ;;
  (if AI_All inc then
     prefixListLine "ip" plistName true "any" ;; prefixListLine "ipv6" plistName true "any" ;; emit [blank]
   else
     emit [blank] ;;
     onlyIf (empty (AI_PrefixesV4 inc)) (prefixListLine "ip" plistName false "any") ;;
     emit [blank] ;;
     onlyIf (empty (AI_PrefixesV6 inc)) (prefixListLine "ipv6" plistName false "any")) ;;
  onlyIf (negb (empty (NC_AlwaysBlock n)))
    (emit [blank; blank] ;;
     forEach (NC_AlwaysBlock n) (filterLine (deniedIncomingList n)) ;;
     emit [blank] ;;
     routeMapLines (ID n) "-in" false "ip" (deniedIncomingList n) [] ;;
     routeMapLines (ID n) "-in" false "ipv6" (deniedIncomingList n) []) ;;
  routeMapLines (ID n) "-in" true "ip" plistName [] ;;
  routeMapLines (ID n) "-in" true "ipv6" plistName [].

Definition neighborfilters (n : NeighborConfig) : linePrinter :=
  emit [blank] ;; modifierLines n ;; outgoingLines n ;; incomingLines n.

(** The first loop of frr.tmpl. *)
Definition filterLines (config : Config NeighborConfig) : linePrinter :=
  forEach (Config_Routers config) (λ r, forEach (RC_Neighbors r) neighborfilters).

Close Scope printer_scope.

(** ** neighborsession.tmpl *)

(** [$peer]. *)
Definition peerOf (n : NeighborConfig) : string := if set (NC_Iface n) then NC_Iface n else NC_Addr n.

Definition neighborsession (n : NeighborConfig) (routerASN : N) : list line :=
  let peer := peerOf n in
  (if set (NC_Iface n) then [ind2 ["neighbor"; NC_Iface n; "interface"; "remote-as"; NC_ASN n]]
   else [ind2 ["neighbor"; NC_Addr n; "remote-as"; NC_ASN n]]) ++
  when (NC_EBGPMultiHop n) [ind2 ["neighbor"; peer; "ebgp-multihop"]] ++
  when (negb (NC_LocalASN n =? 0)%N)
    [ind2 ["neighbor"; peer; "local-as"; pretty (NC_LocalASN n); "no-prepend"; "replace-as"]] ++
  [ind2 (whenSome (NC_Port n) (λ p, ["neighbor"; peer; "port"; pretty p])); ind2 []] ++
  whenSome (NC_KeepaliveTime n) (λ k, whenSome (NC_HoldTime n) (λ h,
    [ind2 ["neighbor"; peer; "timers"; pretty k; pretty h]])) ++
  whenSome (NC_ConnectTime n) (λ t, [ind2 ["neighbor"; peer; "timers"; "connect"; pretty t]]) ++
  [ind2 (when (set (NC_Password n)) ["neighbor"; peer; "password"; NC_Password n]);
   ind2 (when (set (NC_SrcAddr n)) ["neighbor"; peer; "update-source"; NC_SrcAddr n])] ++
  when (NC_GracefulRestart n) [ind2 ["neighbor"; peer; "graceful-restart"]] ++
  when (set (NC_BFDProfile n))
    [ind2 ["neighbor"; peer; "bfd"]; ind2 ["neighbor"; peer; "bfd"; "profile"; NC_BFDProfile n]] ++
  when (mustDisableConnectedCheck (NC_IPFamily n) routerASN (NC_ASN n) (NC_Iface n) (NC_EBGPMultiHop n))
    [ind2 ["neighbor"; NC_Addr n; "disable-connected-check"]].

(** ** neighboripfamily.tmpl *)

Definition unicastFamily (family : string) (n : NeighborConfig) : list line :=
  let peer := peerOf n in
  when (activateNeighborFor family (NC_IPFamily n) (NC_AddressFamilies n))
    [ind2 ["address-family"; family; "unicast"];
     ind4 ["neighbor"; peer; "activate"];
     ind4 ["neighbor"; peer; "route-map"; ID n +:+ "-in"; "in"];
     ind4 ["neighbor"; peer; "route-map"; ID n +:+ "-out"; "out"];
     ind2 ["exit-address-family"]].

Definition neighborenableipfamily (n : NeighborConfig) : list line :=
  blank :: unicastFamily "ipv4" n ++ unicastFamily "ipv6" n.

(** ** evpn.tmpl *)

(** The [rd] and [route-target] lines of a VNI, at an indentation. *)
Definition vniProperties (indent : string) (p : FrrVNIProperties) : list line :=
  when (set (FVP_RD p)) [mkLine indent ["rd"; FVP_RD p]] ++
  ((λ t, mkLine indent ["route-target"; "import"; t]) <$> FVP_ImportRTs p) ++
  ((λ t, mkLine indent ["route-target"; "export"; t]) <$> FVP_ExportRTs p).

Definition l2vniLines (v : FrrL2VNI) : list line :=
  let p := FL2_Properties v in
  when (set (FVP_RD p) || negb (empty (FVP_ImportRTs p)) || negb (empty (FVP_ExportRTs p)))
    (ind4 ["vni"; pretty (FL2_VNI v)] :: vniProperties "      " p ++ [ind4 ["exit-vni"]]).

Definition evpnLines (r : RouterConfig NeighborConfig) : list line :=
  whenSome (RC_EVPN r) (λ e,
    [ind2 ["address-family"; "l2vpn"; "evpn"]] ++
    (RC_Neighbors r ≫= λ n,
       when (hasAddressFamilyEVPN (NC_AddressFamilies n)) [ind4 ["neighbor"; peerOf n; "activate"]]) ++
    when (hasAdvertiseVNIsAll (FE_AdvertiseVNIs e)) [ind4 ["advertise-all-vni"]] ++
    when (FE_AdvertiseSVI e) [ind4 ["advertise-svi-ip"]] ++
    (FE_L2VNIs e ≫= l2vniLines) ++
    whenSome (FE_L3VNI e) (λ v,
      (FL3_AdvertisePrefixes v ≫= λ p, when (hasAdvertisesEVPNPrefixUnicast p)
         [ind4 ["advertise"; "ipv4"; "unicast"]; ind4 ["advertise"; "ipv6"; "unicast"]]) ++
      vniProperties "    " (FL3_Properties v)) ++
    [ind2 ["exit-address-family"]; blank]).

(** ** bfdprofile.tmpl *)

Definition bfdprofile (p : FrrBFDProfile) : list line :=
  let timer name (o : option N) := whenSome o (λ v, [ind4 [name; pretty v]]) in
  [ind2 ["profile"; FBFD_Name p]] ++
  timer "receive-interval" (FBFD_ReceiveInterval p) ++
  timer "transmit-interval" (FBFD_TransmitInterval p) ++
  timer "detect-multiplier" (FBFD_DetectMultiplier p) ++
  when (FBFD_EchoMode p) [ind4 ["echo-mode"]] ++
  whenSome (FBFD_EchoInterval p) (λ v,
    [ind4 ["echo"; "transmit-interval"; pretty v]; ind4 ["echo"; "receive-interval"; pretty v]]) ++
  when (FBFD_PassiveMode p) [ind4 ["passive-mode"]] ++
  timer "minimum-ttl" (FBFD_MinimumTTL p) ++
  [ind4 []].

(** ** frr.tmpl *)

Definition debugLines : list line :=
  [top ["debug"; "zebra"; "events"]; top ["debug"; "zebra"; "nht"]; top ["debug"; "zebra"; "kernel"];
   top ["debug"; "zebra"; "rib"]; top ["debug"; "zebra"; "nexthop"]; top ["debug"; "bgp"; "neighbor-events"];
   top ["debug"; "bgp"; "updates"]; top ["debug"; "bgp"; "keepalives"]; top ["debug"; "bgp"; "nht"];
   top ["debug"; "bgp"; "zebra"]; top ["debug"; "bfd"; "network"]; top ["debug"; "bfd"; "peer"];
   top ["debug"; "bfd"; "zebra"]].

Definition headLines (config : Config NeighborConfig) : list line :=
  [top ["log"; "stdout"; Config_Loglevel config]; top ["log"; "timestamp"; "precision"; "3"]] ++
  when (bool_decide (Config_Loglevel config = "debugging")) debugLines ++
  [top ["hostname"; Config_Hostname config]; top ["ip"; "nht"; "resolve-via-default"];
   top ["ipv6"; "nht"; "resolve-via-default"]].

(** The second loop: the VNI of the VRF. *)
Definition vrfLines (r : RouterConfig NeighborConfig) : list line :=
  when (set (RC_VRF r)) (whenSome (RC_EVPN r) (λ e, whenSome (FE_L3VNI e) (λ v,
    [blank; top ["vrf"; RC_VRF r]; ind2 ["vni"; pretty (FL3_VNI v)]; top ["exit-vrf"]]))).

Definition importLines (family : string) (vrfs : list string) : list line :=
  [ind2 ["address-family"; family; "unicast"]] ++
  ((λ v, ind4 ["import"; "vrf"; v]) <$> vrfs) ++
  [ind2 ["exit-address-family"]].

Definition networkLines (family : string) (prefixes : list string) : list line :=
  when (negb (empty prefixes))
    ([ind2 ["address-family"; family; "unicast"]] ++
     ((λ p, ind4 ["network"; p]) <$> prefixes) ++
     [ind2 ["exit-address-family"]; blank]).

(** The body of the third loop, without the newline at its end. *)
Definition routerLines (r : RouterConfig NeighborConfig) : list line :=
  [top (["router"; "bgp"; pretty (RC_MyASN r)] ++ when (set (RC_VRF r)) ["vrf"; RC_VRF r]);
   ind2 ["no"; "bgp"; "ebgp-requires-policy"];
   ind2 ["no"; "bgp"; "network"; "import-check"];
   ind2 ["no"; "bgp"; "default"; "ipv4-unicast"];
   ind2 ["bgp"; "graceful-restart"; "preserve-fw-state"];
   blank] ++
  when (set (RC_RouterID r)) [ind2 ["bgp"; "router-id"; RC_RouterID r]] ++
  when (negb (empty (RC_ImportVRFs r))) (importLines "ipv4" (RC_ImportVRFs r) ++ importLines "ipv6" (RC_ImportVRFs r)) ++
  (RC_Neighbors r ≫= λ n, neighborsession n (RC_MyASN r)) ++
  (RC_Neighbors r ≫= neighborenableipfamily) ++
  networkLines "ipv4" (RC_IPV4Prefixes r) ++
  networkLines "ipv6" (RC_IPV6Prefixes r) ++
  evpnLines r.

(** What follows the filters: each router ends with a newline, which is the one before the next. *)
Definition bodyLines (config : Config NeighborConfig) : list line :=
  (Config_Routers config ≫= vrfLines) ++
  [blank] ++ (Config_Routers config ≫= routerLines) ++ [blank] ++
  when (negb (empty (Config_BFDProfiles config))) (top ["bfd"] :: (Config_BFDProfiles config ≫= bfdprofile)).

Definition configLines (config : Config NeighborConfig) : list line :=
  headLines config ++ fst (filterLines config ∅) ++ bodyLines config.

(** [templateConfig]: the lines, the raw configuration and the newline frr.tmpl ends with. *)
Definition templateConfig (config : Config NeighborConfig) : string :=
  lines_text (configLines config) +:+
  (if set (Config_ExtraConfig config) then newline +:+ Config_ExtraConfig config else "") +:+ newline.

(** ** Writing the file *)

Inductive reloadError :=
  | EWrite (e : string)
  | EReadPid (e : string)
  | EParsePid (s : string)
  | EKill (e : string).

(** The outside of [generateAndReloadConfigFile]: the environment, the file system and the signal.  Executing the
    templates cannot fail: their only fallible function is [dict], which they call with pairs.  A write that
    fails may leave the file as it was, or truncated, with a part of the text: [writeFile] gives the error, and the
    text of the file when it changed. *)
Record reloadEnv := mkReloadEnv {
  lookupEnv : string → option string;
  readFile : string → result string string;
  writeFile : string → string → option (string * option string);
  kill : Z → option string }.

(** What happened, in order. *)
Inductive action := Wrote (filename content : string) | Signalled (pid : Z).

Definition reloadConfig (env : reloadEnv) (reloaderPidFileName : string) : list action * option reloadError :=
  let pidFile := default reloaderPidFileName (lookupEnv env "FRR_RELOADER_PID_FILE") in
  match readFile env pidFile with
  | Err e => ([], Some (EReadPid e))
  | Ok pid =>
      match Atoi pid with
      | Err _ => ([], Some (EParsePid pid))
      | Ok pidInt =>
          match kill env pidInt with
          | Some e => ([], Some (EKill e))
          | None => ([Signalled pidInt], None)
          end
      end
  end.

Definition generateAndReloadConfigFile (env : reloadEnv) (configFileName reloaderPidFileName : string)
    (config : Config NeighborConfig) : list action * option reloadError :=
  let filename := default configFileName (lookupEnv env "FRR_CONFIG_FILE") in
  let configString := templateConfig config in
  match writeFile env filename configString with
  | Some (e, content) => (from_option (λ content, [Wrote filename content]) [] content, Some (EWrite e))
  | None =>
      let '(acts, err) := reloadConfig env reloaderPidFileName in
      (Wrote filename configString :: acts, err)
  end.

(** FRR is told to reload exactly when the whole text of the configuration has been written: a
    call without error writes the file, then signals the process of the PID file; a call with an error signals nothing. *)
Theorem reload_follows_write env configFileName pidFileName config :
  match generateAndReloadConfigFile env configFileName pidFileName config with
  | (acts, None) => ∃ pid,
      acts = [Wrote (default configFileName (lookupEnv env "FRR_CONFIG_FILE")) (templateConfig config); Signalled pid] ∧
      ∃ s, readFile env (default pidFileName (lookupEnv env "FRR_RELOADER_PID_FILE")) = Ok s ∧ Atoi s = Ok pid
  | (acts, Some _) => ∀ pid, Signalled pid ∉ acts
  end.
Proof.
  unfold generateAndReloadConfigFile, reloadConfig.
  destruct (writeFile _ _ _) as [[e [content|]]|];
    [intros pid ?%list_elem_of_singleton; done|by intros ? ?%elem_of_nil|].
  destruct (readFile _ _) as [s|]; [|intros pid; by rewrite list_elem_of_singleton].
  destruct (Atoi s) as [pid|] eqn:E; [|intros pid; by rewrite list_elem_of_singleton].
  destruct (kill _ _); [intros pid'; by rewrite list_elem_of_singleton|]. eauto.
Qed.
