(* ===== verification/Golden.v ===== *)
(** * The golden files of the repository ([internal/frr/testdata])

    The configurations of some tests of [frr_test.go] and the files the repository expects for them:
    [templateConfig] prints them to the byte.  Between them they exercise every template. *)

From Stdlib Require Import Ascii Lia.
From S2P Require Import Prelude GoStrings GoNet IPFamily Community Api FrrConfig Template Render.

(** A neighbor with the fields the tests set, and a configuration with the host name they use. *)
Definition nobody : AllowedOut := mkAllowedOut [] [] "" "" [] [].
Definition testNeighbor (family : Family) (asn addr iface : string) (port : option N) (bfd : string) (multihop : bool)
    (incoming : AllowedIn) (outgoing : AllowedOut) (block : list IncomingFilter) (families : list string)
    : NeighborConfig :=
  mkNeighborConfig family "" asn "" addr iface port None None None "" bfd false multihop 0 ""
    incoming outgoing block families.
Definition receiveNone : AllowedIn := mkAllowedIn false [] [].
Definition sends (v4 : list string) : AllowedOut := mkAllowedOut v4 [] "" "" [] [].
Definition testConfig (routers : list (RouterConfig NeighborConfig)) (bfd : list FrrBFDProfile) (extra : string)
    : Config NeighborConfig := mkConfig "informational" "dummyhostname" routers bfd extra.
Definition pathV4 (p : string) (le ge : N) : IncomingFilter := mkIncomingFilter IPv4 p le ge.
Definition pathV6 (p : string) (le ge : N) : IncomingFilter := mkIncomingFilter IPv6 p le ge.

Definition config_TestEVPNFull : Config NeighborConfig :=
  let vni v := mkFrrVNIProperties ("65000:" +:+ v) in
  testConfig
    [mkRouterConfig 65000 ""
       [testNeighbor IPv4 "65001" "192.168.1.2" "" None "" false receiveNone (sends ["192.169.1.0/24"]) []
          ["unicast"; "evpn"];
        testNeighbor IPv6 "65002" "2001:db8::1" "" None "" true receiveNone nobody [] ["evpn"]]
       "" ["192.169.1.0/24"] [] []
       (Some (mkFrrEVPNConfig (Some "All") true
          [mkFrrL2VNI 1000 (vni "1000" ["65000:1000"] ["65000:1000"]);
           mkFrrL2VNI 1001 (vni "1001" ["65000:1001"; "65000:1099"] ["65000:1001"]);
           mkFrrL2VNI 1002 (mkFrrVNIProperties "" [] [])] None));
     mkRouterConfig 65000 "" [] "red" [] [] []
       (Some (mkFrrEVPNConfig None false []
          (Some (mkFrrL3VNI 3000 (vni "3000" ["65000:3000"] ["65000:3000"]) ["unicast"]))));
     mkRouterConfig 65000 "" [] "blue" [] [] []
       (Some (mkFrrEVPNConfig None false []
          (Some (mkFrrL3VNI 4000 (vni "4000" ["65000:4000"; "65000:4099"] ["65000:4000"; "65000:4099"]) ["unicast"]))))]
    [] "".

Example TestEVPNFull : templateConfig config_TestEVPNFull = "log stdout informational
log timestamp precision 3
hostname dummyhostname
ip nht resolve-via-default
ipv6 nht resolve-via-default



ip prefix-list 192.168.1.2-allowed-ipv4 seq 1 permit 192.169.1.0/24


ipv6 prefix-list 192.168.1.2-allowed-ipv6 seq 1 deny any

route-map 192.168.1.2-out permit 1
  match ip address prefix-list 192.168.1.2-allowed-ipv4

route-map 192.168.1.2-out permit 2
  match ipv6 address prefix-list 192.168.1.2-allowed-ipv6





ip prefix-list 192.168.1.2-inpl-ipv4 seq 1 deny any

ipv6 prefix-list 192.168.1.2-inpl-ipv4 seq 2 deny any
route-map 192.168.1.2-in permit 3
  match ip address prefix-list 192.168.1.2-inpl-ipv4
route-map 192.168.1.2-in permit 4
  match ipv6 address prefix-list 192.168.1.2-inpl-ipv4



ip prefix-list 2001:db8::1-allowed-ipv4 seq 1 deny any


ipv6 prefix-list 2001:db8::1-allowed-ipv6 seq 1 deny any

route-map 2001:db8::1-out permit 1
  match ip address prefix-list 2001:db8::1-allowed-ipv4

route-map 2001:db8::1-out permit 2
  match ipv6 address prefix-list 2001:db8::1-allowed-ipv6





ip prefix-list 2001:db8::1-inpl-ipv6 seq 1 deny any

ipv6 prefix-list 2001:db8::1-inpl-ipv6 seq 2 deny any
route-map 2001:db8::1-in permit 3
  match ip address prefix-list 2001:db8::1-inpl-ipv6
route-map 2001:db8::1-in permit 4
  match ipv6 address prefix-list 2001:db8::1-inpl-ipv6

vrf red
  vni 3000
exit-vrf

vrf blue
  vni 4000
exit-vrf

router bgp 65000
  no bgp ebgp-requires-policy
  no bgp network import-check
  no bgp default ipv4-unicast
  bgp graceful-restart preserve-fw-state

  neighbor 192.168.1.2 remote-as 65001
  
  
  
  
  neighbor 2001:db8::1 remote-as 65002
  neighbor 2001:db8::1 ebgp-multihop
  
  
  
  

  address-family ipv4 unicast
    neighbor 192.168.1.2 activate
    neighbor 192.168.1.2 route-map 192.168.1.2-in in
    neighbor 192.168.1.2 route-map 192.168.1.2-out out
  exit-address-family

  address-family ipv4 unicast
    network 192.169.1.0/24
  exit-address-family

  address-family l2vpn evpn
    neighbor 192.168.1.2 activate
    neighbor 2001:db8::1 activate
    advertise-all-vni
    advertise-svi-ip
    vni 1000
      rd 65000:1000
      route-target import 65000:1000
      route-target export 65000:1000
    exit-vni
    vni 1001
      rd 65000:1001
      route-target import 65000:1001
      route-target import 65000:1099
      route-target export 65000:1001
    exit-vni
  exit-address-family

router bgp 65000 vrf red
  no bgp ebgp-requires-policy
  no bgp network import-check
  no bgp default ipv4-unicast
  bgp graceful-restart preserve-fw-state

  address-family l2vpn evpn
    advertise ipv4 unicast
    advertise ipv6 unicast
    rd 65000:3000
    route-target import 65000:3000
    route-target export 65000:3000
  exit-address-family

router bgp 65000 vrf blue
  no bgp ebgp-requires-policy
  no bgp network import-check
  no bgp default ipv4-unicast
  bgp graceful-restart preserve-fw-state

  address-family l2vpn evpn
    advertise ipv4 unicast
    advertise ipv6 unicast
    rd 65000:4000
    route-target import 65000:4000
    route-target import 65000:4099
    route-target export 65000:4000
    route-target export 65000:4099
  exit-address-family


".
Proof. vm_compute. reflexivity. Qed.

Definition config_TestSingleSessionWithEBGPMultihopAndExtras : Config NeighborConfig :=
  testConfig
    [mkRouterConfig 65000 ""
       [testNeighbor IPv4 "65001" "192.168.1.2" "" None "" true receiveNone
          (sends ["192.169.1.0/24"; "192.170.1.0/22"]) [] []]
       "" ["192.169.1.0/24"; "192.170.1.0/22"] [] [] None]
    [] ("# foo" +:+ newline +:+ "# baar").

Example TestSingleSessionWithEBGPMultihopAndExtras : templateConfig config_TestSingleSessionWithEBGPMultihopAndExtras = "log stdout informational
log timestamp precision 3
hostname dummyhostname
ip nht resolve-via-default
ipv6 nht resolve-via-default



ip prefix-list 192.168.1.2-allowed-ipv4 seq 1 permit 192.169.1.0/24
ip prefix-list 192.168.1.2-allowed-ipv4 seq 2 permit 192.170.1.0/22


ipv6 prefix-list 192.168.1.2-allowed-ipv6 seq 1 deny any

route-map 192.168.1.2-out permit 1
  match ip address prefix-list 192.168.1.2-allowed-ipv4

route-map 192.168.1.2-out permit 2
  match ipv6 address prefix-list 192.168.1.2-allowed-ipv6





ip prefix-list 192.168.1.2-inpl-ipv4 seq 1 deny any

ipv6 prefix-list 192.168.1.2-inpl-ipv4 seq 2 deny any
route-map 192.168.1.2-in permit 3
  match ip address prefix-list 192.168.1.2-inpl-ipv4
route-map 192.168.1.2-in permit 4
  match ipv6 address prefix-list 192.168.1.2-inpl-ipv4

router bgp 65000
  no bgp ebgp-requires-policy
  no bgp network import-check
  no bgp default ipv4-unicast
  bgp graceful-restart preserve-fw-state

  neighbor 192.168.1.2 remote-as 65001
  neighbor 192.168.1.2 ebgp-multihop
  
  
  
  

  address-family ipv4 unicast
    neighbor 192.168.1.2 activate
    neighbor 192.168.1.2 route-map 192.168.1.2-in in
    neighbor 192.168.1.2 route-map 192.168.1.2-out out
  exit-address-family
  address-family ipv4 unicast
    network 192.169.1.0/24
    network 192.170.1.0/22
  exit-address-family


# foo
# baar
".
Proof. vm_compute. reflexivity. Qed.

Definition config_TestMultipleRoutersImportVRFs : Config NeighborConfig :=
  testConfig
    [mkRouterConfig 65000 ""
       [testNeighbor IPv4 "65001" "192.168.1.2" "" None "" true receiveNone nobody [] []]
       "" ["192.169.1.0/24"] ["2001:db8:abcd::/48"] ["red"] None;
     mkRouterConfig 65000 "" [] "red" ["192.171.1.0/24"] [] [] None;
     mkRouterConfig 65000 "" [] "blue" ["192.171.1.0/24"] ["2001:db9:abcd::/48"] ["default"] None]
    [] "".

Example TestMultipleRoutersImportVRFs : templateConfig config_TestMultipleRoutersImportVRFs = "log stdout informational
log timestamp precision 3
hostname dummyhostname
ip nht resolve-via-default
ipv6 nht resolve-via-default



ip prefix-list 192.168.1.2-allowed-ipv4 seq 1 deny any


ipv6 prefix-list 192.168.1.2-allowed-ipv6 seq 1 deny any

route-map 192.168.1.2-out permit 1
  match ip address prefix-list 192.168.1.2-allowed-ipv4

route-map 192.168.1.2-out permit 2
  match ipv6 address prefix-list 192.168.1.2-allowed-ipv6





ip prefix-list 192.168.1.2-inpl-ipv4 seq 1 deny any

ipv6 prefix-list 192.168.1.2-inpl-ipv4 seq 2 deny any
route-map 192.168.1.2-in permit 3
  match ip address prefix-list 192.168.1.2-inpl-ipv4
route-map 192.168.1.2-in permit 4
  match ipv6 address prefix-list 192.168.1.2-inpl-ipv4

router bgp 65000
  no bgp ebgp-requires-policy
  no bgp network import-check
  no bgp default ipv4-unicast
  bgp graceful-restart preserve-fw-state

  address-family ipv4 unicast
    import vrf red
  exit-address-family
  address-family ipv6 unicast
    import vrf red
  exit-address-family
  neighbor 192.168.1.2 remote-as 65001
  neighbor 192.168.1.2 ebgp-multihop
  
  
  
  

  address-family ipv4 unicast
    neighbor 192.168.1.2 activate
    neighbor 192.168.1.2 route-map 192.168.1.2-in in
    neighbor 192.168.1.2 route-map 192.168.1.2-out out
  exit-address-family
  address-family ipv4 unicast
    network 192.169.1.0/24
  exit-address-family

  address-family ipv6 unicast
    network 2001:db8:abcd::/48
  exit-address-family

router bgp 65000 vrf red
  no bgp ebgp-requires-policy
  no bgp network import-check
  no bgp default ipv4-unicast
  bgp graceful-restart preserve-fw-state

  address-family ipv4 unicast
    network 192.171.1.0/24
  exit-address-family

router bgp 65000 vrf blue
  no bgp ebgp-requires-policy
  no bgp network import-check
  no bgp default ipv4-unicast
  bgp graceful-restart preserve-fw-state

  address-family ipv4 unicast
    import vrf default
  exit-address-family
  address-family ipv6 unicast
    import vrf default
  exit-address-family
  address-family ipv4 unicast
    network 192.171.1.0/24
  exit-address-family

  address-family ipv6 unicast
    network 2001:db9:abcd::/48
  exit-address-family


".
Proof. vm_compute. reflexivity. Qed.

Definition config_TestSingleSessionWithAlwaysBlock : Config NeighborConfig :=
  let block := [pathV4 "192.168.1.0/24" 24 0; pathV6 "fc00:f853:ccd:e800::/64" 64 0] in
  testConfig
    [mkRouterConfig 65000 ""
       [testNeighbor IPv4 "65001" "192.168.1.2" "" None "" false (mkAllowedIn true [] []) nobody block [];
        testNeighbor IPv4 "65001" "192.168.1.6" "" None "" false
          (mkAllowedIn false [pathV4 "192.168.2.0/24" 0 0] []) nobody block []]
       "" [] [] [] None]
    [] "".

Example TestSingleSessionWithAlwaysBlock : templateConfig config_TestSingleSessionWithAlwaysBlock = "log stdout informational
log timestamp precision 3
hostname dummyhostname
ip nht resolve-via-default
ipv6 nht resolve-via-default



ip prefix-list 192.168.1.2-allowed-ipv4 seq 1 deny any


ipv6 prefix-list 192.168.1.2-allowed-ipv6 seq 1 deny any

route-map 192.168.1.2-out permit 1
  match ip address prefix-list 192.168.1.2-allowed-ipv4

route-map 192.168.1.2-out permit 2
  match ipv6 address prefix-list 192.168.1.2-allowed-ipv6




ip prefix-list 192.168.1.2-inpl-ipv4 seq 1 permit any
ipv6 prefix-list 192.168.1.2-inpl-ipv4 seq 2 permit any



ip prefix-list 192.168.1.2-denied-inpl-ipv4 seq 1 permit 192.168.1.0/24 le 24
ipv6 prefix-list 192.168.1.2-denied-inpl-ipv4 seq 2 permit fc00:f853:ccd:e800::/64 le 64

route-map 192.168.1.2-in deny 3
  match ip address prefix-list 192.168.1.2-denied-inpl-ipv4
route-map 192.168.1.2-in deny 4
  match ipv6 address prefix-list 192.168.1.2-denied-inpl-ipv4
route-map 192.168.1.2-in permit 5
  match ip address prefix-list 192.168.1.2-inpl-ipv4
route-map 192.168.1.2-in permit 6
  match ipv6 address prefix-list 192.168.1.2-inpl-ipv4



ip prefix-list 192.168.1.6-allowed-ipv4 seq 1 deny any


ipv6 prefix-list 192.168.1.6-allowed-ipv6 seq 1 deny any

route-map 192.168.1.6-out permit 1
  match ip address prefix-list 192.168.1.6-allowed-ipv4

route-map 192.168.1.6-out permit 2
  match ipv6 address prefix-list 192.168.1.6-allowed-ipv6




ip prefix-list 192.168.1.6-inpl-ipv4 seq 1 permit 192.168.2.0/24


ipv6 prefix-list 192.168.1.6-inpl-ipv4 seq 2 deny any


ip prefix-list 192.168.1.6-denied-inpl-ipv4 seq 1 permit 192.168.1.0/24 le 24
ipv6 prefix-list 192.168.1.6-denied-inpl-ipv4 seq 2 permit fc00:f853:ccd:e800::/64 le 64

route-map 192.168.1.6-in deny 3
  match ip address prefix-list 192.168.1.6-denied-inpl-ipv4
route-map 192.168.1.6-in deny 4
  match ipv6 address prefix-list 192.168.1.6-denied-inpl-ipv4
route-map 192.168.1.6-in permit 5
  match ip address prefix-list 192.168.1.6-inpl-ipv4
route-map 192.168.1.6-in permit 6
  match ipv6 address prefix-list 192.168.1.6-inpl-ipv4

router bgp 65000
  no bgp ebgp-requires-policy
  no bgp network import-check
  no bgp default ipv4-unicast
  bgp graceful-restart preserve-fw-state

  neighbor 192.168.1.2 remote-as 65001
  
  
  
  
  neighbor 192.168.1.6 remote-as 65001
  
  
  
  

  address-family ipv4 unicast
    neighbor 192.168.1.2 activate
    neighbor 192.168.1.2 route-map 192.168.1.2-in in
    neighbor 192.168.1.2 route-map 192.168.1.2-out out
  exit-address-family

  address-family ipv4 unicast
    neighbor 192.168.1.6 activate
    neighbor 192.168.1.6 route-map 192.168.1.6-in in
    neighbor 192.168.1.6 route-map 192.168.1.6-out out
  exit-address-family

".
Proof. vm_compute. reflexivity. Qed.

Definition config_TestTwoSessionsAcceptV4AndV6 : Config NeighborConfig :=
  let accepts addr asn l := testNeighbor IPv4 asn addr "" None "" false (mkAllowedIn false l []) nobody [] [] in
  testConfig
    [mkRouterConfig 65000 ""
       [accepts "192.168.1.2" "65001"
          [pathV6 "fc00:f853:ccd:e800::/64" 0 0; pathV4 "192.168.1.0/24" 0 0; pathV4 "192.168.2.0/24" 32 24;
           pathV4 "192.168.3.0/24" 32 0; pathV4 "192.168.3.0/24" 0 16];
        accepts "192.168.1.3" "65002"
          [pathV6 "fc00:f853:ccd:e800::/64" 0 0; pathV4 "192.168.1.0/24" 0 0; pathV4 "192.168.2.0/24" 26 24;
           pathV4 "192.168.3.0/24" 32 27];
        accepts "192.168.1.4" "65001"
          [pathV6 "fc00:f853:ccd:e799::/64" 0 0; pathV4 "192.169.1.0/24" 0 0; pathV6 "fc00:f853:ccd:e800::/64" 32 24;
           pathV6 "fc00:f853:ccd:e801::/64" 0 24; pathV6 "fc00:f853:ccd:e802::/64" 32 0]]
       "" [] [] [] None]
    [] "".

Example TestTwoSessionsAcceptV4AndV6 : templateConfig config_TestTwoSessionsAcceptV4AndV6 = "log stdout informational
log timestamp precision 3
hostname dummyhostname
ip nht resolve-via-default
ipv6 nht resolve-via-default



ip prefix-list 192.168.1.2-allowed-ipv4 seq 1 deny any


ipv6 prefix-list 192.168.1.2-allowed-ipv6 seq 1 deny any

route-map 192.168.1.2-out permit 1
  match ip address prefix-list 192.168.1.2-allowed-ipv4

route-map 192.168.1.2-out permit 2
  match ipv6 address prefix-list 192.168.1.2-allowed-ipv6




ipv6 prefix-list 192.168.1.2-inpl-ipv4 seq 1 permit fc00:f853:ccd:e800::/64
ip prefix-list 192.168.1.2-inpl-ipv4 seq 2 permit 192.168.1.0/24
ip prefix-list 192.168.1.2-inpl-ipv4 seq 3 permit 192.168.2.0/24 le 32 ge 24
ip prefix-list 192.168.1.2-inpl-ipv4 seq 4 permit 192.168.3.0/24 le 32
ip prefix-list 192.168.1.2-inpl-ipv4 seq 5 permit 192.168.3.0/24 ge 16


ipv6 prefix-list 192.168.1.2-inpl-ipv4 seq 6 deny any
route-map 192.168.1.2-in permit 3
  match ip address prefix-list 192.168.1.2-inpl-ipv4
route-map 192.168.1.2-in permit 4
  match ipv6 address prefix-list 192.168.1.2-inpl-ipv4



ip prefix-list 192.168.1.3-allowed-ipv4 seq 1 deny any


ipv6 prefix-list 192.168.1.3-allowed-ipv6 seq 1 deny any

route-map 192.168.1.3-out permit 1
  match ip address prefix-list 192.168.1.3-allowed-ipv4

route-map 192.168.1.3-out permit 2
  match ipv6 address prefix-list 192.168.1.3-allowed-ipv6




ipv6 prefix-list 192.168.1.3-inpl-ipv4 seq 1 permit fc00:f853:ccd:e800::/64
ip prefix-list 192.168.1.3-inpl-ipv4 seq 2 permit 192.168.1.0/24
ip prefix-list 192.168.1.3-inpl-ipv4 seq 3 permit 192.168.2.0/24 le 26 ge 24
ip prefix-list 192.168.1.3-inpl-ipv4 seq 4 permit 192.168.3.0/24 le 32 ge 27


ipv6 prefix-list 192.168.1.3-inpl-ipv4 seq 5 deny any
route-map 192.168.1.3-in permit 3
  match ip address prefix-list 192.168.1.3-inpl-ipv4
route-map 192.168.1.3-in permit 4
  match ipv6 address prefix-list 192.168.1.3-inpl-ipv4



ip prefix-list 192.168.1.4-allowed-ipv4 seq 1 deny any


ipv6 prefix-list 192.168.1.4-allowed-ipv6 seq 1 deny any

route-map 192.168.1.4-out permit 1
  match ip address prefix-list 192.168.1.4-allowed-ipv4

route-map 192.168.1.4-out permit 2
  match ipv6 address prefix-list 192.168.1.4-allowed-ipv6




ipv6 prefix-list 192.168.1.4-inpl-ipv4 seq 1 permit fc00:f853:ccd:e799::/64
ip prefix-list 192.168.1.4-inpl-ipv4 seq 2 permit 192.169.1.0/24
ipv6 prefix-list 192.168.1.4-inpl-ipv4 seq 3 permit fc00:f853:ccd:e800::/64 le 32 ge 24
ipv6 prefix-list 192.168.1.4-inpl-ipv4 seq 4 permit fc00:f853:ccd:e801::/64 ge 24
ipv6 prefix-list 192.168.1.4-inpl-ipv4 seq 5 permit fc00:f853:ccd:e802::/64 le 32


ipv6 prefix-list 192.168.1.4-inpl-ipv4 seq 6 deny any
route-map 192.168.1.4-in permit 3
  match ip address prefix-list 192.168.1.4-inpl-ipv4
route-map 192.168.1.4-in permit 4
  match ipv6 address prefix-list 192.168.1.4-inpl-ipv4

router bgp 65000
  no bgp ebgp-requires-policy
  no bgp network import-check
  no bgp default ipv4-unicast
  bgp graceful-restart preserve-fw-state

  neighbor 192.168.1.2 remote-as 65001
  
  
  
  
  neighbor 192.168.1.3 remote-as 65002
  
  
  
  
  neighbor 192.168.1.4 remote-as 65001
  
  
  
  

  address-family ipv4 unicast
    neighbor 192.168.1.2 activate
    neighbor 192.168.1.2 route-map 192.168.1.2-in in
    neighbor 192.168.1.2 route-map 192.168.1.2-out out
  exit-address-family

  address-family ipv4 unicast
    neighbor 192.168.1.3 activate
    neighbor 192.168.1.3 route-map 192.168.1.3-in in
    neighbor 192.168.1.3 route-map 192.168.1.3-out out
  exit-address-family

  address-family ipv4 unicast
    neighbor 192.168.1.4 activate
    neighbor 192.168.1.4 route-map 192.168.1.4-in in
    neighbor 192.168.1.4 route-map 192.168.1.4-out out
  exit-address-family

".
Proof. vm_compute. reflexivity. Qed.

Definition config_TestSingleUnnumberedSession : Config NeighborConfig :=
  testConfig
    [mkRouterConfig 65000 ""
       [testNeighbor IPv4 "external" "" "net0" (Some 4567%N) "" false receiveNone
          (sends ["192.169.1.0/24"; "192.170.1.0/22"]) [] []]
       "" ["192.169.1.0/24"; "192.170.1.0/22"] [] [] None]
    [] "".

Example TestSingleUnnumberedSession : templateConfig config_TestSingleUnnumberedSession = "log stdout informational
log timestamp precision 3
hostname dummyhostname
ip nht resolve-via-default
ipv6 nht resolve-via-default



ip prefix-list net0-allowed-ipv4 seq 1 permit 192.169.1.0/24
ip prefix-list net0-allowed-ipv4 seq 2 permit 192.170.1.0/22


ipv6 prefix-list net0-allowed-ipv6 seq 1 deny any

route-map net0-out permit 1
  match ip address prefix-list net0-allowed-ipv4

route-map net0-out permit 2
  match ipv6 address prefix-list net0-allowed-ipv6





ip prefix-list net0-inpl-ipv4 seq 1 deny any

ipv6 prefix-list net0-inpl-ipv4 seq 2 deny any
route-map net0-in permit 3
  match ip address prefix-list net0-inpl-ipv4
route-map net0-in permit 4
  match ipv6 address prefix-list net0-inpl-ipv4

router bgp 65000
  no bgp ebgp-requires-policy
  no bgp network import-check
  no bgp default ipv4-unicast
  bgp graceful-restart preserve-fw-state

  neighbor net0 interface remote-as external
  neighbor net0 port 4567
  
  
  

  address-family ipv4 unicast
    neighbor net0 activate
    neighbor net0 route-map net0-in in
    neighbor net0 route-map net0-out out
  exit-address-family
  address-family ipv4 unicast
    network 192.169.1.0/24
    network 192.170.1.0/22
  exit-address-family


".
Proof. vm_compute. reflexivity. Qed.

(** The lists of the modifiers, named as the tests name them. *)
Definition withCommunity (name comm family : string) (prefixes : list string) : CommunityPrefixList :=
  let c := match New comm with Ok c => c | Err _ => BGPCommunityLegacy 0 0 end in
  mkCommunityPrefixList
    (mkPrefixList (name +:+ "-" +:+ comm +:+ "-" +:+ family +:+ "-community-prefixes") family (list_to_set prefixes)) c.
Definition withLocalPref (name : string) (lp : N) (family : string) (prefixes : list string) : LocalPrefPrefixList :=
  mkLocalPrefPrefixList
    (mkPrefixList (name +:+ "-" +:+ pretty lp +:+ "-" +:+ family +:+ "-localpref-prefixes") family (list_to_set prefixes)) lp.

Definition config_TestTwoRoutersTwoNeighbors : Config NeighborConfig :=
  testConfig
    [mkRouterConfig 65000 ""
       [mkNeighborConfig IPv4 "" "65001" "" "192.168.1.2" "" None (Some 80%Z) (Some 40%Z) (Some 10%Z) "" "" false false
          0 "" receiveNone
          (mkAllowedOut ["192.169.1.0/24"; "192.169.1.0/22"; "192.170.1.0/22"] [] "" ""
             [withLocalPref "65001@192.168.1.2" 100 "ip" ["192.0.2.0/24"];
              withLocalPref "65001@192.168.1.2" 150 "ip" ["192.169.1.0/22"]]
             [withCommunity "65001@192.168.1.2" "10:169" "ip" ["192.0.2.0/24"];
              withCommunity "65001@192.168.1.2" "10:170" "ip" ["192.0.2.0/24"; "192.169.1.0/22"; "192.170.1.0/22"];
              withCommunity "65040@192.0.1.23" "large:123:456:7892" "ip" ["192.0.2.0/24"];
              withCommunity "65040@192.0.1.23" "20:200" "ipv6" ["2001:db8::/64"];
              withCommunity "65040@192.0.1.23" "large:123:456:7890" "ipv6" ["2001:db8::/64"]]) [] []]
       "" ["192.169.1.0/24"; "192.170.1.0/22"] [] [] None;
     mkRouterConfig 65000 ""
       [testNeighbor IPv4 "65001" "192.168.1.3" "" None "" false receiveNone (sends ["192.169.1.0/24"]) [] []]
       "red" ["192.169.1.0/24"] [] [] None]
    [] "".

Example TestTwoRoutersTwoNeighbors : templateConfig config_TestTwoRoutersTwoNeighbors = "log stdout informational
log timestamp precision 3
hostname dummyhostname
ip nht resolve-via-default
ipv6 nht resolve-via-default

ip prefix-list 65001@192.168.1.2-100-ip-localpref-prefixes seq 1 permit 192.0.2.0/24

route-map 192.168.1.2-out permit 1
  match ip address prefix-list 65001@192.168.1.2-100-ip-localpref-prefixes
  set local-preference 100
  on-match next

ip prefix-list 65001@192.168.1.2-10:169-ip-community-prefixes seq 1 permit 192.0.2.0/24

route-map 192.168.1.2-out permit 2
  match ip address prefix-list 65001@192.168.1.2-10:169-ip-community-prefixes
  set community 10:169 additive
  on-match next

ip prefix-list 65001@192.168.1.2-10:170-ip-community-prefixes seq 1 permit 192.0.2.0/24
ip prefix-list 65001@192.168.1.2-10:170-ip-community-prefixes seq 2 permit 192.169.1.0/22
ip prefix-list 65001@192.168.1.2-10:170-ip-community-prefixes seq 3 permit 192.170.1.0/22

route-map 192.168.1.2-out permit 3
  match ip address prefix-list 65001@192.168.1.2-10:170-ip-community-prefixes
  set community 10:170 additive
  on-match next

ip prefix-list 65001@192.168.1.2-150-ip-localpref-prefixes seq 1 permit 192.169.1.0/22

route-map 192.168.1.2-out permit 4
  match ip address prefix-list 65001@192.168.1.2-150-ip-localpref-prefixes
  set local-preference 150
  on-match next

ipv6 prefix-list 65040@192.0.1.23-20:200-ipv6-community-prefixes seq 1 permit 2001:db8::/64

route-map 192.168.1.2-out permit 5
  match ipv6 address prefix-list 65040@192.0.1.23-20:200-ipv6-community-prefixes
  set community 20:200 additive
  on-match next

ipv6 prefix-list 65040@192.0.1.23-large:123:456:7890-ipv6-community-prefixes seq 1 permit 2001:db8::/64

route-map 192.168.1.2-out permit 6
  match ipv6 address prefix-list 65040@192.0.1.23-large:123:456:7890-ipv6-community-prefixes
  set large-community 123:456:7890 additive
  on-match next

ip prefix-list 65040@192.0.1.23-large:123:456:7892-ip-community-prefixes seq 1 permit 192.0.2.0/24

route-map 192.168.1.2-out permit 7
  match ip address prefix-list 65040@192.0.1.23-large:123:456:7892-ip-community-prefixes
  set large-community 123:456:7892 additive
  on-match next



ip prefix-list 192.168.1.2-allowed-ipv4 seq 1 permit 192.169.1.0/24
ip prefix-list 192.168.1.2-allowed-ipv4 seq 2 permit 192.169.1.0/22
ip prefix-list 192.168.1.2-allowed-ipv4 seq 3 permit 192.170.1.0/22


ipv6 prefix-list 192.168.1.2-allowed-ipv6 seq 1 deny any

route-map 192.168.1.2-out permit 8
  match ip address prefix-list 192.168.1.2-allowed-ipv4

route-map 192.168.1.2-out permit 9
  match ipv6 address prefix-list 192.168.1.2-allowed-ipv6





ip prefix-list 192.168.1.2-inpl-ipv4 seq 1 deny any

ipv6 prefix-list 192.168.1.2-inpl-ipv4 seq 2 deny any
route-map 192.168.1.2-in permit 10
  match ip address prefix-list 192.168.1.2-inpl-ipv4
route-map 192.168.1.2-in permit 11
  match ipv6 address prefix-list 192.168.1.2-inpl-ipv4



ip prefix-list 192.168.1.3-allowed-ipv4 seq 1 permit 192.169.1.0/24


ipv6 prefix-list 192.168.1.3-allowed-ipv6 seq 1 deny any

route-map 192.168.1.3-out permit 1
  match ip address prefix-list 192.168.1.3-allowed-ipv4

route-map 192.168.1.3-out permit 2
  match ipv6 address prefix-list 192.168.1.3-allowed-ipv6





ip prefix-list 192.168.1.3-inpl-ipv4 seq 1 deny any

ipv6 prefix-list 192.168.1.3-inpl-ipv4 seq 2 deny any
route-map 192.168.1.3-in permit 3
  match ip address prefix-list 192.168.1.3-inpl-ipv4
route-map 192.168.1.3-in permit 4
  match ipv6 address prefix-list 192.168.1.3-inpl-ipv4

router bgp 65000
  no bgp ebgp-requires-policy
  no bgp network import-check
  no bgp default ipv4-unicast
  bgp graceful-restart preserve-fw-state

  neighbor 192.168.1.2 remote-as 65001
  
  
  neighbor 192.168.1.2 timers 40 80
  neighbor 192.168.1.2 timers connect 10
  
  

  address-family ipv4 unicast
    neighbor 192.168.1.2 activate
    neighbor 192.168.1.2 route-map 192.168.1.2-in in
    neighbor 192.168.1.2 route-map 192.168.1.2-out out
  exit-address-family
  address-family ipv4 unicast
    network 192.169.1.0/24
    network 192.170.1.0/22
  exit-address-family

router bgp 65000 vrf red
  no bgp ebgp-requires-policy
  no bgp network import-check
  no bgp default ipv4-unicast
  bgp graceful-restart preserve-fw-state

  neighbor 192.168.1.3 remote-as 65001
  
  
  
  

  address-family ipv4 unicast
    neighbor 192.168.1.3 activate
    neighbor 192.168.1.3 route-map 192.168.1.3-in in
    neighbor 192.168.1.3 route-map 192.168.1.3-out out
  exit-address-family
  address-family ipv4 unicast
    network 192.169.1.0/24
  exit-address-family


".
Proof. vm_compute. reflexivity. Qed.

(** The profiles at the end of TestTwoRoutersTwoNeighborsBFD. *)
Example bfd_profiles :
  lines_text (top ["bfd"] :: ([mkFrrBFDProfile "test" (Some 100) (Some 200) (Some 3) (Some 25) true true (Some 20);
    mkFrrBFDProfile "testdefault" None None None None false false None]%N ≫= bfdprofile)) +:+ newline =
  "bfd
  profile test
    receive-interval 100
    transmit-interval 200
    detect-multiplier 3
    echo-mode
    echo transmit-interval 25
    echo receive-interval 25
    passive-mode
    minimum-ttl 20
    
  profile testdefault
    
".
Proof. vm_compute. reflexivity. Qed.
