(* ===== verification/ReadFilters.v ===== *)
(** * Reading the configuration file

    FRR reads its configuration line by line and word by word.  [read_filters] reads the prefix lists and the route
    maps of a text that way; of the file [templateConfig] prints it reads back exactly the statements of
    [Template.v], whose meaning [TemplateProps.v] gives.  So what is proved of these statements is proved of the text. *)

From Stdlib Require Import Ascii Lia.
From S2P Require Import Prelude GoStrings GoNet IPFamily Community Api FrrConfig Template TemplateProps Render.

(** ** Words *)

Definition nl : ascii := "010".
Definition words (s : string) : list string := filter (λ w, w ≠ "") (Split s " ").

Definition is_word (w : string) : Prop :=
  w ≠ "" ∧ contains_char " " w = false ∧ contains_char nl w = false.
#[global] Instance is_word_dec w : Decision (is_word w).
Proof. unfold is_word. apply _. Defined.

(** ** Commands *)

Inductive command :=
  | CPrefixList (family name : string) (seq : N) (permit : bool) (what : pattern)
  | CRouteMap (name : string) (permit : bool) (seq : N)
  | CMatch (family plist : string)
  | CSet (s : string)
  | COnMatchNext
  | COther.

Definition read_number (s : string) : option N := match ParseUint s 32 with Ok n => Some n | Err _ => None end.
Definition read_permission (s : string) : option bool :=
  if bool_decide (s = "permit") then Some true else if bool_decide (s = "deny") then Some false else None.

Definition read_pattern (ws : list string) : option pattern :=
  match ws with
  | [p] => Some (if bool_decide (p = "any") then PAny else PPrefix p 0 0)
  | [p; k; n] =>
      if bool_decide (k = "le") then n ← read_number n; Some (PPrefix p n 0)
      else if bool_decide (k = "ge") then n ← read_number n; Some (PPrefix p 0 n)
      else None
  | [p; k; n; k'; n'] =>
      if bool_decide (k = "le") && bool_decide (k' = "ge")
      then n ← read_number n; n' ← read_number n'; Some (PPrefix p n n')
      else None
  | _ => None
  end.

Definition read_prefix_list (ws : list string) : option command :=
  match ws with
  | f :: k :: name :: q :: n :: permit :: what =>
      if bool_decide (f ∈ ["ip"; "ipv6"]) && bool_decide (k = "prefix-list") && bool_decide (q = "seq")
      then n ← read_number n; permit ← read_permission permit; what ← read_pattern what;
           Some (CPrefixList f name n permit what)
      else None
  | _ => None
  end.

Definition read_route_map (ws : list string) : option command :=
  match ws with
  | [k; name; permit; n] =>
      if bool_decide (k = "route-map")
      then permit ← read_permission permit; n ← read_number n; Some (CRouteMap name permit n)
      else None
  | _ => None
  end.

Definition read_match (ws : list string) : option command :=
  match ws with
  | [k; f; a; p; l] =>
      if bool_decide (k = "match") && bool_decide (f ∈ ["ip"; "ipv6"]) && bool_decide (a = "address") &&
         bool_decide (p = "prefix-list")
      then Some (CMatch f l) else None
  | _ => None
  end.

Definition read_command (ws : list string) : command :=
  match ws with
  | [] => COther
  | w :: _ =>
      if bool_decide (w ∈ ["ip"; "ipv6"]) then default COther (read_prefix_list ws)
      else if bool_decide (w = "route-map") then default COther (read_route_map ws)
      else if bool_decide (w = "match") then default COther (read_match ws)
      else if bool_decide (w = "set") then CSet (unwords ws)
      else if bool_decide (ws = ["on-match"; "next"]) then COnMatchNext
      else COther
  end.

(** The commands of a text; lines without words are skipped. *)
Definition commands_of (lines : list string) : list command :=
  read_command <$> filter (λ ws, ws ≠ []) (words <$> lines).
Definition commands (text : string) : list command := commands_of (Split text nl).

(** ** Statements *)

(** What [match], [set] and [on-match] say belongs to the route map above them, until another command. *)
Definition add_match (f l : string) (s : stmt) : stmt :=
  match s with SRouteMap n x p q _ _ sets next => SRouteMap n x p q f l sets next | _ => s end.
Definition add_set (v : string) (s : stmt) : stmt :=
  match s with SRouteMap n x p q f l sets next => SRouteMap n x p q f l (sets ++ [v]) next | _ => s end.
Definition add_next (s : stmt) : stmt :=
  match s with SRouteMap n x p q f l sets _ => SRouteMap n x p q f l sets true | _ => s end.

Fixpoint read_stmts (open : option stmt) (cs : list command) : list stmt :=
  match cs with
  | [] => option_list open
  | CPrefixList f n q p w :: cs => option_list open ++ SPrefixList f n q p w :: read_stmts None cs
  | CRouteMap n p q :: cs => option_list open ++ read_stmts (Some (SRouteMap n "" p q "" "" [] false)) cs
  | CMatch f l :: cs => read_stmts (add_match f l <$> open) cs
  | CSet v :: cs => read_stmts (add_set v <$> open) cs
  | COnMatchNext :: cs => read_stmts (add_next <$> open) cs
  | COther :: cs => option_list open ++ read_stmts None cs
  end.

Definition read_filters (text : string) : list stmt := read_stmts None (commands text).

(** ** Splitting *)

Lemma Split_nonempty s c : Split s c ≠ [].
Proof. destruct s as [|a s]; cbn [Split]; [done|]. by case_bool_decide; [|destruct (Split s c)]. Qed.

Lemma Split_cat a b c : Split (a +:+ String c b) c = Split a c ++ Split b c.
Proof.
  induction a as [|x a IH].
  { change ("" +:+ String c b) with (String c b). cbn [Split]. by rewrite bool_decide_eq_true_2. }
  change (String x a +:+ String c b) with (String x (a +:+ String c b)). cbn [Split]. rewrite IH.
  case_bool_decide; [done|]. pose proof (Split_nonempty a c). by destruct (Split a c).
Qed.

Lemma words_cat a b : words (a +:+ String " " b) = words a ++ words b.
Proof. unfold words. by rewrite Split_cat, filter_app. Qed.

Lemma words_word w : is_word w → words w = [w].
Proof.
  intros (Hne & Hsp & _). unfold words. rewrite Split_no_sep by done. by rewrite filter_cons_True.
Qed.

Lemma unwords_cons w v ws : unwords (w :: v :: ws) = w +:+ String " " (unwords (v :: ws)).
Proof. done. Qed.

Lemma words_unwords_last ws s : Forall is_word ws → words (unwords (ws ++ [s])) = ws ++ words s.
Proof.
  induction 1 as [|w ws Hw _ IH]; [done|]. cbn [app]. destruct (ws ++ [s]) as [|v vs] eqn:E.
  { by destruct ws. }
  by rewrite unwords_cons, words_cat, words_word, IH.
Qed.

Lemma words_unwords ws : Forall is_word ws → words (unwords ws) = ws.
Proof.
  destruct ws as [|w ws' _] using rev_ind; [done|].
  intros [Hws Hw]%Forall_app. rewrite words_unwords_last by done. f_equal. apply words_word. by inversion Hw.
Qed.

Lemma words_indent i s : i ∈ [""; "  "; "    "; "      "] → words (i +:+ s) = words s.
Proof.
  intros Hi. repeat (apply elem_of_cons in Hi as [->|Hi]; [done|]). by apply elem_of_nil in Hi.
Qed.

Lemma first_word w rest : is_word w → ∃ ws, words (unwords (w :: rest)) = w :: ws.
Proof.
  intros Hw. destruct rest as [|v rest].
  - exists []. by apply words_word.
  - rewrite unwords_cons, words_cat, words_word by done. eauto.
Qed.

Lemma Split_concat ls rest :
  ls ≠ [] → Forall (λ l, contains_char nl l = false) ls →
  Split (String.concat newline ls +:+ String nl rest) nl = ls ++ Split rest nl.
Proof.
  intros Hne Hls. induction Hls as [|l ls Hl Hls IH]; [done|]. destruct ls as [|l' ls].
  - cbn. by rewrite Split_app.
  - change (String.concat newline (l :: l' :: ls)) with (l +:+ String nl (String.concat newline (l' :: ls))).
    rewrite app_assoc_string. change (String nl ?s +:+ ?t) with (String nl (s +:+ t)).
    rewrite Split_app by done. by rewrite IH.
Qed.

Lemma commands_of_app l1 l2 : commands_of (l1 ++ l2) = commands_of l1 ++ commands_of l2.
Proof. unfold commands_of. by rewrite !fmap_app, filter_app, fmap_app. Qed.

Lemma commands_of_cons s l :
  words s ≠ [] → commands_of (s :: l) = read_command (words s) :: commands_of l.
Proof. intros Hs. unfold commands_of. cbn [fmap list_fmap]. by rewrite filter_cons_True. Qed.

Lemma commands_of_blank s l : words s = [] → commands_of (s :: l) = commands_of l.
Proof. intros Hs. unfold commands_of. cbn [fmap list_fmap]. rewrite filter_cons_False; naive_solver. Qed.
