(* ===== verification/FileText.v ===== *)
(** * The text has the filters of the statements

    The lines prefixlists.tmpl prints are those of the statements of [Template.v], and reading the whole file gives
    these statements back; so the text FRR reads sends and accepts exactly what the configuration says. *)

From Stdlib Require Import Ascii Lia.
From S2P Require Import Prelude GoStrings GoNet IPFamily Community Api FrrConfig Errors Merge ApiToConfig Samples.
From S2P Require Import Template TemplateProps FilterNames FileFilters Render ReadFilters.

(** ** The text of a statement *)

Definition pattern_text (w : pattern) : string :=
  match w with
  | PAny => "any"
  | PPrefix p le ge =>
      p +:+ (if negb (le =? 0)%N then " le " +:+ pretty le else "") +:+
      (if negb (ge =? 0)%N then " ge " +:+ pretty ge else "")
  end.

Definition stmt_texts (s : stmt) : list string :=
  match s with
  | SPrefixList f name q p w => [unwords [f; "prefix-list"; name; "seq"; pretty q; permission p; pattern_text w]]
  | SRouteMap s x p q f l sets next =>
      [unwords ["route-map"; s +:+ x; permission p; pretty q];
       "  " +:+ unwords ["match"; f; "address"; "prefix-list"; l]] ++
      (String.append "  " <$> sets) ++ when next ["  on-match next"]
  end.

(** ** The lines of the filters *)

Definition visible (ls : list line) : list string := line_text <$> filter (λ l, L_words l ≠ []) ls.

Definition indented (l : line) : Prop := L_indent l ∈ [""; "  "; "    "; "      "].
#[global] Instance indented_dec l : Decision (indented l).
Proof. unfold indented. apply _. Defined.

(** The lines are the statements and lines without words; the counters agree. *)
Record prints_as (p : printerOf line) (q : printerOf stmt) : Prop := {
  pa_text ct : visible (fst (p ct)) = fst (q ct) ≫= stmt_texts;
  pa_counters ct : snd (p ct) = snd (q ct);
  pa_indent ct : Forall indented (fst (p ct)) }.

Lemma visible_app l1 l2 : visible (l1 ++ l2) = visible l1 ++ visible l2.
Proof. unfold visible. by rewrite filter_app, fmap_app. Qed.

Lemma snd_andThen {S} (p q : printerOf S) c : snd (andThen p q c) = snd (q (snd (p c))).
Proof. unfold andThen. destruct (p c) as [s c']; cbn. by destruct (q c'). Qed.

Lemma as_skip : prints_as skip skip.
Proof. by split. Qed.

Lemma as_andThen p q p' q' : prints_as p q → prints_as p' q' → prints_as (andThen p p') (andThen q q').
Proof.
  intros [Ht Hc Hi] [Ht' Hc' Hi']. split; intros ct.
  - by rewrite !fst_andThen, visible_app, bind_app, Ht, Ht', Hc.
  - by rewrite !snd_andThen, Hc, Hc'.
  - rewrite fst_andThen. by apply Forall_app.
Qed.

Lemma as_forEach {A} (l : list A) p q : (∀ x, prints_as (p x) (q x)) → prints_as (forEach l p) (forEach l q).
Proof. intros H. induction l; [apply as_skip|by apply as_andThen]. Qed.

Lemma as_onlyIf (b : bool) p q : prints_as p q → prints_as (onlyIf b p) (onlyIf b q).
Proof. intros H. by destruct b; [|apply as_skip]. Qed.

Definition no_words (ls : list line) : Prop := Forall (λ l, L_words l = [] ∧ indented l) ls.

Lemma visible_no_words ls : no_words ls → visible ls = [].
Proof.
  induction 1 as [|l ls [Hl _] _ IH]; [done|]. unfold visible in *. by rewrite filter_cons_False by naive_solver.
Qed.

Lemma as_emit_before ls p q : no_words ls → prints_as p q → prints_as (andThen (emit ls) p) q.
Proof.
  intros Hls [Ht Hc Hi]. split; intros ct; rewrite ?fst_andThen, ?snd_andThen; cbn [emit fst snd].
  - by rewrite visible_app, visible_no_words, Ht.
  - done.
  - apply Forall_app. split; [|done]. eapply Forall_impl; [done|]. naive_solver.
Qed.

Lemma as_emit_after ls p q : no_words ls → prints_as p q → prints_as (andThen p (emit ls)) q.
Proof.
  intros Hls [Ht Hc Hi]. split; intros ct; rewrite ?fst_andThen, ?snd_andThen; cbn [emit fst snd].
  - by rewrite visible_app, (visible_no_words ls), app_nil_r.
  - done.
  - apply Forall_app. split; [done|]. eapply Forall_impl; [done|]. naive_solver.
Qed.

Lemma as_prefixList f name p w text :
  pattern_text w = text → prints_as (prefixListLine f name p text) (prefixListEntry f name p w).
Proof. intros <-. split; intros ct; cbn; [done|done|]. apply Forall_singleton. by left. Qed.

Lemma as_routeMap s x p f l rest sets next :
  visible rest = (String.append "  " <$> sets) ++ when next ["  on-match next"] → Forall indented rest →
  prints_as (routeMapLines s x p f l rest) (routeMapEntry s x p f l sets next).
Proof.
  intros Hr Hi. split; intros ct; cbn [routeMapLines routeMapEntry counter fst snd].
  - rewrite visible_app, Hr. cbn. by rewrite app_nil_r.
  - done.
  - apply Forall_app. split; [|done]. by_evaluation.
Qed.

Lemma pattern_text_exact p : pattern_text (PPrefix p 0 0) = p.
Proof. cbn. by rewrite !app_nil_string. Qed.

#[local] Hint Resolve pattern_text_exact : core.

(** Structural steps of [prints_as]. *)
Ltac as_printed := repeat first
  [ apply as_emit_before; [by_evaluation|] | apply as_emit_after; [by_evaluation|]
  | apply as_andThen | apply as_forEach; intros ? | apply as_onlyIf | by apply as_prefixList ].

Lemma modifierLines_as n : prints_as (modifierLines n) (modifierFilters n).
Proof.
  unfold modifierLines, modifierFilters. apply as_forEach. intros pl.
  apply as_andThen; [as_printed|]. apply as_emit_before; [by_evaluation|].
  apply as_routeMap; [done|]. repeat constructor.
Qed.

Lemma next_hop_lines h ws :
  visible (when (set h) [ind2 (ws ++ [h])]) =
  (String.append "  " <$> (if bool_decide (h = "") then [] else [unwords (ws ++ [h])])) ++ [].
Proof. unfold set. case_bool_decide; cbn [negb when]; [done|]. unfold visible. by destruct ws. Qed.

Lemma next_hop_indent h ws : Forall indented (when (set h) [ind2 ws]).
Proof. unfold set. case_bool_decide; cbn [negb when]; repeat constructor. Qed.

Lemma outgoingLines_as n : prints_as (outgoingLines n) (outgoingFilters n).
Proof.
  unfold outgoingLines, outgoingFilters. as_printed.
  - apply as_routeMap; [|apply next_hop_indent]. apply (next_hop_lines _ ["set"; "ip"; "next-hop"]).
  - apply as_routeMap; [|apply next_hop_indent]. apply (next_hop_lines _ ["set"; "ipv6"; "next-hop"; "global"]).
Qed.

Lemma incomingLines_as n : prints_as (incomingLines n) (incomingFilters n).
Proof.
  unfold incomingLines, incomingFilters, filterLine, filterEntry. apply as_emit_before; [by_evaluation|].
  repeat apply as_andThen; try (apply as_routeMap; [done|constructor]); [as_printed| |].
  - destruct (AI_All (NC_Incoming n)); as_printed.
  - apply as_onlyIf, as_emit_before; [by_evaluation|]. apply as_andThen; [as_printed|].
    apply as_emit_before; [by_evaluation|]. apply as_andThen; (apply as_routeMap; [done|constructor]).
Qed.

Lemma filterLines_as config : prints_as (filterLines config) (fileFilters config).
Proof.
  unfold filterLines, fileFilters. do 2 (apply as_forEach; intros ?). unfold neighborfilters, neighborFilters.
  apply as_emit_before; [by_evaluation|].
  apply as_andThen; [apply modifierLines_as|]. apply as_andThen; [apply outgoingLines_as|apply incomingLines_as].
Qed.

(** ** Reading one statement *)

(** A statement whose names and prefixes are words, with numbers FRR can read. *)
Definition readable_pattern (w : pattern) : Prop :=
  match w with PAny => True | PPrefix p le ge => is_word p ∧ p ≠ "any" ∧ (le < 2 ^ 32)%N ∧ (ge < 2 ^ 32)%N end.

Definition readable_set (v : string) : Prop :=
  unwords (words v) = v ∧ head (words v) = Some "set" ∧ contains_char nl v = false.

Definition readable (s : stmt) : Prop :=
  match s with
  | SPrefixList f name q _ w => f ∈ ["ip"; "ipv6"] ∧ is_word name ∧ (q < 2 ^ 32)%N ∧ readable_pattern w
  | SRouteMap s x _ q f l sets _ =>
      f ∈ ["ip"; "ipv6"] ∧ is_word (s +:+ x) ∧ (q < 2 ^ 32)%N ∧ is_word l ∧ Forall readable_set sets
  end.
#[global] Instance readable_dec s : Decision (readable s).
Proof.
  destruct s as [f name q p [|pr le ge]|]; unfold readable, readable_pattern, readable_set; apply _.
Defined.

Definition stmt_commands (s : stmt) : list command :=
  match s with
  | SPrefixList f name q p w => [CPrefixList f name q p w]
  | SRouteMap s x p q f l sets next =>
      CRouteMap (s +:+ x) p q :: CMatch f l :: (CSet <$> sets) ++ when next [COnMatchNext]
  end.

Lemma pretty_word (n : N) : is_word (pretty n).
Proof.
  split_and!; [|by apply pretty_no_char..]. destruct (pretty_N_cons n) as (c & r & ->). done.
Qed.

Lemma permission_word b : is_word (permission b).
Proof. destruct b; by_evaluation. Qed.

Lemma read_pretty n : (n < 2 ^ 32)%N → read_number (pretty n) = Some n.
Proof. intros Hn. unfold read_number. by rewrite ParseUint_Format. Qed.

Lemma family_word f : f ∈ ["ip"; "ipv6"] → is_word f.
Proof. intros [->|[->|[]%elem_of_nil]%elem_of_cons]%elem_of_cons; by_evaluation. Qed.

Lemma words_pattern w :
  readable_pattern w →
  words (pattern_text w) = match w with
    | PAny => ["any"]
    | PPrefix p le ge => p :: when (negb (le =? 0)%N) ["le"; pretty le] ++ when (negb (ge =? 0)%N) ["ge"; pretty ge]
    end.
Proof.
  destruct w as [|p le ge]; [done|]. intros (Hp & _). cbn [pattern_text].
  pose proof (pretty_word le) as Hle. pose proof (pretty_word ge) as Hge.
  destruct (negb (le =? 0)%N), (negb (ge =? 0)%N); cbn [when app].
  - change (p +:+ (" le " +:+ pretty le) +:+ " ge " +:+ pretty ge)
      with (p +:+ String " " ("le" +:+ String " " (pretty le +:+ String " " ("ge" +:+ String " " (pretty ge))))).
    by rewrite !words_cat, !words_word.
  - rewrite app_nil_string. change (p +:+ " le " +:+ pretty le) with (p +:+ String " " ("le" +:+ String " " (pretty le))).
    by rewrite !words_cat, !words_word.
  - change (p +:+ "" +:+ " ge " +:+ pretty ge) with (p +:+ String " " ("ge" +:+ String " " (pretty ge))).
    by rewrite !words_cat, !words_word.
  - rewrite !app_nil_string. by apply words_word.
Qed.

Lemma read_pattern_text w : readable_pattern w → read_pattern (words (pattern_text w)) = Some w.
Proof.
  intros Hw. rewrite words_pattern by done. destruct w as [|p le ge]; [done|].
  destruct Hw as (_ & Hany & Hle & Hge).
  destruct (N.eqb_spec le 0) as [->|], (N.eqb_spec ge 0) as [->|]; cbn [negb when app read_pattern];
    rewrite ?read_pretty by done; cbn; [by rewrite bool_decide_eq_false_2|done..].
Qed.

Lemma commands_of_set v l : readable_set v → commands_of (("  " +:+ v) :: l) = CSet v :: commands_of l.
Proof.
  intros (Hv & Hset & _).
  assert (words ("  " +:+ v) = words v) as Hw by (by apply (words_indent "  "); right; left).
  destruct (words v) as [|w ws] eqn:E; [done|]. injection Hset as ->.
  rewrite commands_of_cons by (by rewrite Hw). rewrite Hw. cbn [read_command].
  rewrite !bool_decide_eq_false_2 by (by_evaluation || done). by rewrite bool_decide_eq_true_2, Hv.
Qed.

Ltac all_words :=
  repeat first [apply List.Forall_nil | apply List.Forall_cons];
  first [done | apply pretty_word | apply permission_word | by_evaluation].

Lemma commands_of_stmt s l : readable s → commands_of (stmt_texts s ++ l) = stmt_commands s ++ commands_of l.
Proof.
  destruct s as [f name q p w|s x p q f l' sets next]; cbn [readable stmt_texts stmt_commands].
  - intros (Hf & Hname & Hq & Hw). pose proof (family_word f Hf) as Hfw.
    assert (words (unwords [f; "prefix-list"; name; "seq"; pretty q; permission p; pattern_text w]) =
      [f; "prefix-list"; name; "seq"; pretty q; permission p] ++ words (pattern_text w)) as Hws.
    { apply (words_unwords_last [f; "prefix-list"; name; "seq"; pretty q; permission p]).
      all_words. }
    cbn [app]. rewrite commands_of_cons by (by rewrite Hws). rewrite Hws. cbn [app read_command].
    rewrite bool_decide_eq_true_2 by done. cbn [read_prefix_list].
    rewrite (bool_decide_eq_true_2 (f ∈ _)) by done. cbn [bool_decide andb].
    rewrite !bool_decide_eq_true_2 by done. cbn [andb]. rewrite read_pretty by done.
    rewrite read_pattern_text by done. by destruct p.
  - intros (Hf & Hs & Hq & Hl & Hsets). pose proof (family_word f Hf) as Hfw.
    assert (words (unwords ["route-map"; s +:+ x; permission p; pretty q]) =
      ["route-map"; s +:+ x; permission p; pretty q]) as Hw1.
    { apply words_unwords. all_words. }
    assert (words ("  " +:+ unwords ["match"; f; "address"; "prefix-list"; l']) =
      ["match"; f; "address"; "prefix-list"; l']) as Hw2.
    { rewrite words_indent by (by right; left). apply words_unwords. all_words. }
    cbn [app]. rewrite commands_of_cons by (by rewrite Hw1). rewrite commands_of_cons by (by rewrite Hw2).
    rewrite Hw1, Hw2. f_equal.
    { cbn. rewrite read_pretty by done. by destruct p. }
    f_equal. { cbn [read_command read_match]. rewrite (bool_decide_eq_true_2 (f ∈ _)) by done. done. }
    rewrite <-!app_assoc. induction Hsets as [|v sets Hv Hsets IH]; cbn [fmap list_fmap app].
    + by destruct next.
    + rewrite commands_of_set by done. by rewrite IH.
Qed.

Lemma commands_of_stmts stmts l :
  Forall readable stmts → commands_of ((stmts ≫= stmt_texts) ++ l) = (stmts ≫= stmt_commands) ++ commands_of l.
Proof.
  induction 1 as [|s stmts Hs _ IH]; [done|]. cbn [mbind list_bind]. rewrite <-!app_assoc.
  by rewrite commands_of_stmt, IH.
Qed.

(** ** Reading the statements back *)

(** A route map is read with its whole name. *)
Definition whole_name (s : stmt) : stmt :=
  match s with
  | SRouteMap s x p q f l sets next => SRouteMap (s +:+ x) "" p q f l sets next
  | SPrefixList _ _ _ _ _ => s
  end.

Lemma read_sets n x p q f l acc sets cs :
  read_stmts (Some (SRouteMap n x p q f l acc false)) ((CSet <$> sets) ++ cs) =
  read_stmts (Some (SRouteMap n x p q f l (acc ++ sets) false)) cs.
Proof.
  revert acc. induction sets as [|v sets IH]; intros acc; [by rewrite app_nil_r|].
  cbn [fmap list_fmap app read_stmts add_set option_fmap option_map]. by rewrite IH, <-app_assoc.
Qed.

(** What is open after some statements, and what they have closed. *)
Lemma read_stmts_stmts stmts open cs :
  (∀ open', ∃ closed, read_stmts open' cs = option_list open' ++ closed ∧ read_stmts None cs = closed) →
  read_stmts open ((stmts ≫= stmt_commands) ++ cs) =
  option_list open ++ (whole_name <$> stmts) ++ read_stmts None cs.
Proof.
  intros Hcs. revert open. induction stmts as [|s stmts IH]; intros open.
  - cbn. destruct (Hcs open) as (closed & -> & ->). done.
  - cbn [mbind list_bind]. rewrite <-app_assoc. destruct s as [f n q p w|n x p q f l sets next]; cbn [stmt_commands].
    + cbn [app read_stmts]. rewrite IH. done.
    + cbn [app read_stmts add_match option_fmap option_map fmap]. rewrite <-app_assoc, read_sets. cbn [app].
      assert (∀ b : bool, read_stmts (Some (SRouteMap (n +:+ x) "" p q f l sets false))
          (when b [COnMatchNext] ++ (stmts ≫= stmt_commands) ++ cs) =
        SRouteMap (n +:+ x) "" p q f l sets b :: (whole_name <$> stmts) ++ read_stmts None cs) as Hb.
      { intros [|]; cbn [when app read_stmts add_next option_fmap option_map fmap]; by rewrite IH. }
      by rewrite Hb.
Qed.

(** ** The rest of the file *)

(** The first words of the lines that are no filters. *)
Definition plainWords : list string :=
  ["log"; "debug"; "hostname"; "vrf"; "vni"; "exit-vrf"; "router"; "no"; "bgp"; "address-family"; "import";
   "exit-address-family"; "neighbor"; "network"; "advertise-all-vni"; "advertise-svi-ip"; "advertise"; "rd";
   "route-target"; "exit-vni"; "bfd"; "profile"; "receive-interval"; "transmit-interval"; "detect-multiplier";
   "echo-mode"; "echo"; "passive-mode"; "minimum-ttl"].

Definition plain (l : line) : Prop :=
  indented l ∧
  match L_words l with [] => True | w :: ws => w ∈ plainWords ∨ (w ∈ ["ip"; "ipv6"] ∧ ws = ["nht"; "resolve-via-default"]) end.
#[global] Instance plain_dec l : Decision (plain l).
Proof. unfold plain. destruct (L_words l); apply _. Defined.

Lemma commands_of_plain ls :
  Forall plain ls → Forall (λ c, c = COther) (commands_of (line_text <$> ls)).
Proof.
  induction 1 as [|[i ws] ls [Hi Hl] _ IH]; [constructor|]. cbn [fmap list_fmap L_indent L_words] in *.
  unfold line_text at 1. cbn [L_indent L_words].
  pose proof (words_indent i (unwords ws) Hi) as Hw. destruct ws as [|w ws].
  { by rewrite commands_of_blank. }
  destruct Hl as [Hp|[Hip ->]].
  - assert (Forall (λ w, is_word w ∧ w ∉ ["ip"; "ipv6"; "route-map"; "match"; "set"; "on-match"]) plainWords) as HF
      by by_evaluation.
    destruct (proj1 (Forall_forall _ _) HF w Hp) as [Hword Hno].
    destruct (first_word w ws Hword) as [ws' Hws]. rewrite Hws in Hw.
    rewrite commands_of_cons, Hw by (by rewrite Hw). apply List.Forall_cons; [|done]. cbn [read_command].
    rewrite !bool_decide_eq_false_2 by set_solver. done.
  - assert (read_command [w; "nht"; "resolve-via-default"] = COther) as Hc.
    { apply elem_of_cons in Hip as [->|Hip]; [done|]. by apply list_elem_of_singleton in Hip as ->. }
    rewrite (words_unwords [w; "nht"; "resolve-via-default"]) in Hw.
    2:{ pose proof (family_word w Hip). all_words. }
    rewrite commands_of_cons, Hw by (by rewrite Hw). by apply List.Forall_cons.
Qed.

Lemma read_others cs open :
  Forall (λ c, c = COther) cs → cs ≠ [] → ∀ rest,
  read_stmts open (cs ++ rest) = option_list open ++ read_stmts None rest.
Proof.
  intros Hcs Hne rest. revert open. induction Hcs as [|c cs -> Hcs IH]; [done|]. intros open.
  cbn [app read_stmts]. destruct cs; [done|]. by rewrite IH.
Qed.

Lemma Forall_when {A} (P : A → Prop) b l : Forall P l → Forall P (when b l).
Proof. by destruct b. Qed.
Lemma Forall_whenSome {A B} (P : B → Prop) (o : option A) f : (∀ x, Forall P (f x)) → Forall P (whenSome o f).
Proof. destruct o; cbn; auto. Qed.

Lemma plain_when i b ws : plain (mkLine i ws) → plain (mkLine i (when b ws)).
Proof. intros H. destruct b; [done|]. by split; [apply H|]. Qed.
Lemma plain_whenSome {A} i (o : option A) f :
  indented (mkLine i []) → (∀ x, plain (mkLine i (f x))) → plain (mkLine i (whenSome o f)).
Proof. intros Hi Hf. destruct o; [apply Hf|done]. Qed.

(** Structural steps of [Forall plain]. *)
Ltac plain_lines := repeat (cbv beta; lazymatch goal with
  | |- Forall _ (when _ _) => apply Forall_when
  | |- Forall _ (whenSome _ _) => apply Forall_whenSome; intros ?
  | |- Forall _ (_ ++ _) => apply Forall_app; split
  | |- Forall _ (_ ≫= _) => apply Forall_bind, Forall_forall; intros ? _; unfold compose
  | |- Forall _ (_ <$> _) => apply Forall_fmap, Forall_forall; intros ? _; unfold compose
  | |- Forall _ [] => apply List.Forall_nil
  | |- Forall _ (_ :: _) => apply List.Forall_cons
  | |- plain (mkLine _ (when _ _)) => apply plain_when
  | |- plain (mkLine _ (whenSome _ _)) => apply plain_whenSome; [by_evaluation|intros ?]
  | |- plain (mkLine _ ([_; _; _] ++ _)) => split; [by_evaluation|left; by_evaluation]
  | |- plain (mkLine _ [_; "nht"; _]) => split; [by_evaluation|right; split; [by_evaluation|done]]
  | |- plain (mkLine _ (_ :: _)) => split; [by_evaluation|left; by_evaluation]
  | |- plain (mkLine _ []) => by_evaluation
  | |- plain blank => by_evaluation
  end).

Lemma headLines_plain config : Forall plain (headLines config).
Proof. unfold headLines. plain_lines. unfold debugLines. by_evaluation. Qed.

Lemma neighborsession_plain n asn : Forall plain (neighborsession n asn).
Proof. unfold neighborsession. destruct (set (NC_Iface n)); plain_lines. Qed.

Lemma vniProperties_plain i p : indented (mkLine i []) → Forall plain (vniProperties i p).
Proof. intros Hi. unfold vniProperties. apply Forall_app; split; [|apply Forall_app; split].
  - apply Forall_when. apply List.Forall_cons; [|done]. split; [done|left; by_evaluation].
  - apply Forall_fmap, Forall_forall. intros t _. split; [done|left; by_evaluation].
  - apply Forall_fmap, Forall_forall. intros t _. split; [done|left; by_evaluation].
Qed.

Lemma evpnLines_plain r : Forall plain (evpnLines r).
Proof. unfold evpnLines, l2vniLines. plain_lines; apply vniProperties_plain; by_evaluation. Qed.

Lemma routerLines_plain r : Forall plain (routerLines r).
Proof.
  unfold routerLines, importLines, networkLines, neighborenableipfamily, unicastFamily.
  plain_lines; [apply neighborsession_plain|apply evpnLines_plain].
Qed.

Lemma bodyLines_plain config : Forall plain (bodyLines config).
Proof. unfold bodyLines, vrfLines, bfdprofile. plain_lines. apply routerLines_plain. Qed.

(** ** The whole file *)

Definition no_newline (s : string) : Prop := contains_char nl s = false.

(** The statements can be read, and no value printed elsewhere breaks its line. *)
Record readable_config (config : Config NeighborConfig) : Prop := {
  rc_stmts : Forall readable (fst (fileFilters config ∅));
  rc_lines : Forall (λ l, no_newline (line_text l)) (headLines config ++ bodyLines config) }.

Lemma no_newline_app a b : no_newline (a +:+ b) ↔ no_newline a ∧ no_newline b.
Proof. unfold no_newline. by rewrite contains_char_app, orb_false_iff. Qed.

Lemma no_newline_unwords ws : Forall no_newline ws → no_newline (unwords ws).
Proof.
  induction 1 as [|w ws Hw Hws IH]; [done|]. destruct ws as [|v ws]; [done|].
  rewrite unwords_cons. change (String " " ?s) with (" " +:+ s). by rewrite !no_newline_app.
Qed.

Lemma word_no_newline w : is_word w → no_newline w.
Proof. by intros (_ & _ & ?). Qed.

Lemma pattern_no_newline w : readable_pattern w → no_newline (pattern_text w).
Proof.
  destruct w as [|p le ge]; [done|]. intros (Hp & _). cbn [pattern_text].
  pose proof (word_no_newline _ (pretty_word le)). pose proof (word_no_newline _ (pretty_word ge)).
  rewrite !no_newline_app. split; [by apply word_no_newline|]. by destruct (negb _), (negb _); rewrite ?no_newline_app.
Qed.

Lemma stmt_no_newline s : readable s → Forall no_newline (stmt_texts s).
Proof.
  destruct s as [f name q p w|s x p q f l sets next]; cbn [readable stmt_texts].
  - intros (Hf & Hname & _ & Hw). apply Forall_singleton, no_newline_unwords.
    repeat first [apply List.Forall_nil | apply List.Forall_cons];
      first [by apply pattern_no_newline | apply word_no_newline; first [by apply family_word | all_words] | done].
  - intros (Hf & Hs & _ & Hl & Hsets). repeat apply List.Forall_cons; [..|apply Forall_app; split].
    + apply no_newline_unwords.
      repeat first [apply List.Forall_nil | apply List.Forall_cons]; apply word_no_newline; all_words.
    + apply (no_newline_app "  "). split; [done|]. apply no_newline_unwords.
      repeat first [apply List.Forall_nil | apply List.Forall_cons]; apply word_no_newline;
        first [by apply family_word | all_words].
    + apply Forall_fmap. eapply Forall_impl; [exact Hsets|]. intros v (_ & _ & Hv).
      by apply (no_newline_app "  ").
    + destruct next; all_words.
Qed.

Lemma lines_no_newline ls :
  Forall indented ls → Forall no_newline (visible ls) → Forall (λ l, no_newline (line_text l)) ls.
Proof.
  induction 1 as [|[i ws] ls Hi _ IH]; [constructor|]. intros Hv. destruct ws as [|w ws].
  - apply List.Forall_cons; [|by apply IH]. unfold indented in Hi. cbn in Hi.
    repeat (apply elem_of_cons in Hi as [->|Hi]; [done|]). by apply elem_of_nil in Hi.
  - unfold visible in Hv. rewrite filter_cons_True in Hv by done. inversion Hv; subst.
    apply List.Forall_cons; [done|]. by apply IH.
Qed.

Lemma commands_of_visible ls : Forall indented ls → commands_of (line_text <$> ls) = commands_of (visible ls).
Proof.
  induction 1 as [|[i ws] ls Hi _ IH]; [done|]. unfold visible. destruct ws as [|w ws].
  - rewrite filter_cons_False by naive_solver. cbn [fmap list_fmap]. rewrite commands_of_blank; [done|].
    unfold line_text. by rewrite words_indent.
  - rewrite filter_cons_True by done. cbn [fmap list_fmap].
    change (?a :: ?b) with ([a] ++ b). by rewrite !commands_of_app, IH.
Qed.

Lemma commands_of_nonempty ls l :
  l ∈ ls → words (line_text l) ≠ [] → commands_of (line_text <$> ls) ≠ [].
Proof.
  intros Hl Hw. apply list_elem_of_split in Hl as (l1 & l2 & ->).
  rewrite fmap_app, commands_of_app. cbn [fmap list_fmap]. rewrite commands_of_cons by done.
  by destruct (commands_of _).
Qed.

(** The lines of the file, and those of the raw configuration. *)
Lemma lines_templateConfig config :
  readable_config config →
  ∃ rest, Split (templateConfig config) nl = (line_text <$> configLines config) ++ rest ∧
    filter (λ ws, ws ≠ []) (words <$> rest) = filter (λ ws, ws ≠ []) (words <$> Split (Config_ExtraConfig config) nl).
Proof.
  intros [Hstmts Hlines]. apply Forall_app in Hlines as [Hhead Hbody].
  destruct (filterLines_as config) as [Htext _ Hind]. specialize (Htext ∅). specialize (Hind ∅).
  assert (Forall (λ l, no_newline (line_text l)) (configLines config)) as Hall.
  { unfold configLines. apply Forall_app. split; [done|]. apply Forall_app. split; [|done].
    apply lines_no_newline; [done|]. rewrite Htext. apply Forall_bind. eapply Forall_impl; [done|].
    intros s Hs. by apply stmt_no_newline. }
  set (rest := if set (Config_ExtraConfig config) then Config_ExtraConfig config +:+ newline else "").
  assert (templateConfig config = lines_text (configLines config) +:+ String nl rest) as ->.
  { unfold templateConfig, rest. by destruct (set _). }
  exists (Split rest nl). unfold lines_text. rewrite Split_concat; [|done|by apply Forall_fmap]. split; [done|].
  unfold rest, set. case_bool_decide as He; cbn [negb]; [by rewrite He|].
  change newline with (String nl ""). rewrite Split_cat, fmap_app, filter_app. cbn. by rewrite app_nil_r.
Qed.

(** The commands of the file, part by part. *)
Lemma commands_templateConfig config :
  readable_config config →
  commands (templateConfig config) =
    commands_of (line_text <$> headLines config) ++
    (fst (fileFilters config ∅) ≫= stmt_commands) ++
    commands_of (line_text <$> bodyLines config) ++ commands (Config_ExtraConfig config).
Proof.
  intros Hc. destruct (lines_templateConfig config Hc) as (rest & Hs & Hrest). destruct Hc as [Hstmts _].
  destruct (filterLines_as config) as [Htext _ Hind]. specialize (Htext ∅). specialize (Hind ∅).
  unfold commands. rewrite Hs, commands_of_app.
  assert (commands_of rest = commands_of (Split (Config_ExtraConfig config) nl)) as -> by (unfold commands_of; by rewrite Hrest).
  unfold configLines. rewrite !fmap_app, !commands_of_app, <-!app_assoc. f_equal.
  rewrite commands_of_visible, Htext by done.
  rewrite <-(app_nil_r (_ ≫= stmt_texts)), commands_of_stmts by done. by rewrite app_nil_r.
Qed.

Lemma body_nonempty config :
  Config_Routers config ≠ [] → commands_of (line_text <$> bodyLines config) ≠ [].
Proof.
  intros Hne. apply (commands_of_nonempty _ (ind2 ["no"; "bgp"; "ebgp-requires-policy"])); [|done].
  unfold bodyLines. destruct (Config_Routers config) as [|r rs]; [done|]. cbn [mbind list_bind].
  apply elem_of_app. right. right. apply elem_of_app. left. apply elem_of_app. left. right. left.
Qed.

Lemma read_templateConfig config :
  readable_config config →
  read_filters (templateConfig config) =
    (whole_name <$> fst (fileFilters config ∅)) ++ read_filters (Config_ExtraConfig config).
Proof.
  intros Hc. unfold read_filters. rewrite commands_templateConfig by done.
  pose proof (commands_of_plain _ (headLines_plain config)) as Hhead.
  pose proof (commands_of_plain _ (bodyLines_plain config)) as Hbody.
  rewrite read_others; [|done|].
  2:{ apply (commands_of_nonempty _ (top ["log"; "timestamp"; "precision"; "3"])); [|done]. right. left. }
  cbn [option_list app]. destruct (decide (Config_Routers config = [])) as [Hr|Hne].
  - unfold fileFilters. rewrite Hr. cbn [forEach skip fst mbind list_bind fmap list_fmap app].
    destruct (commands_of (line_text <$> bodyLines config)) as [|c cs] eqn:E; [done|].
    by rewrite read_others.
  - apply body_nonempty in Hne. rewrite read_stmts_stmts.
    + by rewrite (read_others _ None Hbody Hne).
    + intros open. eexists. split; by rewrite read_others.
Qed.

(** ** What the text decides *)

(** The file has only the filters of the sessions: the raw configuration adds none. *)
Definition no_raw_filters (config : Config NeighborConfig) : Prop :=
  read_filters (Config_ExtraConfig config) = [].

Lemma whole_name_list f n s : list_numbered f n (whole_name s) = list_numbered f n s.
Proof. by destruct s. Qed.
Lemma whole_name_map m s : route_map_numbered m (whole_name s) = route_map_numbered m s.
Proof. destruct s; [done|]. cbn. by rewrite app_nil_string. Qed.

Lemma omap_whole_name {A} (f : stmt → option A) (stmts : list stmt) :
  (∀ s, f (whole_name s) = f s) → omap f (whole_name <$> stmts) = omap f stmts.
Proof. intros Hf. induction stmts as [|s stmts IH]; [done|]. cbn. by rewrite Hf, IH. Qed.

Section text.
Context {route : Type} (family_of : route → string) (covers : string → N → N → route → bool).
Context (at_end : bool).

(** A session's route map in the text. *)
Definition text_map (text name : string) (r : route) : option (list string) :=
  apply_map family_of covers at_end (read_filters text) name r.

Lemma text_map_file config name r :
  readable_config config → no_raw_filters config →
  text_map (templateConfig config) name r =
  apply_map family_of covers at_end (fst (fileFilters config ∅)) name r.
Proof using Type.
  intros Hc Hraw. unfold text_map. rewrite (read_templateConfig _ Hc), Hraw, app_nil_r.
  unfold apply_map, permits. rewrite omap_whole_name by apply whole_name_map.
  apply run_map_ext. intros e _. f_equal. by rewrite omap_whole_name by (intros; apply whole_name_list).
Qed.

(** The text sends exactly what is advertised: in the text FRR reads for a converted configuration
    whose values can be read and whose sessions are told apart, a route passes the outgoing route map of a session
    if and only if its prefix is one of the prefixes the session advertises in its
    family, and it leaves with exactly the local preferences and communities
    requested for its prefix and the next hop of its family; whatever pattern matching is,
    and whichever way FRR ends a route map whose last match said to go on. *)
Theorem text_sends_exactly resources ab c n r :
  apiToFRR resources ab = Ok c → apart (config_sessions c) → n ∈ config_sessions c →
  readable_config c → no_raw_filters c → family_of r = "ip" ∨ family_of r = "ipv6" →
  text_map (templateConfig c) (ID n +:+ "-out") r =
  if exactly covers (advertised family_of n r) r
  then Some ((SetStatement <$> filter (λ pl, applies family_of covers r pl = true)
                (PrefixLists (NC_Outgoing n))) ++ next_hop_set family_of n r)
  else None.
Proof using Type. intros. rewrite text_map_file by done. by eapply file_sends_spec. Qed.

(** The text accepts exactly what is allowed: in the text FRR reads for a converted configuration
    whose values can be read and whose sessions are told apart, a route passes the incoming route map of a session if and only
    if no prefix the operator always blocks covers it, and either the session accepts everything or one of
    its allowed prefixes of the family, with its length bounds, covers it. *)
Theorem text_accepts_exactly resources ab c n r :
  apiToFRR resources ab = Ok c → apart (config_sessions c) → n ∈ config_sessions c →
  readable_config c → no_raw_filters c → family_of r = "ip" ∨ family_of r = "ipv6" →
  text_map (templateConfig c) (ID n +:+ "-in") r =
  if covered family_of covers (alwaysBlockToFRR ab) r then None
  else if AI_All (NC_Incoming n) || covered family_of covers (AllPrefixes (NC_Incoming n)) r
  then Some [] else None.
Proof using Type. intros. rewrite text_map_file by done. by eapply file_accepts_spec. Qed.
End text.

(** Printing and reading: of the text [templateConfig] prints, FRR's way of reading lines and words gives back exactly the
    prefix lists and route maps the templates mean, in order, followed by those of the raw configuration; nothing
    else in the file is mistaken for a filter and no filter is lost or attached to another route map. *)
Theorem templateConfig_reads_back config :
  readable_config config →
  read_filters (templateConfig config) =
    (whole_name <$> fst (fileFilters config ∅)) ++ read_filters (Config_ExtraConfig config).
Proof. apply read_templateConfig. Qed.

(** ** Samples *)

Lemma converted_sample_readable : readable_config converted_sample.
Proof. split; by_evaluation. Qed.

Lemma text_sends_exactly_witness :
  text_map fst sampleCovers false (templateConfig converted_sample) (ID filteredSession +:+ "-out")
    ("ip", "192.0.2.0/24") = Some ["set local-preference 200"; "set community 65000:10 additive"].
Proof.
  rewrite (text_sends_exactly fst sampleCovers false sampleResources sampleBlock converted_sample filteredSession).
  - vm_compute; reflexivity.
  - exact converted_sample_Ok.
  - by_evaluation.
  - by_evaluation.
  - exact converted_sample_readable.
  - vm_compute; reflexivity.
  - left; reflexivity.
Defined.

Lemma text_accepts_exactly_witness :
  text_map fst sampleCovers false (templateConfig converted_sample) (ID filteredSession +:+ "-in")
    ("ip", "172.16.0.0/16") = Some [] ∧
  text_map fst sampleCovers false (templateConfig converted_sample) (ID filteredSession +:+ "-in")
    ("ip", "192.168.0.0/16") = None.
Proof.
  split; (rewrite (text_accepts_exactly fst sampleCovers false sampleResources sampleBlock converted_sample
    filteredSession); [vm_compute; reflexivity|exact converted_sample_Ok|by_evaluation|by_evaluation
      |exact converted_sample_readable|vm_compute; reflexivity|left; reflexivity]).
Defined.

Lemma templateConfig_reads_back_witness :
  length (read_filters (templateConfig converted_sample)) = length (fst (fileFilters converted_sample ∅)).
Proof.
  rewrite (templateConfig_reads_back converted_sample converted_sample_readable). vm_compute; reflexivity.
Defined.
