(* ===== verification/ReadRouters.v ===== *)
(** * Reading the routers of the configuration file

    The [router bgp] blocks of a text as FRR reads them: a block is what was said since its [router] line, each command with the
    address family it was said in.  [session_text] collects what a block says of one peer.  Of the file
    [templateConfig] prints, the blocks are the routers of the configuration ([text_blocks_routers]). *)

From Stdlib Require Import Ascii Lia.
From S2P Require Import Prelude GoStrings GoNet IPFamily Community Api FrrConfig Errors Merge ApiToConfig Samples.
From S2P Require Import Template TemplateProps FilterNames FileFilters Render ReadFilters FileText.

(** ** Blocks *)

(** The words of the lines of a text that have any. *)
Definition sentences_of (lines : list string) : list (list string) := filter (λ ws, ws ≠ []) (words <$> lines).
Definition sentences (text : string) : list (list string) := sentences_of (Split text nl).

(** The address family a command is said in, nothing outside of one. *)
Notation afi := (list string).
Notation saying := (afi * list string)%type.

Record block := mkBlock { B_asn : N; B_vrf : string; B_said : list saying }.

Inductive blockCommand :=
  | BOpen (asn : N) (vrf : string)
  | BLeave
  | BEnter (family : afi)
  | BExit
  | BSay.

#[global] Instance blockCommand_eq_dec : EqDecision blockCommand.
Proof. solve_decision. Defined.

Definition read_router (ws : list string) : option blockCommand :=
  match ws with
  | [k; asn] => if bool_decide (k = "bgp") then n ← read_number asn; Some (BOpen n "") else None
  | [k; asn; k'; vrf] =>
      if bool_decide (k = "bgp") && bool_decide (k' = "vrf") then n ← read_number asn; Some (BOpen n vrf) else None
  | _ => None
  end.

(** The commands that are no part of a router. *)
Definition outsideWords : list string := ["log"; "debug"; "hostname"; "ip"; "ipv6"; "vrf"; "exit-vrf"; "bfd"; "profile"].

Definition read_block_command (ws : list string) : blockCommand :=
  match read_command ws with
  | COther =>
      match ws with
      | k :: rest =>
          if bool_decide (k = "router") then default BLeave (read_router rest)
          else if bool_decide (k ∈ outsideWords) then BLeave
          else if bool_decide (k = "address-family") then BEnter rest
          else if bool_decide (k = "exit-address-family") then BExit
          else BSay
      | [] => BSay
      end
  | _ => BLeave
  end.

Definition say (cs : list saying) (b : block) : block := mkBlock (B_asn b) (B_vrf b) (B_said b ++ cs).

Fixpoint read_blocks (open : option (block * afi)) (ss : list (list string)) : list block :=
  match ss with
  | [] => option_list (fst <$> open)
  | ws :: ss =>
      match read_block_command ws with
      | BOpen asn vrf => option_list (fst <$> open) ++ read_blocks (Some (mkBlock asn vrf [], [])) ss
      | BLeave => option_list (fst <$> open) ++ read_blocks None ss
      | BEnter family => read_blocks ((λ '(b, _), (b, family)) <$> open) ss
      | BExit => read_blocks ((λ '(b, _), (b, [])) <$> open) ss
      | BSay => read_blocks ((λ '(b, family), (say [(family, ws)] b, family)) <$> open) ss
      end
  end.

Definition text_blocks (text : string) : list block := read_blocks None (sentences text).

(** ** Sessions *)

Record sessionText := mkSessionText {
  ST_interface : bool;
  ST_remoteAS : string;
  ST_ebgpMultihop : bool;
  ST_localAS : option N;
  ST_port : option N;
  ST_timers : option (Z * Z);
  ST_connect : option Z;
  ST_password : option string;
  ST_updateSource : option string;
  ST_gracefulRestart : bool;
  ST_bfd : bool;
  ST_bfdProfile : option string;
  ST_disableConnectedCheck : bool;
  ST_active : list afi;
  ST_mapsIn : list (afi * string);
  ST_mapsOut : list (afi * string) }.

Definition read_seconds (s : string) : option Z := Z.of_N <$> read_number s.

(** What a command says of a peer. *)
Definition about (peer : string) (c : saying) : option saying :=
  match c with
  | (family, k :: p :: rest) => if bool_decide (k = "neighbor") && bool_decide (p = peer) then Some (family, rest) else None
  | _ => None
  end.

Definition noSession : sessionText := mkSessionText false "" false None None None None None None false false None false [] [] [].

(** FRR's way of taking a setting of a session: the last one counts. *)
Definition apply_setting (s : sessionText) (c : saying) : sessionText :=
  let '(mkSessionText i a m l p t ct pw us g b bp d act mi mo) := s in
  let '(family, ws) := c in
  match ws with
  | [k] =>
      if bool_decide (k = "ebgp-multihop") then mkSessionText i a true l p t ct pw us g b bp d act mi mo
      else if bool_decide (k = "graceful-restart") then mkSessionText i a m l p t ct pw us true b bp d act mi mo
      else if bool_decide (k = "bfd") then mkSessionText i a m l p t ct pw us g true bp d act mi mo
      else if bool_decide (k = "disable-connected-check") then mkSessionText i a m l p t ct pw us g b bp true act mi mo
      else if bool_decide (k = "activate") then mkSessionText i a m l p t ct pw us g b bp d (act ++ [family]) mi mo
      else s
  | [k; x] =>
      if bool_decide (k = "remote-as") then mkSessionText i x m l p t ct pw us g b bp d act mi mo
      else if bool_decide (k = "port") then mkSessionText i a m l (read_number x) t ct pw us g b bp d act mi mo
      else if bool_decide (k = "password") then mkSessionText i a m l p t ct (Some x) us g b bp d act mi mo
      else if bool_decide (k = "update-source") then mkSessionText i a m l p t ct pw (Some x) g b bp d act mi mo
      else s
  | [k; x; y] =>
      if bool_decide (k = "interface") && bool_decide (x = "remote-as")
      then mkSessionText true y m l p t ct pw us g b bp d act mi mo
      else if bool_decide (k = "timers") && bool_decide (x = "connect")
      then mkSessionText i a m l p t (read_seconds y) pw us g b bp d act mi mo
      else if bool_decide (k = "timers")
      then mkSessionText i a m l p (n ← read_seconds x; n' ← read_seconds y; Some (n, n')) ct pw us g b bp d act mi mo
      else if bool_decide (k = "bfd") && bool_decide (x = "profile")
      then mkSessionText i a m l p t ct pw us g b (Some y) d act mi mo
      else if bool_decide (k = "route-map") && bool_decide (y = "in")
      then mkSessionText i a m l p t ct pw us g b bp d act (mi ++ [(family, x)]) mo
      else if bool_decide (k = "route-map") && bool_decide (y = "out")
      then mkSessionText i a m l p t ct pw us g b bp d act mi (mo ++ [(family, x)])
      else s
  | [k; x; y; z] =>
      if bool_decide (k = "local-as") && bool_decide (y = "no-prepend") && bool_decide (z = "replace-as")
      then mkSessionText i a m (read_number x) p t ct pw us g b bp d act mi mo
      else s
  | _ => s
  end.

Definition session_text (b : block) (peer : string) : sessionText :=
  foldl apply_setting noSession (omap (about peer) (B_said b)).

(** The peers of a block: a session is made by its remote AS. *)
Definition remote (c : saying) : option string :=
  match c.2 with
  | k :: p :: rest =>
      if bool_decide (k = "neighbor") &&
         (bool_decide (head rest = Some "remote-as") || bool_decide (take 2 rest = ["interface"; "remote-as"]))
      then Some p else None
  | _ => None
  end.
Definition text_peers (b : block) : list string := omap remote (B_said b).

(** The networks, imported VRFs and router ID of a block. *)
Definition network_of (family : string) (c : saying) : option string :=
  match c with
  | (f, [k; p]) => if bool_decide (k = "network") && bool_decide (f = [family; "unicast"]) then Some p else None
  | _ => None
  end.
Definition import_of (family : string) (c : saying) : option string :=
  match c with
  | (f, [k; k'; v]) =>
      if bool_decide (k = "import") && bool_decide (f = [family; "unicast"]) && bool_decide (k' = "vrf") then Some v else None
  | _ => None
  end.
Definition router_id_of (c : saying) : option string :=
  match c with
  | (_, [k; k'; v]) => if bool_decide (k = "bgp") && bool_decide (k' = "router-id") then Some v else None
  | _ => None
  end.
Definition networks (family : string) (b : block) : list string := omap (network_of family) (B_said b).
Definition imports (family : string) (b : block) : list string := omap (import_of family) (B_said b).
Definition router_id (b : block) : option string := last (omap router_id_of (B_said b)).

(** ** What a router says *)

Definition line_words (ls : list line) : list (list string) := filter (λ ws, ws ≠ []) (L_words <$> ls).
Definition said_in (family : afi) (ls : list line) : list saying := pair family <$> line_words ls.

Lemma line_words_app l1 l2 : line_words (l1 ++ l2) = line_words l1 ++ line_words l2.
Proof. unfold line_words. by rewrite fmap_app, filter_app. Qed.
Lemma said_in_app f l1 l2 : said_in f (l1 ++ l2) = said_in f l1 ++ said_in f l2.
Proof. unfold said_in. by rewrite line_words_app, fmap_app. Qed.
Lemma said_in_bind {A} f (g : A → list line) xs : said_in f (xs ≫= g) = xs ≫= λ x, said_in f (g x).
Proof. induction xs as [|x xs IH]; [done|]. cbn [mbind list_bind]. by rewrite said_in_app, IH. Qed.
Lemma line_words_bind {A} (g : A → list line) xs : line_words (xs ≫= g) = xs ≫= λ x, line_words (g x).
Proof. induction xs as [|x xs IH]; [done|]. cbn [mbind list_bind]. by rewrite line_words_app, IH. Qed.

Lemma said_in_fmap {A} f i (w : A → list string) xs :
  (∀ x, w x ≠ []) → said_in f ((λ x, mkLine i (w x)) <$> xs) = (λ x, (f, w x)) <$> xs.
Proof.
  intros Hw. unfold said_in, line_words. rewrite <-list_fmap_compose. cbn. induction xs as [|x xs IH]; [done|].
  cbn [fmap list_fmap]. rewrite filter_cons_True by apply Hw. cbn [fmap list_fmap]. by rewrite IH.
Qed.

(** From inside a router, in an address family, the lines are read as these commands. *)
Definition reads (family : afi) (ls : list line) (cs : list saying) : Prop :=
  ∀ b rest, read_blocks (Some (b, family)) (line_words ls ++ rest) = read_blocks (Some (say cs b, family)) rest.

Lemma say_app cs cs' b : say (cs ++ cs') b = say cs' (say cs b).
Proof. unfold say. cbn. by rewrite app_assoc. Qed.
Lemma say_nil b : say [] b = b.
Proof. destruct b. unfold say. cbn. by rewrite app_nil_r. Qed.

Lemma reads_nil f : reads f [] [].
Proof. intros b rest. by rewrite say_nil. Qed.
Lemma reads_app f l1 l2 c1 c2 : reads f l1 c1 → reads f l2 c2 → reads f (l1 ++ l2) (c1 ++ c2).
Proof. intros H1 H2 b rest. by rewrite line_words_app, <-app_assoc, H1, H2, say_app. Qed.
Lemma reads_bind {A} f (g : A → list line) h xs : (∀ x, reads f (g x) (h x)) → reads f (xs ≫= g) (xs ≫= h).
Proof. intros H. induction xs as [|x xs IH]; [apply reads_nil|]. cbn [mbind list_bind]. by apply reads_app. Qed.
Lemma reads_when f b ls cs : reads f ls cs → reads f (when b ls) (when b cs).
Proof. destruct b; [done|]. intros _. apply reads_nil. Qed.

(** The commands a router or one of its address families takes. *)
Definition sayWords : list string :=
  ["neighbor"; "no"; "bgp"; "network"; "import"; "advertise-all-vni"; "advertise-svi-ip"; "advertise"; "vni"; "rd";
   "route-target"; "exit-vni"].

Definition says (l : line) : Prop := match L_words l with [] => True | k :: _ => k ∈ sayWords end.
#[global] Instance says_dec l : Decision (says l).
Proof. unfold says. destruct (L_words l); apply _. Defined.

Lemma read_say k rest : k ∈ sayWords → read_block_command (k :: rest) = BSay.
Proof. intros Hk. repeat (apply elem_of_cons in Hk as [->|Hk]; [reflexivity|]). by apply elem_of_nil in Hk. Qed.

Lemma reads_says f ls : Forall says ls → reads f ls (said_in f ls).
Proof.
  induction 1 as [|[i ws] ls Hl _ IH]; [apply reads_nil|]. destruct ws as [|k ws]; [exact IH|].
  intros b rest. change (line_words (mkLine i (k :: ws) :: ls)) with ((k :: ws) :: line_words ls).
  cbn [app read_blocks]. rewrite (read_say k ws Hl). cbn [fmap option_fmap option_map]. rewrite IH, <-say_app. done.
Qed.

Lemma reads_said f ls cs : cs = said_in f ls → Forall says ls → reads f ls cs.
Proof. intros ->. apply reads_says. Qed.

Lemma reads_family i af ls cs :
  reads af ls cs → reads [] (mkLine i ("address-family" :: af) :: ls ++ [ind2 ["exit-address-family"]]) cs.
Proof.
  intros H b rest. change (line_words (mkLine i ("address-family" :: af) :: ?l)) with (("address-family" :: af) :: line_words l).
  rewrite line_words_app. cbn [app read_blocks].
  change (read_block_command ("address-family" :: af)) with (BEnter af). cbn [fmap option_fmap option_map].
  rewrite <-app_assoc, H. reflexivity.
Qed.

(** *** The parts of a router *)

Definition settingLines (r : RouterConfig NeighborConfig) : list line :=
  [ind2 ["no"; "bgp"; "ebgp-requires-policy"];
   ind2 ["no"; "bgp"; "network"; "import-check"];
   ind2 ["no"; "bgp"; "default"; "ipv4-unicast"];
   ind2 ["bgp"; "graceful-restart"; "preserve-fw-state"];
   blank] ++
  when (set (RC_RouterID r)) [ind2 ["bgp"; "router-id"; RC_RouterID r]].

Definition importSaid (family : string) (vrfs : list string) : list saying :=
  (λ v, ([family; "unicast"], ["import"; "vrf"; v])) <$> vrfs.
Definition networkSaid (family : string) (prefixes : list string) : list saying :=
  (λ p, ([family; "unicast"], ["network"; p])) <$> prefixes.

(** The families a session is active in: the one of its peer, or both, when the session carries unicast routes, which
    it does unless it is only asked for others. *)
Definition active_family (n : NeighborConfig) (f : string) : bool :=
  match NC_IPFamily n with
  | IPv4 => bool_decide (f = "ipv4")
  | IPv6 => bool_decide (f = "ipv6")
  | DualStack => true
  | Unknown => false
  end && bool_decide (NC_AddressFamilies n = [] ∨ "unicast" ∈ NC_AddressFamilies n).
Definition unicastOf (n : NeighborConfig) : list string := filter (λ f, active_family n f = true) ["ipv4"; "ipv6"].

Lemma activateNeighborFor_active n f :
  f ∈ ["ipv4"; "ipv6"] → activateNeighborFor f (NC_IPFamily n) (NC_AddressFamilies n) = active_family n f.
Proof.
  intros Hf. unfold activateNeighborFor, active_family. rewrite andb_comm. f_equal.
  - rewrite !elem_of_cons, elem_of_nil in Hf. by destruct Hf as [->|[->|[]]], (NC_IPFamily n).
  - destruct (NC_AddressFamilies n) as [|x l]; [done|]. cbn [length Nat.eqb orb]. apply bool_decide_ext. naive_solver.
Qed.

Definition familySaid (n : NeighborConfig) (family : string) : list saying :=
  pair [family; "unicast"] <$>
    [["neighbor"; peerOf n; "activate"]; ["neighbor"; peerOf n; "route-map"; ID n +:+ "-in"; "in"];
     ["neighbor"; peerOf n; "route-map"; ID n +:+ "-out"; "out"]].

Definition evpnContext : afi := ["l2vpn"; "evpn"].
Definition hasEVPN (r : RouterConfig NeighborConfig) : bool := bool_decide (is_Some (RC_EVPN r)).
Definition activateSaid (n : NeighborConfig) : list saying :=
  when (hasAddressFamilyEVPN (NC_AddressFamilies n)) [(evpnContext, ["neighbor"; peerOf n; "activate"])].

(** What the l2vpn family says besides. *)
Definition vniLines (e : FrrEVPNConfig) : list line :=
  when (hasAdvertiseVNIsAll (FE_AdvertiseVNIs e)) [ind4 ["advertise-all-vni"]] ++
  when (FE_AdvertiseSVI e) [ind4 ["advertise-svi-ip"]] ++
  (FE_L2VNIs e ≫= l2vniLines) ++
  whenSome (FE_L3VNI e) (λ v,
    (FL3_AdvertisePrefixes v ≫= λ p, when (hasAdvertisesEVPNPrefixUnicast p)
       [ind4 ["advertise"; "ipv4"; "unicast"]; ind4 ["advertise"; "ipv6"; "unicast"]]) ++
    vniProperties "    " (FL3_Properties v)).

Definition router_said (r : RouterConfig NeighborConfig) : list saying :=
  said_in [] (settingLines r) ++
  (importSaid "ipv4" (RC_ImportVRFs r) ++ importSaid "ipv6" (RC_ImportVRFs r)) ++
  (RC_Neighbors r ≫= λ n, said_in [] (neighborsession n (RC_MyASN r))) ++
  (RC_Neighbors r ≫= λ n, unicastOf n ≫= familySaid n) ++
  networkSaid "ipv4" (RC_IPV4Prefixes r) ++ networkSaid "ipv6" (RC_IPV6Prefixes r) ++
  whenSome (RC_EVPN r) (λ e, (RC_Neighbors r ≫= activateSaid) ++ said_in evpnContext (vniLines e)).

Definition block_of (r : RouterConfig NeighborConfig) : block := mkBlock (RC_MyASN r) (RC_VRF r) (router_said r).

(** Structural steps of [Forall says]. *)
Ltac says_lines := repeat (cbv beta; lazymatch goal with
  | |- Forall _ (when _ _) => apply Forall_when
  | |- Forall _ (whenSome _ _) => apply Forall_whenSome; intros ?
  | |- Forall _ (_ ++ _) => apply Forall_app; split
  | |- Forall _ (_ ≫= _) => apply Forall_bind, Forall_forall; intros ? _; unfold compose
  | |- Forall _ (_ <$> _) => apply Forall_fmap, Forall_forall; intros ? _; unfold compose
  | |- Forall _ [] => apply List.Forall_nil
  | |- Forall _ (_ :: _) => apply List.Forall_cons
  | |- says (mkLine _ (when ?b _)) => destruct b; cbn [when]
  | |- says (mkLine _ (whenSome ?o _)) => destruct o; cbn [whenSome]
  | |- says (mkLine _ []) => exact I
  | |- says blank => exact I
  | |- says (mkLine _ (_ :: _)) => unfold says; cbn [L_words]; by_evaluation
  end).

Lemma neighborsession_says n asn : Forall says (neighborsession n asn).
Proof. unfold neighborsession. destruct (set (NC_Iface n)); says_lines. Qed.
Lemma settingLines_says r : Forall says (settingLines r).
Proof. unfold settingLines. says_lines. Qed.
Lemma vniProperties_says i p : Forall says (vniProperties i p).
Proof. unfold vniProperties. says_lines. Qed.
Lemma vniLines_says e : Forall says (vniLines e).
Proof. unfold vniLines, l2vniLines. says_lines; apply vniProperties_says. Qed.

Lemma reads_blank f ls cs : reads f ls cs → reads f (ls ++ [blank]) cs.
Proof. intros H. rewrite <-(app_nil_r cs). apply reads_app; [done|]. exact (reads_nil f). Qed.

Lemma reads_imports family vrfs : reads [] (importLines family vrfs) (importSaid family vrfs).
Proof.
  unfold importLines, importSaid. apply reads_family.
  rewrite <-(said_in_fmap _ "    " (λ v, ["import"; "vrf"; v])) by done.
  apply reads_says. says_lines.
Qed.

Lemma reads_networks family prefixes : reads [] (networkLines family prefixes) (networkSaid family prefixes).
Proof.
  unfold networkLines, networkSaid. destruct prefixes as [|p prefixes]; [apply reads_nil|]. cbn [when empty negb].
  change [ind2 ["exit-address-family"]; blank] with ([ind2 ["exit-address-family"]] ++ [blank]).
  rewrite !app_assoc. apply reads_blank. rewrite <-app_assoc. apply reads_family.
  rewrite <-(said_in_fmap _ "    " (λ p, ["network"; p])) by done.
  apply reads_says. says_lines.
Qed.

Lemma reads_unicast n family :
  reads [] (unicastFamily family n)
    (when (activateNeighborFor family (NC_IPFamily n) (NC_AddressFamilies n)) (familySaid n family)).
Proof.
  unfold unicastFamily. apply reads_when.
  apply (reads_family "  " [family; "unicast"] [ind4 _; ind4 _; ind4 _]). apply reads_said; [done|].
  says_lines.
Qed.

Lemma reads_neighbor_families n : reads [] (neighborenableipfamily n) (unicastOf n ≫= familySaid n).
Proof.
  assert (unicastOf n ≫= familySaid n =
    when (activateNeighborFor "ipv4" (NC_IPFamily n) (NC_AddressFamilies n)) (familySaid n "ipv4") ++
    when (activateNeighborFor "ipv6" (NC_IPFamily n) (NC_AddressFamilies n)) (familySaid n "ipv6")) as ->.
  { rewrite !activateNeighborFor_active by by_evaluation. unfold unicastOf. rewrite !filter_cons.
    destruct (active_family n "ipv4"), (active_family n "ipv6"); done. }
  change (neighborenableipfamily n) with ([blank] ++ (unicastFamily "ipv4" n ++ unicastFamily "ipv6" n)).
  apply (reads_app [] [blank] _ []); [exact (reads_nil [])|]. apply reads_app; apply reads_unicast.
Qed.

Lemma reads_evpn r :
  reads [] (evpnLines r) (whenSome (RC_EVPN r) (λ e, (RC_Neighbors r ≫= activateSaid) ++ said_in evpnContext (vniLines e))).
Proof.
  unfold evpnLines. destruct (RC_EVPN r) as [e|]; cbn [whenSome]; [|apply reads_nil].
  set (acts := RC_Neighbors r ≫= λ n, when (hasAddressFamilyEVPN (NC_AddressFamilies n)) [ind4 ["neighbor"; peerOf n; "activate"]]).
  apply (eq_ind ((ind2 ("address-family" :: evpnContext) :: (acts ++ vniLines e) ++ [ind2 ["exit-address-family"]]) ++ [blank])
    (λ ls, reads [] ls _)).
  - apply reads_blank, reads_family, reads_app; [|apply reads_says, vniLines_says].
    apply reads_bind. intros n. apply reads_when. apply reads_said; [done|]. says_lines.
  - unfold vniLines. cbn [app]. by rewrite <-!app_assoc.
Qed.

Lemma reads_router r :
  (RC_MyASN r < 2 ^ 32)%N → ∀ open rest,
  read_blocks open (line_words (routerLines r) ++ rest) =
    option_list (fst <$> open) ++ read_blocks (Some (block_of r, [])) rest.
Proof.
  intros Hasn open rest. set (first := ["router"; "bgp"; pretty (RC_MyASN r)] ++ when (set (RC_VRF r)) ["vrf"; RC_VRF r]).
  set (others := settingLines r ++
    when (negb (empty (RC_ImportVRFs r))) (importLines "ipv4" (RC_ImportVRFs r) ++ importLines "ipv6" (RC_ImportVRFs r)) ++
    (RC_Neighbors r ≫= λ n, neighborsession n (RC_MyASN r)) ++ (RC_Neighbors r ≫= neighborenableipfamily) ++
    networkLines "ipv4" (RC_IPV4Prefixes r) ++ networkLines "ipv6" (RC_IPV6Prefixes r) ++ evpnLines r).
  assert (routerLines r = top first :: others) as ->.
  { unfold routerLines, others, settingLines. cbn [app]. by rewrite <-?app_assoc. }
  assert (reads [] others (router_said r)) as Ho.
  { unfold others, router_said. repeat apply reads_app.
    - apply reads_says, settingLines_says.
    - destruct (RC_ImportVRFs r) as [|v vs]; [apply reads_nil|]. cbn [empty negb when]. apply reads_app; apply reads_imports.
    - apply reads_bind. intros n. apply reads_says, neighborsession_says.
    - apply reads_bind. intros n. apply reads_neighbor_families.
    - apply reads_networks.
    - apply reads_networks.
    - apply reads_evpn. }
  change (line_words (top first :: others)) with (first :: line_words others). cbn [app read_blocks].
  assert (read_block_command first = BOpen (RC_MyASN r) (RC_VRF r)) as ->.
  { unfold first, set. case_bool_decide as Hv; cbn [negb when app].
    - change (read_block_command ["router"; "bgp"; pretty (RC_MyASN r)]) with
        (default BLeave (n ← read_number (pretty (RC_MyASN r)); Some (BOpen n ""))).
      rewrite read_pretty by done. by rewrite Hv.
    - change (read_block_command ["router"; "bgp"; pretty (RC_MyASN r); "vrf"; RC_VRF r]) with
        (default BLeave (n ← read_number (pretty (RC_MyASN r)); Some (BOpen n (RC_VRF r)))).
      by rewrite read_pretty by done. }
  rewrite (Ho (mkBlock _ _ [])). done.
Qed.

(** ** The whole file *)

(** Every value printed after the filters is one word. *)
Definition worded (config : Config NeighborConfig) : Prop := Forall (λ l, Forall is_word (L_words l)) (bodyLines config).
(** The raw configuration has nothing that a router could take for its own. *)
Definition raw_outside (config : Config NeighborConfig) : Prop :=
  Forall (λ ws, read_block_command ws = BLeave) (sentences (Config_ExtraConfig config)).

#[global] Instance worded_dec config : Decision (worded config).
Proof. unfold worded. apply _. Defined.
#[global] Instance raw_outside_dec config : Decision (raw_outside config).
Proof. unfold raw_outside. apply _. Defined.

Definition not_open (ws : list string) : Prop := ∀ asn vrf, read_block_command ws ≠ BOpen asn vrf.

Lemma read_not_open ss rest : Forall not_open ss → read_blocks None (ss ++ rest) = read_blocks None rest.
Proof.
  induction 1 as [|ws ss Hws _ IH]; [done|]. cbn [app read_blocks]. unfold not_open in Hws.
  destruct (read_block_command ws) as [asn vrf| | | |]; [by destruct (Hws asn vrf)|done..].
Qed.

Lemma not_router_open k rest : k ≠ "router" → not_open (k :: rest).
Proof.
  intros Hk asn vrf. unfold read_block_command. destruct (read_command _); try done.
  rewrite bool_decide_eq_false_2 by done. by repeat case_bool_decide.
Qed.

Lemma sentences_of_app l1 l2 : sentences_of (l1 ++ l2) = sentences_of l1 ++ sentences_of l2.
Proof. unfold sentences_of. by rewrite fmap_app, filter_app. Qed.

Lemma sentences_of_words ls :
  Forall indented ls → Forall (λ l, Forall is_word (L_words l)) ls → sentences_of (line_text <$> ls) = line_words ls.
Proof.
  intros Hi Hw. induction ls as [|[i ws] ls IH]; [done|]. apply Forall_cons in Hi as [Hi His], Hw as [Hw Hws].
  unfold sentences_of, line_words in *. cbn [fmap list_fmap L_words] in *. rewrite !filter_cons, IH by done.
  unfold line_text. cbn [L_indent L_words]. by rewrite words_indent, words_unwords.
Qed.

(** *** The parts of the file *)

(** Every sentence starts with one of these words. *)
Definition starts (keys : list string) (ss : list (list string)) : Prop := Forall (λ ws, ∃ k rest, ws = k :: rest ∧ k ∈ keys) ss.

Definition headWords : list string := ["log"; "debug"; "hostname"; "ip"; "ipv6"].
Definition filterWords : list string := ["ip"; "ipv6"; "route-map"; "match"; "set"; "on-match"].
Definition routerWords : list string := "router" :: "address-family" :: "exit-address-family" :: sayWords.

Lemma starts_mono keys keys' ss : starts keys ss → (∀ k, k ∈ keys → k ∈ keys') → starts keys' ss.
Proof. intros H Hk. eapply Forall_impl; [exact H|]. intros ws (k & rest & -> & Hin). eauto 10. Qed.

Lemma starts_line_words keys ls :
  Forall (λ l, match L_words l with [] => True | k :: _ => k ∈ keys end) ls → starts keys (line_words ls).
Proof.
  unfold starts, line_words. induction 1 as [|[i ws] ls Hl _ IH]; [exact (List.Forall_nil _)|]. cbn [fmap list_fmap L_words] in *.
  destruct ws as [|k ws]; [exact IH|]. rewrite filter_cons_True by done. apply List.Forall_cons; [by exists k, ws|exact IH].
Qed.

Lemma headLines_start config : starts headWords (sentences_of (line_text <$> headLines config)).
Proof.
  assert (Forall (λ l, indented l ∧ ∃ k ws, L_words l = k :: ws ∧ is_word k ∧ k ∈ headWords) (headLines config)) as Hh.
  { unfold headLines. repeat apply List.Forall_cons; [..|apply Forall_app; split; [apply Forall_when|]].
    3:{ unfold debugLines. repeat apply List.Forall_cons; [..|apply List.Forall_nil];
        (split; [by_evaluation|eexists _, _; split; [reflexivity|by_evaluation]]). }
    all: repeat apply List.Forall_cons; try apply List.Forall_nil;
      (split; [by_evaluation|eexists _, _; split; [reflexivity|by_evaluation]]). }
  induction Hh as [|[i ws] ls (Hi & k & ws' & Hl & Hk & Hr) _ IH]; [exact (List.Forall_nil _)|]. cbn [fmap list_fmap].
  change (?x :: ?l) with ([x] ++ l). rewrite sentences_of_app. apply Forall_app. split; [|done].
  cbn [L_words] in Hl. subst ws. unfold sentences_of, line_text. cbn [fmap list_fmap L_indent L_words].
  rewrite words_indent by done. destruct (first_word k ws' Hk) as [ws ->]. rewrite filter_cons_True by done.
  apply Forall_singleton. by exists k, ws.
Qed.

Lemma filter_start ws : read_command ws ≠ COther → ∃ k rest, ws = k :: rest ∧ k ∈ filterWords.
Proof.
  unfold read_command. destruct ws as [|k rest]; [done|]. intros H. exists k, rest. split; [done|]. revert H. unfold filterWords.
  repeat (case_bool_decide; [intros _; simplify_eq; set_solver|]). by intros [].
Qed.

Lemma filterLines_start config :
  readable_config config → starts filterWords (sentences_of (line_text <$> fst (filterLines config ∅))).
Proof.
  intros [Hstmts _]. destruct (filterLines_as config) as [Htext _ Hind]. specialize (Htext ∅). specialize (Hind ∅).
  assert (Forall (λ c, c ≠ COther) (commands_of (line_text <$> fst (filterLines config ∅)))) as Hc.
  { rewrite commands_of_visible, Htext, <-(app_nil_r (_ ≫= stmt_texts)), commands_of_stmts by done. rewrite app_nil_r.
    apply Forall_bind, Forall_forall. intros [f n q p w|s x p q f l sets next] _; cbn [stmt_commands].
    - by apply Forall_singleton.
    - repeat apply List.Forall_cons; [done..|]. apply Forall_app. split; [|by destruct next; [apply Forall_singleton|]].
      apply Forall_fmap, Forall_forall. done. }
  change (commands_of ?l) with (read_command <$> sentences_of l) in Hc. apply (proj1 (Forall_fmap _ _ _)) in Hc.
  eapply Forall_impl; [exact Hc|]. intros ws Hws. by apply filter_start.
Qed.

(** Only a sentence that starts with [router] opens a router. *)
Lemma starts_not_open keys ss : starts keys ss → "router" ∉ keys → Forall not_open ss.
Proof.
  intros H Hk. eapply Forall_impl; [exact H|]. intros ws (k & rest & -> & Hin). apply not_router_open. intros ->. done.
Qed.

(** The sentences of the file, part by part. *)
Lemma file_parts config :
  readable_config config → worded config →
  ∃ heads filters, starts headWords heads ∧ starts filterWords filters ∧
  sentences (templateConfig config) = heads ++ filters ++
    line_words (Config_Routers config ≫= vrfLines) ++ line_words (Config_Routers config ≫= routerLines) ++
    line_words (when (negb (empty (Config_BFDProfiles config))) (top ["bfd"] :: (Config_BFDProfiles config ≫= bfdprofile))) ++
    sentences (Config_ExtraConfig config).
Proof.
  intros Hc Hw. destruct (lines_templateConfig config Hc) as (rest & Hs & Hrest).
  exists (sentences_of (line_text <$> headLines config)), (sentences_of (line_text <$> fst (filterLines config ∅))).
  split; [apply headLines_start|]. split; [by apply filterLines_start|].
  unfold sentences. rewrite Hs, sentences_of_app.
  assert (sentences_of rest = sentences (Config_ExtraConfig config)) as -> by exact Hrest.
  unfold configLines. rewrite !fmap_app, !sentences_of_app, <-!app_assoc.
  rewrite (sentences_of_words (bodyLines config)); [|eapply Forall_impl; [apply bodyLines_plain|by intros l []]|done].
  unfold bodyLines. rewrite !line_words_app, <-!app_assoc. done.
Qed.

Lemma vrfLines_start config : starts ["vrf"; "vni"; "exit-vrf"] (line_words (Config_Routers config ≫= vrfLines)).
Proof.
  apply starts_line_words. unfold vrfLines. plain_lines; cbn [L_words]; by_evaluation.
Qed.

Definition profileWords : list string :=
  ["profile"; "receive-interval"; "transmit-interval"; "detect-multiplier"; "echo-mode"; "echo"; "passive-mode"; "minimum-ttl"].
Lemma profiles_start ps : starts profileWords (line_words (ps ≫= bfdprofile)).
Proof. apply starts_line_words. unfold bfdprofile. plain_lines; cbn [L_words]; by_evaluation. Qed.

(** The BFD profiles end the last router. *)
Lemma read_profiles (ps : list FrrBFDProfile) open raw :
  Forall (λ ws, read_block_command ws = BLeave) raw →
  read_blocks open (line_words (when (negb (empty ps)) (top ["bfd"] :: (ps ≫= bfdprofile))) ++ raw) =
  option_list (fst <$> open).
Proof.
  intros Hraw. assert (∀ open, read_blocks open raw = option_list (fst <$> open)) as Hr.
  { clear open. intros open. destruct Hraw as [|ws raw Hws Hraw]; [done|]. cbn [read_blocks]. rewrite Hws.
    rewrite <-(app_nil_r raw), read_not_open; [cbn; by rewrite app_nil_r|].
    eapply Forall_impl; [exact Hraw|]. intros ws' Hws' asn vrf. by rewrite Hws'. }
  destruct ps as [|p ps]; [apply Hr|]. change (when (negb (Template.empty (p :: ps))) ?l) with l.
  change (line_words (top ["bfd"] :: ?l)) with (["bfd"] :: line_words l). cbn [app read_blocks].
  change (read_block_command ["bfd"]) with BLeave. cbn match. rewrite read_not_open; [by rewrite Hr, app_nil_r|].
  apply (starts_not_open profileWords); [apply profiles_start|by_evaluation].
Qed.

Lemma read_routers rs rest :
  Forall (λ r, (RC_MyASN r < 2 ^ 32)%N) rs → (∀ open, read_blocks open rest = option_list (fst <$> open)) →
  ∀ open, read_blocks open (line_words (rs ≫= routerLines) ++ rest) = option_list (fst <$> open) ++ (block_of <$> rs).
Proof.
  intros Hrs Hrest. induction Hrs as [|r rs Hr _ IH]; intros open.
  - cbn. by rewrite Hrest, app_nil_r.
  - cbn [mbind list_bind]. by rewrite line_words_app, <-app_assoc, reads_router, IH.
Qed.

(** The blocks of the text are the routers. *)
Lemma text_blocks_routers config :
  readable_config config → worded config → raw_outside config →
  Forall (λ r, (RC_MyASN r < 2 ^ 32)%N) (Config_Routers config) →
  text_blocks (templateConfig config) = block_of <$> Config_Routers config.
Proof.
  intros Hc Hw Hraw Hasn. destruct (file_parts config Hc Hw) as (heads & filters & Hh & Hf & Hs).
  unfold text_blocks. rewrite Hs.
  rewrite (read_not_open heads) by (by apply (starts_not_open headWords); [|by_evaluation]).
  rewrite (read_not_open filters) by (by apply (starts_not_open filterWords); [|by_evaluation]).
  rewrite read_not_open by (eapply starts_not_open; [apply vrfLines_start|by_evaluation]).
  rewrite read_routers; [done|done|]. intros open. by apply read_profiles.
Qed.
