(* ===== verification/RouterText.v ===== *)
(** * What the blocks of the file say

    Every block of the text printed for a configuration says exactly what its router has: each session has the
    settings of its [NeighborConfig] and of no other, and the router announces and imports what it should. *)

From Stdlib Require Import Ascii Lia.
From S2P Require Import Prelude GoStrings GoNet IPFamily Community Api FrrConfig Errors Merge ApiToConfig Samples.
From S2P Require Import Template TemplateProps FilterNames FileFilters Render ReadFilters FileText ReadRouters.

(** ** What the blocks say *)

(** Commands that start with another word do not matter to these readers. *)
Definition keyed {A} (g : saying → option A) (key : string) : Prop := ∀ f ws, head ws ≠ Some key → g (f, ws) = None.

Lemma omap_said_in {A} (g : saying → option A) key f ls :
  keyed g key → Forall (λ l, head (L_words l) ≠ Some key) ls → omap g (said_in f ls) = [].
Proof.
  intros Hg. induction 1 as [|[i ws] ls Hl _ IH]; [done|]. destruct ws as [|k ws]; [exact IH|].
  change (said_in f (mkLine i (k :: ws) :: ls)) with ((f, k :: ws) :: said_in f ls). cbn [omap list_omap]. by rewrite Hg.
Qed.

Lemma omap_fmap_keyed {A B} (g : saying → option A) key (c : B → saying) xs :
  keyed g key → (∀ x, head (c x).2 ≠ Some key) → omap g (c <$> xs) = [].
Proof.
  intros Hg Hc. induction xs as [|x xs IH]; [done|]. cbn [fmap list_fmap omap list_omap]. specialize (Hc x).
  destruct (c x) as [f ws]. by rewrite Hg.
Qed.

Lemma omap_nothing {A B C} (g : B → option C) (c : A → list B) xs :
  (∀ x, x ∈ xs → omap g (c x) = []) → omap g (xs ≫= c) = [].
Proof.
  intros H. induction xs as [|x xs IH]; [done|]. cbn [mbind list_bind]. rewrite omap_app, H by left.
  apply IH. intros y Hy. apply H. by right.
Qed.

(** Of a list of sessions, only the one with the peer says something of it. *)
Lemma omap_only {B C} (g : B → option C) (c : NeighborConfig → list B) ns n :
  NoDup (peerOf <$> ns) → n ∈ ns → (∀ m, m ∈ ns → peerOf m ≠ peerOf n → omap g (c m) = []) → omap g (ns ≫= c) = omap g (c n).
Proof.
  intros Hnd Hn Hc. apply list_elem_of_split in Hn as (l1 & l2 & ->). rewrite fmap_app, fmap_cons in Hnd.
  apply NoDup_app in Hnd as (_ & Hl1 & [Hl2 _]%NoDup_cons).
  rewrite bind_app. cbn [mbind list_bind]. rewrite !omap_app.
  rewrite (omap_nothing g c l1), (omap_nothing g c l2), app_nil_r; [done| |].
  - intros m Hm. apply Hc; [set_solver|]. intros He. apply Hl2. rewrite <-He. by apply list_elem_of_fmap_2.
  - intros m Hm. apply Hc; [set_solver|]. intros He. apply (Hl1 (peerOf m)); [by apply list_elem_of_fmap_2|]. rewrite He. left.
Qed.

Lemma about_keyed peer : keyed (about peer) "neighbor".
Proof. intros f [|k [|p rest]] Hk; [done..|]. cbn. by rewrite bool_decide_eq_false_2 by (intros ->; done). Qed.
Lemma remote_keyed : keyed remote "neighbor".
Proof. intros f [|k [|p rest]] Hk; [done..|]. cbn. by rewrite (bool_decide_eq_false_2 (k = _)) by (intros ->; done). Qed.

Lemma about_peer peer f rest : about peer (f, "neighbor" :: peer :: rest) = Some (f, rest).
Proof. cbn. by rewrite !bool_decide_eq_true_2. Qed.
Lemma about_other peer p f rest : p ≠ peer → about peer (f, "neighbor" :: p :: rest) = None.
Proof. intros Hp. cbn. by rewrite (bool_decide_eq_false_2 (p = peer)), andb_false_r. Qed.

Definition some_set (s : string) : option string := if set s then Some s else None.

(** The check that the peer is on a connected network is turned off for IPv6 peers of another AS that are one hop away. *)
Definition check_disabled (r : RouterConfig NeighborConfig) (n : NeighborConfig) : bool :=
  bool_decide (NC_IPFamily n = IPv6 ∧ NC_EBGPMultiHop n = false ∧
    (NC_Iface n ≠ "" ∨ NC_ASN n = "external" ∨ (NC_ASN n ≠ "internal" ∧ NC_ASN n ≠ pretty (RC_MyASN r)))).

Lemma mustDisableConnectedCheck_disabled r n :
  mustDisableConnectedCheck (NC_IPFamily n) (RC_MyASN r) (NC_ASN n) (NC_Iface n) (NC_EBGPMultiHop n) = check_disabled r n.
Proof.
  unfold mustDisableConnectedCheck, check_disabled.
  destruct (decide (NC_IPFamily n = IPv6)) as [Hf|Hf].
  2:{ rewrite (bool_decide_eq_false_2 _ Hf). symmetry. apply bool_decide_eq_false_2. tauto. }
  rewrite (bool_decide_eq_true_2 _ Hf). destruct (NC_EBGPMultiHop n); cbn [negb].
  { symmetry. apply bool_decide_eq_false_2. by intros (_ & ? & _). }
  destruct (decide (NC_Iface n = "")) as [Hi|Hi].
  2:{ rewrite (bool_decide_eq_false_2 _ Hi). symmetry. apply bool_decide_eq_true_2. tauto. }
  rewrite (bool_decide_eq_true_2 _ Hi). cbn [negb].
  destruct (decide (NC_ASN n = "internal")) as [Ha|Ha].
  { rewrite (bool_decide_eq_true_2 _ Ha). symmetry. apply bool_decide_eq_false_2. rewrite Ha. naive_solver. }
  rewrite (bool_decide_eq_false_2 _ Ha).
  destruct (decide (NC_ASN n = "external")) as [He|He].
  { rewrite (bool_decide_eq_true_2 _ He). symmetry. apply bool_decide_eq_true_2. tauto. }
  rewrite (bool_decide_eq_false_2 _ He).
  rewrite <-bool_decide_not. apply bool_decide_ext. naive_solver.
Qed.

(** The settings of a session. *)
Definition session_of (r : RouterConfig NeighborConfig) (n : NeighborConfig) : sessionText :=
  mkSessionText (set (NC_Iface n)) (NC_ASN n) (NC_EBGPMultiHop n)
    (if (NC_LocalASN n =? 0)%N then None else Some (NC_LocalASN n)) (NC_Port n)
    (k ← NC_KeepaliveTime n; h ← NC_HoldTime n; Some (k, h)) (NC_ConnectTime n)
    (some_set (NC_Password n)) (some_set (NC_SrcAddr n)) (NC_GracefulRestart n)
    (set (NC_BFDProfile n)) (some_set (NC_BFDProfile n))
    (check_disabled r n)
    (((λ f, [f; "unicast"]) <$> unicastOf n) ++
       when (bool_decide (is_Some (RC_EVPN r) ∧ "evpn" ∈ NC_AddressFamilies n)) [["l2vpn"; "evpn"]])
    ((λ f, ([f; "unicast"], ID n +:+ "-in")) <$> unicastOf n)
    ((λ f, ([f; "unicast"], ID n +:+ "-out")) <$> unicastOf n).

(** Its numbers can be read. *)
Definition small (o : option N) : Prop := match o with Some v => (v < 2 ^ 32)%N | None => True end.
Definition seconds (o : option Z) : Prop := match o with Some v => (0 ≤ v < 2 ^ 32)%Z | None => True end.
Definition numbers_fit (n : NeighborConfig) : Prop :=
  (NC_LocalASN n < 2 ^ 32)%N ∧ small (NC_Port n) ∧ seconds (NC_KeepaliveTime n) ∧ seconds (NC_HoldTime n) ∧
  seconds (NC_ConnectTime n).
#[global] Instance numbers_fit_dec n : Decision (numbers_fit n).
Proof.
  unfold numbers_fit, small, seconds. destruct (NC_Port n), (NC_KeepaliveTime n), (NC_HoldTime n), (NC_ConnectTime n); apply _.
Defined.

(** And its peer is the address wherever the template takes it for that. *)
Record printable (n : NeighborConfig) : Prop := {
  pn_numbers : numbers_fit n;
  pn_family : NC_Iface n ≠ "" → NC_IPFamily n ≠ IPv6 }.

Lemma read_seconds_pretty v : (0 ≤ v < 2 ^ 32)%Z → read_seconds (pretty v) = Some v.
Proof.
  intros Hv. assert (pretty v = pretty (Z.to_N v)) as -> by (destruct v; [done..|lia]).
  unfold read_seconds. rewrite read_pretty by lia. cbn. f_equal. lia.
Qed.

(** What lines, said outside of any family, do to a session. *)
Definition settings (peer : string) (ls : list line) (s : sessionText) : sessionText :=
  foldl apply_setting s (omap (about peer) (said_in [] ls)).

Lemma settings_app peer l1 l2 s : settings peer (l1 ++ l2) s = settings peer l2 (settings peer l1 s).
Proof. unfold settings. by rewrite said_in_app, omap_app, foldl_app. Qed.

Lemma settings_cons peer l l' ls s : settings peer (l :: l' :: ls) s = settings peer (l' :: ls) (settings peer [l] s).
Proof. apply (settings_app peer [l] (l' :: ls)). Qed.

Lemma settings_line peer i rest s : settings peer [mkLine i ("neighbor" :: peer :: rest)] s = apply_setting s ([], rest).
Proof. unfold settings. change (said_in [] _) with [([] : afi, "neighbor" :: peer :: rest)]. cbn [omap list_omap]. by rewrite about_peer. Qed.

Lemma settings_blank peer i s : settings peer [mkLine i []] s = s.
Proof. done. Qed.

(** A session without families. *)
Notation base i a m l p t ct pw us g b bp d := (mkSessionText i a m l p t ct pw us g b bp d [] [] []).

Section pieces.
Context (peer : string).

Lemma set_multihop x i a l p t ct pw us g b bp d :
  settings peer (when x [ind2 ["neighbor"; peer; "ebgp-multihop"]]) (base i a false l p t ct pw us g b bp d) =
  base i a x l p t ct pw us g b bp d.
Proof. destruct x; cbn [when]; [|done]. by rewrite settings_line. Qed.

Lemma set_local x i a m p t ct pw us g b bp d : (x < 2 ^ 32)%N →
  settings peer (when (negb (x =? 0)%N) [ind2 ["neighbor"; peer; "local-as"; pretty x; "no-prepend"; "replace-as"]])
    (base i a m None p t ct pw us g b bp d) = base i a m (if (x =? 0)%N then None else Some x) p t ct pw us g b bp d.
Proof.
  intros Hx. destruct (x =? 0)%N; cbn [negb when]; [done|]. rewrite settings_line. cbn. by rewrite read_pretty.
Qed.

Lemma set_port x i a m l t ct pw us g b bp d : small x →
  settings peer [ind2 (whenSome x (λ p, ["neighbor"; peer; "port"; pretty p])); ind2 []]
    (base i a m l None t ct pw us g b bp d) = base i a m l x t ct pw us g b bp d.
Proof.
  intros Hx. rewrite settings_cons, settings_blank. destruct x as [x|]; cbn [whenSome]; [|done].
  rewrite settings_line. cbn. by rewrite read_pretty.
Qed.

Lemma set_timers k h i a m l p ct pw us g b bp d : seconds k → seconds h →
  settings peer (whenSome k (λ k, whenSome h (λ h, [ind2 ["neighbor"; peer; "timers"; pretty k; pretty h]])))
    (base i a m l p None ct pw us g b bp d) = base i a m l p (k ← k; h ← h; Some (k, h)) ct pw us g b bp d.
Proof.
  intros Hk Hh. destruct k as [k|]; [|done]. destruct h as [h|]; [|done]. cbn [whenSome]. rewrite settings_line.
  cbn. rewrite (bool_decide_eq_false_2 (pretty k = "connect")); [by rewrite !read_seconds_pretty|].
  intros He. pose proof (read_seconds_pretty k Hk) as Hr. by rewrite He in Hr.
Qed.

Lemma set_connect x i a m l p t pw us g b bp d : seconds x →
  settings peer (whenSome x (λ t, [ind2 ["neighbor"; peer; "timers"; "connect"; pretty t]]))
    (base i a m l p t None pw us g b bp d) = base i a m l p t x pw us g b bp d.
Proof. intros Hx. destruct x as [x|]; [|done]. cbn [whenSome]. rewrite settings_line. cbn. by rewrite read_seconds_pretty. Qed.

Lemma set_password x y i a m l p t ct g b bp d :
  settings peer [ind2 (when (set x) ["neighbor"; peer; "password"; x]); ind2 (when (set y) ["neighbor"; peer; "update-source"; y])]
    (base i a m l p t ct None None g b bp d) = base i a m l p t ct (some_set x) (some_set y) g b bp d.
Proof.
  rewrite settings_cons. unfold some_set.
  destruct (set x), (set y); cbn [when]; by rewrite ?settings_line, ?settings_blank.
Qed.

Lemma set_graceful x i a m l p t ct pw us b bp d :
  settings peer (when x [ind2 ["neighbor"; peer; "graceful-restart"]]) (base i a m l p t ct pw us false b bp d) =
  base i a m l p t ct pw us x b bp d.
Proof. destruct x; cbn [when]; [|done]. by rewrite settings_line. Qed.

Lemma set_bfd x i a m l p t ct pw us g d :
  settings peer (when (set x) [ind2 ["neighbor"; peer; "bfd"]; ind2 ["neighbor"; peer; "bfd"; "profile"; x]])
    (base i a m l p t ct pw us g false None d) = base i a m l p t ct pw us g (set x) (some_set x) d.
Proof.
  unfold some_set. destruct (set x); cbn [when]; [|done]. by rewrite settings_cons, !settings_line.
Qed.

Lemma set_check x i a m l p t ct pw us g b bp :
  settings peer (when x [ind2 ["neighbor"; peer; "disable-connected-check"]]) (base i a m l p t ct pw us g b bp false) =
  base i a m l p t ct pw us g b bp x.
Proof. destruct x; cbn [when]; [|done]. by rewrite settings_line. Qed.
End pieces.

Lemma disable_peer n asn :
  printable n → when (mustDisableConnectedCheck (NC_IPFamily n) asn (NC_ASN n) (NC_Iface n) (NC_EBGPMultiHop n))
    [ind2 ["neighbor"; NC_Addr n; "disable-connected-check"]] =
  when (mustDisableConnectedCheck (NC_IPFamily n) asn (NC_ASN n) (NC_Iface n) (NC_EBGPMultiHop n))
    [ind2 ["neighbor"; peerOf n; "disable-connected-check"]].
Proof.
  intros [_ Hf]. unfold peerOf, set. case_bool_decide as Hi; [done|]. cbn [negb].
  unfold mustDisableConnectedCheck. by rewrite bool_decide_eq_false_2 by auto.
Qed.

Lemma neighborsession_settings n asn :
  printable n → settings (peerOf n) (neighborsession n asn) noSession =
    base (set (NC_Iface n)) (NC_ASN n) (NC_EBGPMultiHop n)
      (if (NC_LocalASN n =? 0)%N then None else Some (NC_LocalASN n)) (NC_Port n)
      (k ← NC_KeepaliveTime n; h ← NC_HoldTime n; Some (k, h)) (NC_ConnectTime n)
      (some_set (NC_Password n)) (some_set (NC_SrcAddr n)) (NC_GracefulRestart n)
      (set (NC_BFDProfile n)) (some_set (NC_BFDProfile n))
      (mustDisableConnectedCheck (NC_IPFamily n) asn (NC_ASN n) (NC_Iface n) (NC_EBGPMultiHop n)).
Proof.
  intros Hp. unfold neighborsession. rewrite (disable_peer n asn Hp). destruct Hp as [(Hl & Hpo & Hk & Hh & Hc) _]. rewrite !settings_app.
  assert (settings (peerOf n) (if set (NC_Iface n) then [ind2 ["neighbor"; NC_Iface n; "interface"; "remote-as"; NC_ASN n]]
      else [ind2 ["neighbor"; NC_Addr n; "remote-as"; NC_ASN n]]) noSession =
    base (set (NC_Iface n)) (NC_ASN n) false None None None None None None false false None false) as ->.
  { unfold peerOf. destruct (set (NC_Iface n)); by rewrite settings_line. }
  by rewrite set_multihop, set_local, set_port, set_timers, set_connect, set_password, set_graceful, set_bfd, set_check.
Qed.

(** Every command of a session is about its peer. *)
Lemma about_others peer f ls p :
  Forall (λ l, L_words l = [] ∨ ∃ rest, L_words l = "neighbor" :: p :: rest) ls → p ≠ peer →
  omap (about peer) (said_in f ls) = [].
Proof.
  intros Hls Hp. induction Hls as [|[i ws] ls Hl _ IH]; [done|]. cbn [L_words] in Hl.
  destruct Hl as [->|[rest ->]]; [exact IH|].
  change (said_in f (mkLine i ("neighbor" :: p :: rest) :: ls)) with ((f, "neighbor" :: p :: rest) :: said_in f ls).
  cbn [omap list_omap]. by rewrite about_other.
Qed.

Ltac peer_lines := repeat (cbv beta; lazymatch goal with
  | |- Forall _ (when _ _) => apply Forall_when
  | |- Forall _ (whenSome _ _) => apply Forall_whenSome; intros ?
  | |- Forall _ (_ ++ _) => apply Forall_app; split
  | |- Forall _ [] => apply List.Forall_nil
  | |- Forall _ (_ :: _) => apply List.Forall_cons
  | |- L_words (mkLine _ (when ?b _)) = [] ∨ _ => destruct b; [right; eexists; reflexivity|by left]
  | |- L_words (mkLine _ (whenSome ?o _)) = [] ∨ _ => destruct o; [right; eexists; reflexivity|by left]
  | |- L_words (mkLine _ []) = [] ∨ _ => by left
  | |- L_words (mkLine _ (_ :: _)) = [] ∨ _ => right; eexists; reflexivity
  end).

Lemma neighborsession_peer n asn :
  printable n → Forall (λ l, L_words l = [] ∨ ∃ rest, L_words l = "neighbor" :: peerOf n :: rest) (neighborsession n asn).
Proof.
  intros Hp. unfold neighborsession. rewrite (disable_peer n asn Hp). apply Forall_app. split; [|peer_lines].
  unfold peerOf. destruct (set (NC_Iface n)); peer_lines.
Qed.

(** What the families say. *)
Lemma about_family n f :
  omap (about (peerOf n)) (familySaid n f) =
  pair [f; "unicast"] <$> [["activate"]; ["route-map"; ID n +:+ "-in"; "in"]; ["route-map"; ID n +:+ "-out"; "out"]].
Proof. unfold familySaid. cbn [fmap list_fmap omap list_omap]. by rewrite !about_peer. Qed.

Lemma apply_family f x y i a m l p t ct pw us g b bp d act mi mo :
  foldl apply_setting (mkSessionText i a m l p t ct pw us g b bp d act mi mo)
    (pair f <$> [["activate"]; ["route-map"; x; "in"]; ["route-map"; y; "out"]]) =
  mkSessionText i a m l p t ct pw us g b bp d (act ++ [f]) (mi ++ [(f, x)]) (mo ++ [(f, y)]).
Proof. reflexivity. Qed.

Lemma family_settings n fs i a m l p t ct pw us g b bp d act mi mo :
  foldl apply_setting (mkSessionText i a m l p t ct pw us g b bp d act mi mo) (omap (about (peerOf n)) (fs ≫= familySaid n)) =
  mkSessionText i a m l p t ct pw us g b bp d (act ++ ((λ f, [f; "unicast"]) <$> fs))
    (mi ++ ((λ f, ([f; "unicast"], ID n +:+ "-in")) <$> fs)) (mo ++ ((λ f, ([f; "unicast"], ID n +:+ "-out")) <$> fs)).
Proof.
  revert act mi mo. induction fs as [|f fs IH]; intros act mi mo; [cbn; by rewrite !app_nil_r|].
  cbn [mbind list_bind]. rewrite omap_app, foldl_app. rewrite about_family, apply_family, IH.
  by rewrite <-!app_assoc.
Qed.

Lemma family_others n peer fs : peerOf n ≠ peer → omap (about peer) (fs ≫= familySaid n) = [].
Proof.
  intros Hp. apply omap_nothing. intros f _. unfold familySaid. cbn [fmap list_fmap omap list_omap]. by rewrite !about_other.
Qed.

(** A part of a router that says nothing of its peers. *)
Lemma not_neighbor_line {A} (g : saying → option A) f ls :
  keyed g "neighbor" → Forall (λ l, head (L_words l) ≠ Some "neighbor") ls → omap g (said_in f ls) = [].
Proof. apply omap_said_in. Qed.

Lemma settingLines_no_neighbor r : Forall (λ l, head (L_words l) ≠ Some "neighbor") (settingLines r).
Proof. unfold settingLines. plain_lines; done. Qed.
Lemma vniProperties_no_neighbor i p : Forall (λ l, head (L_words l) ≠ Some "neighbor") (vniProperties i p).
Proof. unfold vniProperties. plain_lines; done. Qed.
Lemma vniLines_no_neighbor e : Forall (λ l, head (L_words l) ≠ Some "neighbor") (vniLines e).
Proof. unfold vniLines, l2vniLines. plain_lines; first [done|apply vniProperties_no_neighbor]. Qed.

(** What a router says of its peers. *)
Lemma router_said_peers {A} (g : saying → option A) r :
  keyed g "neighbor" →
  omap g (router_said r) =
    omap g (RC_Neighbors r ≫= λ n, said_in [] (neighborsession n (RC_MyASN r))) ++
    omap g (RC_Neighbors r ≫= λ n, unicastOf n ≫= familySaid n) ++
    when (hasEVPN r) (omap g (RC_Neighbors r ≫= activateSaid)).
Proof.
  intros Hg. unfold router_said, importSaid, networkSaid. rewrite !omap_app.
  rewrite (not_neighbor_line g [] _ Hg (settingLines_no_neighbor r)).
  rewrite !(omap_fmap_keyed g "neighbor") by done. cbn [app]. f_equal. f_equal. unfold hasEVPN.
  destruct (RC_EVPN r) as [e|]; cbn [whenSome]; [|done]. rewrite omap_app.
  rewrite (not_neighbor_line g _ _ Hg (vniLines_no_neighbor e)), app_nil_r. by rewrite bool_decide_eq_true_2 by done.
Qed.

Lemma session_text_block r n :
  NoDup (peerOf <$> RC_Neighbors r) → Forall printable (RC_Neighbors r) → n ∈ RC_Neighbors r →
  session_text (block_of r) (peerOf n) = session_of r n.
Proof.
  intros Hnd Hp Hn. pose proof (proj1 (Forall_forall _ _) Hp n Hn) as Hpn.
  unfold session_text, block_of. cbn [B_said]. rewrite router_said_peers by apply about_keyed.
  rewrite (omap_only _ (λ n, said_in [] (neighborsession n (RC_MyASN r))) _ n), (omap_only _ (λ n, unicastOf n ≫= familySaid n) _ n),
    (omap_only _ activateSaid _ n).
  all: try done.
  2:{ intros m _ Hm. unfold activateSaid. destruct (hasAddressFamilyEVPN _); [|done]. cbn [when omap list_omap]. by rewrite about_other. }
  2:{ intros m _ Hm. by apply family_others. }
  2:{ intros m Hin Hm. eapply about_others; [|exact Hm]. apply neighborsession_peer. by eapply (proj1 (Forall_forall _ _) Hp). }
  rewrite !foldl_app. fold (settings (peerOf n) (neighborsession n (RC_MyASN r)) noSession).
  rewrite neighborsession_settings, family_settings by done. cbn [app]. unfold session_of.
  rewrite mustDisableConnectedCheck_disabled.
  assert (bool_decide (is_Some (RC_EVPN r) ∧ "evpn" ∈ NC_AddressFamilies n) =
    hasEVPN r && hasAddressFamilyEVPN (NC_AddressFamilies n)) as -> by apply bool_decide_and.
  destruct (hasEVPN r); cbn [when andb]; [|by rewrite app_nil_r].
  unfold activateSaid. destruct (hasAddressFamilyEVPN _); cbn [when]; [|cbn; by rewrite app_nil_r].
  cbn [omap list_omap]. by rewrite about_peer.
Qed.

(** The peers of a router are its sessions. *)
Lemma remote_nothing f ls :
  Forall (λ l, ∀ p rest, L_words l = "neighbor" :: p :: rest → head rest ∉ [Some "remote-as"; Some "interface"]) ls →
  omap remote (said_in f ls) = [].
Proof.
  induction 1 as [|[i ws] ls Hl _ IH]; [done|]. cbn [L_words] in Hl. destruct ws as [|k [|p rest]]; [exact IH|exact IH|].
  change (said_in f (mkLine i (k :: p :: rest) :: ls)) with ((f, k :: p :: rest) :: said_in f ls).
  cbn [omap list_omap]. rewrite IH. unfold remote. cbn [snd]. case_bool_decide as Hk; [subst k|done]. cbn [andb].
  specialize (Hl p rest eq_refl). rewrite bool_decide_eq_false_2 by set_solver. rewrite bool_decide_eq_false_2; [done|].
  destruct rest as [|x rest]; [done|]. cbn in *. intros [= -> _]. set_solver.
Qed.

Lemma remote_session n asn : omap remote (said_in [] (neighborsession n asn)) = [peerOf n].
Proof.
  unfold neighborsession. rewrite said_in_app, omap_app.
  set (first := if set _ then _ else _). assert (omap remote (said_in [] first) = [peerOf n]) as ->
    by (unfold first, peerOf; by destruct (set (NC_Iface n))).
  rewrite remote_nothing; [done|].
  plain_lines; intros p rest He; cbn [L_words] in He;
    repeat (match type of He with when ?b _ = _ => destruct b | whenSome ?o _ = _ => destruct o end; cbn [when whenSome] in He);
    try discriminate; injection He as _ <-; by_evaluation.
Qed.

Lemma text_peers_block r : text_peers (block_of r) = peerOf <$> RC_Neighbors r.
Proof.
  unfold text_peers, block_of. cbn [B_said]. rewrite router_said_peers by apply remote_keyed.
  assert (omap remote (RC_Neighbors r ≫= λ n, unicastOf n ≫= familySaid n) = []) as ->.
  { apply omap_nothing. intros n _. apply omap_nothing. done. }
  assert (omap remote (RC_Neighbors r ≫= activateSaid) = []) as ->.
  { apply omap_nothing. intros n _. unfold activateSaid. by destruct (hasAddressFamilyEVPN _). }
  assert (when (hasEVPN r) (@nil string) = []) as -> by (by destruct (hasEVPN r)). rewrite !app_nil_r.
  induction (RC_Neighbors r) as [|n ns IH]; [done|]. cbn [mbind list_bind]. by rewrite omap_app, remote_session, IH.
Qed.

(** What it says besides. *)
Lemma network_keyed f : keyed (network_of f) "network".
Proof. intros f' [|k [|p [|? ?]]] Hk; [done..| |done]. cbn. by rewrite bool_decide_eq_false_2 by (intros ->; done). Qed.
Lemma import_keyed f : keyed (import_of f) "import".
Proof. intros f' [|k [|p [|v [|? ?]]]] Hk; [done..| |done]. cbn. by rewrite bool_decide_eq_false_2 by (intros ->; done). Qed.
Lemma router_id_keyed : keyed router_id_of "bgp".
Proof. intros f' [|k [|p [|v [|? ?]]]] Hk; [done..| |done]. cbn. by rewrite bool_decide_eq_false_2 by (intros ->; done). Qed.

Lemma vniLines_heads key e : key ∈ ["network"; "import"; "bgp"] → Forall (λ l, head (L_words l) ≠ Some key) (vniLines e).
Proof.
  intros Hk. unfold vniLines, l2vniLines, vniProperties.
  plain_lines; cbn [L_words head]; intros [= <-]; revert Hk; apply (bool_decide_unpack _); vm_compute; exact I.
Qed.

Lemma router_said_rest {A} (g : saying → option A) key r :
  keyed g key → key ∈ ["network"; "import"; "bgp"] → Forall printable (RC_Neighbors r) →
  omap g (router_said r) =
    omap g (said_in [] (settingLines r)) ++
    (omap g (importSaid "ipv4" (RC_ImportVRFs r)) ++ omap g (importSaid "ipv6" (RC_ImportVRFs r))) ++
    omap g (networkSaid "ipv4" (RC_IPV4Prefixes r)) ++ omap g (networkSaid "ipv6" (RC_IPV6Prefixes r)).
Proof.
  intros Hg Hk Hp. assert (Some "neighbor" ≠ Some key) as Hn.
  { intros [= <-]. revert Hk. apply (bool_decide_unpack _). vm_compute. exact I. }
 
  unfold router_said. rewrite !omap_app. f_equal. f_equal.
  rewrite (omap_nothing g (λ n, said_in [] _)), (omap_nothing g (λ n, unicastOf n ≫= familySaid n)).
  - cbn [app]. f_equal. destruct (RC_EVPN r) as [e|]; cbn [whenSome]; [|by rewrite app_nil_r].
    rewrite omap_app, (omap_said_in g key _ _ Hg (vniLines_heads key e Hk)), app_nil_r.
    rewrite omap_nothing; [by rewrite app_nil_r|]. intros n _. unfold activateSaid.
    destruct (hasAddressFamilyEVPN _); [|done]. cbn [when omap list_omap]. by rewrite Hg.
  - intros n _. apply omap_nothing. intros f _. unfold familySaid. cbn [fmap list_fmap omap list_omap]. by rewrite !Hg.
  - intros n Hin. apply (omap_said_in g key); [done|].
    eapply Forall_impl; [apply neighborsession_peer; by eapply (proj1 (Forall_forall _ _) Hp)|].
    intros l [->|[rest ->]]; done.
Qed.

Lemma network_said f f' p : network_of f ([f'; "unicast"], ["network"; p]) = if bool_decide (f' = f) then Some p else None.
Proof.
  unfold network_of. rewrite (bool_decide_eq_true_2 ("network" = "network")) by done. cbn [andb].
  by rewrite (bool_decide_ext ([f'; "unicast"] = [f; "unicast"]) (f' = f)) by naive_solver.
Qed.
Lemma import_said f f' v : import_of f ([f'; "unicast"], ["import"; "vrf"; v]) = if bool_decide (f' = f) then Some v else None.
Proof.
  unfold import_of. rewrite (bool_decide_eq_true_2 ("import" = "import")), (bool_decide_eq_true_2 ("vrf" = "vrf")), andb_true_r by done.
  cbn [andb]. by rewrite (bool_decide_ext ([f'; "unicast"] = [f; "unicast"]) (f' = f)) by naive_solver.
Qed.

Lemma omap_network f f' ps : omap (network_of f) (networkSaid f' ps) = if bool_decide (f' = f) then ps else [].
Proof.
  unfold networkSaid. induction ps as [|p ps IH]; [by case_bool_decide|]. cbn [fmap list_fmap omap list_omap].
  change (list_omap ?g ?l) with (omap g l). rewrite network_said, IH. by case_bool_decide.
Qed.
Lemma omap_import f f' vs : omap (import_of f) (importSaid f' vs) = if bool_decide (f' = f) then vs else [].
Proof.
  unfold importSaid. induction vs as [|v vs IH]; [by case_bool_decide|]. cbn [fmap list_fmap omap list_omap].
  change (list_omap ?g ?l) with (omap g l). rewrite import_said, IH. by case_bool_decide.
Qed.

Lemma settingLines_heads key r :
  key ∈ ["network"; "import"] → Forall (λ l, head (L_words l) ≠ Some key) (settingLines r).
Proof.
  intros Hk. unfold settingLines.
  plain_lines; cbn [L_words head]; try done; intros [= <-]; revert Hk; apply (bool_decide_unpack _); vm_compute; exact I.
Qed.

Lemma networks_block r f : Forall printable (RC_Neighbors r) →
  networks f (block_of r) =
    (if bool_decide ("ipv4" = f) then RC_IPV4Prefixes r else []) ++ (if bool_decide ("ipv6" = f) then RC_IPV6Prefixes r else []).
Proof.
  intros Hp. unfold networks, block_of. cbn [B_said]. pose proof (network_keyed f) as Hg.
  rewrite (router_said_rest _ "network") by (done || by_evaluation).
  rewrite (omap_said_in _ "network" _ _ Hg) by (apply settingLines_heads; by_evaluation).
  unfold importSaid. rewrite !(omap_fmap_keyed _ "network") by done. by rewrite !omap_network.
Qed.

Lemma imports_block r f : Forall printable (RC_Neighbors r) → f ∈ ["ipv4"; "ipv6"] →
  imports f (block_of r) = RC_ImportVRFs r.
Proof.
  intros Hp Hf. unfold imports, block_of. cbn [B_said]. pose proof (import_keyed f) as Hg.
  rewrite (router_said_rest _ "import") by (done || by_evaluation).
  rewrite (omap_said_in _ "import" _ _ Hg) by (apply settingLines_heads; by_evaluation).
  unfold networkSaid. rewrite !(omap_fmap_keyed _ "import") by done. rewrite !omap_import, !app_nil_r.
  apply elem_of_cons in Hf as [->|Hf]; [by rewrite app_nil_r|]. by apply list_elem_of_singleton in Hf as ->.
Qed.

Lemma router_id_block r : Forall printable (RC_Neighbors r) → router_id (block_of r) = some_set (RC_RouterID r).
Proof.
  intros Hp. unfold router_id, block_of. cbn [B_said]. rewrite (router_said_rest _ "bgp") by (apply router_id_keyed || done || by_evaluation).
  unfold importSaid, networkSaid. rewrite !(omap_fmap_keyed _ "bgp") by (apply router_id_keyed || done). rewrite !app_nil_r.
  unfold settingLines, some_set. by destruct (set (RC_RouterID r)).
Qed.

(** ** The routers of the text *)

(** The block is the router: its AS, VRF and router ID, what it announces and imports, and its sessions with
    all their settings. *)
Record router_read (r : RouterConfig NeighborConfig) (b : block) : Prop := {
  rr_asn : B_asn b = RC_MyASN r;
  rr_vrf : B_vrf b = RC_VRF r;
  rr_id : router_id b = some_set (RC_RouterID r);
  rr_networks4 : networks "ipv4" b = RC_IPV4Prefixes r;
  rr_networks6 : networks "ipv6" b = RC_IPV6Prefixes r;
  rr_imports f : f ∈ ["ipv4"; "ipv6"] → imports f b = RC_ImportVRFs r;
  rr_peers : text_peers b = peerOf <$> RC_Neighbors r;
  rr_session n : n ∈ RC_Neighbors r → session_text b (peerOf n) = session_of r n }.

Lemma block_read r :
  NoDup (peerOf <$> RC_Neighbors r) → Forall printable (RC_Neighbors r) → router_read r (block_of r).
Proof.
  intros Hnd Hp. split; try done.
  - by apply router_id_block.
  - rewrite networks_block by done. cbn. by rewrite app_nil_r.
  - by rewrite networks_block.
  - intros f Hf. by apply imports_block.
  - by apply text_peers_block.
  - intros n Hn. by apply session_text_block.
Qed.
