(* ===== verification/EvpnText.v ===== *)
(** * EVPN and BFD in the file

    What the [l2vpn evpn] family of a router, the [vrf] blocks and the [bfd] block of a text say, and that the
    file [templateConfig] prints says there exactly what the configuration has. *)

From Stdlib Require Import Ascii Lia.
From S2P Require Import Prelude GoStrings GoNet IPFamily Community Api FrrConfig Errors Merge ApiToConfig Samples.
From S2P Require Import Template TemplateProps FilterNames FileFilters Render ReadFilters FileText ReadRouters RouterText.

(** ** The l2vpn family of a router *)

(** The route distinguisher and route targets of a VNI. *)
Record vniText := mkVniText { VT_rd : option string; VT_imports : list string; VT_exports : list string }.
Record evpnText := mkEvpnText {
  ET_allVNIs : bool;
  ET_svi : bool;
  ET_advertised : list string;
  ET_l2 : list (N * vniText);
  ET_l3 : vniText }.

Definition noVni : vniText := mkVniText None [] [].
Definition noEvpn : evpnText := mkEvpnText false false [] [] noVni.

Definition add_property (v : vniText) (ws : list string) : vniText :=
  match ws with
  | [k; x] => if bool_decide (k = "rd") then mkVniText (Some x) (VT_imports v) (VT_exports v) else v
  | [k; d; t] =>
      if bool_decide (k = "route-target") && bool_decide (d = "import")
      then mkVniText (VT_rd v) (VT_imports v ++ [t]) (VT_exports v)
      else if bool_decide (k = "route-target") && bool_decide (d = "export")
      then mkVniText (VT_rd v) (VT_imports v) (VT_exports v ++ [t])
      else v
  | _ => v
  end.

(** A property belongs to the VNI that is open, and otherwise to the VRF of the router. *)
Definition with_property (st : evpnText * option (N * vniText)) (ws : list string) : evpnText * option (N * vniText) :=
  match st with
  | (e, Some (n, v)) => (e, Some (n, add_property v ws))
  | (mkEvpnText a s f l v, None) => (mkEvpnText a s f l (add_property v ws), None)
  end.

Definition close_vni (st : evpnText * option (N * vniText)) : evpnText :=
  match st with
  | (mkEvpnText a s f l v, Some nv) => mkEvpnText a s f (l ++ [nv]) v
  | (e, None) => e
  end.

Definition evpn_step (st : evpnText * option (N * vniText)) (ws : list string) : evpnText * option (N * vniText) :=
  let '(mkEvpnText a s f l v, open) := st in
  match ws with
  | [k] =>
      if bool_decide (k = "advertise-all-vni") then (mkEvpnText true s f l v, open)
      else if bool_decide (k = "advertise-svi-ip") then (mkEvpnText a true f l v, open)
      else if bool_decide (k = "exit-vni") then (close_vni st, None)
      else st
  | [k; x] =>
      if bool_decide (k = "vni")
      then match read_number x with Some n => (close_vni st, Some (n, noVni)) | None => st end
      else with_property st ws
  | [k; x; y] =>
      if bool_decide (k = "advertise") && bool_decide (y = "unicast") then (mkEvpnText a s (f ++ [x]) l v, open)
      else with_property st ws
  | _ => st
  end.

(** What a block says in a family. *)
Definition in_family (f : afi) (c : saying) : option (list string) := if bool_decide (c.1 = f) then Some c.2 else None.
Definition evpn_text (b : block) : evpnText :=
  close_vni (foldl evpn_step (noEvpn, None) (omap (in_family evpnContext) (B_said b))).

(** *** What it should say *)

Definition vni_of (p : FrrVNIProperties) : vniText := mkVniText (some_set (FVP_RD p)) (FVP_ImportRTs p) (FVP_ExportRTs p).
Definition has_properties (p : FrrVNIProperties) : bool :=
  set (FVP_RD p) || negb (empty (FVP_ImportRTs p)) || negb (empty (FVP_ExportRTs p)).

Definition l2_of (v : FrrL2VNI) : list (N * vniText) :=
  when (has_properties (FL2_Properties v)) [(FL2_VNI v, vni_of (FL2_Properties v))].
Definition advertised_of (v : FrrL3VNI) : list string :=
  FL3_AdvertisePrefixes v ≫= λ p, when (bool_decide (p = "unicast")) ["ipv4"; "ipv6"].

Definition evpn_of (r : RouterConfig NeighborConfig) : evpnText :=
  match RC_EVPN r with
  | None => noEvpn
  | Some e =>
      mkEvpnText (bool_decide (FE_AdvertiseVNIs e = Some "All")) (FE_AdvertiseSVI e)
        (match FE_L3VNI e with Some v => advertised_of v | None => [] end)
        (FE_L2VNIs e ≫= l2_of)
        (match FE_L3VNI e with Some v => vni_of (FL3_Properties v) | None => noVni end)
  end.

(** *** That it says it *)

Definition evpn_lines (ls : list line) (st : evpnText * option (N * vniText)) : evpnText * option (N * vniText) :=
  foldl evpn_step st (line_words ls).

Lemma evpn_lines_app l1 l2 st : evpn_lines (l1 ++ l2) st = evpn_lines l2 (evpn_lines l1 st).
Proof. unfold evpn_lines. by rewrite line_words_app, foldl_app. Qed.

Lemma evpn_line i k ws st : evpn_lines [mkLine i (k :: ws)] st = evpn_step st (k :: ws).
Proof. done. Qed.

Lemma add_import v t : add_property v ["route-target"; "import"; t] = mkVniText (VT_rd v) (VT_imports v ++ [t]) (VT_exports v).
Proof. reflexivity. Qed.
Lemma add_export v t : add_property v ["route-target"; "export"; t] = mkVniText (VT_rd v) (VT_imports v) (VT_exports v ++ [t]).
Proof. reflexivity. Qed.

Lemma foldl_add_property i p v :
  foldl add_property v (line_words (vniProperties i p)) =
  mkVniText (if set (FVP_RD p) then Some (FVP_RD p) else VT_rd v) (VT_imports v ++ FVP_ImportRTs p) (VT_exports v ++ FVP_ExportRTs p).
Proof.
  unfold vniProperties. rewrite !line_words_app, !foldl_app.
  assert (∀ v, foldl add_property v (line_words (when (set (FVP_RD p)) [mkLine i ["rd"; FVP_RD p]])) =
    mkVniText (if set (FVP_RD p) then Some (FVP_RD p) else VT_rd v) (VT_imports v) (VT_exports v)) as ->.
  { intros [rd im ex]. by destruct (set (FVP_RD p)). }
  assert (∀ ts v, foldl add_property v (line_words ((λ t, mkLine i ["route-target"; "import"; t]) <$> ts)) =
    mkVniText (VT_rd v) (VT_imports v ++ ts) (VT_exports v)) as ->.
  { intros ts. induction ts as [|t ts IH]; intros [rd im ex]; [by cbn; rewrite app_nil_r|].
    change (line_words (_ <$> t :: ts)) with (["route-target"; "import"; t] :: line_words ((λ t, mkLine i ["route-target"; "import"; t]) <$> ts)).
    cbn [foldl]. rewrite IH, add_import. cbn [VT_rd VT_imports VT_exports]. by rewrite <-app_assoc. }
  assert (∀ ts v, foldl add_property v (line_words ((λ t, mkLine i ["route-target"; "export"; t]) <$> ts)) =
    mkVniText (VT_rd v) (VT_imports v) (VT_exports v ++ ts)) as ->.
  { intros ts. induction ts as [|t ts IH]; intros [rd im ex]; [by cbn; rewrite app_nil_r|].
    change (line_words (_ <$> t :: ts)) with (["route-target"; "export"; t] :: line_words ((λ t, mkLine i ["route-target"; "export"; t]) <$> ts)).
    cbn [foldl]. rewrite IH, add_export. cbn [VT_rd VT_imports VT_exports]. by rewrite <-app_assoc. }
  done.
Qed.

(** The lines of properties are properties. *)
Lemma evpn_properties i p st : evpn_lines (vniProperties i p) st = foldl with_property st (line_words (vniProperties i p)).
Proof.
  unfold evpn_lines. assert (Forall (λ ws, ∀ st, evpn_step st ws = with_property st ws) (line_words (vniProperties i p))) as Hall.
  { unfold vniProperties. rewrite !line_words_app. apply Forall_app; split; [|apply Forall_app; split].
    - destruct (set (FVP_RD p)); [|exact (List.Forall_nil _)]. apply Forall_singleton. by intros [[] [[]|]].
    - induction (FVP_ImportRTs p) as [|t ts IH]; [exact (List.Forall_nil _)|]. apply List.Forall_cons; [|exact IH]. by intros [[] [[]|]].
    - induction (FVP_ExportRTs p) as [|t ts IH]; [exact (List.Forall_nil _)|]. apply List.Forall_cons; [|exact IH]. by intros [[] [[]|]]. }
  revert st. induction Hall as [|ws wss Hws _ IH]; intros st; [done|]. cbn [foldl]. by rewrite Hws, IH.
Qed.

Lemma with_property_open e n v wss : foldl with_property (e, Some (n, v)) wss = (e, Some (n, foldl add_property v wss)).
Proof. destruct e. revert v. induction wss as [|ws wss IH]; intros v; [done|]. cbn [foldl with_property]. by rewrite IH. Qed.
Lemma with_property_closed a s f l v wss :
  foldl with_property (mkEvpnText a s f l v, None) wss = (mkEvpnText a s f l (foldl add_property v wss), None).
Proof. revert v. induction wss as [|ws wss IH]; intros v; [done|]. cbn [foldl with_property]. by rewrite IH. Qed.

Lemma evpn_l2 v a s f l v3 : (FL2_VNI v < 2 ^ 32)%N →
  evpn_lines (l2vniLines v) (mkEvpnText a s f l v3, None) = (mkEvpnText a s f (l ++ l2_of v) v3, None).
Proof.
  intros Hn. unfold l2vniLines, l2_of, has_properties. destruct (_ || _); cbn [when]; [|by rewrite app_nil_r].
  change (ind4 ["vni"; ?x] :: ?ls) with ([ind4 ["vni"; x]] ++ ls). rewrite !evpn_lines_app, (evpn_line _ "vni"), (evpn_line _ "exit-vni").
  assert (evpn_step (mkEvpnText a s f l v3, None) ["vni"; pretty (FL2_VNI v)] = (mkEvpnText a s f l v3, Some (FL2_VNI v, noVni))) as ->.
  { pose proof (read_pretty (FL2_VNI v) Hn) as Hr. unfold evpn_step. rewrite (bool_decide_eq_true_2 ("vni" = "vni")) by done.
    by rewrite Hr. }
  rewrite evpn_properties, with_property_open, foldl_add_property. cbn. unfold vni_of, some_set. done.
Qed.

Lemma evpn_l2s vs a s f l v3 : Forall (λ v, (FL2_VNI v < 2 ^ 32)%N) vs →
  evpn_lines (vs ≫= l2vniLines) (mkEvpnText a s f l v3, None) = (mkEvpnText a s f (l ++ (vs ≫= l2_of)) v3, None).
Proof.
  intros Hvs. revert l. induction Hvs as [|v vs Hv _ IH]; intros l; [cbn; by rewrite app_nil_r|].
  cbn [mbind list_bind]. by rewrite evpn_lines_app, evpn_l2, IH, <-app_assoc by done.
Qed.

Lemma evpn_advertise ps a s f l v3 :
  evpn_lines (ps ≫= λ p, when (hasAdvertisesEVPNPrefixUnicast p)
    [ind4 ["advertise"; "ipv4"; "unicast"]; ind4 ["advertise"; "ipv6"; "unicast"]]) (mkEvpnText a s f l v3, None) =
  (mkEvpnText a s (f ++ (ps ≫= λ p, when (hasAdvertisesEVPNPrefixUnicast p) ["ipv4"; "ipv6"])) l v3, None).
Proof.
  revert f. induction ps as [|p ps IH]; intros f; [cbn; by rewrite app_nil_r|].
  cbn [mbind list_bind]. rewrite evpn_lines_app. destruct (hasAdvertisesEVPNPrefixUnicast p); cbn [when].
  - change (evpn_lines [ind4 ["advertise"; "ipv4"; "unicast"]; ind4 ["advertise"; "ipv6"; "unicast"]] (mkEvpnText a s f l v3, None)) with
      (mkEvpnText a s ((f ++ ["ipv4"]) ++ ["ipv6"]) l v3, @None (N * vniText)). rewrite IH. by rewrite <-!app_assoc.
  - change (evpn_lines [] ?st) with st. by rewrite IH.
Qed.

Definition vnis_fit (r : RouterConfig NeighborConfig) : Prop :=
  match RC_EVPN r with
  | Some e => Forall (λ v, (FL2_VNI v < 2 ^ 32)%N) (FE_L2VNIs e) ∧
              match FE_L3VNI e with Some v => (FL3_VNI v < 2 ^ 32)%N | None => True end
  | None => True
  end.
#[global] Instance vnis_fit_dec r : Decision (vnis_fit r).
Proof. unfold vnis_fit. destruct (RC_EVPN r) as [e|]; [|apply _]. destruct (FE_L3VNI e); apply _. Defined.

Lemma vniLines_read e : Forall (λ v, (FL2_VNI v < 2 ^ 32)%N) (FE_L2VNIs e) →
  evpn_lines (vniLines e) (noEvpn, None) =
  (mkEvpnText (hasAdvertiseVNIsAll (FE_AdvertiseVNIs e)) (FE_AdvertiseSVI e)
     (match FE_L3VNI e with Some v => advertised_of v | None => [] end) (FE_L2VNIs e ≫= l2_of)
     (match FE_L3VNI e with Some v => vni_of (FL3_Properties v) | None => noVni end), None).
Proof.
  intros Hl2. unfold vniLines. rewrite !evpn_lines_app.
  assert (evpn_lines (when (hasAdvertiseVNIsAll (FE_AdvertiseVNIs e)) [ind4 ["advertise-all-vni"]]) (noEvpn, None) =
    (mkEvpnText (hasAdvertiseVNIsAll (FE_AdvertiseVNIs e)) false [] [] noVni, None)) as -> by (by destruct (hasAdvertiseVNIsAll _)).
  assert (∀ a, evpn_lines (when (FE_AdvertiseSVI e) [ind4 ["advertise-svi-ip"]]) (mkEvpnText a false [] [] noVni, None) =
    (mkEvpnText a (FE_AdvertiseSVI e) [] [] noVni, None)) as -> by (intros a; by destruct (FE_AdvertiseSVI e)).
  rewrite evpn_l2s by done. destruct (FE_L3VNI e) as [v|]; cbn [whenSome]; [|done].
  rewrite evpn_lines_app, evpn_advertise, evpn_properties, with_property_closed, foldl_add_property. done.
Qed.

(** Only the l2vpn family is looked at. *)
Lemma in_family_said f g ls : omap (in_family f) (said_in g ls) = if bool_decide (g = f) then line_words ls else [].
Proof.
  unfold said_in. induction (line_words ls) as [|ws wss IH]; [by case_bool_decide|]. cbn [fmap list_fmap omap list_omap].
  rewrite IH.
  unfold in_family. cbn [fst snd]. by case_bool_decide.
Qed.

Lemma in_family_none {A} f (c : A → saying) xs : (∀ x, (c x).1 ≠ f) → omap (in_family f) (c <$> xs) = [].
Proof.
  intros Hc. induction xs as [|x xs IH]; [done|]. cbn [fmap list_fmap omap list_omap]. unfold in_family at 1.
  by rewrite bool_decide_eq_false_2.
Qed.

Lemma evpn_text_block r : vnis_fit r → evpn_text (block_of r) = evpn_of r.
Proof.
  intros Hfit. unfold evpn_text, evpn_of, block_of. cbn [B_said]. unfold router_said, importSaid, networkSaid. rewrite !omap_app.
  rewrite in_family_said, !in_family_none by done. cbn [app].
  rewrite (bool_decide_eq_false_2 ([] = evpnContext)) by done. cbn [app].
  rewrite (omap_nothing _ (λ n, said_in [] _)) by (intros n _; by rewrite in_family_said).
  rewrite (omap_nothing _ (λ n, unicastOf n ≫= familySaid n)).
  2:{ intros n _. apply omap_nothing. intros f _. unfold familySaid. apply in_family_none. done. }
  cbn [app]. unfold vnis_fit in Hfit. destruct (RC_EVPN r) as [e|]; [|done]. cbn [whenSome]. destruct Hfit as [Hl2 _].
  rewrite omap_app, in_family_said, bool_decide_eq_true_2 by done. rewrite foldl_app.
  assert (foldl evpn_step (noEvpn, None) (omap (in_family evpnContext) (RC_Neighbors r ≫= activateSaid)) = (noEvpn, None)) as ->.
  { induction (RC_Neighbors r) as [|n ns IH]; [done|]. cbn [mbind list_bind]. rewrite omap_app, foldl_app.
    unfold activateSaid at 1. destruct (hasAddressFamilyEVPN _); exact IH. }
  fold (evpn_lines (vniLines e) (noEvpn, None)). by rewrite vniLines_read.
Qed.

(** ** The VNIs of the VRFs *)

Fixpoint read_vnis (open : option string) (ss : list (list string)) : list (string * N) :=
  match ss with
  | [] => []
  | ws :: ss =>
      match ws with
      | [k] => read_vnis (if bool_decide (k = "exit-vrf") then None else open) ss
      | [k; x] =>
          if bool_decide (k = "vrf") then read_vnis (Some x) ss
          else match (if bool_decide (k = "vni") then open else None), read_number x with
               | Some v, Some n => (v, n) :: read_vnis open ss
               | _, _ => read_vnis open ss
               end
      | _ => read_vnis open ss
      end
  end.
Definition text_vnis (text : string) : list (string * N) := read_vnis None (sentences text).

(** The VNI of the VRF of a router. *)
Definition vni_of_vrf (r : RouterConfig NeighborConfig) : list (string * N) :=
  when (set (RC_VRF r)) (whenSome (RC_EVPN r) (λ e, whenSome (FE_L3VNI e) (λ v, [(RC_VRF r, FL3_VNI v)]))).

Lemma read_vnis_none keys ss rest :
  starts keys ss → "vrf" ∉ keys → read_vnis None (ss ++ rest) = read_vnis None rest.
Proof.
  intros H Hk. induction H as [|ws ss (k & ws' & -> & Hin) _ IH]; [done|]. cbn [app].
  assert (k ≠ "vrf") as Hv by (intros ->; done).
  destruct ws' as [|x [|y ws']]; cbn [read_vnis]; [by case_bool_decide| |done].
  rewrite bool_decide_eq_false_2 by done. by case_bool_decide.
Qed.

Lemma read_vnis_vrfs rs rest : Forall vnis_fit rs →
  read_vnis None (line_words (rs ≫= vrfLines) ++ rest) = (rs ≫= vni_of_vrf) ++ read_vnis None rest.
Proof.
  induction 1 as [|r rs Hr _ IH]; [done|]. cbn [mbind list_bind]. rewrite line_words_app, <-!app_assoc. rewrite <-IH.
  unfold vrfLines, vni_of_vrf. destruct (set (RC_VRF r)); [|done]. unfold vnis_fit in Hr. destruct (RC_EVPN r) as [e|]; [|done].
  cbn [when whenSome]. destruct (FE_L3VNI e) as [v|]; [|done]. cbn [whenSome]. destruct Hr as [_ Hr].
  change (line_words [blank; top ["vrf"; RC_VRF r]; ind2 ["vni"; pretty (FL3_VNI v)]; top ["exit-vrf"]]) with
    [["vrf"; RC_VRF r]; ["vni"; pretty (FL3_VNI v)]; ["exit-vrf"]].
  cbn [app read_vnis]. rewrite read_pretty by done. done.
Qed.

Lemma routerLines_start rs : starts routerWords (line_words (rs ≫= routerLines)).
Proof.
  apply starts_line_words. apply Forall_bind, Forall_forall. intros r _. unfold compose.
  assert (∀ ls, Forall says ls → Forall (λ l, match L_words l with [] => True | k :: _ => k ∈ routerWords end) ls) as Hsays.
  { intros ls H. eapply Forall_impl; [exact H|]. intros l. unfold says. destruct (L_words l); [done|]. unfold routerWords. set_solver. }
  unfold routerLines, importLines, networkLines, neighborenableipfamily, unicastFamily, evpnLines, l2vniLines.
  plain_lines; try (cbn [L_words app]; by_evaluation).
  - apply Hsays, neighborsession_says.
  - apply Hsays, vniProperties_says.
  - apply Hsays, vniProperties_says.
Qed.

Lemma bfd_start ps : starts ("bfd" :: profileWords) (line_words (when (negb (empty ps)) (top ["bfd"] :: (ps ≫= bfdprofile)))).
Proof.
  destruct ps as [|p ps]; [exact (List.Forall_nil _)|]. change (when (negb (Template.empty (p :: ps))) ?l) with l.
  change (line_words (top ["bfd"] :: ?l)) with (["bfd"] :: line_words l). apply List.Forall_cons; [eexists _, _; split; [done|left]|].
  eapply starts_mono; [apply profiles_start|]. intros k Hk. by right.
Qed.

(** The raw configuration says nothing of VNIs and profiles. *)
Definition raw_elsewhere (config : Config NeighborConfig) : Prop :=
  Forall (λ ws, match head ws with Some k => k ∉ "vrf" :: profileWords | None => True end) (sentences (Config_ExtraConfig config)).
#[global] Instance raw_elsewhere_dec config : Decision (raw_elsewhere config).
Proof. unfold raw_elsewhere. apply Forall_dec. intros ws. destruct (head ws); apply _. Defined.

Lemma text_vnis_routers config :
  readable_config config → worded config → raw_elsewhere config → Forall vnis_fit (Config_Routers config) →
  text_vnis (templateConfig config) = Config_Routers config ≫= vni_of_vrf.
Proof.
  intros Hc Hw Hraw Hfit. destruct (file_parts config Hc Hw) as (heads & filters & Hh & Hf & Hs).
  unfold text_vnis. rewrite Hs. rewrite (read_vnis_none headWords) by (done || by_evaluation).
  rewrite (read_vnis_none filterWords) by (done || by_evaluation). rewrite read_vnis_vrfs by done.
  rewrite (read_vnis_none routerWords) by (apply routerLines_start || by_evaluation).
  rewrite (read_vnis_none ("bfd" :: profileWords)) by (apply bfd_start || by_evaluation).
  assert (read_vnis None (sentences (Config_ExtraConfig config)) = []) as ->; [|by rewrite app_nil_r].
  unfold raw_elsewhere in Hraw. clear -Hraw.
  induction Hraw as [|ws ss Hws _ IH]; [done|]. destruct ws as [|k [|x [|y ws]]]; cbn [read_vnis]; [done| | |done].
  - by case_bool_decide.
  - cbn in Hws. rewrite bool_decide_eq_false_2 by set_solver. by case_bool_decide.
Qed.

(** ** The BFD profiles *)

Record profileText := mkProfileText {
  PT_name : string;
  PT_receive : option N;
  PT_transmit : option N;
  PT_multiplier : option N;
  PT_echoMode : bool;
  PT_echoTransmit : option N;
  PT_echoReceive : option N;
  PT_passive : bool;
  PT_minimumTTL : option N }.

Definition profile_setting (p : profileText) (ws : list string) : profileText :=
  let '(mkProfileText name r t m e et er ps ttl) := p in
  match ws with
  | [k] =>
      if bool_decide (k = "echo-mode") then mkProfileText name r t m true et er ps ttl
      else if bool_decide (k = "passive-mode") then mkProfileText name r t m e et er true ttl
      else p
  | [k; x] =>
      if bool_decide (k = "receive-interval") then mkProfileText name (read_number x) t m e et er ps ttl
      else if bool_decide (k = "transmit-interval") then mkProfileText name r (read_number x) m e et er ps ttl
      else if bool_decide (k = "detect-multiplier") then mkProfileText name r t (read_number x) e et er ps ttl
      else if bool_decide (k = "minimum-ttl") then mkProfileText name r t m e et er ps (read_number x)
      else p
  | [k; k'; x] =>
      if bool_decide (k = "echo") && bool_decide (k' = "transmit-interval") then mkProfileText name r t m e (read_number x) er ps ttl
      else if bool_decide (k = "echo") && bool_decide (k' = "receive-interval") then mkProfileText name r t m e et (read_number x) ps ttl
      else p
  | _ => p
  end.

(** A setting belongs to the last profile. *)
Definition profile_step (ps : list profileText) (ws : list string) : list profileText :=
  match ws with
  | k :: rest =>
      if bool_decide (k = "profile") then match rest with [name] => ps ++ [mkProfileText name None None None false None None false None] | _ => ps end
      else if bool_decide (k ∈ profileWords) then
        match last ps with Some p => take (length ps - 1) ps ++ [profile_setting p ws] | None => ps end
      else ps
  | [] => ps
  end.
Definition text_profiles (text : string) : list profileText := foldl profile_step [] (sentences text).

Definition profile_of (p : FrrBFDProfile) : profileText :=
  mkProfileText (FBFD_Name p) (FBFD_ReceiveInterval p) (FBFD_TransmitInterval p) (FBFD_DetectMultiplier p) (FBFD_EchoMode p)
    (FBFD_EchoInterval p) (FBFD_EchoInterval p) (FBFD_PassiveMode p) (FBFD_MinimumTTL p).

Definition profile_fits (p : FrrBFDProfile) : Prop :=
  small (FBFD_ReceiveInterval p) ∧ small (FBFD_TransmitInterval p) ∧ small (FBFD_DetectMultiplier p) ∧
  small (FBFD_EchoInterval p) ∧ small (FBFD_MinimumTTL p).
#[global] Instance small_dec o : Decision (small o).
Proof. unfold small. destruct o; apply _. Defined.
#[global] Instance profile_fits_dec p : Decision (profile_fits p).
Proof. unfold profile_fits. apply _. Defined.

Lemma profile_step_none keys ss ps : starts keys ss → Forall (λ k, k ∉ profileWords) keys → foldl profile_step ps ss = ps.
Proof.
  intros H Hk. revert ps. induction H as [|ws ss (k & rest & -> & Hin) _ IH]; intros ps; [done|]. cbn [foldl profile_step].
  apply (proj1 (Forall_forall _ _) Hk) in Hin. rewrite !bool_decide_eq_false_2; [done|done|]. intros ->. apply Hin. left.
Qed.

Lemma profile_step_last ps p ws k : head ws = Some k → k ∈ profileWords → k ≠ "profile" →
  profile_step (ps ++ [p]) ws = ps ++ [profile_setting p ws].
Proof.
  destruct ws as [|k' rest]; [done|]. intros [= ->] Hk Hne. cbn [profile_step].
  rewrite bool_decide_eq_false_2, bool_decide_eq_true_2 by done. rewrite last_snoc, length_app. cbn [length].
  replace (length ps + 1 - 1)%nat with (length ps) by lia. by rewrite take_app_length.
Qed.

(** The lines of a profile that set something. *)
Definition profileLines (p : FrrBFDProfile) : list line :=
  let timer name (o : option N) := whenSome o (λ v, [ind4 [name; pretty v]]) in
  timer "receive-interval" (FBFD_ReceiveInterval p) ++
  timer "transmit-interval" (FBFD_TransmitInterval p) ++
  timer "detect-multiplier" (FBFD_DetectMultiplier p) ++
  when (FBFD_EchoMode p) [ind4 ["echo-mode"]] ++
  whenSome (FBFD_EchoInterval p) (λ v,
    [ind4 ["echo"; "transmit-interval"; pretty v]; ind4 ["echo"; "receive-interval"; pretty v]]) ++
  when (FBFD_PassiveMode p) [ind4 ["passive-mode"]] ++
  timer "minimum-ttl" (FBFD_MinimumTTL p).

Lemma foldl_profile ps p wss :
  Forall (λ ws, ∃ k rest, ws = k :: rest ∧ k ∈ profileWords ∧ k ≠ "profile") wss →
  foldl profile_step (ps ++ [p]) wss = ps ++ [foldl profile_setting p wss].
Proof.
  intros H. revert p. induction H as [|ws wss (k & rest & -> & Hk & Hne) _ IH]; intros p; [done|]. cbn [foldl].
  by rewrite (profile_step_last _ _ _ k), IH.
Qed.

Section profile.
Context (name : string).
Notation fold_lines ls p := (foldl profile_setting p (line_words ls)).

Lemma set_receive x t m e et er ps ttl : small x →
  fold_lines (whenSome x (λ v, [ind4 ["receive-interval"; pretty v]])) (mkProfileText name None t m e et er ps ttl) =
  mkProfileText name x t m e et er ps ttl.
Proof. destruct x as [v|]; [|done]. intros Hv. transitivity (mkProfileText name (read_number (pretty v)) t m e et er ps ttl); [done|by rewrite read_pretty]. Qed.
Lemma set_transmit x r m e et er ps ttl : small x →
  fold_lines (whenSome x (λ v, [ind4 ["transmit-interval"; pretty v]])) (mkProfileText name r None m e et er ps ttl) =
  mkProfileText name r x m e et er ps ttl.
Proof. destruct x as [v|]; [|done]. intros Hv. transitivity (mkProfileText name r (read_number (pretty v)) m e et er ps ttl); [done|by rewrite read_pretty]. Qed.
Lemma set_multiplier x r t e et er ps ttl : small x →
  fold_lines (whenSome x (λ v, [ind4 ["detect-multiplier"; pretty v]])) (mkProfileText name r t None e et er ps ttl) =
  mkProfileText name r t x e et er ps ttl.
Proof. destruct x as [v|]; [|done]. intros Hv. transitivity (mkProfileText name r t (read_number (pretty v)) e et er ps ttl); [done|by rewrite read_pretty]. Qed.
Lemma set_echo_mode x r t m et er ps ttl :
  fold_lines (when x [ind4 ["echo-mode"]]) (mkProfileText name r t m false et er ps ttl) = mkProfileText name r t m x et er ps ttl.
Proof. by destruct x. Qed.
Lemma set_echo x r t m e ps ttl : small x →
  fold_lines (whenSome x (λ v, [ind4 ["echo"; "transmit-interval"; pretty v]; ind4 ["echo"; "receive-interval"; pretty v]]))
    (mkProfileText name r t m e None None ps ttl) = mkProfileText name r t m e x x ps ttl.
Proof. destruct x as [v|]; [|done]. intros Hv. transitivity (mkProfileText name r t m e (read_number (pretty v)) (read_number (pretty v)) ps ttl); [done|by rewrite read_pretty]. Qed.
Lemma set_passive x r t m e et er ttl :
  fold_lines (when x [ind4 ["passive-mode"]]) (mkProfileText name r t m e et er false ttl) = mkProfileText name r t m e et er x ttl.
Proof. by destruct x. Qed.
Lemma set_ttl x r t m e et er ps : small x →
  fold_lines (whenSome x (λ v, [ind4 ["minimum-ttl"; pretty v]])) (mkProfileText name r t m e et er ps None) =
  mkProfileText name r t m e et er ps x.
Proof. destruct x as [v|]; [|done]. intros Hv. transitivity (mkProfileText name r t m e et er ps (read_number (pretty v))); [done|by rewrite read_pretty]. Qed.
End profile.

Lemma profileLines_read p : profile_fits p →
  foldl profile_setting (mkProfileText (FBFD_Name p) None None None false None None false None) (line_words (profileLines p)) = profile_of p.
Proof.
  intros (Hr & Ht & Hm & He & Hl). unfold profileLines. rewrite !line_words_app, !foldl_app.
  by rewrite set_receive, set_transmit, set_multiplier, set_echo_mode, set_echo, set_passive, set_ttl.
Qed.

Lemma profileLines_start p : Forall (λ ws, ∃ k rest, ws = k :: rest ∧ k ∈ profileWords ∧ k ≠ "profile") (line_words (profileLines p)).
Proof.
  assert (starts ["receive-interval"; "transmit-interval"; "detect-multiplier"; "echo-mode"; "echo"; "passive-mode"; "minimum-ttl"]
    (line_words (profileLines p))) as H.
  { apply starts_line_words. unfold profileLines. plain_lines; cbn [L_words]; by_evaluation. }
  eapply Forall_impl; [exact H|]. intros ws (k & rest & -> & Hk). exists k, rest. split; [done|].
  unfold profileWords. set_solver.
Qed.

Lemma foldl_profiles fs ps : Forall profile_fits fs → foldl profile_step ps (line_words (fs ≫= bfdprofile)) = ps ++ (profile_of <$> fs).
Proof.
  intros H. revert ps. induction H as [|p fs Hp _ IH]; intros ps; [cbn; by rewrite app_nil_r|].
  cbn [mbind list_bind fmap list_fmap]. rewrite line_words_app, foldl_app.
  assert (line_words (bfdprofile p) = ["profile"; FBFD_Name p] :: line_words (profileLines p)) as ->.
  { unfold bfdprofile, profileLines. rewrite !line_words_app. cbn [app]. by rewrite ?app_nil_r. }
  cbn [foldl]. change (profile_step ps ["profile"; FBFD_Name p]) with
    (ps ++ [mkProfileText (FBFD_Name p) None None None false None None false None]).
  rewrite foldl_profile by apply profileLines_start. rewrite profileLines_read, IH by done. by rewrite <-app_assoc.
Qed.

Lemma text_profiles_config config :
  readable_config config → worded config → raw_elsewhere config → Forall profile_fits (Config_BFDProfiles config) →
  text_profiles (templateConfig config) = profile_of <$> Config_BFDProfiles config.
Proof.
  intros Hc Hw Hraw Hfit. destruct (file_parts config Hc Hw) as (heads & filters & Hh & Hf & Hs).
  unfold text_profiles. rewrite Hs, !foldl_app.
  rewrite (profile_step_none headWords heads) by (done || by_evaluation).
  rewrite (profile_step_none filterWords filters) by (done || by_evaluation).
  rewrite (profile_step_none ["vrf"; "vni"; "exit-vrf"] (line_words (_ ≫= vrfLines))) by (apply vrfLines_start || by_evaluation).
  rewrite (profile_step_none routerWords (line_words (_ ≫= routerLines))) by (apply routerLines_start || by_evaluation).
  assert (foldl profile_step [] (line_words (when (negb (empty (Config_BFDProfiles config)))
      (top ["bfd"] :: (Config_BFDProfiles config ≫= bfdprofile)))) = profile_of <$> Config_BFDProfiles config) as ->.
  { destruct (Config_BFDProfiles config) as [|p ps] eqn:Ep; [done|]. change (when (negb (Template.empty (p :: ps))) ?l) with l.
    change (line_words (top ["bfd"] :: ?l)) with (["bfd"] :: line_words l). cbn [foldl].
    change (profile_step [] ["bfd"]) with (@nil profileText). by rewrite foldl_profiles. }
  generalize (profile_of <$> Config_BFDProfiles config) as ps. unfold raw_elsewhere in Hraw. clear -Hraw. intros ps.
  induction Hraw as [|ws ss Hws _ IH]; [done|]. cbn [foldl]. destruct ws as [|k rest]; [done|]. cbn [head] in Hws. cbn [profile_step].
  rewrite !bool_decide_eq_false_2; [done|set_solver|]. intros ->. apply Hws. right. left.
Qed.
