(* ===== verification/PeerText.v ===== *)
(** * The file, peer by peer

    The text printed for a converted configuration, completed by the manager, as FRR runs it: its routers with their sessions, and, with the route maps
    each session names, what each peer is sent and what is accepted from it. *)

From Stdlib Require Import Ascii Lia.
From S2P Require Import Prelude GoStrings GoNet IPFamily Community Api FrrConfig Errors Merge ApiToConfig Samples.
From S2P Require Import HeapLogic ApiHeap ApiResult ApiProps Debouncer FRRManager Template TemplateProps FilterNames FileFilters.
From S2P Require Import Render ReadFilters FileText ReadRouters RouterText EvpnText.

(** ** The routers *)

(** Every number of the routers can be read. *)
Definition router_fits (r : RouterConfig NeighborConfig) : Prop := (RC_MyASN r < 2 ^ 32)%N ∧ Forall numbers_fit (RC_Neighbors r).
#[global] Instance router_fits_dec r : Decision (router_fits r).
Proof. unfold router_fits. apply _. Defined.

(** The file can be read: it is well formed, its values are words and its numbers fit; the raw configuration
    does not change the routers. *)
Record text_ok (c : Config NeighborConfig) : Prop := {
  to_readable : readable_config c;
  to_worded : worded c;
  to_raw : raw_outside c;
  to_fits : Forall router_fits (Config_Routers c) }.

(** The sessions of a converted router have different peers. *)
Lemma converted_router resources ab c r :
  apiToFRR resources ab = Ok c → r ∈ Config_Routers c →
  NoDup (peerOf <$> RC_Neighbors r) ∧ Forall (λ n, NC_Iface n ≠ "" → NC_IPFamily n ≠ IPv6) (RC_Neighbors r).
Proof.
  intros Hc Hr. eapply (apiToFRR_result (session_ok ab)) in Hc;
    [|apply session_ok_merge|intros; apply session_ok_establishes]. split.
  - destruct (rk_router _ _ _ Hc r Hr) as [_ [_ _ _ [_ Hids]]].
    set (suffix := if bool_decide (RC_VRF r = "") then "" else "-" +:+ RC_VRF r).
    assert (ID <$> RC_Neighbors r = (λ p, p +:+ suffix) <$> (peerOf <$> RC_Neighbors r)) as He.
    { rewrite <-list_fmap_compose. apply list_fmap_ext. intros i n Hi. apply list_elem_of_lookup_2 in Hi.
      destruct (rk_neighbor _ _ _ Hc r n Hr Hi) as [_ Hv]. unfold ID, suffix, peerOf, set, compose. rewrite Hv.
      by case_bool_decide. }
    rewrite He in Hids. by apply NoDup_fmap_1 in Hids.
  - apply Forall_forall. intros n Hn Hi. destruct (rk_neighbor _ _ _ Hc r n Hr Hn) as [[] _]. rewrite so_unnumbered; done.
Qed.

(** Completing a configuration changes no session. *)
Lemma same_routers_elem a c r : same_routers a c → r ∈ Config_Routers a → ∃ r0, r0 ∈ Config_Routers c ∧ same_router r r0.
Proof. intros H Hr. apply list_elem_of_lookup in Hr as [i Hi]. destruct (Forall2_lookup_l _ _ _ _ _ H Hi) as (r0 & Hi' & Hs).
  exists r0. split; [by eapply list_elem_of_lookup_2|done].
Qed.
Lemma same_routers_sessions a c : same_routers a c → config_sessions a = config_sessions c.
Proof. unfold config_sessions. induction 1 as [|r' r rs' rs (_ & _ & Hn & _) _ IH]; [done|]. cbn [mbind list_bind]. by rewrite Hn, IH. Qed.
Lemma same_routers_vrfs a c : same_routers a c → RC_VRF <$> Config_Routers a = RC_VRF <$> Config_Routers c.
Proof. induction 1 as [|r' r rs' rs (Hv & _) _ IH]; [done|]. cbn [fmap list_fmap]. by rewrite Hv, IH. Qed.
Lemma same_routers_filters a c ct : same_routers a c → fileFilters a ct = fileFilters c ct.
Proof. intros H. by rewrite !fileFilters_sessions, (same_routers_sessions a c H). Qed.
Lemma same_routers_refl c : same_routers c c.
Proof. apply Forall_Forall2_diag, Forall_true. intros r. by split_and!. Qed.

Lemma converted_blocks resources ab c a :
  apiToFRR resources ab = Ok c → same_routers a c → text_ok a →
  text_blocks (templateConfig a) = block_of <$> Config_Routers a ∧
  ∀ r, r ∈ Config_Routers a → router_read r (block_of r).
Proof.
  intros Hc Hs [Hr Hw Hraw Hf]. split.
  - apply text_blocks_routers; [done..|]. eapply Forall_impl; [exact Hf|]. by intros r [].
  - intros r Hin. destruct (same_routers_elem a c r Hs Hin) as (r0 & Hin0 & _ & _ & Hns & _).
    destruct (converted_router _ _ _ _ Hc Hin0) as [Hnd Hv]. rewrite <-Hns in Hnd, Hv.
    destruct (proj1 (Forall_forall _ _) Hf r Hin) as [_ Hn]. apply block_read; [done|].
    apply Forall_forall. intros n Hn'. split; [by apply (proj1 (Forall_forall _ _) Hn)|by apply (proj1 (Forall_forall _ _) Hv)].
Qed.




(** ** What a peer is sent *)

Lemma find_block_vrf rs r : NoDup (RC_VRF <$> rs) → r ∈ rs → filter (λ b, B_vrf b = RC_VRF r) (block_of <$> rs) = [block_of r].
Proof.
  intros Hnd Hr. apply list_elem_of_split in Hr as (l1 & l2 & ->). rewrite fmap_app, fmap_cons in Hnd.
  apply NoDup_app in Hnd as (_ & Hl1 & [Hl2 _]%NoDup_cons). rewrite fmap_app, fmap_cons, filter_app, filter_cons_True by done.
  assert (∀ l, (∀ r', r' ∈ l → RC_VRF r' ≠ RC_VRF r) → filter (λ b, B_vrf b = RC_VRF r) (block_of <$> l) = []) as Hnone.
  { intros l Hl. induction l as [|x l IH]; [done|]. rewrite fmap_cons, filter_cons_False by (apply Hl; left).
    apply IH. intros r' Hr'. apply Hl. by right. }
  rewrite !Hnone; [done|..].
  - intros r' Hr' He. apply Hl2. rewrite <-He. by apply list_elem_of_fmap_2.
  - intros r' Hr' He. apply (Hl1 (RC_VRF r')); [by apply list_elem_of_fmap_2|]. rewrite He. left.
Qed.

(** The route map of a session in a family: the last one said. *)
Definition map_in (f : afi) (maps : list (afi * string)) : option string :=
  last (snd <$> filter (λ m : afi * string, m.1 = f) maps).

Lemma elem_of_unicast n f : f ∈ ["ipv4"; "ipv6"] →
  f ∈ unicastOf n ↔ active_family n f = true.
Proof. intros Hf. unfold unicastOf. rewrite list_elem_of_filter. naive_solver. Qed.

Lemma map_in_unicast n f x : f ∈ unicastOf n → map_in [f; "unicast"] ((λ f, ([f; "unicast"], x)) <$> unicastOf n) = Some x.
Proof.
  unfold map_in. generalize (unicastOf n) as fs. intros fs Hf.
  assert (∀ y, y ∈ snd <$> filter (λ m : afi * string, m.1 = [f; "unicast"]) ((λ f, ([f; "unicast"], x)) <$> fs) → y = x) as Hall.
  { intros y (m & -> & Hm)%list_elem_of_fmap. apply list_elem_of_filter in Hm as [_ Hm].
    by apply list_elem_of_fmap in Hm as (? & -> & _). }
  assert (x ∈ snd <$> filter (λ m : afi * string, m.1 = [f; "unicast"]) ((λ f, ([f; "unicast"], x)) <$> fs)) as Hx.
  { apply list_elem_of_fmap. exists ([f; "unicast"], x). split; [done|]. apply list_elem_of_filter. split; [done|].
    apply list_elem_of_fmap. by exists f. }
  destruct (last _) as [y|] eqn:El.
  - f_equal. apply Hall. by apply last_Some_elem_of.
  - apply last_None in El. rewrite El in Hx. by apply elem_of_nil in Hx.
Qed.

Section peer.
Context {route : Type} (family_of : route → string) (covers : string → N → N → route → bool).
Context (at_end : bool).

Definition familyName (rt : route) : string := if bool_decide (family_of rt = "ip") then "ipv4" else "ipv6".

(** What FRR does with a route at a session of a VRF: no route passes a session that is not active in the family; where the
    session has a route map it decides, and otherwise every route passes as it is. *)
Definition through (maps : sessionText → list (afi * string)) (text vrf peer : string) (rt : route) : option (list string) :=
  b ← head (filter (λ b, B_vrf b = vrf) (text_blocks text));
  let s := session_text b peer in
  let f := [familyName rt; "unicast"] in
  if bool_decide (peer ∈ text_peers b) && bool_decide (f ∈ ST_active s) then
    match map_in f (maps s) with Some m => text_map family_of covers at_end text m rt | None => Some [] end
  else None.
Definition peer_sends := through ST_mapsOut.
Definition peer_accepts := through ST_mapsIn.

Lemma familyName_known rt : familyName rt ∈ ["ipv4"; "ipv6"].
Proof using Type. unfold familyName. case_bool_decide; by_evaluation. Qed.

Lemma active_unicast r n rt :
  bool_decide ([familyName rt; "unicast"] ∈ ST_active (session_of r n)) = active_family n (familyName rt).
Proof using Type.
  apply eq_true_iff_eq. rewrite bool_decide_eq_true. cbn [session_of ST_active]. rewrite elem_of_app, list_elem_of_fmap.
  pose proof (elem_of_unicast n _ (familyName_known rt)) as Hu. split.
  - intros [(f & [= <-] & Hf)|Hf]; [by apply Hu|].
    case_bool_decide; [|by apply elem_of_nil in Hf]. by apply list_elem_of_singleton in Hf.
  - intros Ha%Hu. left. eauto.
Qed.

Lemma through_converted resources ab c a r n rt (maps : sessionText → list (afi * string)) suffix :
  apiToFRR resources ab = Ok c → same_routers a c → text_ok a → r ∈ Config_Routers a → n ∈ RC_Neighbors r →
  maps (session_of r n) = ((λ f, ([f; "unicast"], ID n +:+ suffix)) <$> unicastOf n) →
  through maps (templateConfig a) (RC_VRF r) (peerOf n) rt =
  if active_family n (familyName rt)
  then text_map family_of covers at_end (templateConfig a) (ID n +:+ suffix) rt else None.
Proof using Type.
  intros Hc Hsame Ht Hr Hn Hm. destruct (converted_blocks _ _ _ _ Hc Hsame Ht) as [Hb Hread]. unfold through. rewrite Hb.
  destruct (apiToFRR_shape _ _ _ Hc) as [[_ Hvrfs] _ _ _ _ _ _ _ _]. rewrite <-(same_routers_vrfs a c Hsame) in Hvrfs. rewrite find_block_vrf by done. cbn [head mbind option_bind].
  destruct (Hread r Hr) as [_ _ _ _ _ _ Hpeers Hs]. rewrite Hpeers, Hs by done.
  rewrite (bool_decide_eq_true_2 (peerOf n ∈ _)) by (by apply list_elem_of_fmap_2). cbn [andb]. rewrite active_unicast.
  destruct (active_family n _) eqn:Ha; [|done]. rewrite Hm, map_in_unicast; [done|].
  by apply elem_of_unicast; [apply familyName_known|].
Qed.

(** *** What was asked for *)

(** The prefixes of a tag that are of the family of the route cover it. *)
Definition tagged_route (pl : PrefixList) (rt : route) : bool :=
  bool_decide (PL_IPFamily pl = family_of rt) && existsb (λ p, covers p 0 0 rt) (elements (PL_Prefixes pl)).

(** The local preferences and the communities requested for a route, as FRR's [set] commands. *)
Definition requested (n : NeighborConfig) (rt : route) : list string :=
  ((λ m, "set local-preference " +:+ pretty (LPL_LocalPref m)) <$>
    filter (λ m, tagged_route (LPL_PrefixList m) rt = true) (AO_LocalPrefPrefixesModifiers (NC_Outgoing n))) ++
  ((λ m, match CPL_Community m with
         | BGPCommunityLegacy a b => "set community " +:+ pretty a +:+ ":" +:+ pretty b +:+ " additive"
         | BGPCommunityLarge a b c =>
             "set large-community " +:+ pretty a +:+ ":" +:+ pretty b +:+ ":" +:+ pretty c +:+ " additive"
         end) <$>
    filter (λ m, tagged_route (CPL_PrefixList m) rt = true) (AO_CommunityPrefixesModifiers (NC_Outgoing n))).

(** A peer is sent the routes of its active families whose prefix is advertised to it, with the tags requested, in some order,
    and the next hop of the family. *)
Definition sent_to (n : NeighborConfig) (rt : route) (sent : option (list string)) : Prop :=
  if active_family n (familyName rt) && exactly covers (advertised family_of n rt) rt
  then ∃ tags, sent = Some (tags ++ next_hop_set family_of n rt) ∧ tags ≡ₚ requested n rt
  else sent = None.

(** The route is inside a network, of which it has the family. *)
Definition inside (net : IPNet) (rt : route) : bool :=
  bool_decide (To4 (IPNet_IP net) = None ↔ family_of rt = "ipv6") &&
  covers (IPNet_String net) (if bool_decide (To4 (IPNet_IP net) = None) then 128 else 32)%N 0 rt.

(** From a peer the routes of its active families are accepted that are inside no network always blocked and that are
    allowed: everything is, or a filter of the family covers the route. *)
Definition accepted_from (ab : list IPNet) (n : NeighborConfig) (rt : route) : option (list string) :=
  if active_family n (familyName rt) && negb (existsb (λ net, inside net rt) ab) &&
     (AI_All (NC_Incoming n) ||
      covered family_of covers (AI_PrefixesV4 (NC_Incoming n) ++ AI_PrefixesV6 (NC_Incoming n)) rt)
  then Some [] else None.

Lemma existsb_perm {A} (f : A → bool) l1 l2 : l1 ≡ₚ l2 → existsb f l1 = existsb f l2.
Proof using Type.
  intros Hp. apply eq_true_iff_eq. rewrite !existsb_exists. split; intros (x & Hx & Hf); exists x; split; try done;
    by rewrite <-?list_elem_of_In, ?Hp, <-?Hp, ?list_elem_of_In in *.
Qed.

Lemma filter_fmap_property {A} (f : A → PropertyPrefixList) (g : A → PrefixList) (h : A → string) rt (l : list A) :
  (∀ m, SetStatement (f m) = h m ∧ PPL_IPFamily (f m) = PL_IPFamily (g m) ∧ SortedPrefixes (f m) = sets_List (PL_Prefixes (g m))) →
  SetStatement <$> filter (λ pl, applies family_of covers rt pl = true) (f <$> l) =
  h <$> filter (λ m, tagged_route (g m) rt = true) l.
Proof using Type.
  intros Hf. induction l as [|m l IH]; [done|]. destruct (Hf m) as (Hs & Hfam & Hp). cbn [fmap list_fmap].
  rewrite !filter_cons.
  assert (applies family_of covers rt (f m) = tagged_route (g m) rt) as Ha.
  { unfold applies, tagged_route, exactly. rewrite Hfam, Hp. f_equal. apply existsb_perm, merge_sort_Permutation. }
  rewrite Ha. case_decide; cbn [fmap list_fmap]; [by rewrite Hs, IH|done].
Qed.

(** The settings the file makes are those requested. *)
Lemma applied_requested n rt :
  SetStatement <$> filter (λ pl, applies family_of covers rt pl = true) (PrefixLists (NC_Outgoing n)) ≡ₚ requested n rt.
Proof using Type.
  unfold PrefixLists. rewrite sort_Slice_Permutation, filter_app, fmap_app. apply Permutation_app; apply reflexive_eq.
  - apply filter_fmap_property. by intros m.
  - apply filter_fmap_property. intros m. split_and!; [|done..]. cbn. unfold CommunityPrefixList_SetStatement.
    destruct (CPL_Community m); cbn; by rewrite ?app_assoc_string.
Qed.

Lemma covered_blocks nets rt :
  family_of rt = "ip" ∨ family_of rt = "ipv6" →
  covered family_of covers (alwaysBlockToFRR nets) rt = existsb (λ net, inside net rt) nets.
Proof using Type.
  intros Hf. unfold covered, alwaysBlockToFRR. induction nets as [|net nets IH]; [done|].
  cbn [fmap list_fmap existsb]. rewrite IH. f_equal. unfold inside, ForCIDR.
  destruct (To4 (IPNet_IP net)); cbn [IF_IPFamily IF_Prefix IF_LE IF_GE]; f_equal; apply bool_decide_ext; naive_solver.
Qed.

Lemma peer_sends_spec resources ab c a r n rt :
  apiToFRR resources ab = Ok c → same_routers a c → text_ok a → no_raw_filters a → apart (config_sessions c) →
  r ∈ Config_Routers a → n ∈ RC_Neighbors r → family_of rt = "ip" ∨ family_of rt = "ipv6" →
  sent_to n rt (peer_sends (templateConfig a) (RC_VRF r) (peerOf n) rt).
Proof using Type.
  intros Hc Hsame Ht Hraw Hap Hr Hn Hf. unfold sent_to, peer_sends.
  rewrite (through_converted resources ab c a r n rt ST_mapsOut "-out") by done.
  destruct (active_family n _); [|done]. destruct Ht as [Hread _ _ _]. rewrite text_map_file by done. cbn [andb].
  rewrite (same_routers_filters a c _ Hsame), (file_sends_spec family_of covers at_end resources ab c n); [|done..| |done].
  2:{ rewrite <-(same_routers_sessions a c Hsame). apply list_elem_of_bind. eauto. }
  destruct (exactly _ _ _); [|done]. eexists. split; [done|apply applied_requested].
Qed.

(** C6: a peer is sent exactly what is advertised to it: in the text FRR reads for a converted configuration,
    completed with host name and router IDs, FRR sends a route to a peer of a VRF if and only if the session is
    active in the family of the route (that of its peer, or any for a dual-stack one, and the session carries unicast) and the prefix of the
    route is one of the prefixes the session advertises in this family; the
    route leaves with exactly the local preferences and communities requested for its prefix and the
    next hop of its family; whatever pattern matching is, and whichever way FRR ends a route map whose last match said to
    go on.  FRR keeps the entries of lists and maps by sequence number.  It is assumed that the values in the file are words and its numbers fit (text_ok),
    that the raw configuration adds no prefix list or route map and no command to a router (no_raw_filters, raw_outside), and that no two
    sessions have the same identifier, or one that is another's with -denied (apart). *)
Theorem peer_sends_exactly resources ab c a r n rt :
  apiToFRR resources ab = Ok c → same_routers a c → text_ok a → no_raw_filters a → apart (config_sessions c) →
  r ∈ Config_Routers a → n ∈ RC_Neighbors r → family_of rt = "ip" ∨ family_of rt = "ipv6" →
  sent_to n rt (peer_sends (templateConfig a) (RC_VRF r) (peerOf n) rt).
Proof using Type. apply peer_sends_spec. Qed.

Lemma peer_accepts_spec resources ab c a r n rt :
  apiToFRR resources ab = Ok c → same_routers a c → text_ok a → no_raw_filters a → apart (config_sessions c) →
  r ∈ Config_Routers a → n ∈ RC_Neighbors r → family_of rt = "ip" ∨ family_of rt = "ipv6" →
  peer_accepts (templateConfig a) (RC_VRF r) (peerOf n) rt = accepted_from ab n rt.
Proof using Type.
  intros Hc Hsame Ht Hraw Hap Hr Hn Hf. unfold peer_accepts, accepted_from.
  rewrite (through_converted resources ab c a r n rt ST_mapsIn "-in") by done.
  destruct (active_family n _); [|done]. destruct Ht as [Hread _ _ _]. rewrite text_map_file by done. cbn [andb].
  rewrite (same_routers_filters a c _ Hsame), (file_accepts_spec family_of covers at_end resources ab c n); [|done..| |done].
  2:{ rewrite <-(same_routers_sessions a c Hsame). apply list_elem_of_bind. eauto. }
  rewrite covered_blocks by done. by destruct (existsb _ ab).
Qed.

(** C7: from a peer exactly what is allowed is accepted: in the text FRR reads for a converted configuration,
    completed with host name and router IDs, FRR accepts a route from a peer of a VRF if and only if the session is
    active in the family of the route (that of its peer, or any for a dual-stack one, and the session carries unicast), the route is inside
    no network of its family that the operator always blocks, and either the
    session accepts everything or one of its allowed prefixes of the family, with its length bounds, covers it.  FRR keeps the
    entries of lists and maps by sequence number.  It is assumed that the values in the file are words and its numbers fit (text_ok),
    that the raw configuration adds no prefix list or route map and no command to a router (no_raw_filters, raw_outside), and that no two
    sessions have the same identifier, or one that is another's with -denied (apart). *)
Theorem peer_accepts_exactly resources ab c a r n rt :
  apiToFRR resources ab = Ok c → same_routers a c → text_ok a → no_raw_filters a → apart (config_sessions c) →
  r ∈ Config_Routers a → n ∈ RC_Neighbors r → family_of rt = "ip" ∨ family_of rt = "ipv6" →
  peer_accepts (templateConfig a) (RC_VRF r) (peerOf n) rt = accepted_from ab n rt.
Proof using Type. apply peer_accepts_spec. Qed.
End peer.

(** ** Samples *)

Lemma converted_sample_text : text_ok converted_sample.
Proof. split; [exact converted_sample_readable|by_evaluation..]. Qed.

Definition defaultRouter : RouterConfig NeighborConfig := Eval vm_compute in
  default (mkRouterConfig 0 "" [] "" [] [] [] None) (head (Config_Routers converted_sample)).


Lemma peer_sends_exactly_witness :
  (∃ tags, peer_sends fst sampleCovers false (templateConfig converted_sample) "" "10.1.1.1" ("ip", "192.0.2.0/24") =
     Some (tags ++ []) ∧ tags ≡ₚ ["set local-preference 200"; "set community 65000:10 additive"]) ∧
  peer_sends fst sampleCovers false (templateConfig converted_sample) "" "10.1.1.1" ("ip", "203.0.113.0/24") = None.
Proof.
  assert (∀ rt, fst rt = "ip" →
    sent_to fst sampleCovers filteredSession rt
      (peer_sends fst sampleCovers false (templateConfig converted_sample) "" "10.1.1.1" rt)) as H.
  { intros rt Hrt. apply (peer_sends_exactly fst sampleCovers false sampleResources sampleBlock converted_sample
      converted_sample defaultRouter filteredSession);
      [exact converted_sample_Ok|exact (same_routers_refl _)|exact converted_sample_text|vm_compute; reflexivity
      |by_evaluation|left|left|by left]. }
  split.
  - destruct (H ("ip", "192.0.2.0/24") eq_refl) as (tags & Hs & Ht). exists tags. split; [exact Hs|].
    etransitivity; [exact Ht|]. vm_compute; reflexivity.
  - exact (H ("ip", "203.0.113.0/24") eq_refl).
Defined.

Lemma peer_accepts_exactly_witness :
  peer_accepts fst sampleCovers false (templateConfig converted_sample) "" "10.1.1.1" ("ip", "172.16.0.0/16") = Some [] ∧
  peer_accepts fst sampleCovers false (templateConfig converted_sample) "" "10.1.1.1" ("ip", "192.168.0.0/16") = None.
Proof.
  split; (etransitivity; [apply (peer_accepts_exactly fst sampleCovers false sampleResources sampleBlock converted_sample
    converted_sample defaultRouter filteredSession);
    [exact converted_sample_Ok|exact (same_routers_refl _)|exact converted_sample_text|vm_compute; reflexivity|by_evaluation|left|left|left; reflexivity]
    |vm_compute; reflexivity]).
Defined.
