(* ===== verification/Reconciler.v ===== *)
(** * The configuration controllers ([internal/controller])

    [FRRConfigurationReconciler] (frrconfiguration_controller.go), the reading of the
    log level and [FRRK8sConfigurationReconciler] (frrk8sconfiguration_controller.go),
    [Validate] (validate.go), the dumps (dump.go) and the metrics (stats.go).

    The API server is outside the program: what it answers during one
    reconciliation is the record [Cluster].  Label selectors belong to apimachinery
    and the text of errors to [fmt], so both are parameters.  The FRR handler
    is an interface of the source, the class [ConfigHandler]. *)

From S2P Require Import Prelude GoStrings GoNet IPFamily Community Api FrrConfig Errors.
From S2P Require Import Merge ApiToConfig Logging.

(** ** The API server *)

(** What a call to the API server may fail with. *)
Inductive k8sError := ENotFound | EAPI (msg : string).

#[global] Instance k8sError_eq_dec : EqDecision k8sError.
Proof. solve_decision. Defined.

Definition IsNotFound (e : k8sError) : bool := bool_decide (e = ENotFound).

Notation labels := (gmap string string).

Record Cluster := mkCluster {
  (** [List] of every FRRConfiguration *)
  listFRRConfigurations : result k8sError (list FRRConfiguration);
  (** [Get] of an FRRK8sConfiguration, its [Spec.LogLevel] *)
  getFRRK8sConfiguration : string → string → result k8sError string;
  (** [Get] of a node, its labels *)
  getNode : string → result k8sError labels;
  (** [List] of the secrets of a namespace *)
  listSecrets : string → result k8sError (list Secret) }.

(** ** The handler

    [ConfigHandler] of internal/frr/frr.go; [H] is the state behind it. *)
Class ConfigHandler (H : Type) :=
  applyConfig : H → Config NeighborConfig → H * option string.

(** ** The log level *)

(** The errors a reconciliation returns or reports. *)
Inductive rerror :=
  | EK8s (e : k8sError)
  | ELevel (e : levelError)
  | ENodeSelector (namespace name : string) (e : string)
  | EConversion (e : error)
  | EApply (e : string).

Definition frrK8sConfigurationName : string := "config".

Definition getLogLevel (c : Cluster) (namespace : string) (defaultLogLevel : Level)
    : Level * option rerror :=
  match getFRRK8sConfiguration c namespace frrK8sConfigurationName with
  | Err e => if IsNotFound e then (defaultLogLevel, None) else (LevelFallback, Some (EK8s e))
  | Ok logLevel =>
      if bool_decide (logLevel = "") then (defaultLogLevel, None)
      else let '(l, err) := ParseLevel logLevel in (l, ELevel <$> err)
  end.

(** [FRRK8sConfigurationReconciler.Reconcile], on the logger. *)
Definition FRRK8sConfiguration_Reconcile (namespace : string) (defaultLogLevel : Level)
    (c : Cluster) (l : Logger) : Logger * option rerror :=
  match getLogLevel c namespace defaultLogLevel with
  | (_, Some err) => (l, Some err)
  | (currentLogLevel, None) => (SetLogLevel l currentLogLevel, None)
  end.

(** ** Validation, for the webhook *)

(** A neighbor with other credentials. *)
Definition withCredentials (password : string) (secret : SecretReference) (n : Neighbor) : Neighbor :=
  mkNeighbor (Neighbor_ASN n) (Neighbor_DynamicASN n) (Neighbor_SourceAddress n)
    (Neighbor_Address n) (Neighbor_Interface n) (Neighbor_Port n) password secret
    (Neighbor_HoldTime n) (Neighbor_KeepaliveTime n) (Neighbor_ConnectTime n)
    (Neighbor_EBGPMultiHop n) (Neighbor_BFDProfile n) (Neighbor_EnableGracefulRestart n)
    (Neighbor_ToAdvertise n) (Neighbor_ToReceive n) (Neighbor_DisableMP n)
    (Neighbor_DualStackAddressFamily n) (Neighbor_LocalASN n) (Neighbor_AddressFamilies n).

(** [for r in Routers { for i in r.Neighbors { r.Neighbors[i] = f(r.Neighbors[i]) } }]. *)
Definition updateNeighbors (f : Neighbor → Neighbor) (spec : FRRConfigurationSpec)
    : FRRConfigurationSpec :=
  mkSpec (mkBGPConfig
    ((λ r, mkRouter (Router_ASN r) (Router_ID r) (Router_VRF r) (f <$> Router_Neighbors r)
             (Router_Prefixes r) (Router_Imports r) (Router_EVPN r))
       <$> BGP_Routers (Spec_BGP spec)) (BGP_BFDProfiles (Spec_BGP spec)))
    (Spec_Raw spec) (Spec_NodeSelector spec).

(** The source updates the neighbors in place, also in the lists of the
    caller.  The lists are rebuilt here; the version that assigns in place is in InPlace.v, and
    [shared_validation_exact] of Aliasing.v shows that the sharing changes no verdict. *)
Definition resetSecrets (cfgs : list FRRConfiguration) : list FRRConfiguration :=
  (λ cfg, mkFRRConfiguration (Cfg_Name cfg) (Cfg_Namespace cfg) (Cfg_Annotations cfg)
     (updateNeighbors (λ n, withCredentials (Neighbor_Password n) (mkSecretReference "" "") n)
        (Cfg_Spec cfg))) <$> cfgs.

(** Object lists: only those of FRRConfigurations are looked at. *)
Inductive objectList := FRRConfigurationList (items : list FRRConfiguration) | OtherList.

Definition Validate (resources : list objectList) : res unit :=
  let configs := mjoin ((λ l, match l with FRRConfigurationList items => items
                                         | OtherList => [] end) <$> resources) in
  _ ← apiToFRR (mkClusterResources (resetSecrets configs) ∅) []; Ok ().

(** ** Dumps *)

Definition retracted : string := "<retracted>".
Definition lastAppliedAnnotation : string := "kubectl.kubernetes.io/last-applied-configuration".

Definition sanitizedConfig (c : FRRConfiguration) : FRRConfiguration :=
  mkFRRConfiguration (Cfg_Name c) (Cfg_Namespace c) (delete lastAppliedAnnotation (Cfg_Annotations c))
    (updateNeighbors (λ n, withCredentials retracted (Neighbor_PasswordSecret n) n) (Cfg_Spec c)).

(** A session with another password. *)
Definition withPassword (password : string) (n : NeighborConfig) : NeighborConfig :=
  mkNeighborConfig (NC_IPFamily n) (NC_Name n) (NC_ASN n) (NC_SrcAddr n) (NC_Addr n)
    (NC_Iface n) (NC_Port n) (NC_HoldTime n) (NC_KeepaliveTime n) (NC_ConnectTime n)
    password (NC_BFDProfile n) (NC_GracefulRestart n) (NC_EBGPMultiHop n)
    (NC_LocalASN n) (NC_VRFName n) (NC_Incoming n) (NC_Outgoing n) (NC_AlwaysBlock n)
    (NC_AddressFamilies n).

Definition mapSessions (f : NeighborConfig → NeighborConfig) (c : Config NeighborConfig)
    : Config NeighborConfig :=
  mkConfig (Config_Loglevel c) (Config_Hostname c)
    ((λ r, mkRouterConfig (RC_MyASN r) (RC_RouterID r) (f <$> RC_Neighbors r) (RC_VRF r)
             (RC_IPV4Prefixes r) (RC_IPV6Prefixes r) (RC_ImportVRFs r) (RC_EVPN r))
       <$> Config_Routers c) (Config_BFDProfiles c) (Config_ExtraConfig c).

Section dump.
(** [dumpResource]: [json.Marshal], or spew's dump when that fails. *)
Context (dumpConfiguration : FRRConfiguration → string).
Context (dumpConfig : Config NeighborConfig → string).

Definition dumpK8sConfigs (items : list FRRConfiguration) : string :=
  foldl (λ res cfg, res +:+ newline +:+ dumpConfiguration (sanitizedConfig cfg)) "" items.

Definition dumpFRRConfig (c : Config NeighborConfig) : string :=
  dumpConfig (mapSessions (withPassword retracted) c).
End dump.

(** ** [FRRConfigurationReconciler] *)

Record FRRConfigurationReconciler := mkReconciler {
  R_NodeName : string;
  R_Namespace : string;
  R_AlwaysBlockCIDRS : list IPNet;
  R_DefaultLogLevel : Level }.

(** What a reconciliation changes: the result it reports, the metrics of
    stats.go, and what the handler was given. *)
Record RState (H : Type) := mkRState {
  conversionResult : string;
  updates : N;
  updateErrors : N;
  configLoaded : Z;
  configStale : Z;
  handler : H }.
Arguments mkRState {H}.
Arguments conversionResult {H}.
Arguments updates {H}.
Arguments updateErrors {H}.
Arguments configLoaded {H}.
Arguments configStale {H}.
Arguments handler {H}.

Definition ConversionSuccess : string := "success".

Definition setLoglevel (l : string) (c : Config NeighborConfig) : Config NeighborConfig :=
  mkConfig l (Config_Hostname c) (Config_Routers c) (Config_BFDProfiles c) (Config_ExtraConfig c).

Section reconciler.
Context {H : Type} `{!ConfigHandler H}.
(** apimachinery's [LabelSelectorAsSelector] and [Selector.Matches]. *)
Context {Selector : Type}.
Context (LabelSelectorAsSelector : LabelSelector → result string Selector).
Context (Matches : Selector → labels → bool).
(** [err.Error()]. *)
Context (errorString : rerror → string).

Definition failed (err : rerror) : string := "failed: " +:+ errorString err.

(** [None] is the panic. *)
Definition applyEmptyConfig (h : H) (logLevel : Level) : option (H * option rerror) :=
  match apiToFRR (mkClusterResources [] ∅) [] with
  | Err _ => None
  | Ok config =>
      let '(h', err) := applyConfig h (setLoglevel (LevelFrom logLevel) config) in
      Some (h', EApply <$> err)
  end.

Definition configsForNode (cfgs : list FRRConfiguration) (nodeLabels : labels)
    : result rerror (list FRRConfiguration) :=
  foldM (λ valid cfg,
    match LabelSelectorAsSelector (Spec_NodeSelector (Cfg_Spec cfg)) with
    | Err e => Err (ENodeSelector (Cfg_Namespace cfg) (Cfg_Name cfg) e)
    | Ok selector => Ok (if Matches selector nodeLabels then valid ++ [cfg] else valid)
    end) [] cfgs.

Definition getSecrets (c : Cluster) (namespace : string) : result rerror (gmap string Secret) :=
  match listSecrets c namespace with
  | Err e => if IsNotFound e then Ok ∅ else Err (EK8s e)
  | Ok items => Ok (foldl (λ m s, <[Secret_Name s := s]> m) ∅ items)
  end.

(** The metrics after a failure to load a configuration. *)
Definition countFailure (s : RState H) : RState H :=
  mkRState (conversionResult s) (updates s) (updateErrors s + 1) (configLoaded s) 1 (handler s).

Definition setHandler (h : H) (s : RState H) : RState H :=
  mkRState (conversionResult s) (updates s) (updateErrors s) (configLoaded s) (configStale s) h.

(** The body of [Reconcile]: the state, the conversion result the deferred function
    will store, and the error it returns. *)
Definition reconcileBody (r : FRRConfigurationReconciler) (c : Cluster) (s : RState H)
    : option (RState H * string * option rerror) :=
  let s := mkRState (conversionResult s) (updates s + 1) (updateErrors s) (configLoaded s)
             (configStale s) (handler s) in
  match listFRRConfigurations c with
  | Err e => Some (s, failed (EK8s e), Some (EK8s e))
  | Ok configs =>
  match getLogLevel c (R_Namespace r) (R_DefaultLogLevel r) with
  | (_, Some err) => Some (s, ConversionSuccess, Some err)
  | (logLevel, None) =>
  if (length configs =? 0)%nat then
    match applyEmptyConfig (handler s) logLevel with
    | None => None
    | Some (h, Some err) => Some (countFailure (setHandler h s), failed err, Some err)
    | Some (h, None) => Some (setHandler h s, ConversionSuccess, None)
    end
  else
  match getNode c (R_NodeName r) with
  | Err e => Some (s, failed (EK8s e), Some (EK8s e))
  | Ok nodeLabels =>
  match configsForNode configs nodeLabels with
  | Err err => Some (countFailure s, failed err, Some err)
  | Ok cfgs =>
  match getSecrets c (R_Namespace r) with
  | Err err => Some (s, failed err, Some err)
  | Ok secrets =>
  match apiToFRR (mkClusterResources cfgs secrets) (R_AlwaysBlockCIDRS r) with
  | Err e => Some (countFailure s, failed (EConversion e), None)
  | Ok config =>
  match applyConfig (handler s) (setLoglevel (LevelFrom logLevel) config) with
  | (h, Some e) => Some (countFailure (setHandler h s), failed (EApply e), Some (EApply e))
  | (h, None) =>
      Some (mkRState (conversionResult s) (updates s) (updateErrors s) 1 0 h, ConversionSuccess, None)
  end end end end end end end.

(** [Reconcile]: the body, then the deferred function; the last component
    says whether [ReloadStatus] is called. *)
Definition Reconcile (r : FRRConfigurationReconciler) (c : Cluster) (s : RState H)
    : option (RState H * option rerror * bool) :=
  '(s', res, err) ← reconcileBody r c s;
  Some (mkRState res (updates s') (updateErrors s') (configLoaded s') (configStale s') (handler s'),
        err, negb (bool_decide (res = conversionResult s))).
End reconciler.

(** ** The event filter *)

(** The objects of an update event: nodes have a name and labels. *)
Inductive eventObject := EvNode (name : string) (l : labels) | EvOther.

Definition filterNodeEvent (LabelsEquals : labels → labels → bool)
    (objectOld objectNew : eventObject) (thisNode : string) : bool :=
  match objectNew with
  | EvOther => true
  | EvNode newName newLabels =>
      match objectOld with
      | EvOther => true
      | EvNode oldName oldLabels =>
          if negb (bool_decide (oldName = newName)) then true
          else if negb (bool_decide (newName = thisNode)) then false
          else if LabelsEquals oldLabels newLabels then false
          else true
      end
  end.
