(* ===== verification/ReconcilerProps.v ===== *)
(** * What a reconciliation does

    The abstract behaviour of [Reconcile] ([desired]), the refinement theorem, the
    path of a configuration from the API to the FRR daemons (reconciler, manager and
    debouncer together), the event filter and the secrecy of the dumps. *)

From Stdlib Require Import Lia.
From S2P Require Import Prelude GoStrings GoNet IPFamily Community Api FrrConfig Errors.
From S2P Require Import Merge ApiToConfig Logging Debouncer FRRManager Reconciler Samples.

(** ** The configuration a cluster asks for *)

Section desired.
Context {Selector : Type}.
Context (LabelSelectorAsSelector : LabelSelector → result string Selector).
Context (Matches : Selector → labels → bool).

(** The error of a pair, if any. *)
Definition checked {A} (p : A * option rerror) : result rerror A :=
  match p with (a, None) => Ok a | (_, Some e) => Err e end.

Definition from_api {A} (m : result k8sError A) : result rerror A :=
  match m with Ok a => Ok a | Err e => Err (EK8s e) end.

(** The FRR configuration of the node, or why there is none. *)
Definition desired (r : FRRConfigurationReconciler) (c : Cluster)
    : result rerror (Config NeighborConfig) :=
  configs ← from_api (listFRRConfigurations c);
  logLevel ← checked (getLogLevel c (R_Namespace r) (R_DefaultLogLevel r));
  if bool_decide (configs = []) then Ok (mkConfig (LevelFrom logLevel) "" [] [] "")
  else
    nodeLabels ← from_api (getNode c (R_NodeName r));
    cfgs ← configsForNode LabelSelectorAsSelector Matches configs nodeLabels;
    secrets ← getSecrets c (R_Namespace r);
    match apiToFRR (mkClusterResources cfgs secrets) (R_AlwaysBlockCIDRS r) with
    | Err e => Err (EConversion e)
    | Ok config => Ok (setLoglevel (LevelFrom logLevel) config)
    end.

(** What a node is asked for is converted, or it is empty. *)
Lemma desired_converted r c cfg :
  desired r c = Ok cfg → Config_Routers cfg = [] ∨
    ∃ resources config, apiToFRR resources (R_AlwaysBlockCIDRS r) = Ok config ∧ Config_Routers cfg = Config_Routers config.
Proof.
  unfold desired. intros (configs & _ & Hd)%bind_Ok. apply bind_Ok in Hd as (lvl & _ & Hd).
  case_bool_decide; [injection Hd as <-; by left|]. right.
  apply bind_Ok in Hd as (nl & _ & Hd). apply bind_Ok in Hd as (cfgs & _ & Hd).
  apply bind_Ok in Hd as (secrets & _ & Hd).
  destruct (apiToFRR _ _) as [config|] eqn:Ea; [injection Hd as <-; by eexists _, config|done].
Qed.

(** The error is about the log level. *)
Definition about_level (r : FRRConfigurationReconciler) (c : Cluster) : bool :=
  is_ok (listFRRConfigurations c) &&
  match snd (getLogLevel c (R_Namespace r) (R_DefaultLogLevel r)) with
  | Some _ => true | None => false end.

Definition is_conversion (e : rerror) : bool :=
  match e with EConversion _ => true | _ => false end.

Context {H : Type} `{!ConfigHandler H} (errorString : rerror → string).

Lemma getLogLevel_error c ns d l e : getLogLevel c ns d = (l, Some e) → is_conversion e = false.
Proof using Type.
  unfold getLogLevel. destruct (getFRRK8sConfiguration c ns _) as [lv|e'].
  - case_bool_decide; [done|]. destruct (ParseLevel lv) as [l' [e'|]]; [|done]. by intros [= _ <-].
  - destruct (IsNotFound e'); [done|]. by intros [= _ <-].
Qed.

Lemma configsForNode_error cfgs ls e :
  configsForNode LabelSelectorAsSelector Matches cfgs ls = Err e → is_conversion e = false.
Proof using Type.
  intros (acc & cfg & _ & He)%foldM_Err. revert He.
  destruct (LabelSelectorAsSelector _) as [sel|e']; [done|]. by intros [= <-].
Qed.

Lemma getSecrets_error c ns e : getSecrets c ns = Err e → is_conversion e = false.
Proof using Type.
  unfold getSecrets. destruct (listSecrets c ns) as [l|e']; [done|].
  destruct (IsNotFound e'); [done|]. by intros [= <-].
Qed.

Lemma about_level_desired r c e :
  about_level r c = true → desired r c = Err e → is_conversion e = false.
Proof using Type.
  unfold about_level, desired. destruct (listFRRConfigurations c) as [configs|]; [|done].
  destruct (getLogLevel c _ _) as [l [e'|]] eqn:El; [|done]. cbn. intros _ [= <-].
  by eapply getLogLevel_error.
Qed.

Lemma Reconcile_spec r c (s : RState H) :
  ∃ s' err reload,
    Reconcile LabelSelectorAsSelector Matches errorString r c s = Some (s', err, reload) ∧
    reload = negb (bool_decide (conversionResult s' = conversionResult s)) ∧
    updates s' = (updates s + 1)%N ∧
    match desired r c with
    | Ok cfg =>
        handler s' = fst (applyConfig (handler s) cfg) ∧
        err = EApply <$> snd (applyConfig (handler s) cfg) ∧
        conversionResult s' = match err with None => ConversionSuccess
                                           | Some e => failed errorString e end
    | Err e =>
        handler s' = handler s ∧ err = (if is_conversion e then None else Some e) ∧
        conversionResult s' = if about_level r c then ConversionSuccess else failed errorString e
    end.
Proof.
  unfold Reconcile, reconcileBody, desired, about_level, applyEmptyConfig.
  change (apiToFRR (mkClusterResources [] ∅) []) with
    (@Ok error _ (mkConfig (N' := NeighborConfig) "" "" [] [] "")).
  destruct (listFRRConfigurations c) as [configs|e]; [|by repeat eexists].
  destruct (getLogLevel c _ _) as [logLevel [e|]] eqn:El.
  { apply getLogLevel_error in El. repeat eexists; cbn; by rewrite ?El. }
  destruct configs as [|cfg configs].
  { cbn. destruct (applyConfig _ _) as [h [e|]]; by repeat eexists. }
  cbn [length Nat.eqb checked from_api is_ok andb snd].
  unfold mbind, result_bind, option_bind. cbv beta iota. cbn [handler].
  rewrite bool_decide_false by done.
  destruct (getNode c _) as [ls|e]; cbn [from_api]; [|by repeat eexists].
  destruct (configsForNode _ _ _ ls) as [cfgs|e] eqn:Ec; cbv beta iota.
  2:{ apply configsForNode_error in Ec. rewrite Ec. by repeat eexists. }
  destruct (getSecrets c _) as [secrets|e] eqn:Es; cbv beta iota.
  2:{ apply getSecrets_error in Es. rewrite Es. by repeat eexists. }
  destruct (apiToFRR _ _) as [config|e]; cbv beta iota; [|by repeat eexists].
  destruct (applyConfig _ _) as [h [e|]]; by repeat eexists.
Qed.
(** C11: [Reconcile] always returns, and gives the handler the configuration the cluster asks
    for and nothing else.  If that configuration cannot be computed the handler
    is left alone; a conversion error is reported but not returned, so it
    is not retried until something changes, while every other error is
    returned.  The conversion result is "success" exactly when the handler accepted the
    configuration, or the log level could not be read; a status update is
    requested exactly when the conversion result changes. *)
Theorem Reconcile_refines r c (s : RState H) :
  ∃ s' err reload,
    Reconcile LabelSelectorAsSelector Matches errorString r c s = Some (s', err, reload) ∧
    reload = negb (bool_decide (conversionResult s' = conversionResult s)) ∧
    updates s' = (updates s + 1)%N ∧
    match desired r c with
    | Ok cfg =>
        handler s' = fst (applyConfig (handler s) cfg) ∧
        err = EApply <$> snd (applyConfig (handler s) cfg) ∧
        conversionResult s' = match err with None => ConversionSuccess
                                           | Some e => failed errorString e end
    | Err e =>
        handler s' = handler s ∧ err = (if is_conversion e then None else Some e) ∧
        conversionResult s' = if about_level r c then ConversionSuccess else failed errorString e
    end.
Proof. apply Reconcile_spec. Qed.
End desired.

(** ** From the API to FRR

    The handler of the daemon is the manager of [FRRManager.v]: it sends the
    configurations it accepts to the debouncer. *)

Record FRRHandler := mkFRRHandler {
  FH_frr : FRR;
  FH_hostname : hostResult;
  FH_sent : list (reloadEvent (C := Config NeighborConfig)) }.

#[global] Instance FRR_ConfigHandler : ConfigHandler FRRHandler := λ h config,
  match ApplyConfig (FH_frr h) (FH_hostname h) config with
  | Ok ev => (mkFRRHandler (FH_frr h) (FH_hostname h) (FH_sent h ++ [ev]), None)
  | Err e => (h, Some e)
  end.

Lemma last_requested_useOld (tr1 tr2 : list (label (C := Config NeighborConfig))) now ev :
  RE_useOld ev = false →
  (∀ now' ev', LReload now' ev' ∈ tr2 → RE_useOld ev' = true) →
  last_requested (tr1 ++ LReload now ev :: tr2) = RE_config ev.
Proof.
  intros He Hold. unfold last_requested. rewrite foldl_app. cbn [foldl requested]. rewrite He.
  generalize (RE_config ev). induction tr2 as [|l tr2 IH]; intros cfg; [done|].
  cbn [foldl]. rewrite IH by (intros; eapply Hold; by right).
  destruct l as [now' ev'|]; [|done]. cbn. by rewrite (Hold now' ev') by left.
Qed.

Section reaches.
Context {Selector : Type}.
Context (LabelSelectorAsSelector : LabelSelector → result string Selector).
Context (Matches : Selector → labels → bool).
Context (errorString : rerror → string).
Context (reloadInterval failureRetryInterval : Z).

(** A configuration reaches FRR: when [Reconcile] ends without error and reports success, the
    configuration the cluster asks for was sent to the debouncer, and whenever the
    debouncer is idle after that, with no other configuration sent in between
    (requests to reload the old one may be), that configuration is the last one FRR
    was successfully reloaded with, completed with host name and router IDs. *)
Theorem configuration_reaches_frr r c (s s' : RState FRRHandler) reload :
  Reconcile LabelSelectorAsSelector Matches errorString r c s = Some (s', None, reload) →
  conversionResult s' = ConversionSuccess →
  ∃ cfg ev, desired LabelSelectorAsSelector Matches r c = Ok cfg ∧
    FH_sent (handler s') = FH_sent (handler s) ++ [ev] ∧
    RE_useOld ev = false ∧ RE_config ev ≠ None ∧
    ∀ tr1 now tr2 st t,
      run reloadInterval failureRetryInterval (tr1 ++ LReload now ev :: tr2) st t →
      (∀ now' ev', LReload now' ev' ∈ tr2 → RE_useOld ev' = true) →
      D_timerSet st = false →
      ∃ a, last_applied (tr1 ++ LReload now ev :: tr2) = Some a ∧ completes a cfg.
Proof.
  intros HR Hres.
  destruct (Reconcile_spec LabelSelectorAsSelector Matches errorString r c s)
    as (s1 & err & rl & HR' & _ & _ & Hd).
  rewrite HR in HR'. injection HR' as <- <- <-.
  destruct (desired _ _ r c) as [cfg|e] eqn:Ed.
  - destruct Hd as (Hh & He & _). exists cfg. revert Hh He.
    unfold applyConfig, FRR_ConfigHandler.
    destruct (ApplyConfig _ _ cfg) as [ev|e] eqn:Ea; [|done]. cbn. intros -> _.
    apply ApplyConfig_completes in Ea as (Hu & a & Ha & Hc).
    exists ev. split_and!; [done..|by rewrite Ha|].
    intros tr1 now tr2 st t Hrun Hold Hidle. apply run_inv in Hrun.
    exists a. split; [|done].
    rewrite <-(inv_clean _ _ _ _ _ Hrun Hidle), (inv_config _ _ _ _ _ Hrun).
    by rewrite last_requested_useOld, Ha.
  - destruct Hd as (_ & He & Hc). destruct (is_conversion e) eqn:Ei; [|done].
    rewrite Hres in Hc. destruct (about_level r c) eqn:Eb; [|done].
    by rewrite (about_level_desired _ _ r c e Eb Ed) in Ei.
Qed.
End reaches.

(** ** A sample cluster *)

(** Selectors that select on [MatchLabels] only; others are refused. *)
Definition matchLabelsOnly (l : LabelSelector) : result string labels :=
  if (length (MatchExpressions l) =? 0)%nat then Ok (MatchLabels l) else Err "not supported".
Definition includes (sel ls : labels) : bool :=
  bool_decide (map_Forall (λ k v, ls !! k = Some v) sel).

Definition sampleReconciler : FRRConfigurationReconciler :=
  mkReconciler "node1" "frr-k8s-system" sampleBlock LevelInfo.

Definition sampleCluster (configs : list FRRConfiguration) (logLevel : string) : Cluster :=
  mkCluster (Ok configs) (λ _ _, Ok logLevel) (λ _, Ok {["zone" := "a"]})
    (λ _, Ok (snd <$> map_to_list sampleSecrets)).

Definition sampleHandler : FRRHandler :=
  mkFRRHandler (mkFRR zeroStatus "10.0.0.1") (Ok "node1") [].

(** The state before the first reconciliation. *)
Definition freshState : RState FRRHandler := mkRState "" 0 0 0 0 sampleHandler.

Definition sampleError (e : rerror) : string :=
  match e with EK8s _ => "api" | ELevel _ => "level" | ENodeSelector _ _ _ => "selector"
             | EConversion _ => "conversion" | EApply e => e end.

Definition sampleReconcile := Reconcile (H := FRRHandler) matchLabelsOnly includes sampleError
  sampleReconciler.

Lemma configuration_reaches_frr_witness :
  ∃ cfg ev a, desired matchLabelsOnly includes sampleReconciler
      (sampleCluster (FRRConfigs sampleResources) "debug") = Ok cfg ∧
    last_applied [LReload 0 ev; LBody 3 (RE_config ev) true] = Some a ∧ completes a cfg.
Proof.
  assert (∃ s' reload, sampleReconcile (sampleCluster (FRRConfigs sampleResources) "debug") freshState
      = Some (s', None, reload) ∧ conversionResult s' = ConversionSuccess) as (s' & rl & HR & Hs).
  { destruct (sampleReconcile _ _) as [[[s' [e|]] rl]|] eqn:E; vm_compute in E; try discriminate.
    exists s', rl. split; [done|]. by injection E as <- <-. }
  unfold sampleReconcile in HR.
  destruct (configuration_reaches_frr matchLabelsOnly includes sampleError 3 5 sampleReconciler
    (sampleCluster (FRRConfigs sampleResources) "debug") freshState s' rl HR Hs)
    as (cfg & ev & Hd & _ & Hu & Hn & Hrun).
  destruct ev as [[c|] u]; cbn [RE_useOld RE_config] in Hu, Hn; [subst u|by destruct Hn].
  destruct (Hrun [] 0%Z [LBody 3 (Some c) true] (mkDebouncerState (Some c) None false) 3%Z)
    as (a & Ha & Hc).
  - eapply (run_step _ _ [LReload 0 (mkReloadEvent (Some c) false)]
      (mkDebouncerState (Some c) (Some 3%Z) true) 0 (LBody 3 (Some c) true)); [|cbn; lia|].
    + eapply (run_step _ _ [] initial 0 (LReload 0 _)); [constructor|cbn; lia|].
      apply (step_reload 3 5 initial 0 (mkReloadEvent (Some c) false)).
    + apply (step_body 3 5 (mkDebouncerState (Some c) (Some 3%Z) true) 3 3 true); [done|lia].
  - intros now' ev' Hin. exfalso. rewrite list_elem_of_singleton in Hin. discriminate Hin.
  - reflexivity.
  - exists cfg, (mkReloadEvent (Some c) false), a. exact (conj Hd (conj Ha Hc)).
Defined.

(** ** Secrecy of the dumps *)

(** The same resource with other passwords, and another copy of itself in kubectl's
    annotation. *)
Definition withOtherPasswords (pw : Neighbor → string) (annotation : string) (c : FRRConfiguration)
    : FRRConfiguration :=
  mkFRRConfiguration (Cfg_Name c) (Cfg_Namespace c)
    (<[lastAppliedAnnotation := annotation]> (Cfg_Annotations c))
    (updateNeighbors (λ n, withCredentials (pw n) (Neighbor_PasswordSecret n) n) (Cfg_Spec c)).

Lemma updateNeighbors_compose f g spec :
  updateNeighbors f (updateNeighbors g spec) = updateNeighbors (f ∘ g) spec.
Proof.
  unfold updateNeighbors; cbn. do 2 f_equal. rewrite <-list_fmap_compose.
  apply list_fmap_ext. intros _ r _. unfold compose; cbn. f_equal.
  by rewrite <-list_fmap_compose.
Qed.

Lemma sanitized_other pw a c : sanitizedConfig (withOtherPasswords pw a c) = sanitizedConfig c.
Proof.
  unfold sanitizedConfig, withOtherPasswords; cbn.
  by rewrite delete_insert_eq, updateNeighbors_compose.
Qed.

Lemma mapSessions_compose f g c : mapSessions f (mapSessions g c) = mapSessions (f ∘ g) c.
Proof.
  unfold mapSessions; cbn. f_equal. rewrite <-list_fmap_compose.
  apply list_fmap_ext. intros _ r _. unfold compose; cbn. f_equal.
  by rewrite <-list_fmap_compose.
Qed.

(** C36: what is logged of the resources and of the FRR configuration does not depend on the
    session passwords: whatever the passwords are changed to, in the
    resources, in kubectl's copy of them or in the converted configuration, the dumps
    are the same strings. *)
Theorem dumps_hide_passwords dumpConfiguration dumpConfig items pw annotation c pwS :
  dumpK8sConfigs dumpConfiguration (withOtherPasswords pw annotation <$> items) =
    dumpK8sConfigs dumpConfiguration items ∧
  dumpFRRConfig dumpConfig (mapSessions (λ n, withPassword (pwS n) n) c) =
    dumpFRRConfig dumpConfig c.
Proof.
  split.
  - unfold dumpK8sConfigs. generalize "". induction items as [|i items IH]; intros acc; [done|].
    cbn [fmap list_fmap foldl]. by rewrite sanitized_other, IH.
  - unfold dumpFRRConfig. by rewrite mapSessions_compose.
Qed.

(** ** The event filter *)

(** The cluster after a node was given labels. *)
Definition labelNode (name : string) (l : labels) (c : Cluster) : Cluster :=
  mkCluster (listFRRConfigurations c) (getFRRK8sConfiguration c)
    (λ n, if bool_decide (n = name) then Ok l else getNode c n) (listSecrets c).

Section filter.
Context {Selector : Type}.
Context (LabelSelectorAsSelector : LabelSelector → result string Selector).
Context (Matches : Selector → labels → bool).
(** apimachinery's [labels.Equals]. *)
Context (LabelsEquals : labels → labels → bool).

(** No update that matters is filtered out: when the filter drops the update of a node,
    the configuration the cluster asks for is the same before and after it,
    for any selectors, provided label sets that compare equal are equal. *)
Theorem filterNodeEvent_sound r c name old new :
  (∀ a b, LabelsEquals a b = true → a = b) →
  getNode c name = Ok old →
  filterNodeEvent LabelsEquals (EvNode name old) (EvNode name new) (R_NodeName r) = false →
  desired LabelSelectorAsSelector Matches r (labelNode name new c) =
    desired LabelSelectorAsSelector Matches r c.
Proof.
  intros Heq Hold Hf.
  assert (getNode (labelNode name new c) (R_NodeName r) = getNode c (R_NodeName r)) as Hn.
  { cbn. case_bool_decide as Hname; [|done]. revert Hf. unfold filterNodeEvent.
    rewrite Hname, !bool_decide_true by done. cbn.
    destruct (LabelsEquals old new) eqn:El; [|done]. intros _. by rewrite Hold, (Heq _ _ El). }
  unfold desired. change (getLogLevel (labelNode name new c)) with (getLogLevel c).
  change (getSecrets (labelNode name new c)) with (getSecrets c).
  change (listFRRConfigurations (labelNode name new c)) with (listFRRConfigurations c).
  by rewrite Hn.
Qed.
End filter.

Lemma filterNodeEvent_sound_witness :
  filterNodeEvent (λ a b, bool_decide (a = b)) (EvNode "node2" {["zone" := "a"]})
    (EvNode "node2" {["zone" := "b"]}) (R_NodeName sampleReconciler) = false ∧
  desired matchLabelsOnly includes sampleReconciler
    (labelNode "node2" {["zone" := "b"]} (sampleCluster (FRRConfigs sampleResources) "debug")) =
  desired matchLabelsOnly includes sampleReconciler
    (sampleCluster (FRRConfigs sampleResources) "debug").
Proof.
  split; [reflexivity|].
  apply (filterNodeEvent_sound matchLabelsOnly includes (λ a b, bool_decide (a = b))
    sampleReconciler _ "node2" {["zone" := "a"]}).
  - intros a b Hab. exact (bool_decide_eq_true_1 _ Hab).
  - reflexivity.
  - reflexivity.
Defined.

(** ** The stale gauge *)

(** A resource that cannot be converted: its prefix is not one. *)
Definition brokenConfig : FRRConfiguration :=
  sampleConfig "broken" [mkRouter 64512 "" "" [] ["10.0.0.0"] [] None] "".

(** The conversion result, the gauges and the number of configurations sent after
    a series of reconciliations. *)
Fixpoint reconcileAll (cs : list Cluster) (s : RState FRRHandler)
    : option (string * Z * Z * nat) :=
  match cs with
  | [] => Some (conversionResult s, configLoaded s, configStale s, length (FH_sent (handler s)))
  | c :: cs => '(s', _, _) ← sampleReconcile c s; reconcileAll cs s'
  end.

(** After a resource that could not be converted is deleted and the empty
    configuration was applied, [config_stale_bool] is still 1 and
    [config_loaded_bool] 0, although the latest configuration was loaded; a
    resource that converts resets them. *)
Theorem empty_config_leaves_stale :
  reconcileAll [sampleCluster [brokenConfig] ""] freshState = Some ("failed: conversion", 0%Z, 1%Z, 0) ∧
  reconcileAll [sampleCluster [brokenConfig] ""; sampleCluster [] ""] freshState
    = Some ("success", 0%Z, 1%Z, 1) ∧
  reconcileAll [sampleCluster [brokenConfig] ""; sampleCluster (FRRConfigs sampleResources) ""] freshState
    = Some ("success", 1%Z, 0%Z, 1).
Proof. split_and!; vm_compute; reflexivity. Qed.

(** With an invalid log level nothing is applied and an error is returned, yet the
    conversion result reported in the node state is "success". *)
Theorem level_error_reported_as_success :
  reconcileAll [sampleCluster (FRRConfigs sampleResources) "verbose"] freshState
    = Some ("success", 0%Z, 0%Z, 0).
Proof. vm_compute. reflexivity. Qed.
