(* ===== verification/Webhook.v ===== *)
(** * The admission webhook ([internal/webhooks/frrconfiguration_webhook.go])

    [Handle] decides whether a FRRConfiguration may be created or updated: it collects, for
    every node the resource selects, the resources that node would use, and asks
    [Validate] (the controller's, assigned in main) about them.

    Label selectors are those of apimachinery; the cache of parsed selectors is a
    [k8s.io/utils/lru], seen through the class [SelectorCache].  The two
    mutexes only make each access atomic. *)

From Stdlib Require Import Ascii.
From S2P Require Import Prelude GoStrings GoNet IPFamily Community Api FrrConfig Errors.
From S2P Require Import Merge ApiToConfig Logging Reconciler.

(** ** The cache *)

(** What the webhook relies on: [Get] answers from the contents, and contents
    only come from [Add]; entries may be evicted at any time. *)
Class SelectorCache (Selector Cache : Type) := {
  cacheGet : Cache → string → option Selector * Cache;
  cacheAdd : Cache → string → Selector → Cache;
  cacheContents : Cache → gmap string Selector;
  cacheGet_contents c k : fst (cacheGet c k) = cacheContents c !! k;
  cacheGet_keeps c k : cacheContents (snd (cacheGet c k)) ⊆ cacheContents c;
  cacheAdd_contents c k v : cacheContents (cacheAdd c k v) ⊆ <[k := v]> (cacheContents c) }.

(** A cache that never evicts. *)
#[global] Program Instance gmap_cache {Selector} : SelectorCache Selector (gmap string Selector) := {|
  cacheGet c k := (c !! k, c);
  cacheAdd c k v := <[k := v]> c;
  cacheContents c := c |}.
Solve All Obligations with done.

(** [fmt]'s [%v] of a map, whose keys it sorts, and of a slice of requirements. *)
Definition fmtMap (m : labels) : string :=
  "map[" +:+ String.concat " " ((λ k, k +:+ ":" +:+ default "" (m !! k)) <$> sortedKeys m) +:+ "]".

Definition fmtRequirement (r : LabelSelectorRequirement) : string :=
  "{" +:+ Requirement_Key r +:+ " " +:+ Requirement_Operator r +:+ " [" +:+
    String.concat " " (Requirement_Values r) +:+ "]}".

Definition selectorKey (nodeSelector : LabelSelector) : string :=
  fmtMap (MatchLabels nodeSelector) +:+ "-[" +:+
    String.concat " " (fmtRequirement <$> MatchExpressions nodeSelector) +:+ "]".

(** ** Requests *)

Inductive Operation := OpCreate | OpUpdate | OpDelete | OpConnect.

(** What decoding the objects of the request gives; [R_OldObject] is [None] when
    the old object is empty. *)
Record Request := mkRequest {
  Req_Operation : Operation;
  Req_Object : result string FRRConfiguration;
  Req_OldObject : option (result string FRRConfiguration) }.

Inductive werror :=
  | EInvalidNodeSelector (e : string)
  | EGetNodes (e : string)
  | EGetFRRConfigurations (e : string)
  | EInvalidForNode (node : string) (e : error).

Inductive Response :=
  | Errored (e : string)
  | Denied (e : werror)
  | Allowed (warnings : list string).

Record Node := mkNode {
  Node_Name : string;
  Node_Labels : labels }.

(** [nodeAndConfigs]. *)
Record nodeAndConfigs := mkNodeAndConfigs {
  NAC_name : string;
  NAC_labels : labels;
  NAC_cfgs : list FRRConfiguration }.

Definition containsDisableMP (routers : list Router) : bool :=
  existsb (λ r, existsb Neighbor_DisableMP (Router_Neighbors r)) routers.

Definition disableMPWarning : string :=
  "disableMP is deprecated, is ignored and will be removed in a future release".
Definition gracefulRestartWarning : string :=
  "Graceful restart configuration changed, it will be available on the next restart".

(** The four nested loops that compare the old and the new version. *)
Definition gracefulRestartWarnings (old new : FRRConfiguration) : list string :=
  rold ← BGP_Routers (Spec_BGP (Cfg_Spec old));
  rnew ← BGP_Routers (Spec_BGP (Cfg_Spec new));
  if negb (bool_decide (Router_VRF rold = Router_VRF rnew)) then []
  else
    nold ← Router_Neighbors rold;
    nnew ← Router_Neighbors rnew;
    if (Neighbor_ASN nold =? Neighbor_ASN nnew)%N &&
       bool_decide (Neighbor_Address nold = Neighbor_Address nnew) &&
       negb (Bool.eqb (Neighbor_EnableGracefulRestart nold) (Neighbor_EnableGracefulRestart nnew))
    then [gracefulRestartWarning] else [].

Section webhook.
Context {Selector Cache : Type} `{!SelectorCache Selector Cache}.
Context (LabelSelectorAsSelector : LabelSelector → result string Selector).
Context (Matches : Selector → labels → bool).

Definition getCachedSelector (cache : Cache) (nodeSelector : LabelSelector)
    : Cache * result string Selector :=
  let key := selectorKey nodeSelector in
  match cacheGet cache key with
  | (Some cached, cache) => (cache, Ok cached)
  | (None, cache) =>
      match LabelSelectorAsSelector nodeSelector with
      | Err e => (cache, Err e)
      | Ok selector => (cacheAdd cache key selector, Ok selector)
      end
  end.

(** One existing resource, for one node: the cache, the warnings and the
    resources of the node so far. *)
Definition cfgStep (frrConfig : FRRConfiguration) (nodeLabels : labels)
    (st : Cache * list string * list FRRConfiguration) (cfg : FRRConfiguration)
    : Cache * list string * list FRRConfiguration :=
  let '(cache, warnings, items) := st in
  match getCachedSelector cache (Spec_NodeSelector (Cfg_Spec cfg)) with
  | (cache, Err _) => (cache, warnings, items)
  | (cache, Ok selector) =>
      if bool_decide (Cfg_Name cfg = Cfg_Name frrConfig)
      then (cache, warnings ++ gracefulRestartWarnings cfg frrConfig, items)
      else if Matches selector nodeLabels then (cache, warnings, items ++ [cfg])
      else (cache, warnings, items)
  end.

(** One matching node. *)
Definition nodeStep (frrConfig : FRRConfiguration) (existing : list FRRConfiguration)
    (st : Cache * list string * list nodeAndConfigs) (n : Node)
    : Cache * list string * list nodeAndConfigs :=
  let '(cache, warnings, nodes) := st in
  let '(cache, warnings, items) :=
    foldl (cfgStep frrConfig (Node_Labels n)) (cache, warnings, []) existing in
  (cache, warnings,
   nodes ++ [mkNodeAndConfigs (Node_Name n) (Node_Labels n) (items ++ [frrConfig])]).

Definition validateNode (n : nodeAndConfigs) : result werror unit :=
  match Validate [FRRConfigurationList (NAC_cfgs n)] with
  | Ok _ => Ok ()
  | Err e => Err (EInvalidForNode (NAC_name n) e)
  end.

(** [getNodes] and [getFRRConfigurations] list what the API server has. *)
Definition validateConfig (cache : Cache) (getNodes : result string (list Node))
    (getFRRConfigurations : result string (list FRRConfiguration)) (frrConfig : FRRConfiguration)
    : Cache * list string * option werror :=
  match getCachedSelector cache (Spec_NodeSelector (Cfg_Spec frrConfig)) with
  | (cache, Err e) => (cache, [], Some (EInvalidNodeSelector e))
  | (cache, Ok selector) =>
  match getNodes with
  | Err e => (cache, [], Some (EGetNodes e))
  | Ok existingNodes =>
  let warnings := if containsDisableMP (BGP_Routers (Spec_BGP (Cfg_Spec frrConfig)))
                  then [disableMPWarning] else [] in
  match getFRRConfigurations with
  | Err e => (cache, warnings, Some (EGetFRRConfigurations e))
  | Ok existing =>
  let matchingNodes := filter (λ n, Matches selector (Node_Labels n) = true) existingNodes in
  let '(cache, warnings, nodes) :=
    foldl (nodeStep frrConfig existing) (cache, warnings, []) matchingNodes in
  match each validateNode nodes with
  | Err e => (cache, warnings, Some e)
  | Ok _ => (cache, warnings, None)
  end end end end.

(** Apart from what they log, a creation and an update are reviewed alike, and a deletion is accepted. *)
Definition validateConfigCreate := validateConfig.
Definition validateConfigUpdate := validateConfig.
Definition validateConfigDelete (cache : Cache) (_ : FRRConfiguration) : Cache * list string * option werror :=
  (cache, [], None).

Definition Handle (cache : Cache) (getNodes : result string (list Node))
    (getFRRConfigurations : result string (list FRRConfiguration)) (req : Request)
    : Cache * Response :=
  let respond '(cache, w, err) :=
    match err with Some e => (cache, Denied e) | None => (cache, Allowed w) end in
  match Req_Operation req with
  | OpDelete =>
      match Req_OldObject req with
      | Some (Ok config) => respond (validateConfigDelete cache config)
      | Some (Err e) => (cache, Errored e)
      | None => (cache, Errored "there is no content to decode")
      end
  | op =>
      match Req_Object req with
      | Err e => (cache, Errored e)
      | Ok config =>
          match Req_OldObject req with
          | Some (Err e) => (cache, Errored e)
          | _ =>
              match op with
              | OpCreate => respond (validateConfigCreate cache getNodes getFRRConfigurations config)
              | OpUpdate => respond (validateConfigUpdate cache getNodes getFRRConfigurations config)
              | _ => (cache, Allowed [])
              end
          end
      end
  end.
End webhook.

(** ** The server *)

Definition frrConfigWebhookPath : string := "/validate-frrk8s-metallb-io-v1beta1-frrconfiguration".
Definition healthPath : string := "/healthz".

(** The handlers that are registered. *)
Inductive webhookHandler := ValidatorHandler | HealthHandler.

Definition SetupWebhookWithManager (server : list (string * webhookHandler))
    : list (string * webhookHandler) * option string :=
  (server ++ [(frrConfigWebhookPath, ValidatorHandler)] ++ [(healthPath, HealthHandler)], None).

(** What a handler does to its [http.ResponseWriter]: the headers and the status before the first byte, and the body. *)
Record httpReply := mkHttpReply {
  Reply_headers : gmap string string;
  Reply_status : N;
  Reply_body : string }.

(** [http.Error]. *)
Definition http_Error (msg : string) (code : N) : httpReply :=
  mkHttpReply (<["Content-Type" := "text/plain; charset=utf-8"]> {["X-Content-Type-Options" := "nosniff"]}) code
    (msg +:+ String (ascii_of_nat 10) "").

(** [healthHandler.ServeHTTP]; an error when writing the body is only logged. *)
Definition healthHandler_ServeHTTP (method : string) : httpReply :=
  if negb (bool_decide (method = "GET")) then http_Error "Method not allowed" 405
  else mkHttpReply {["Content-Type" := "application/json"]} 200
         ("{" +:+ String (ascii_of_nat 34) ("status" +:+ String (ascii_of_nat 34) (": " +:+
           String (ascii_of_nat 34) ("ok" +:+ String (ascii_of_nat 34) "}")))).
