(* ===== verification/WebhookProps.v ===== *)
(** * What the webhook guarantees

    The key of the selector cache is injective on valid selectors, so the cache gives what
    parsing gives; an admitted resource can be converted by the controller of
    every node it selects.  And what it does not: two resources it admits that the
    controller refuses, and one it denies that the controller would accept. *)

From Stdlib Require Import Ascii Lia.
From S2P Require Import Prelude GoStrings GoNet IPFamily Community Api FrrConfig Errors.
From S2P Require Import Merge ApiToConfig Convertible ApiBlock Logging Reconciler Webhook Samples.

(** ** Words

    The characters of label keys and values; the characters that structure the
    cache key are not among them. *)

Definition separator (c : ascii) : bool :=
  bool_decide (c = " "%char) || bool_decide (c = ":"%char) || bool_decide (c = "["%char) ||
  bool_decide (c = "]"%char) || bool_decide (c = "{"%char) || bool_decide (c = "}"%char).

Fixpoint word (s : string) : bool :=
  match s with EmptyString => true | String c s => negb (separator c) && word s end.

Lemma cut_word a b c d x y :
  word a = true → word b = true → separator c = true → separator d = true →
  a +:+ String c x = b +:+ String d y → a = b ∧ c = d ∧ x = y.
Proof.
  intros Ha Hb Hc Hd. revert b Hb; induction a as [|e a IH]; intros [|f b] Hb; cbn in *.
  - by intros [= -> ->].
  - intros [= <- _]. by rewrite Hc in Hb.
  - intros [= -> _]. by rewrite Hd in Ha.
  - intros [= -> Hab]. apply andb_true_iff in Ha as [_ Ha], Hb as [_ Hb].
    by destruct (IH Ha b Hb Hab) as (-> & -> & ->).
Qed.

(** Lists of words between a space each, up to a bracket. *)
Lemma concat_cons s v l :
  String.concat s (v :: l) = match l with [] => v | _ => v +:+ s +:+ String.concat s l end.
Proof. by destruct l. Qed.

Lemma cut_words l k x y :
  forallb word l = true → forallb word k = true → (l = [] ↔ k = []) →
  String.concat " " l +:+ String "]" x = String.concat " " k +:+ String "]" y → l = k ∧ x = y.
Proof.
  revert k; induction l as [|a l IH]; intros [|b k]; [by intros _ _ _ [= ->]|naive_solver..|].
  cbn [forallb]. rewrite !andb_true_iff, !concat_cons. intros [Ha Hl] [Hb Hk] _.
  destruct l as [|a' l], k as [|b' k]; rewrite ?app_assoc_string; cbn [String.append].
  - intros (-> & _ & ->)%cut_word; done.
  - intros (_ & ? & _)%cut_word; done.
  - intros (_ & ? & _)%cut_word; done.
  - intros (-> & _ & H)%cut_word; [|done..]. apply IH in H as [-> ->]; done.
Qed.

(** ** The key *)

(** The entries of a label map, in the order [fmt] prints them. *)
Definition entries (m : labels) : list (string * string) :=
  (λ k, (k, default "" (m !! k))) <$> sortedKeys m.
Definition fmtEntry (e : string * string) : string := e.1 +:+ ":" +:+ e.2.
Definition entry_words (e : string * string) : bool := word e.1 && word e.2.

Lemma entries_inj m m' : entries m = entries m' → m = m'.
Proof.
  assert (∀ m k v, (k, v) ∈ entries m ↔ m !! k = Some v) as Hm.
  { clear. intros m k v. unfold entries. rewrite list_elem_of_fmap.
    setoid_rewrite elem_of_sortedKeys. split.
    - intros (k' & [= -> ->] & [v' Hv]). by rewrite Hv.
    - intros Hv. exists k. rewrite Hv. split; [done|by eexists]. }
  intros He. apply map_eq. intros k. apply option_eq. intros v. by rewrite <-!Hm, He.
Qed.

Lemma fmtMap_entries m : fmtMap m = "map[" +:+ String.concat " " (fmtEntry <$> entries m) +:+ "]".
Proof. unfold fmtMap, entries. by rewrite <-list_fmap_compose. Qed.

Lemma fmtEntry_app k v x : fmtEntry (k, v) +:+ x = k +:+ String ":" (v +:+ x).
Proof. unfold fmtEntry. by rewrite !app_assoc_string. Qed.

Lemma cut_entries l k x y :
  forallb entry_words l = true → forallb entry_words k = true →
  String.concat " " (fmtEntry <$> l) +:+ String "]" x =
  String.concat " " (fmtEntry <$> k) +:+ String "]" y → l = k ∧ x = y.
Proof.
  unfold entry_words. revert k; induction l as [|[a v] l IH]; intros [|[b w] k];
    cbn [forallb fmap list_fmap fst snd]; rewrite ?andb_true_iff, ?concat_cons.
  - by intros _ _ [= ->].
  - intros _ [[Hb Hw] _]. destruct k; cbn [fmap list_fmap];
      rewrite ?app_assoc_string, fmtEntry_app; intros (_ & ? & _)%(cut_word "" b); done.
  - intros [[Ha Hv] _] _. destruct l; cbn [fmap list_fmap];
      rewrite ?app_assoc_string, fmtEntry_app; intros (_ & ? & _)%(cut_word a ""); done.
  - intros [[Ha Hv] Hl] [[Hb Hw] Hk].
    destruct l as [|e l], k as [|f k]; cbn [fmap list_fmap];
      rewrite ?app_assoc_string, !fmtEntry_app; cbn [String.append];
      (intros (-> & _ & H)%cut_word; [|done..]);
      apply cut_word in H as (-> & Hc & H); try done.
    apply (IH (f :: k)) in H as [H ->]; [|done..]. by rewrite H.
Qed.

(** Requirements apimachinery accepts: words, with values exactly for the
    operators that take some. *)
Definition takes_values (op : string) : bool :=
  bool_decide (op = "In") || bool_decide (op = "NotIn").

Definition plain_requirement (r : LabelSelectorRequirement) : bool :=
  word (Requirement_Key r) && word (Requirement_Operator r) &&
  forallb word (Requirement_Values r) &&
  Bool.eqb (takes_values (Requirement_Operator r)) (negb (length (Requirement_Values r) =? 0)%nat).

Lemma cut_requirement r s x y :
  plain_requirement r = true → plain_requirement s = true →
  fmtRequirement r +:+ x = fmtRequirement s +:+ y → r = s ∧ x = y.
Proof.
  destruct r as [a op l], s as [b op' k]. unfold plain_requirement, fmtRequirement; cbn.
  rewrite !andb_true_iff, !eqb_true_iff. intros [[[Ha Ho] Hl] Hv] [[[Hb Ho'] Hk] Hv'] [= H]. revert H.
  rewrite !app_assoc_string; cbn [String.append].
  intros (-> & _ & H)%cut_word; [|done..].
  apply cut_word in H as (-> & _ & H); [|done..]. injection H as H.
  rewrite ?app_assoc_string in H; cbn [String.append] in H.
  assert (l = [] ↔ k = []) as Hlk.
  { rewrite Hv in Hv'. destruct l, k; cbn in Hv'; naive_solver. }
  apply cut_words in H as [-> H]; [|done..]. by injection H as ->.
Qed.

Lemma cut_requirements l k x y :
  forallb plain_requirement l = true → forallb plain_requirement k = true →
  String.concat " " (fmtRequirement <$> l) +:+ String "]" x =
  String.concat " " (fmtRequirement <$> k) +:+ String "]" y → l = k.
Proof.
  revert k; induction l as [|r l IH]; intros [|s k];
    cbn [forallb fmap list_fmap]; rewrite ?andb_true_iff, ?concat_cons; [done|..].
  - intros _ _. by destruct k.
  - intros _ _. by destruct l.
  - intros [Hr Hl] [Hs Hk]. destruct l as [|r' l], k as [|s' k]; cbn [fmap list_fmap];
      rewrite ?app_assoc_string; intros [-> H]%cut_requirement; try done; cbn in H.
    injection H as H. f_equal. by apply IH.
Qed.

(** A selector with label syntax. *)
Definition plain_selector (sel : LabelSelector) : bool :=
  forallb entry_words (entries (MatchLabels sel)) &&
  forallb plain_requirement (MatchExpressions sel).

Lemma selectorKey_inj s s' :
  plain_selector s = true → plain_selector s' = true → selectorKey s = selectorKey s' → s = s'.
Proof.
  destruct s as [m l], s' as [m' l']. unfold plain_selector, selectorKey; cbn [MatchLabels MatchExpressions].
  rewrite !andb_true_iff, !fmtMap_entries. intros [Hm Hl] [Hm' Hl'].
  rewrite !app_assoc_string. cbn [String.append]. intros [= H].
  apply cut_entries in H as [He%entries_inj H]; [|done..]. subst m'.
  injection H as H. by apply cut_requirements in H as ->.
Qed.

(** ** The cache *)

Section webhook_props.
Context {Selector Cache : Type} `{!SelectorCache Selector Cache}.
Context (LabelSelectorAsSelector : LabelSelector → result string Selector).
Context (Matches : Selector → labels → bool).

Notation lookup_selector := (getCachedSelector LabelSelectorAsSelector).

(** Every entry was parsed from a selector with that key. *)
Definition cache_ok (c : Cache) : Prop :=
  ∀ k v, cacheContents c !! k = Some v →
    ∃ s, selectorKey s = k ∧ LabelSelectorAsSelector s = Ok v.

(** apimachinery accepts only selectors with label syntax. *)
Definition accepts_plain : Prop :=
  ∀ s v, LabelSelectorAsSelector s = Ok v → plain_selector s = true.

Lemma cache_ok_empty c : cacheContents c = ∅ → cache_ok c.
Proof using Type. intros Hempty k v. by rewrite Hempty, lookup_empty. Qed.

Lemma lookup_selector_ok c s : cache_ok c → cache_ok (fst (lookup_selector c s)).
Proof using Type.
  intros Hc. unfold getCachedSelector.
  pose proof (cacheGet_keeps c (selectorKey s)) as Hk.
  destruct (cacheGet c (selectorKey s)) as [[v|] c']; cbn in *.
  { intros k v' Hv. by eapply Hc, lookup_weaken. }
  destruct (LabelSelectorAsSelector s) as [v|e] eqn:Es; cbn.
  - intros k v' Hv.
    pose proof (lookup_weaken _ _ _ _ Hv (cacheAdd_contents c' (selectorKey s) v)) as Hi.
    apply lookup_insert_Some in Hi as [[<- <-]|[_ Hi]]; [by exists s|].
    by eapply Hc, lookup_weaken.
  - intros k v' Hv. by eapply Hc, lookup_weaken.
Qed.

Lemma lookup_selector_exact c s :
  cache_ok c → accepts_plain → plain_selector s = true →
  snd (lookup_selector c s) = LabelSelectorAsSelector s.
Proof using Type.
  intros Hc Ha Hs. unfold getCachedSelector.
  pose proof (cacheGet_contents c (selectorKey s)) as Hk.
  destruct (cacheGet c (selectorKey s)) as [[v|] c']; cbn in *.
  - symmetry in Hk. apply Hc in Hk as (s' & Hkey & Hv).
    apply selectorKey_inj in Hkey; [by subst|by eapply Ha|done].
  - by destruct (LabelSelectorAsSelector s).
Qed.

(** The selector cache is transparent: after any sequence of lookups in a cache that
    was empty, looking up a selector with label syntax gives exactly what parsing it gives, a
    selector or an error, however entries were evicted; in particular two different
    valid selectors never share a cache key. *)
Theorem cached_selectors_exact c history s :
  cacheContents c = ∅ → accepts_plain → plain_selector s = true →
  snd (lookup_selector (foldl (λ c s, fst (lookup_selector c s)) c history) s) =
    LabelSelectorAsSelector s.
Proof using Type.
  intros Hempty Ha Hs. apply lookup_selector_exact; [|done..].
  apply cache_ok_empty in Hempty as Hc. clear Hempty. revert c Hc. induction history as [|s' history IH]; intros c Hc; [done|].
  by apply IH, lookup_selector_ok.
Qed.

(** ** Admission *)

Definition selector_of (cfg : FRRConfiguration) : LabelSelector := Spec_NodeSelector (Cfg_Spec cfg).

Definition parses (cfg : FRRConfiguration) : Prop :=
  ∃ v, LabelSelectorAsSelector (selector_of cfg) = Ok v.

Definition has_syntax (cfg : FRRConfiguration) : Prop := plain_selector (selector_of cfg) = true.

Lemma parses_syntax cfg : accepts_plain → parses cfg → has_syntax cfg.
Proof using Type. intros Ha [v Hv]. by eapply Ha. Qed.

Definition selects (ls : labels) (cfg : FRRConfiguration) : Prop :=
  match LabelSelectorAsSelector (selector_of cfg) with
  | Ok sel => Matches sel ls = true | Err _ => False end.

#[local] Instance selects_dec ls cfg : Decision (selects ls cfg).
Proof using Type. unfold selects. destruct (LabelSelectorAsSelector _); apply _. Defined.

(** The resources other than the one under review. *)
Definition others (config : FRRConfiguration) (existing : list FRRConfiguration) :=
  filter (λ cfg, Cfg_Name cfg ≠ Cfg_Name config) existing.

Lemma configsForNode_filter cfgs ls :
  Forall parses cfgs →
  configsForNode LabelSelectorAsSelector Matches cfgs ls = Ok (filter (selects ls) cfgs).
Proof using Type.
  intros Hp. unfold configsForNode.
  enough (∀ acc, foldM (λ valid cfg, match LabelSelectorAsSelector (Spec_NodeSelector (Cfg_Spec cfg)) with
    | Err e => Err (ENodeSelector (Cfg_Namespace cfg) (Cfg_Name cfg) e)
    | Ok selector => Ok (if Matches selector ls then valid ++ [cfg] else valid) end) acc cfgs
    = Ok (acc ++ filter (selects ls) cfgs)) as H by apply (H []).
  induction Hp as [|cfg cfgs [v Hv] Hp IH]; intros acc; cbn [foldM].
  { by rewrite app_nil_r. }
  unfold selector_of in Hv. rewrite Hv; cbn [mbind result_bind]. rewrite IH, filter_cons. f_equal.
  assert (selects ls cfg ↔ Matches v ls = true) as Hs by (unfold selects, selector_of; by rewrite Hv).
  destruct (Matches v ls); case_decide; try naive_solver; by rewrite <-app_assoc.
Qed.

Lemma cfgStep_fold config ls existing :
  accepts_plain → Forall has_syntax existing →
  ∀ c w items, cache_ok c → ∃ c' w',
    foldl (cfgStep LabelSelectorAsSelector Matches config ls) (c, w, items) existing =
      (c', w', items ++ filter (selects ls) (others config existing)) ∧ cache_ok c'.
Proof using Type.
  intros Ha Hp. induction Hp as [|cfg existing Hx Hp IH]; intros c w items Hc.
  { exists c, w. by rewrite app_nil_r. }
  pose proof (lookup_selector_ok c (selector_of cfg) Hc) as Hc'.
  pose proof (lookup_selector_exact c (selector_of cfg) Hc Ha Hx) as Hs. cbn [foldl]. unfold cfgStep at 2. fold (selector_of cfg).
  destruct (lookup_selector c (selector_of cfg)) as [c1 [v|e]]; cbn in Hc', Hs; symmetry in Hs.
  2:{ assert (¬ selects ls cfg) as Hno by (unfold selects; rewrite Hs; by intros []).
      unfold others. rewrite filter_cons. case_decide; [|by apply IH]. rewrite filter_cons, decide_False by done. by apply IH. }
  unfold others. rewrite filter_cons. case_bool_decide as Hn.
  { rewrite decide_False by (intros Hn'; by apply Hn'). by apply IH. }
  rewrite decide_True by done. rewrite filter_cons.
  assert (selects ls cfg ↔ Matches v ls = true) as Hsel by (unfold selects; by rewrite Hs).
  destruct (Matches v ls); case_decide; try naive_solver.
  destruct (IH c1 w (items ++ [cfg]) Hc') as (c2 & w2 & E & Hc2).
  exists c2, w2. by rewrite E, <-app_assoc.
Qed.

Lemma nodeStep_fold config existing nodes :
  accepts_plain → Forall has_syntax existing →
  ∀ c w acc, cache_ok c → ∃ c' w',
    foldl (nodeStep LabelSelectorAsSelector Matches config existing) (c, w, acc) nodes =
      (c', w', acc ++ ((λ n, mkNodeAndConfigs (Node_Name n) (Node_Labels n)
         (filter (selects (Node_Labels n)) (others config existing) ++ [config])) <$> nodes)) ∧
    cache_ok c'.
Proof using Type.
  intros Ha Hp. induction nodes as [|n nodes IH]; intros c w acc Hc.
  { exists c, w. by rewrite app_nil_r. }
  cbn [foldl fmap list_fmap]. unfold nodeStep at 2.
  destruct (cfgStep_fold config (Node_Labels n) existing Ha Hp c w [] Hc) as (c1 & w1 & -> & Hc1).
  rewrite app_nil_l.
  destruct (IH c1 w1 (acc ++ [mkNodeAndConfigs (Node_Name n) (Node_Labels n)
    (filter (selects (Node_Labels n)) (others config existing) ++ [config])]) Hc1)
    as (c2 & w2 & E & Hc2).
  exists c2, w2. by rewrite E, <-app_assoc.
Qed.

(** The resources of a node after the review of [config], in the order they are validated. *)
Definition reviewed (config : FRRConfiguration) (existing : list FRRConfiguration) (n : Node)
    : list FRRConfiguration :=
  filter (selects (Node_Labels n)) (others config existing) ++ [config].

Lemma validateConfig_decides c nodes existing config :
  cache_ok c → accepts_plain → has_syntax config → Forall has_syntax existing →
  let '(c', w, err) := validateConfig LabelSelectorAsSelector Matches c (Ok nodes) (Ok existing) config in
  cache_ok c' ∧
  (err = None ↔ parses config ∧ ∀ n, n ∈ nodes → selects (Node_Labels n) config →
     Validate [FRRConfigurationList (reviewed config existing n)] = Ok ()).
Proof using Type.
  intros Hc Ha Hplain Hp. unfold validateConfig. fold (selector_of config).
  pose proof (lookup_selector_ok c (selector_of config) Hc) as Hc1.
  pose proof (lookup_selector_exact c _ Hc Ha Hplain) as Hs.
  destruct (lookup_selector c (selector_of config)) as [c1 [sel|e]]; cbn in Hc1, Hs.
  2:{ split; [done|]. split; [done|]. intros [[v Hv] _]. congruence. }
  match goal with |- context [foldl _ (c1, ?w0, []) ?l] =>
    destruct (nodeStep_fold config existing l Ha Hp c1 w0 [] Hc1) as (c2 & w2 & -> & Hc2) end.
  rewrite app_nil_l.
  assert (∀ n, n ∈ nodes ∧ selects (Node_Labels n) config ↔
    n ∈ filter (λ n, Matches sel (Node_Labels n) = true) nodes) as Hsel.
  { intros n. rewrite list_elem_of_filter. unfold selects. rewrite <-Hs. naive_solver. }
  destruct (each validateNode _) as [[]|e] eqn:Ev; (split; [done|]).
  - split; [|done]. intros _. split; [by exists sel|]. intros n Hn Hm.
    apply each_Ok in Ev. rewrite Forall_fmap, Forall_forall in Ev.
    specialize (Ev n (proj1 (Hsel n) (conj Hn Hm))). revert Ev. unfold validateNode, reviewed, compose; cbn [NAC_cfgs NAC_name].
    by destruct (Validate _) as [[]|].
  - split; [done|]. intros [_ Hv]. enough (each validateNode ((λ n, mkNodeAndConfigs (Node_Name n) (Node_Labels n)
      (reviewed config existing n)) <$> filter (λ n, Matches sel (Node_Labels n) = true) nodes) = Ok ()) by
      (unfold reviewed in *; congruence).
    apply each_Ok. rewrite Forall_fmap, Forall_forall. intros n [Hn Hm]%Hsel.
    unfold validateNode, compose; cbn [NAC_cfgs NAC_name]. by rewrite (Hv n Hn Hm).
Qed.

Lemma validateConfig_Ok c nodes existing config c' w :
  cache_ok c → accepts_plain → has_syntax config → Forall has_syntax existing →
  validateConfig LabelSelectorAsSelector Matches c (Ok nodes) (Ok existing) config = (c', w, None) →
  cache_ok c' ∧ parses config ∧ ∀ n, n ∈ nodes → selects (Node_Labels n) config →
    Validate [FRRConfigurationList (reviewed config existing n)] = Ok ().
Proof using Type.
  intros Hc Ha Hplain Hp E. pose proof (validateConfig_decides c nodes existing config Hc Ha Hplain Hp) as H.
  rewrite E in H. destruct H as [Hc' H]. split; [done|]. by apply H.
Qed.

(** The resource refers to no secret. *)
Definition unreferenced (cfg : FRRConfiguration) : Prop :=
  ∀ r n, r ∈ BGP_Routers (Spec_BGP (Cfg_Spec cfg)) → n ∈ Router_Neighbors r →
    Neighbor_PasswordSecret n = mkSecretReference "" "".

Lemma resetSecrets_unreferenced cfgs : Forall unreferenced cfgs → resetSecrets cfgs = cfgs.
Proof using Type.
  intros Hc. unfold resetSecrets. rewrite <-(list_fmap_id cfgs) at 2.
  apply list_fmap_ext. intros i [name ns ann [[routers bfd] raw sel]] Hi. cbn.
  do 2 f_equal. unfold updateNeighbors; cbn. f_equal. f_equal. rewrite <-(list_fmap_id routers) at 2.
  apply list_fmap_ext. intros j [asn rid vrf ns' ps imps ev] Hj. cbn. f_equal.
  rewrite <-(list_fmap_id ns') at 2. apply list_fmap_ext. intros k n Hk.
  apply list_elem_of_lookup_2 in Hi, Hj, Hk. rewrite Forall_forall in Hc.
  specialize (Hc _ Hi _ n Hj Hk). by destruct n; cbn in *; subst.
Qed.

Lemma Validate_converts cfgs secrets ab :
  Forall unreferenced cfgs → Validate [FRRConfigurationList cfgs] = Ok () →
  ∃ c, apiToFRR (mkClusterResources cfgs secrets) ab = Ok c.
Proof using Type.
  intros Hu. unfold Validate; cbn [fmap list_fmap mjoin list_join].
  rewrite app_nil_r, resetSecrets_unreferenced by done.
  intros (c & Hc & _)%bind_Ok. rewrite (apiToFRR_secrets cfgs secrets ∅).
  - rewrite (apiToFRR_block _ ab []), Hc. by eexists.
  - eapply Forall_impl; [exact Hu|]. intros cfg Hcfg r n Hr Hn. unfold no_secret. by rewrite (Hcfg r n).
Qed.

(** C13: a resource the webhook lets in can be used: when the creation or the update of a
    resource is allowed, then for every node it selects, the resources the controller of
    that node picks from the cluster (the existing ones with the new version in
    place of the old, listed in any order) are converted without error, whatever the prefixes to
    block and the secrets, provided they refer to no secrets.  The cache stays
    correct.  The selectors of the existing resources are valid, and that of the resource under review has label
    syntax (no separators of the cache key in keys, operators and values): without, it may be taken for another one that is in the cache, as
    [invalid_selector_from_cache] shows.  The cache holds only what was parsed, as it does when it starts empty, and
    apimachinery accepts only label syntax.  The controller lists the resources the webhook listed: when its cache
    is restricted to its namespace, this is when the cluster has no resources in others, see [other_namespaces_reviewed].
    The old version is the resource of the same name, in whatever namespace, as the webhook takes it. *)
Theorem admitted_resource_converts c nodes existing req config c' warnings :
  cache_ok c → accepts_plain →
  Req_Operation req = OpCreate ∨ Req_Operation req = OpUpdate →
  Req_Object req = Ok config → has_syntax config → Forall parses existing →
  Handle LabelSelectorAsSelector Matches c (Ok nodes) (Ok existing) req = (c', Allowed warnings) →
  cache_ok c' ∧
  ∀ n listed, n ∈ nodes → selects (Node_Labels n) config → listed ≡ₚ others config existing ++ [config] → ∃ cfgs,
    configsForNode LabelSelectorAsSelector Matches listed (Node_Labels n) = Ok cfgs ∧ config ∈ cfgs ∧
    (Forall unreferenced cfgs → ∀ secrets ab,
       ∃ out, apiToFRR (mkClusterResources cfgs secrets) ab = Ok out).
Proof using Type.
  intros Hc Ha Hop Hobj Hplain Hp HH.
  assert (∃ w, validateConfig LabelSelectorAsSelector Matches c (Ok nodes) (Ok existing) config
    = (c', w, None)) as [w Hv].
  { unfold Handle, validateConfigCreate, validateConfigUpdate in HH. rewrite Hobj in HH.
    destruct Hop as [Hop|Hop]; rewrite Hop in HH;
      destruct (Req_OldObject req) as [[o|e]|]; try discriminate;
      destruct (validateConfig _ _ _ _ _ _) as [[c1 w] [e|]]; naive_solver. }
  apply validateConfig_Ok in Hv as (Hc' & Hpc & Hv); [|done..|].
  2:{ eapply Forall_impl; [exact Hp|]. eauto using parses_syntax. } split; [done|].
  intros n listed Hn Hsel Hl. exists (filter (selects (Node_Labels n)) listed).
  assert (filter (selects (Node_Labels n)) listed ≡ₚ filter (selects (Node_Labels n)) (others config existing) ++ [config])
    as Hperm.
  { rewrite Hl, filter_app, filter_cons. by rewrite decide_True, filter_nil by done. }
  split_and!.
  - apply configsForNode_filter. rewrite Hl. apply Forall_app. split; [|by constructor]. unfold others.
    apply Forall_forall. intros x [_ Hx]%list_elem_of_filter. by apply (proj1 (Forall_forall _ _) Hp).
  - rewrite Hperm. apply elem_of_app. right. by left.
  - intros Hu secrets ab.
    eapply (apiToFRR_succeeds_same (filter (selects (Node_Labels n)) (others config existing) ++ [config]));
      [intros c0; by rewrite Hperm|]. rewrite Hperm in Hu. apply Validate_converts; [done|]. by apply Hv.
Qed.

(** C14: the webhook refuses what would break a node and nothing else: when the nodes and the resources can be listed,
    a creation or an update is allowed exactly when its objects decode, its node selector is valid and, for every node
    it selects, the resources of that node with the new version in place of the old one pass the
    validation of the controller; an object that does not decode is answered with an error, and everything else is
    denied.  A deletion is never denied, and allowed exactly when the old object is there and decodes.  The old version is the resource of
    the same name, in whatever namespace; existing resources whose selector is not valid are passed over.  This is for selectors with label syntax, in the resource
    under review and in the existing ones (no separators of the cache key in keys, operators and values, and values exactly with
    the operators that take some): another one may be taken for a valid one that is in the cache, as
    [invalid_selector_from_cache] shows.  The cache holds only what was parsed, as it does when it starts
    empty, and apimachinery accepts only label syntax. *)
Theorem webhook_decides_exactly c nodes existing req :
  cache_ok c → accepts_plain → Forall has_syntax existing →
  (∀ config, Req_Object req = Ok config → has_syntax config) →
  let resp := snd (Handle LabelSelectorAsSelector Matches c (Ok nodes) (Ok existing) req) in
  match Req_Operation req with
  | OpCreate | OpUpdate =>
      ((∃ w, resp = Allowed w) ↔
         ∃ config, Req_Object req = Ok config ∧ (∀ e, Req_OldObject req ≠ Some (Err e)) ∧ parses config ∧
           ∀ n, n ∈ nodes → selects (Node_Labels n) config →
             Validate [FRRConfigurationList (reviewed config existing n)] = Ok ()) ∧
      ((∃ e, resp = Errored e) ↔ (∃ e, Req_Object req = Err e) ∨ ∃ e, Req_OldObject req = Some (Err e)) ∧
      ((∃ e, resp = Denied e) ↔ ¬ (∃ w, resp = Allowed w) ∧ ¬ ∃ e, resp = Errored e)
  | OpDelete => (resp = Allowed [] ↔ ∃ old, Req_OldObject req = Some (Ok old)) ∧ ∀ e, resp ≠ Denied e
  | OpConnect => ∀ e, resp ≠ Denied e
  end.
Proof using Type.
  intros Hc Ha Hp Hplain resp. subst resp. unfold Handle, validateConfigCreate, validateConfigUpdate, validateConfigDelete.
  destruct (Req_Operation req).
  3,4: destruct (Req_Object req), (Req_OldObject req) as [[o|e']|]; cbn; naive_solver.
  all: destruct (Req_Object req) as [config|e] eqn:Eo; [|cbn; naive_solver].
  all: pose proof (validateConfig_decides c nodes existing config Hc Ha (Hplain _ eq_refl) Hp) as H.
  all: destruct (validateConfig _ _ c _ _ config) as [[c' w] err]; destruct H as [_ H].
  all: destruct (Req_OldObject req) as [[o|e]|]; destruct err as [we|]; cbn; naive_solver.
Qed.
End webhook_props.

(** ** A concrete parser of selectors, and samples *)

Definition plainParse (s : LabelSelector) : result string LabelSelector :=
  if plain_selector s then Ok s else Err "invalid selector".

Definition requirementMatches (ls : labels) (r : LabelSelectorRequirement) : bool :=
  let v := ls !! Requirement_Key r in
  let listed := match v with Some v => bool_decide (v ∈ Requirement_Values r) | None => false end in
  if bool_decide (Requirement_Operator r = "In") then listed
  else if bool_decide (Requirement_Operator r = "NotIn") then negb listed
  else if bool_decide (Requirement_Operator r = "Exists") then bool_decide (is_Some v)
  else negb (bool_decide (is_Some v)).

Definition plainMatches (s : LabelSelector) (ls : labels) : bool :=
  bool_decide (map_Forall (λ k v, ls !! k = Some v) (MatchLabels s)) &&
  forallb (requirementMatches ls) (MatchExpressions s).

Lemma plainParse_accepts_plain : accepts_plain plainParse.
Proof. intros s v. unfold plainParse. by destruct (plain_selector s). Qed.

Definition zoneSelector (values : list string) : LabelSelector :=
  mkLabelSelector {["os" := "linux"]} [mkLabelSelectorRequirement "zone" "In" values].

Definition selecting (sel : LabelSelector) (name ns : string) (routers : list Router) : FRRConfiguration :=
  mkFRRConfiguration name ns ∅ (mkSpec (mkBGPConfig routers []) (mkRawConfig 0 "") sel).

Definition plainRouter (asn : N) (neighbors : list Neighbor) : Router :=
  mkRouter asn "" "" neighbors ["198.51.100.0/24"] [] None.

Definition sampleNodes : list Node :=
  [mkNode "node1" {["os" := "linux"; "zone" := "a"]}; mkNode "node2" {["zone" := "c"]}].

Definition newConfig : FRRConfiguration :=
  selecting (zoneSelector ["a"; "b"]) "new" "ns"
    [plainRouter 64512 [sampleNeighbor 64513 "10.1.1.1" emptyAdvertise emptyReceive]].
Definition oldConfig : FRRConfiguration :=
  selecting (zoneSelector ["a"]) "old" "ns"
    [plainRouter 64512 [sampleNeighbor 64514 "10.1.1.2" emptyAdvertise emptyReceive]].

Lemma cached_selectors_exact_witness :
  snd (getCachedSelector plainParse
    (foldl (λ c s, fst (getCachedSelector plainParse c s)) (∅ : gmap string LabelSelector)
       [zoneSelector ["a"]; zoneSelector ["a"; "b"]]) (zoneSelector ["a"; "b"])) =
  Ok (zoneSelector ["a"; "b"]).
Proof.
  apply (cached_selectors_exact plainParse (∅ : gmap string LabelSelector)
    [zoneSelector ["a"]; zoneSelector ["a"; "b"]] (zoneSelector ["a"; "b"])).
  - reflexivity.
  - exact plainParse_accepts_plain.
  - vm_compute; reflexivity.
Defined.

Lemma admitted_resource_converts_witness :
  ∃ cfgs, configsForNode plainParse plainMatches [newConfig; oldConfig] {["os" := "linux"; "zone" := "a"]}
      = Ok cfgs ∧ newConfig ∈ cfgs.
Proof.
  destruct (admitted_resource_converts plainParse plainMatches (∅ : gmap string LabelSelector)
    sampleNodes [oldConfig] (mkRequest OpCreate (Ok newConfig) None) newConfig
    (fst (Handle plainParse plainMatches (∅ : gmap string LabelSelector) (Ok sampleNodes) (Ok [oldConfig])
       (mkRequest OpCreate (Ok newConfig) None))) []) as [_ Hn].
  - apply cache_ok_empty. reflexivity.
  - exact plainParse_accepts_plain.
  - left; reflexivity.
  - reflexivity.
  - vm_compute; reflexivity.
  - constructor; [|constructor]. exists (selector_of oldConfig). vm_compute; reflexivity.
  - vm_compute; reflexivity.
  - destruct (Hn (mkNode "node1" {["os" := "linux"; "zone" := "a"]}) [newConfig; oldConfig]) as (cfgs & Hc & Hin & _).
    + left.
    + vm_compute; reflexivity.
    + apply perm_swap.
    + exists cfgs. exact (conj Hc Hin).
Defined.

Lemma webhook_decides_exactly_witness :
  parses plainParse newConfig ∧
  ∀ n, n ∈ sampleNodes → selects plainParse plainMatches (Node_Labels n) newConfig →
    Validate [FRRConfigurationList (reviewed plainParse plainMatches newConfig [oldConfig] n)] = Ok ().
Proof.
  destruct (webhook_decides_exactly plainParse plainMatches (∅ : gmap string LabelSelector)
    sampleNodes [oldConfig] (mkRequest OpCreate (Ok newConfig) None)) as [H _].
  - apply cache_ok_empty. reflexivity.
  - exact plainParse_accepts_plain.
  - constructor; [vm_compute; reflexivity|constructor].
  - intros config Hc. injection Hc as <-. vm_compute; reflexivity.
  - destruct H as [H _]. destruct H as (config & Hc & _ & Hp & Hn).
    + exists []. vm_compute; reflexivity.
    + injection Hc as <-. exact (conj Hp Hn).
Defined.

(** ** What the webhook lets through *)

(** The cache key of an invalid selector can be that of a valid one: the value [a b], with
    a space, is refused when it is looked up first, and accepted once the list
    of the values [a] and [b] was looked up. *)
Theorem invalid_selector_from_cache :
  snd (getCachedSelector plainParse (∅ : gmap string LabelSelector) (zoneSelector ["a b"]))
    = Err "invalid selector" ∧
  snd (getCachedSelector plainParse
    (fst (getCachedSelector plainParse (∅ : gmap string LabelSelector) (zoneSelector ["a"; "b"])))
    (zoneSelector ["a b"])) = Ok (zoneSelector ["a"; "b"]).
Proof. split; vm_compute; reflexivity. Qed.

(** The webhook reads the resources of all namespaces from the API server, while the cache of the
    controller is restricted to its own: a resource the controllers would use is denied because
    of one in another namespace that none of them reads. *)
Theorem other_namespaces_reviewed :
  let ours := selecting (zoneSelector ["a"]) "fresh" "frr-k8s-system" [plainRouter 65000 []] in
  let foreign := selecting (zoneSelector ["a"]) "old" "other-ns" [plainRouter 64512 []] in
  snd (Handle plainParse plainMatches (∅ : gmap string LabelSelector) (Ok sampleNodes)
    (Ok [foreign]) (mkRequest OpCreate (Ok ours) None))
    = Denied (EInvalidForNode "node1" (EDifferentASNs 64512 65000 "")) ∧
  (RC_MyASN <$> default [] (match apiToFRR (mkClusterResources [ours] ∅) [] with
    | Ok c => Some (Config_Routers c) | Err _ => None end)) = [65000%N].
Proof. split; vm_compute; reflexivity. Qed.

(** A neighbor with both a password and a reference to a secret is allowed, because the
    references are dropped before the validation, and refused by the controller whatever
    the secrets are: the error is not a transient one. *)
Theorem password_and_secret_allowed secrets :
  let n := withCredentials "pw" (mkSecretReference "bgp-pass" "")
    (sampleNeighbor 64513 "10.1.1.1" emptyAdvertise emptyReceive) in
  let c := selecting (zoneSelector ["a"]) "both" "ns" [plainRouter 64512 [n]] in
  snd (Handle plainParse plainMatches (∅ : gmap string LabelSelector) (Ok sampleNodes)
    (Ok []) (mkRequest OpCreate (Ok c) None)) = Allowed [] ∧
  apiToFRR (mkClusterResources [c] secrets) [] =
    Err (EProcessNeighbor "64513@10.1.1.1" 64512 "" (EPasswordAndSecret "64513@10.1.1.1")).
Proof. split; [vm_compute; reflexivity|reflexivity]. Qed.
