(* ===== verification/StateControllers.v ===== *)
(** * The node state controllers ([internal/controller])

    [FRRStateReconciler] publishes the running configuration, the result of the last
    reload and that of the last conversion in the FRRNodeState of the node,
    with the passwords removed (frrstate_controller.go);
    [NodeStateCleaner] deletes the FRRNodeStates of nodes without FRR-K8s pods
    (nodestate_cleaner_controller.go).  The API server is a map of objects;
    each call may also fail for reasons of its own, given as arguments. *)

From Stdlib Require Import Ascii Lia.
From S2P Require Import Prelude GoStrings GoNet IPFamily Community Api FrrConfig Errors.
From S2P Require Import Merge ApiToConfig Logging Debouncer FRRManager Reconciler.

(** ** Passwords in configurations *)

Definition newlineChar : ascii := ascii_of_nat 10.

(** [passwordRegex.ReplaceAllString(toClean, "password <retracted>")] with the expression
    [password.*]: the leftmost match starts at the first "password" and, as the dot
    matches anything but a newline, ends with the line; [inMatch] is set while
    the rest of a match is dropped. *)
Fixpoint replaceAll (s : string) (inMatch : bool) : string :=
  match s with
  | EmptyString => ""
  | String c s' =>
      if inMatch then
        if bool_decide (c = newlineChar) then String c (replaceAll s' false) else replaceAll s' true
      else if HasPrefix s "password" then "password <retracted>" +:+ replaceAll s' true
      else String c (replaceAll s' false)
  end.

Definition cleanPasswords (toClean : string) : string := replaceAll toClean false.

Example cleanPasswords_example :
  cleanPasswords ("neighbor 10.0.0.1 password s3cret" +:+ newline +:+ "exit") =
  "neighbor 10.0.0.1 password <retracted>" +:+ newline +:+ "exit".
Proof. reflexivity. Qed.

(** ** [FRRStateReconciler] *)

Record FRRNodeStateStatus := mkFRRNodeStateStatus {
  RunningConfig : string;
  NS_LastReloadResult : string;
  LastConversionResult : string }.

#[global] Instance FRRNodeStateStatus_eq_dec : EqDecision FRRNodeStateStatus.
Proof. solve_decision. Defined.

Definition emptyNodeStatus : FRRNodeStateStatus := mkFRRNodeStateStatus "" "" "".

Notation nodeStates := (gmap string FRRNodeStateStatus).

(** The failures of the three calls, when there are any. *)
Record stateFaults := mkStateFaults {
  getFault : option k8sError;
  createFault : option k8sError;
  updateFault : option k8sError }.
Definition noFaults : stateFaults := mkStateFaults None None None.

Definition getState (f : stateFaults) (store : nodeStates) (name : string)
    : result k8sError FRRNodeStateStatus :=
  match getFault f, store !! name with
  | Some e, _ => Err e
  | None, Some st => Ok st
  | None, None => Err ENotFound
  end.

Definition createState (f : stateFaults) (store : nodeStates) (name : string)
    : nodeStates * option k8sError :=
  match createFault f, store !! name with
  | Some e, _ => (store, Some e)
  | None, Some _ => (store, Some (EAPI "already exists"))
  | None, None => (<[name := emptyNodeStatus]> store, None)
  end.

Definition updateStatus (f : stateFaults) (store : nodeStates) (name : string)
    (status : FRRNodeStateStatus) : nodeStates * option k8sError :=
  match updateFault f, store !! name with
  | Some e, _ => (store, Some e)
  | None, None => (store, Some ENotFound)
  | None, Some _ => (<[name := status]> store, None)
  end.

Definition newStatus (frrStatus : Status) (conversionResult : string) : FRRNodeStateStatus :=
  mkFRRNodeStateStatus (cleanPasswords (Current frrStatus))
    (cleanPasswords (LastReloadResult frrStatus)) conversionResult.

(** [Reconcile]: the objects, whether a status was written, and the error. *)
Definition FRRState_Reconcile (f : stateFaults) (nodeName : string) (frrStatus : Status)
    (conversionResult : string) (store : nodeStates) : nodeStates * bool * option k8sError :=
  let '(store, state, err) :=
    match getState f store nodeName with
    | Ok st => (store, st, None)
    | Err e =>
        if IsNotFound e then
          let '(store, err) := createState f store nodeName in (store, emptyNodeStatus, err)
        else (store, emptyNodeStatus, Some e)
    end in
  match err with
  | Some e => (store, false, Some e)
  | None =>
      let status := newStatus frrStatus conversionResult in
      if bool_decide (state = status) then (store, false, None)
      else let '(store', err) := updateStatus f store nodeName status in (store', true, err)
  end.

(** ** [NodeStateCleaner] *)

(** The errors it returns, aggregated: none means success. *)
Inductive cleanerError :=
  | EListPods (e : k8sError)
  | EListFRRNodeStates (e : k8sError)
  | EDeleteFRRNodeState (name : string) (e : k8sError).

(** One listed state; [deleteFault] is the failure of deleting one object, if any. *)
Definition cleanStep (nodesWithFRRPods : gset string) (deleteFault : string → option k8sError)
    (acc : nodeStates * list cleanerError) (name : string) : nodeStates * list cleanerError :=
  let '(store, errors) := acc in
  if bool_decide (name ∈ nodesWithFRRPods) then (store, errors)
  else match deleteFault name with
  | Some e => (store, errors ++ [EDeleteFRRNodeState name e])
  | None => (delete name store, errors)
  end.

Definition NodeStateCleaner_Reconcile (listPods : result k8sError (list string))
    (listStates : result k8sError (list string)) (deleteFault : string → option k8sError)
    (store : nodeStates) : nodeStates * list cleanerError :=
  match listPods with
  | Err e => (store, [EListPods e])
  | Ok pods =>
  let nodesWithFRRPods : gset string := list_to_set pods in
  match listStates with
  | Err e => (store, [EListFRRNodeStates e])
  | Ok items => foldl (cleanStep nodesWithFRRPods deleteFault) (store, []) items
  end end.

(** ** Secrecy *)

Lemma append_String c a b : String c a +:+ b = String c (a +:+ b).
Proof. done. Qed.

Lemma String_length_app a b : String.length (a +:+ b) = (String.length a + String.length b)%nat.
Proof.
  induction a as [|c a IH]; [done|]. rewrite append_String.
  cbn. by rewrite IH.
Qed.

(** Within the first [length a] characters, a prefix test sees nothing of what follows [a]. *)
Lemma HasPrefix_app a x p :
  (String.length p ≤ String.length a)%nat → HasPrefix (a +:+ x) p = HasPrefix a p.
Proof.
  revert a; induction p as [|d p IH]; intros a Hl.
  { by destruct a, x. }
  destruct a as [|c a]; cbn [String.length] in Hl; [lia|].
  rewrite append_String. cbn [HasPrefix]. by rewrite IH by lia.
Qed.

(** What follows a secret: nothing, or the next line. *)
Definition line_end (post : string) : bool :=
  match post with EmptyString => true | String c _ => bool_decide (c = newlineChar) end.

Lemma replaceAll_in_match secret post :
  contains_char newlineChar secret = false → line_end post = true →
  replaceAll (secret +:+ post) true = replaceAll post true.
Proof.
  intros Hs _. induction secret as [|c secret IH]; [done|].
  rewrite append_String. cbn in *.
  apply orb_false_iff in Hs as [Hc Hs]. revert Hc. repeat case_bool_decide; try naive_solver.
Qed.

Lemma replaceAll_password x m :
  replaceAll ("password" +:+ x) m =
  (if m then "" else "password <retracted>") +:+ replaceAll x true.
Proof. destruct m; [reflexivity|destruct x; reflexivity]. Qed.

Lemma replaceAll_hides pre secret secret' post m :
  contains_char newlineChar secret = false → contains_char newlineChar secret' = false →
  line_end post = true →
  replaceAll (pre +:+ "password" +:+ secret +:+ post) m =
  replaceAll (pre +:+ "password" +:+ secret' +:+ post) m.
Proof.
  intros Hs Hs' Hp. revert m; induction pre as [|c pre IH]; intros m.
  - change ("" +:+ "password" +:+ secret +:+ post) with ("password" +:+ secret +:+ post).
    change ("" +:+ "password" +:+ secret' +:+ post) with ("password" +:+ secret' +:+ post).
    by rewrite !replaceAll_password, !replaceAll_in_match.
  - rewrite !(append_String c pre). cbn [replaceAll]. rewrite (IH true), (IH false).
    destruct m; [done|].
    assert (∀ t, HasPrefix (String c (pre +:+ "password" +:+ t)) "password" =
      HasPrefix (String c pre +:+ "password") "password") as H.
    { intros t. rewrite <-(HasPrefix_app (String c pre +:+ "password") t).
      - by rewrite app_assoc_string.
      - rewrite String_length_app. cbn. lia. }
    by rewrite !H.
Qed.

(** C32: the published node state does not depend on passwords: when the running configuration and
    the last reload result each contain a line with "password" in it, whatever stands
    after that word in the line, the objects [Reconcile] writes are the same. *)
Theorem FRRState_hides_passwords f nodeName t res store cur cur' last last' pre pre' post post' :
  contains_char newlineChar cur = false → contains_char newlineChar cur' = false →
  contains_char newlineChar last = false → contains_char newlineChar last' = false →
  line_end post = true → line_end post' = true →
  FRRState_Reconcile f nodeName (mkStatus t (pre +:+ "password" +:+ cur +:+ post)
    (pre' +:+ "password" +:+ last +:+ post')) res store =
  FRRState_Reconcile f nodeName (mkStatus t (pre +:+ "password" +:+ cur' +:+ post)
    (pre' +:+ "password" +:+ last' +:+ post')) res store.
Proof.
  intros ??????. unfold FRRState_Reconcile.
  assert (∀ a b a' b', cleanPasswords a = cleanPasswords a' → cleanPasswords b = cleanPasswords b' →
    newStatus (mkStatus t a b) res = newStatus (mkStatus t a' b') res) as Hnew
    by (intros a b a' b' Ha Hb; unfold newStatus; cbn [Current LastReloadResult]; by rewrite Ha, Hb).
  rewrite (Hnew _ _ (pre +:+ "password" +:+ cur' +:+ post) (pre' +:+ "password" +:+ last' +:+ post'));
    [done|unfold cleanPasswords; by apply replaceAll_hides..].
Qed.

Lemma FRRState_hides_passwords_witness :
  FRRState_Reconcile noFaults "node1" (mkStatus "1" ("neighbor 10.0.0.1 " +:+ "password" +:+ " one" +:+ newline)
    ("line 3: " +:+ "password" +:+ " one" +:+ "")) "success" ∅ =
  FRRState_Reconcile noFaults "node1" (mkStatus "1" ("neighbor 10.0.0.1 " +:+ "password" +:+ " two" +:+ newline)
    ("line 3: " +:+ "password" +:+ " two" +:+ "")) "success" ∅.
Proof.
  apply (FRRState_hides_passwords noFaults "node1" "1" "success" ∅ " one" " two" " one" " two"
    "neighbor 10.0.0.1 " "line 3: " newline ""); reflexivity.
Defined.

(** ** The node state converges *)

(** One reconciliation without API failures publishes the status of the node and touches no
    other object, creating the object if needed; repeated with the same status it
    writes nothing. *)
Theorem FRRState_Reconcile_converges nodeName frrStatus res store :
  let '(store', _, err) := FRRState_Reconcile noFaults nodeName frrStatus res store in
  err = None ∧ store' = <[nodeName := newStatus frrStatus res]> store ∧
  FRRState_Reconcile noFaults nodeName frrStatus res store' = (store', false, None).
Proof.
  assert (∀ st, st !! nodeName = Some (newStatus frrStatus res) →
    FRRState_Reconcile noFaults nodeName frrStatus res st = (st, false, None)) as Hid.
  { intros st Hst. unfold FRRState_Reconcile, getState; cbn. rewrite Hst.
    by rewrite bool_decide_true. }
  unfold FRRState_Reconcile at 1, getState; cbn.
  destruct (store !! nodeName) as [st|] eqn:Es; cbn.
  - case_bool_decide as He.
    + subst st. split_and!; [done| |by apply Hid]. by rewrite insert_id.
    + unfold updateStatus; cbn. rewrite ?Es. split_and!; [done..|]. apply Hid.
      by rewrite lookup_insert_eq.
  - change (IsNotFound ENotFound) with true. cbn. case_bool_decide as He.
    + rewrite He. split_and!; [done..|]. apply Hid. by rewrite lookup_insert_eq.
    + unfold updateStatus; cbn. rewrite lookup_insert_eq, insert_insert_eq.
      split_and!; [done..|]. apply Hid. by rewrite lookup_insert_eq.
Qed.

(** ** The cleaner *)

Lemma clean_fold (keep : gset string) deleteFault items : ∀ store errors,
  let '(store', errors') := foldl (cleanStep keep deleteFault) (store, errors) items in
  (∀ n, store' !! n = if bool_decide (n ∈ items ∧ n ∉ keep ∧ deleteFault n = None)
                      then None else store !! n) ∧
  (∀ x, x ∈ errors' ↔ x ∈ errors ∨
     ∃ n e, x = EDeleteFRRNodeState n e ∧ n ∈ items ∧ n ∉ keep ∧ deleteFault n = Some e).
Proof.
  induction items as [|x items IH]; intros store errors; cbn [foldl].
  { split; [intros n; rewrite bool_decide_false; [done|]|]; set_solver. }
  unfold cleanStep at 2. case_bool_decide as Hx.
  { specialize (IH store errors). destruct (foldl _ _ items) as [store' errors'].
    destruct IH as [IH1 IH2]. split.
    - intros n. rewrite IH1. repeat case_bool_decide; try done; set_solver.
    - intros y. rewrite IH2. set_solver. }
  destruct (deleteFault x) as [e0|] eqn:Ef.
  - specialize (IH store (errors ++ [EDeleteFRRNodeState x e0])). destruct (foldl _ _ items) as [store' errors'].
    destruct IH as [IH1 IH2]. split.
    + intros n. rewrite IH1. repeat case_bool_decide; try done; exfalso; set_solver.
    + intros y. rewrite IH2. set_solver.
  - specialize (IH (delete x store) errors). destruct (foldl _ _ items) as [store' errors'].
    destruct IH as [IH1 IH2]. split.
    + intros n. rewrite IH1. destruct (decide (n = x)) as [->|Hn].
      * rewrite lookup_delete_eq, (bool_decide_true (x ∈ x :: items ∧ _)) by set_solver.
        by case_bool_decide.
      * rewrite lookup_delete_ne by done. repeat case_bool_decide; try done; exfalso; set_solver.
    + intros y. rewrite IH2. split; [set_solver|].
      intros [?|(n & e & -> & Hi & Hk & He)]; [by left|right]. exists n, e. split_and!; [done| |done..].
      apply elem_of_cons in Hi as [->|?]; [congruence|done].
Qed.

(** C34: the cleaner deletes exactly the listed states of nodes without FRR-K8s pods whose
    deletion does not fail, never that of a node with a pod, and reports every deletion that
    failed; if a list cannot be read nothing is deleted. *)
Theorem NodeStateCleaner_exact listPods listStates deleteFault store :
  let '(store', errors) := NodeStateCleaner_Reconcile listPods listStates deleteFault store in
  match listPods, listStates with
  | Ok pods, Ok items =>
      (∀ n, store' !! n = if bool_decide (n ∈ items ∧ n ∉ pods ∧ deleteFault n = None)
                          then None else store !! n) ∧
      (∀ x, x ∈ errors ↔
         ∃ n e, x = EDeleteFRRNodeState n e ∧ n ∈ items ∧ n ∉ pods ∧ deleteFault n = Some e)
  | _, _ => store' = store ∧ errors ≠ []
  end.
Proof.
  unfold NodeStateCleaner_Reconcile.
  destruct listPods as [pods|e]; [|done]. destruct listStates as [items|e]; [|done].
  pose proof (clean_fold (list_to_set pods) deleteFault items store []) as H.
  destruct (foldl _ _ items) as [store' errors]. destruct H as [H1 H2]. split.
  - intros n. rewrite H1. apply (f_equal (λ b : bool, if b then None else store !! n)).
    apply bool_decide_ext. by rewrite elem_of_list_to_set.
  - intros x. rewrite H2. setoid_rewrite elem_of_list_to_set. split; [|by auto].
    by intros [?%elem_of_nil|?].
Qed.
