(* ===== verification/Json.v ===== *)
(** * JSON ([encoding/json])

    What [json.Unmarshal] does to the output of vtysh: the text is checked and read as a whole (nested at most
    10000 levels), then decoded into Go values.  The reader is a recursive descent on the bytes
    of the text; its fuel is twice the length of the text, and [read_terminates] shows that
    this is always enough.  A decoder takes the value already in the variable, because
    [Unmarshal] keeps what a [null] or a missing field does not set. *)

From Stdlib Require Import Ascii Lia.
From S2P Require Import Prelude GoStrings GoNet.

(** ** Values *)

Inductive json :=
  | JNull
  | JBool (b : bool)
  | JNumber (literal : string)
  | JString (s : string)
  | JArray (l : list json)
  | JObject (l : list (string * json)).

(** ** Bytes *)

Definition byte (n : N) : ascii := ascii_of_N n.
Definition is_char (c : ascii) (n : N) : bool := (N_of_ascii c =? n)%N.
Definition between (lo hi : N) (c : ascii) : bool :=
  (lo <=? N_of_ascii c)%N && (N_of_ascii c <=? hi)%N.

Definition is_space (c : ascii) : bool :=
  is_char c 32 || is_char c 9 || is_char c 13 || is_char c 10.

Fixpoint skip_space (s : string) : string :=
  match s with
  | String c r => if is_space c then skip_space r else s
  | EmptyString => s
  end.

(** ** Strings *)

(** The encoding of a rune; surrogates and what is above U+10FFFF become U+FFFD. *)
Definition encodeRune (r : N) : string :=
  let r := if ((0xD800 <=? r) && (r <=? 0xDFFF) || (0x10FFFF <? r))%N then 0xFFFD%N else r in
  let tail k := byte (0x80 + (r / 2 ^ k) mod 64) in
  if (r <? 0x80)%N then String (byte r) ""
  else if (r <? 0x800)%N then String (byte (0xC0 + r / 64)) (String (tail 0%N) "")
  else if (r <? 0x10000)%N then
    String (byte (0xE0 + r / 4096)) (String (tail 6%N) (String (tail 0%N) ""))
  else String (byte (0xF0 + r / 262144)) (String (tail 12%N) (String (tail 6%N) (String (tail 0%N) ""))).

(** [utf8.DecodeRune] accepts these sequences of two, three and four bytes. *)
Definition continuation : ascii → bool := between 0x80 0xBF.
Definition utf8_two (a b : ascii) : bool := between 0xC2 0xDF a && continuation b.
Definition utf8_three (a b c : ascii) : bool :=
  (is_char a 0xE0 && between 0xA0 0xBF b || between 0xE1 0xEC a && continuation b ||
   is_char a 0xED && between 0x80 0x9F b || between 0xEE 0xEF a && continuation b) && continuation c.
Definition utf8_four (a b c d : ascii) : bool :=
  (is_char a 0xF0 && between 0x90 0xBF b || between 0xF1 0xF3 a && continuation b ||
   is_char a 0xF4 && between 0x80 0x8F b) && continuation c && continuation d.

Definition hex4 (a b c d : ascii) : option N :=
  a ← hex_val a; b ← hex_val b; c ← hex_val c; d ← hex_val d;
  Some (a * 4096 + b * 256 + c * 16 + d)%N.

(** The character after a backslash, [u] excepted. *)
Definition escaped (c : ascii) : option ascii :=
  if is_char c 34 || is_char c 92 || is_char c 47 then Some c
  else if is_char c 98 then Some (byte 8)
  else if is_char c 102 then Some (byte 12)
  else if is_char c 110 then Some (byte 10)
  else if is_char c 114 then Some (byte 13)
  else if is_char c 116 then Some (byte 9)
  else None.

Definition is_surrogate (r : N) : bool := ((0xD800 <=? r) && (r <=? 0xDFFF))%N.
(** [utf16.DecodeRune] of a pair, when it is one. *)
Definition surrogate_pair (r1 r2 : N) : option N :=
  if ((0xD800 <=? r1) && (r1 <=? 0xDBFF) && (0xDC00 <=? r2) && (r2 <=? 0xDFFF))%N
  then Some ((r1 - 0xD800) * 1024 + (r2 - 0xDC00) + 0x10000)%N else None.

Definition cons_to (p : string) (r : option (string * string)) : option (string * string) :=
  '(s, rest) ← r; Some (p +:+ s, rest).

(** What follows an opening quote: the string, unquoted, and the rest of the text. *)
Fixpoint read_string (s : string) : option (string * string) :=
  match s with
  | EmptyString => None
  | String c r =>
      if is_char c 34 then Some ("", r)
      else if is_char c 92 then
        match r with
        | EmptyString => None
        | String e r =>
            if is_char e 117 then
              match r with
              | String h1 (String h2 (String h3 (String h4 r))) =>
                  match hex4 h1 h2 h3 h4 with
                  | None => None
                  | Some rr =>
                      if is_surrogate rr then
                        match r with
                        | String b (String u (String g1 (String g2 (String g3 (String g4 r'))))) =>
                            if is_char b 92 && is_char u 117 then
                              match hex4 g1 g2 g3 g4 with
                              | None => None
                              | Some rr1 =>
                                  match surrogate_pair rr rr1 with
                                  | Some dec => cons_to (encodeRune dec) (read_string r')
                                  | None => cons_to (encodeRune 0xFFFD) (read_string r)
                                  end
                              end
                            else cons_to (encodeRune 0xFFFD) (read_string r)
                        | _ => cons_to (encodeRune 0xFFFD) (read_string r)
                        end
                      else cons_to (encodeRune rr) (read_string r)
                  end
              | _ => None
              end
            else match escaped e with
                 | Some e => cons_to (String e "") (read_string r)
                 | None => None
                 end
        end
      else if (N_of_ascii c <? 32)%N then None
      else if (N_of_ascii c <? 128)%N then cons_to (String c "") (read_string r)
      else
        match r with
        | String c1 r1 =>
            if utf8_two c c1 then cons_to (String c (String c1 "")) (read_string r1)
            else match r1 with
            | String c2 r2 =>
                if utf8_three c c1 c2 then cons_to (String c (String c1 (String c2 ""))) (read_string r2)
                else match r2 with
                | String c3 r3 =>
                    if utf8_four c c1 c2 c3
                    then cons_to (String c (String c1 (String c2 (String c3 "")))) (read_string r3)
                    else cons_to (encodeRune 0xFFFD) (read_string r)
                | EmptyString => cons_to (encodeRune 0xFFFD) (read_string r)
                end
            | EmptyString => cons_to (encodeRune 0xFFFD) (read_string r)
            end
        | EmptyString => None
        end
  end.

(** ** Numbers *)

Definition is_digit (c : ascii) : bool := between 48 57 c.

Fixpoint span_digits (s : string) : string * string :=
  match s with
  | String c r => if is_digit c then let '(d, rest) := span_digits r in (String c d, rest) else ("", s)
  | EmptyString => ("", s)
  end.

Definition nonempty (s : string) : bool := negb (bool_decide (s = "")).

(** The parts of a literal: sign, digits before and after the point, exponent. *)
Record number := mkNumber {
  Num_minus : string;
  Num_int : string;
  Num_frac : string;
  Num_exp : string }.

Definition literal (n : number) : string :=
  Num_minus n +:+ Num_int n +:+ Num_frac n +:+ Num_exp n.

(** A number at the beginning of the text and the rest of it. *)
Definition read_number (s : string) : option (number * string) :=
  let '(minus, s) := match s with
    | String c r => if is_char c 45 then ("-", r) else ("", s)
    | EmptyString => ("", s) end in
  '(int, s) ← match s with
    | String c r =>
        if is_char c 48 then Some ("0", r)
        else if is_digit c then Some (span_digits s) else None
    | EmptyString => None end;
  '(frac, s) ← match s with
    | String c r =>
        if is_char c 46 then
          let '(d, rest) := span_digits r in
          if nonempty d then Some (String c d, rest) else None
        else Some ("", s)
    | EmptyString => Some ("", s) end;
  '(exp, s) ← match s with
    | String c r =>
        if is_char c 101 || is_char c 69 then
          let '(sign, r) := match r with
            | String c' r' => if is_char c' 43 || is_char c' 45 then (String c' "", r') else ("", r)
            | EmptyString => ("", r) end in
          let '(d, rest) := span_digits r in
          if nonempty d then Some (String c (sign +:+ d), rest) else None
        else Some ("", s)
    | EmptyString => Some ("", s) end;
  Some (mkNumber minus int frac exp, s).

(** ** Reading a text *)

Inductive jsonError :=
  | ESyntax
  | ETooDeep
  | EFuel
  (** a value that does not fit the Go type *)
  | EType.

#[global] Instance jsonError_eq_dec : EqDecision jsonError.
Proof. solve_decision. Defined.

Notation jres := (result jsonError).

Definition maxNestingDepth : N := 10000.

(** The rest of a text that begins with a word. *)
Fixpoint strip_prefix (w s : string) : option string :=
  match w, s with
  | EmptyString, _ => Some s
  | String a w, String b s => if bool_decide (a = b) then strip_prefix w s else None
  | String _ _, EmptyString => None
  end.

Definition from_option {A} (o : option A) : jres A :=
  match o with Some a => Ok a | None => Err ESyntax end.

(** A value, the elements of an array after the bracket, and the members of an object after the
    brace; [depth] is the number of arrays and objects around. *)
Fixpoint read_value (fuel : nat) (depth : N) (s : string) {struct fuel} : jres (json * string) :=
  match fuel with
  | O => Err EFuel
  | S fuel =>
      match skip_space s with
      | EmptyString => Err ESyntax
      | String c r =>
          if is_char c 123 then
            if (maxNestingDepth <=? depth)%N then Err ETooDeep else
            match strip_prefix "}" (skip_space r) with
            | Some r' => Ok (JObject [], r')
            | None => '(l, r') ← read_members fuel (depth + 1) r; Ok (JObject l, r')
            end
          else if is_char c 91 then
            if (maxNestingDepth <=? depth)%N then Err ETooDeep else
            match strip_prefix "]" (skip_space r) with
            | Some r' => Ok (JArray [], r')
            | None => '(l, r') ← read_elements fuel (depth + 1) r; Ok (JArray l, r')
            end
          else if is_char c 34 then '(s, r') ← from_option (read_string r); Ok (JString s, r')
          else if is_char c 116 then r' ← from_option (strip_prefix "rue" r); Ok (JBool true, r')
          else if is_char c 102 then r' ← from_option (strip_prefix "alse" r); Ok (JBool false, r')
          else if is_char c 110 then r' ← from_option (strip_prefix "ull" r); Ok (JNull, r')
          else '(n, r') ← from_option (read_number (String c r)); Ok (JNumber (literal n), r')
      end
  end
with read_elements (fuel : nat) (depth : N) (s : string) {struct fuel} : jres (list json * string) :=
  match fuel with
  | O => Err EFuel
  | S fuel =>
      '(v, r) ← read_value fuel depth s;
      match skip_space r with
      | String c r' =>
          if is_char c 44 then '(l, r'') ← read_elements fuel depth r'; Ok (v :: l, r'')
          else if is_char c 93 then Ok ([v], r')
          else Err ESyntax
      | EmptyString => Err ESyntax
      end
  end
with read_members (fuel : nat) (depth : N) (s : string) {struct fuel}
    : jres (list (string * json) * string) :=
  match fuel with
  | O => Err EFuel
  | S fuel =>
      match skip_space s with
      | String q r =>
          if is_char q 34 then
            '(k, r) ← from_option (read_string r);
            r ← from_option (strip_prefix ":" (skip_space r));
            '(v, r) ← read_value fuel depth r;
            match skip_space r with
            | String c r' =>
                if is_char c 44 then '(l, r'') ← read_members fuel depth r'; Ok ((k, v) :: l, r'')
                else if is_char c 125 then Ok ([(k, v)], r')
                else Err ESyntax
            | EmptyString => Err ESyntax
            end
          else Err ESyntax
      | EmptyString => Err ESyntax
      end
  end.

(** The whole text is one value. *)
Definition read_text (s : string) : jres json :=
  '(v, r) ← read_value (S (2 * String.length s)) 0 s;
  if bool_decide (skip_space r = "") then Ok v else Err ESyntax.

(** ** Decoding *)

(** The new value of a variable, given the value it has. *)
Definition decoder (T : Type) := json → T → jres T.

Definition decodeString : decoder string := λ j cur,
  match j with JString s => Ok s | JNull => Ok cur | _ => Err EType end.
Definition decodeBool : decoder bool := λ j cur,
  match j with JBool b => Ok b | JNull => Ok cur | _ => Err EType end.
(** A 64-bit [int] or [int64]. *)
Definition decodeInt : decoder Z := λ j cur,
  match j with
  | JNumber lit => match ParseInt lit 64 with Ok z => Ok z | Err _ => Err EType end
  | JNull => Ok cur
  | _ => Err EType
  end.
Definition decodeUint32 : decoder N := λ j cur,
  match j with
  | JNumber lit =>
      match ParseUint lit 64 with
      | Ok n => if (n <? 2 ^ 32)%N then Ok n else Err EType
      | Err _ => Err EType
      end
  | JNull => Ok cur
  | _ => Err EType
  end.

(** [map[string]T]: every member is decoded into a zero value. *)
Definition decodeMap {T} (zero : T) (d : decoder T) : decoder (gmap string T) := λ j cur,
  match j with
  | JObject l => foldM (λ m '(k, v), x ← d v zero; Ok (<[k := x]> m)) cur l
  | JNull => Ok ∅
  | _ => Err EType
  end.

(** [[]T]: the elements present are decoded into, the others are zero values. *)
Fixpoint decodeElems {T} (zero : T) (d : decoder T) (l : list json) (cur : list T) : jres (list T) :=
  match l with
  | [] => Ok []
  | j :: l =>
      x ← d j (default zero (head cur));
      xs ← decodeElems zero d l (tail cur);
      Ok (x :: xs)
  end.
Definition decodeSlice {T} (zero : T) (d : decoder T) : decoder (list T) := λ j cur,
  match j with
  | JArray l => decodeElems zero d l cur
  | JNull => Ok []
  | _ => Err EType
  end.

(** *** Structs *)

Definition upper (c : ascii) : ascii :=
  if between 97 122 c then ascii_of_N (N_of_ascii c - 32) else c.

(** [foldName], as far as ASCII names can tell: letters are upper case, and so are the two other
    runes with an ASCII upper case (U+017F and U+212A). *)
Fixpoint foldName (s : string) : string :=
  match s with
  | EmptyString => ""
  | String c r =>
      match r with
      | String c1 r1 =>
          if is_char c 0xC5 && is_char c1 0xBF then String "S" (foldName r1)
          else match r1 with
               | String c2 r2 =>
                   if is_char c 0xE2 && is_char c1 0x84 && is_char c2 0xAA then String "K" (foldName r2)
                   else String (upper c) (foldName r)
               | EmptyString => String (upper c) (foldName r)
               end
      | EmptyString => String (upper c) (foldName r)
      end
  end.

(** The field a member goes to: the one of that name, or the first with the same folded name. *)
Definition resolve (names : list string) (key : string) : option string :=
  if bool_decide (key ∈ names) then Some key
  else snd <$> list_find (λ n, foldName n = foldName key) names.

(** The members of an object; a [null] leaves a struct as it is. *)
Definition members (j : json) : jres (list (string * json)) :=
  match j with JObject l => Ok l | JNull => Ok [] | _ => Err EType end.

(** The value of one field of a struct with fields [names] after decoding the members [l].  Each
    member changes one field, so the fields can be decoded one after the other. *)
Definition decodeField {F} (names : list string) (name : string) (d : decoder F)
    (l : list (string * json)) (cur : F) : jres F :=
  foldM (λ x '(k, v), if bool_decide (resolve names k = Some name) then d v x else Ok x) cur l.

(** *** [interface{}] *)

(** [strconv.ParseFloat(s, 64)] fails on a literal that rounds to infinity: from halfway between the
    largest double and 2^1024 on. *)
Definition doubleLimit : N := 2 ^ 1024 - 2 ^ 970.

Definition digits_value (s : string) : N :=
  match ParseUint_go (10 ^ N.of_nat (String.length s)) 0 s with Ok n => n | Err _ => 0%N end.

Definition overflows (n : number) : bool :=
  let frac := match Num_frac n with String _ d => d | EmptyString => "" end in
  let exp := match Num_exp n with
    | String _ e => match e with
        | String c d => if is_char c 45 then (- Z.of_N (digits_value d))%Z
                        else if is_char c 43 then Z.of_N (digits_value d) else Z.of_N (digits_value e)
        | EmptyString => 0%Z end
    | EmptyString => 0%Z end in
  let mantissa := digits_value (Num_int n +:+ frac) in
  let scale := (exp - Z.of_nat (String.length frac))%Z in
  let size := (Z.of_nat (String.length (pretty mantissa)) + scale)%Z in
  if (mantissa =? 0)%N then false
  else if (310 <? size)%Z then true
  else if (size <? 309)%Z then false
  else if (0 <=? scale)%Z then (doubleLimit <=? mantissa * 10 ^ Z.to_N scale)%N
  else (doubleLimit * 10 ^ Z.to_N (- scale) <=? mantissa)%N.

(** Any value is fine, but for its numbers. *)
Fixpoint fits_any (j : json) : bool :=
  match j with
  | JNumber lit => match read_number lit with Some (n, _) => negb (overflows n) | None => false end
  | JArray l => forallb fits_any l
  | JObject l => forallb (λ kv, fits_any kv.2) l
  | JNull | JBool _ | JString _ => true
  end.
Definition decodeAny : decoder unit := λ j _, if fits_any j then Ok () else Err EType.

(** [json.Unmarshal]. *)
Definition Unmarshal {T} (d : decoder T) (data : string) (v : T) : jres T :=
  j ← read_text data; d j v.

(** ** Reading terminates *)

Notation len := String.length.

Lemma skip_space_length s : len (skip_space s) ≤ len s.
Proof. induction s as [|c s IH]; [done|]. cbn. destruct (is_space c); cbn; lia. Qed.

Lemma strip_prefix_Some w s r : strip_prefix w s = Some r ↔ s = w +:+ r.
Proof.
  revert s; induction w as [|a w IH]; intros s; cbn; [naive_solver|].
  destruct s as [|b s]; [naive_solver|]. case_bool_decide as E.
  - subst b. rewrite IH. split; [by intros ->|]. by intros [= ->].
  - split; [done|]. intros [= -> ?]. done.
Qed.

Lemma cons_to_Some p o s rest :
  cons_to p o = Some (s, rest) ↔ ∃ s', o = Some (s', rest) ∧ s = p +:+ s'.
Proof. unfold cons_to. destruct o as [[s' r']|]; cbn; naive_solver. Qed.

(** Case analysis on the outermost test of a hypothesis [H : e = _]. *)
Ltac split_head H :=
  match type of H with
  | None = Some _ => discriminate H
  | Some _ = Some _ => injection H as H
  | (if ?b then _ else _) = _ => destruct b
  | match ?t with Some _ => _ | None => _ end = _ => destruct t
  | match ?t with EmptyString => _ | String _ _ => _ end = _ => is_var t; destruct t
  end.

Lemma read_string_length s x r : read_string s = Some (x, r) → len r < len s.
Proof.
  remember (len s) as k eqn:Hk. revert s x Hk.
  induction (lt_wf k) as [k _ IH]. intros s x -> H.
  destruct s as [|c s]; [done|]. cbn [read_string] in H.
  repeat split_head H; try (subst; cbn; lia);
    (apply cons_to_Some in H as (x' & H & _);
     match type of H with read_string ?t = _ => apply (IH (len t)) in H; [|cbn; lia|done] end;
     cbn in *; lia).
Qed.

Lemma span_digits_app s d r : span_digits s = (d, r) → s = d +:+ r.
Proof.
  revert d; induction s as [|c s IH]; intros d; cbn; [by intros [= <- <-]|].
  destruct (is_digit c); [|by intros [= <- <-]].
  destruct (span_digits s) as [d' r'] eqn:E. intros [= <- <-]. cbn. by rewrite (IH d' eq_refl) at 1.
Qed.

(** What is read is at the beginning of the text. *)
Lemma read_number_app s n r : read_number s = Some (n, r) → s = literal n +:+ r ∧ 0 < len (Num_int n).
Proof.
  unfold read_number. intros H.
  set (p1 := match s with String c r => if is_char c 45 then ("-", r) else ("", s) | "" => ("", s) end) in H.
  assert (s = p1.1 +:+ p1.2) as Hs.
  { unfold p1, is_char. destruct s as [|c s']; [done|]. destruct (N.eqb_spec (N_of_ascii c) 45) as [E|]; [|done].
    rewrite <-(ascii_N_embedding c), E. done. }
  destruct p1 as [minus s1]. cbn [fst snd] in Hs. rewrite Hs. clear Hs s.
  apply bind_Some in H as ([int s2] & H1 & H). apply bind_Some in H as ([frac s3] & H2 & H).
  apply bind_Some in H as ([exp s4] & H3 & [= <- <-]). unfold literal; cbn [Num_minus Num_int Num_frac Num_exp].
  assert (s1 = int +:+ s2 ∧ 0 < len int) as [-> Hlen].
  { destruct s1 as [|c s1']; [done|]. unfold is_char in H1.
    destruct (N.eqb_spec (N_of_ascii c) 48) as [E|].
    - injection H1 as <- <-. rewrite <-(ascii_N_embedding c), E. cbn. split; [done|lia].
    - cbn [span_digits] in H1. destruct (is_digit c); [|done].
      destruct (span_digits s1') as [d' r'] eqn:E. apply span_digits_app in E. injection H1 as <- <-.
      rewrite E. cbn. split; [done|lia]. }
  assert (s2 = frac +:+ s3) as ->.
  { destruct s2 as [|c s2']; [by injection H2 as <- <-|]. destruct (is_char c 46); [|by injection H2 as <- <-].
    destruct (span_digits s2') as [d' r'] eqn:E. apply span_digits_app in E.
    destruct (nonempty d'); [|done]. injection H2 as <- <-. by rewrite E. }
  assert (s3 = exp +:+ s4) as ->.
  { destruct s3 as [|c s3']; [by injection H3 as <- <-|].
    destruct (is_char c 101 || is_char c 69); [|by injection H3 as <- <-].
    assert (∀ sign x, s3' = sign +:+ x →
      (let '(d, rest) := span_digits x in if nonempty d then Some (String c (sign +:+ d), rest) else None)
        = Some (exp, s4) → String c s3' = exp +:+ s4) as Hgen.
    { intros sign x -> Hx. destruct (span_digits x) as [d' r'] eqn:E. apply span_digits_app in E.
      destruct (nonempty d'); [|done]. injection Hx as <- <-. rewrite E.
      change (String c (sign +:+ d') +:+ r') with (String c ((sign +:+ d') +:+ r')).
      by rewrite app_assoc_string. }
    destruct s3' as [|c' s3'']; [by apply (Hgen "" "")|].
    destruct (is_char c' 43 || is_char c' 45); [by apply (Hgen (String c' "") s3'')|by apply (Hgen "" (String c' s3''))]. }
  by rewrite !app_assoc_string.
Qed.

Lemma from_option_Ok {A} (o : option A) a : from_option o = Ok a ↔ o = Some a.
Proof. destruct o; cbn; naive_solver. Qed.

Lemma from_option_fuel {A} (o : option A) : from_option o ≠ Err EFuel.
Proof. by destruct o. Qed.

Lemma bind_fuel {A B} (m : jres A) (f : A → jres B) :
  m ≠ Err EFuel → (∀ a, m = Ok a → f a ≠ Err EFuel) → (m ≫= f) ≠ Err EFuel.
Proof. destruct m as [a|e]; cbn; [auto|congruence]. Qed.

(** Case analysis on the outermost test of a reader. *)
Ltac split_read H :=
  match type of H with
  | Err _ = Ok _ => discriminate H
  | (if ?b then _ else _) = _ => destruct b
  | match ?t with Some _ => _ | None => _ end = _ => let E := fresh "E" in destruct t eqn:E
  | (_ ≫= _) = Ok _ => let E := fresh "E" in apply bind_Ok in H as (? & E & H)
  | match ?p with pair _ _ => _ end = _ => destruct p
  | match skip_space ?t with EmptyString => _ | String _ _ => _ end = _ =>
      let E := fresh "E" in pose proof (skip_space_length t); destruct (skip_space t) eqn:E
  | Ok _ = Ok _ => injection H as H
  end.

(** The lengths of the parts that were read. *)
Ltac read_lengths :=
  repeat match goal with
  | E : from_option _ = Ok _ |- _ => apply from_option_Ok in E
  | E : strip_prefix _ _ = Some _ |- _ => apply strip_prefix_Some in E
  | E : read_string _ = Some _ |- _ => apply read_string_length in E
  | E : read_number _ = Some _ |- _ => apply read_number_app in E as [E ?]
  | E : skip_space ?t = _ +:+ _ |- _ => pose proof (skip_space_length t); apply (f_equal len) in E
  | E : _ = _ +:+ _ |- _ => apply (f_equal len) in E
  end; unfold literal in *; rewrite ?length_app_string in *; cbn [len] in *.

(** What is left of the text is shorter. *)
Lemma read_shorter fuel :
  (∀ d s v r, read_value fuel d s = Ok (v, r) → len r < len s) ∧
  (∀ d s l r, read_elements fuel d s = Ok (l, r) → len r < len s) ∧
  (∀ d s l r, read_members fuel d s = Ok (l, r) → len r < len s).
Proof.
  induction fuel as [|fuel (IHv & IHe & IHm)]; [by split_and!|].
  split_and!; intros d s x r H; cbn [read_value read_elements read_members] in H;
    repeat split_read H; subst; read_lengths;
    repeat match goal with
    | E : read_value _ _ _ = Ok _ |- _ => apply IHv in E
    | E : read_elements _ _ _ = Ok _ |- _ => apply IHe in E
    | E : read_members _ _ _ = Ok _ |- _ => apply IHm in E
    end; cbn [len] in *; lia.
Qed.

(** Twice the length of the text is fuel enough. *)
Lemma read_enough fuel :
  (∀ d s, 2 * len s + 1 ≤ fuel → read_value fuel d s ≠ Err EFuel) ∧
  (∀ d s, 2 * len s + 2 ≤ fuel → read_elements fuel d s ≠ Err EFuel) ∧
  (∀ d s, 2 * len s + 2 ≤ fuel → read_members fuel d s ≠ Err EFuel).
Proof.
  induction fuel as [|fuel (IHv & IHe & IHm)]; [split_and!; intros; lia|].
  pose proof (read_shorter fuel) as (Sv & Se & Sm).
  split_and!; intros d s Hlen; cbn [read_value read_elements read_members];
    repeat match goal with
    | |- Ok _ ≠ _ => done
    | |- Err ?e ≠ Err EFuel => done
    | |- from_option _ ≠ _ => apply from_option_fuel
    | |- (_ ≫= _) ≠ _ => apply bind_fuel; [|intros ? ?]
    | |- (if ?b then _ else _) ≠ _ => destruct b
    | |- match ?t with Some _ => _ | None => _ end ≠ _ => let E := fresh "E" in destruct t eqn:E
    | |- match ?p with pair _ _ => _ end ≠ _ => destruct p
    | |- match skip_space ?t with EmptyString => _ | String _ _ => _ end ≠ _ =>
        let E := fresh "E" in pose proof (skip_space_length t); destruct (skip_space t) eqn:E
    end;
    repeat match goal with
    | E : read_value _ _ _ = Ok _ |- _ => apply Sv in E
    end; read_lengths; [first [apply IHv | apply IHe | apply IHm]; lia..].
Qed.

Lemma read_text_fuel s : read_text s ≠ Err EFuel.
Proof.
  unfold read_text. apply bind_fuel; [apply read_enough; lia|]. intros [v r] _. by case_bool_decide.
Qed.
