(* ===== verification/Glog.v ===== *)
(** * The redirection of glog ([internal/logging/logging.go])

    The logger singleton, and the goroutine that reads the lines glog writes on a pipe and logs them again: [deformat]
    takes the header of a line apart with a regular expression.  The fields of the logged timestamp are the arguments
    of [time.Date]; its conversion to UTC and its format are left to package time. *)

From Stdlib Require Import Ascii Lia.
From S2P Require Import Prelude GoStrings Logging Json.

(** ** The singleton *)

(** [instance], [initErr] and whether [once] has run. *)
Record singleton := mkSingleton {
  SG_instance : option Logger;
  SG_initErr : option string;
  SG_done : bool }.
Definition zeroSingleton : singleton := mkSingleton None None false.

(** [initLogger] fails only if the pipe cannot be made. *)
Definition initLoggerWith (pipe : option string) : option Logger * option string :=
  match pipe with
  | Some e => (None, Some ("creating pipe for glog redirection: " +:+ e))
  | None => (Some initLogger, None)
  end.

Definition Init (pipe : option string) (s : singleton) : singleton * option string :=
  let s := if SG_done s then s
           else let '(l, e) := initLoggerWith pipe in mkSingleton l e true in
  (s, SG_initErr s).

(** [GetLogger]; [Err] is a panic. *)
Definition GetLogger (s : singleton) : result string Logger :=
  match SG_initErr s with
  | Some e => Err ("logging: initialization failed: " +:+ e)
  | None =>
      match SG_instance s with
      | None => Err "logging: Init() must be called before GetLogger()"
      | Some l => Ok l
      end
  end.

(** [GetLogger().SetLogLevel(lvl)]. *)
Definition setLevel (lvl : Level) (s : singleton) : result string singleton :=
  l ← GetLogger s; Ok (mkSingleton (Some (SetLogLevel l lvl)) (SG_initErr s) (SG_done s)).

(** The logger is made once: initialising again, from another part of the program or after a failure, neither resets the
    level that was set nor changes the error that is reported; and the logger is there exactly when [Init] succeeded. *)
Theorem Init_once pipe pipe' lvl :
  let '(s, err) := Init pipe zeroSingleton in
  Init pipe' s = (s, err) ∧ (err = None ↔ is_ok (GetLogger s) = true) ∧
  match setLevel lvl s with
  | Ok s' => err = None ∧ GetLogger (fst (Init pipe' s')) = Ok (SetLogLevel initLogger lvl)
  | Err _ => err ≠ None
  end.
Proof. by destruct pipe. Qed.

(** ** The lines of glog *)

Inductive leveled := AtInfo | AtWarn | AtError.

(** [time.Now()], or [time.Date] of these. *)
Inductive timestamp := Now | Date (year month day hour minute second nsec : Z).

Record logLine := mkLogLine {
  LL_level : leveled;
  LL_ts : timestamp;
  LL_caller : string;
  LL_msg : string }.

(** ** The regular expression [logPrefix]

    A severity, the date and the time as digits, spaces, a number, a file name and a line number, a bracket, and the rest
    of the line.  Each part can match in one way, so the parts are read from left to right. *)

(** ".": one rune, which is one byte where the text is not UTF-8, and no newline. *)
Definition anyRune (s : string) : option (string * string) :=
  match s with
  | EmptyString => None
  | String a r =>
      if is_char a 10 then None
      else Some match r with
        | String b r1 =>
            if utf8_two a b then (String a (String b ""), r1)
            else match r1 with
            | String c r2 =>
                if utf8_three a b c then (String a (String b (String c "")), r2)
                else match r2 with
                | String d r3 =>
                    if utf8_four a b c d then (String a (String b (String c (String d ""))), r3)
                    else (String a "", r)
                | EmptyString => (String a "", r)
                end
            | EmptyString => (String a "", r)
            end
        | EmptyString => (String a "", r)
        end
  end.

(** "\d{n}". *)
Fixpoint digitsN (n : nat) (s : string) : option (string * string) :=
  match n, s with
  | O, _ => Some ("", s)
  | S n, String c s => if is_digit c then '(d, r) ← digitsN n s; Some (String c d, r) else None
  | S _, EmptyString => None
  end.

(** A literal byte. *)
Definition char (c : ascii) (s : string) : option string :=
  match s with String a s => if bool_decide (a = c) then Some s else None | EmptyString => None end.

(** "\d+". *)
Definition digits1 (s : string) : option (string * string) :=
  let '(d, r) := span_digits s in if nonempty d then Some (d, r) else None.

(** "\s+": tab, newline, form feed, carriage return and space. *)
Definition regexpSpace (c : ascii) : bool := is_char c 9 || is_char c 10 || is_char c 12 || is_char c 13 || is_char c 32.
Fixpoint skipSpaces (s : string) : string :=
  match s with
  | EmptyString => ""
  | String c r => if regexpSpace c then skipSpaces r else s
  end.
Definition spaces1 (s : string) : option string :=
  match s with String c r => if regexpSpace c then Some (skipSpaces r) else None | EmptyString => None end.

(** "[^:]+" before a colon: everything up to the first one. *)
Fixpoint untilColon (s : string) : option (string * string) :=
  match s with
  | EmptyString => None
  | String c r => if bool_decide (c = ":"%char) then Some ("", r)
                  else '(a, r) ← untilColon r; Some (String c a, r)
  end.

(** The nine submatches. *)
Record submatches := mkSubmatches {
  ms1 : string; ms2 : string; ms3 : string; ms4 : string; ms5 : string; ms6 : string; ms7 : string;
  ms8 : string; ms9 : string }.

Definition logPrefix (s : string) : option submatches :=
  '(sev, s) ← anyRune s;
  '(mo, s) ← digitsN 2 s; '(da, s) ← digitsN 2 s; s ← char " " s;
  '(ho, s) ← digitsN 2 s; s ← char ":" s;
  '(mi, s) ← digitsN 2 s; s ← char ":" s;
  '(se, s) ← digitsN 2 s; '(_, s) ← anyRune s; '(us, s) ← digitsN 6 s;
  s ← spaces1 s; '(_, s) ← digits1 s; s ← char " " s;
  '(file, s) ← untilColon s;
  '(ln, s) ← (if nonempty file then digits1 s else None);
  s ← char "]" s; msg ← char " " s;
  if contains_char "010" msg then None
  else Some (mkSubmatches sev mo da ho mi se us (file +:+ ":" +:+ ln) msg).

(** [deformat]; [year] is the current one. *)
Definition deformat (year : Z) (b : string) : logLine :=
  let default := mkLogLine AtInfo Now "" b in
  if (String.length b <? 30)%nat then default
  else match logPrefix b with
  | None => default
  | Some ms =>
      match Atoi (ms2 ms), Atoi (ms3 ms), Atoi (ms4 ms), Atoi (ms5 ms), Atoi (ms6 ms), Atoi (ms7 ms) with
      | Ok month, Ok day, Ok hour, Ok minute, Ok second, Ok micros =>
          let lvl := match ms1 ms with
            | String c _ => if bool_decide (c = "I"%char) then AtInfo
                            else if bool_decide (c = "W"%char) then AtWarn
                            else if bool_decide (c ∈ ["E"; "F"]%char) then AtError
                            else AtInfo
            | EmptyString => AtInfo
            end in
          mkLogLine lvl (Date year month day hour minute second (micros * 1000)) (ms8 ms) (ms9 ms)
      | _, _, _, _, _, _ => default
      end
  end.

(** [collectGlogs]: what [ReadLine] returns, a chunk and whether the line goes on, until it fails; the chunks of a line
    are put together. *)
Fixpoint collectGlogs (year : Z) (buf : string) (reads : list (string * bool)) : list logLine :=
  match reads with
  | [] => []
  | (l, pfx) :: reads =>
      if pfx : bool then collectGlogs year (buf +:+ l) reads
      else deformat year (buf +:+ l) :: collectGlogs year "" reads
  end.

(** ** What glog prints *)

Definition digit (n : N) : ascii := ascii_of_N (48 + n mod 10).

(** "%0kd" of a number of at most [k] digits. *)
Fixpoint padded (k : nat) (n : N) : string :=
  match k with O => "" | S k => padded k (n / 10) +:+ String (digit n) "" end.

Fixpoint spaces (n : nat) : string := match n with O => "" | S n => String " " (spaces n) end.

(** The fields of the documented header "Lmmdd hh:mm:ss.uuuuuu threadid file:line] msg". *)
Record header := mkHeader {
  H_severity : ascii;
  H_month : N; H_day : N; H_hour : N; H_minute : N; H_second : N; H_micros : N;
  H_padding : nat; H_thread : N;
  H_file : string; H_line : N }.

Definition glogText (h : header) (msg : string) : string :=
  String (H_severity h) (padded 2 (H_month h) +:+ padded 2 (H_day h) +:+ String " "
    (padded 2 (H_hour h) +:+ String ":" (padded 2 (H_minute h) +:+ String ":"
    (padded 2 (H_second h) +:+ String "." (padded 6 (H_micros h) +:+ String " " (spaces (H_padding h) +:+
    (pretty (H_thread h) +:+ String " " (H_file h +:+ String ":" (pretty (H_line h) +:+ String "]" (String " " msg)))))))))).

Record header_ok (h : header) : Prop := {
  ho_severity : H_severity h ∈ ["I"; "W"; "E"; "F"]%char;
  ho_date : (H_month h < 100 ∧ H_day h < 100)%N;
  ho_time : (H_hour h < 100 ∧ H_minute h < 100 ∧ H_second h < 100 ∧ H_micros h < 1000000)%N;
  ho_file : H_file h ≠ "" ∧ contains_char ":" (H_file h) = false }.

Definition severity (c : ascii) : leveled :=
  if bool_decide (c = "I"%char) then AtInfo else if bool_decide (c = "W"%char) then AtWarn else AtError.

(** ** Digits *)

Lemma digit_facts n : is_digit (digit n) = true ∧ digit_val (digit n) = Some (n mod 10)%N.
Proof.
  unfold digit. pose proof (N.mod_lt n 10 ltac:(done)) as Hlt. generalize dependent (n mod 10)%N. intros d Hd.
  assert (∀ d, d ∈ (N.of_nat <$> seq 0 10) →
    is_digit (ascii_of_N (48 + d)) = true ∧ digit_val (ascii_of_N (48 + d)) = Some d) as H.
  { apply Forall_forall. by_evaluation. }
  apply H. apply list_elem_of_fmap. exists (N.to_nat d). rewrite N2Nat.id. split; [done|].
  apply elem_of_seq. lia.
Qed.

Lemma digitsN_padded k n s : digitsN k (padded k n +:+ s) = Some (padded k n, s).
Proof.
  assert (∀ k n s j, digitsN (k + j) (padded k n +:+ s) =
    '(d, r) ← digitsN j s; Some (padded k n +:+ d, r)) as H.
  { clear. intros k. induction k as [|k IH]; intros n s j; cbn [padded].
    - change ("" +:+ s) with s. cbn [Nat.add]. by destruct (digitsN j s) as [[]|].
    - rewrite app_assoc_string. replace (S k + j) with (k + S j) by lia. rewrite IH.
      change (String (digit n) "" +:+ s) with (String (digit n) s). cbn [digitsN].
      rewrite (proj1 (digit_facts n)). destruct (digitsN j s) as [[d r]|]; [|done]. cbn.
      by rewrite app_assoc_string. }
  specialize (H k n s 0). rewrite Nat.add_0_r in H. rewrite H. cbn.
  by rewrite app_nil_string.
Qed.

Lemma ParseUint_go_padded max k n acc s :
  (n < 10 ^ N.of_nat k)%N → (acc * 10 ^ N.of_nat k + n ≤ max)%N →
  ParseUint_go max acc (padded k n +:+ s) = ParseUint_go max (acc * 10 ^ N.of_nat k + n) s.
Proof.
  revert n s. induction k as [|k IH]; intros n s Hn Hmax.
  - cbn in *. f_equal. lia.
  - rewrite Nat2N.inj_succ, N.pow_succ_r' in Hn, Hmax |- *. cbn [padded].
    rewrite app_assoc_string. pose proof (N.div_mod n 10 ltac:(done)) as Hdm.
    pose proof (N.mod_lt n 10 ltac:(done)) as Hlt.
    rewrite IH.
    + change (String (digit n) "" +:+ s) with (String (digit n) s). cbn [ParseUint_go].
      rewrite (proj2 (digit_facts n)).
      replace ((acc * 10 ^ N.of_nat k + n / 10) * 10 + n mod 10)%N
        with (acc * (10 * 10 ^ N.of_nat k) + n)%N by lia.
      destruct (N.ltb_spec max (acc * (10 * 10 ^ N.of_nat k) + n)); [lia|done].
    + apply N.Div0.div_lt_upper_bound. lia.
    + rewrite N.mul_assoc, (N.mul_comm acc 10), <-N.mul_assoc in Hmax.
      assert (n / 10 ≤ n)%N by (apply N.Div0.div_le_upper_bound; clear; lia).
      generalize dependent (acc * 10 ^ N.of_nat k)%N. intros m _ Hm. clear -Hm H.
      generalize dependent (n / 10)%N. intros. lia.
Qed.

Lemma Atoi_padded k n :
  (0 < k ≤ 6)%nat → (n < 10 ^ N.of_nat k)%N → Atoi (padded k n) = Ok (Z.of_N n).
Proof.
  intros [Hk Hk6] Hn.
  assert (n < 1000000)%N as Hmil.
  { eapply N.lt_le_trans; [exact Hn|]. change 1000000%N with (10 ^ 6)%N. apply N.pow_le_mono_r; lia. }
  assert (ParseUint (padded k n) 64 = Ok n) as Hp.
  { pose proof (ParseUint_go_padded (2 ^ 64 - 1) k n 0 "" Hn) as H.
    rewrite N.mul_0_l, N.add_0_l in H. specialize (H ltac:(change (2 ^ 64 - 1)%N with 18446744073709551615%N; lia)).
    rewrite app_nil_string in H.
    unfold ParseUint. destruct (padded k n) as [|c r] eqn:E; [|done].
    destruct k; [lia|]. cbn [padded] in E. by destruct (padded k (n / 10)). }
  assert (∃ c r, padded k n = String c r ∧ is_digit c = true) as (c & r & Hc & Hd).
  { destruct k as [|k]; [lia|]. clear. revert n. induction k as [|k IH]; intros n.
    - eexists _, _. split; [done|]. apply digit_facts.
    - destruct (IH (n / 10)%N) as (c & r & Hc & Hd). exists c. eexists. split; [|done].
      change (padded (S (S k)) n) with (padded (S k) (n / 10) +:+ String (digit n) ""). by rewrite Hc. }
  unfold ParseInt. rewrite Hc.
  assert (c ≠ "-"%char ∧ c ≠ "+"%char) as [Hm Hpl] by (split; intros ->; done).
  rewrite !bool_decide_eq_false_2 by done. rewrite <-Hc, Hp. cbn [mbind result_bind].
  change (2 ^ (64 - 1))%N with 9223372036854775808%N. destruct (N.leb_spec 9223372036854775808 n); [lia|done].
Qed.

(** ** The round trip *)

Lemma span_digits_pretty (n : N) c s :
  is_digit c = false → span_digits (pretty n +:+ String c s) = (pretty n, String c s).
Proof.
  intros Hc. assert (∀ p, (∀ d, is_digit d = false → contains_char d p = false) →
    span_digits (p +:+ String c s) = (p, String c s)) as H.
  { intros p. induction p as [|d p IH]; intros Hp.
    - change ("" +:+ String c s) with (String c s). cbn [span_digits]. by rewrite Hc.
    - change (String d p +:+ String c s) with (String d (p +:+ String c s)). cbn [span_digits].
      destruct (is_digit d) eqn:Ed; [|specialize (Hp d Ed); cbn in Hp; by rewrite bool_decide_eq_true_2 in Hp].
      rewrite IH; [done|]. intros e He. specialize (Hp e He). cbn in Hp. by apply orb_false_iff in Hp as [_ ?]. }
  apply H. intros d Hd. apply pretty_no_char. unfold digit_val. unfold is_digit, between in Hd. by rewrite Hd.
Qed.

Lemma digits1_pretty (n : N) c s : is_digit c = false → digits1 (pretty n +:+ String c s) = Some (pretty n, String c s).
Proof.
  intros Hc. unfold digits1. rewrite span_digits_pretty by done. by destruct (pretty_N_cons n) as (d & r & ->).
Qed.

Lemma skipSpaces_spaces k s : skipSpaces (spaces k +:+ s) = skipSpaces s.
Proof. induction k as [|k IH]; [done|]. exact IH. Qed.

Lemma skipSpaces_pretty (n : N) s : skipSpaces (pretty n +:+ s) = pretty n +:+ s.
Proof.
  destruct (pretty_N_cons n) as (c & r & Hc). rewrite Hc.
  change (String c r +:+ s) with (String c (r +:+ s)). cbn [skipSpaces].
  destruct (regexpSpace c) eqn:E; [|done]. exfalso.
  assert (digit_val c = None) as Hd.
  { unfold regexpSpace, is_char in E. unfold digit_val.
    repeat (apply orb_true_iff in E as [E|E]); apply N.eqb_eq in E; by rewrite E. }
  pose proof (pretty_no_char c n Hd) as H. rewrite Hc in H. cbn in H. by rewrite bool_decide_eq_true_2 in H.
Qed.

Lemma untilColon_app a s : contains_char ":" a = false → untilColon (a +:+ String ":" s) = Some (a, s).
Proof.
  induction a as [|c a IH]; intros Ha; [done|].
  change (String c a +:+ String ":" s) with (String c (a +:+ String ":" s)). cbn [untilColon contains_char] in *.
  apply orb_false_iff in Ha as [-> Ha]. by rewrite IH.
Qed.

Lemma anyRune_ascii c s : c ∈ ["I"; "W"; "E"; "F"; "."]%char → anyRune (String c s) = Some (String c "", s).
Proof.
  intros Hc. assert (∀ a b d, is_char c 10 = false ∧ utf8_two c a = false ∧ utf8_three c a b = false ∧
    utf8_four c a b d = false) as H.
  { intros a b d. repeat (apply elem_of_cons in Hc as [->|Hc]; [done|]). by apply elem_of_nil in Hc. }
  cbn [anyRune]. rewrite (proj1 (H c c c)).
  destruct s as [|a s]; [done|]. destruct (H a c c) as (_ & -> & _).
  destruct s as [|b s]; [done|]. destruct (H a b c) as (_ & _ & -> & _).
  destruct s as [|d s]; [done|]. by destruct (H a b d) as (_ & _ & _ & ->).
Qed.

Lemma char_same c s : char c (String c s) = Some s.
Proof. unfold char. by rewrite bool_decide_eq_true_2. Qed.

Lemma spaces1_spaces k (n : N) s : spaces1 (String " " (spaces k +:+ (pretty n +:+ s))) = Some (pretty n +:+ s).
Proof. cbn [spaces1]. rewrite skipSpaces_spaces, skipSpaces_pretty. done. Qed.

Lemma logPrefix_glogText h msg :
  header_ok h → contains_char "010" msg = false →
  logPrefix (glogText h msg) = Some (mkSubmatches (String (H_severity h) "")
    (padded 2 (H_month h)) (padded 2 (H_day h)) (padded 2 (H_hour h)) (padded 2 (H_minute h)) (padded 2 (H_second h))
    (padded 6 (H_micros h)) (H_file h +:+ ":" +:+ pretty (H_line h)) msg).
Proof.
  intros [Hsev _ _ [Hfile Hcolon]] Hmsg. unfold logPrefix, glogText.
  repeat (first
    [ rewrite digitsN_padded | rewrite char_same | rewrite anyRune_ascii by set_solver
    | rewrite digits1_pretty by done | rewrite untilColon_app by done
    | rewrite spaces1_spaces ]; cbn [mbind option_bind]).
  unfold nonempty at 1. rewrite bool_decide_eq_false_2 by done. cbn [negb mbind option_bind].
  repeat (rewrite char_same; cbn [mbind option_bind]). by rewrite Hmsg.
Qed.

(** Lines of glog are logged again as they were: of every line with the header glog documents, the severity becomes the level
    (fatal lines are errors), the date and time those of the header in the current year, and the file, the line number and the
    message are kept to the byte. *)
Theorem deformat_round_trip year h msg :
  header_ok h → contains_char "010" msg = false → 30 ≤ String.length (glogText h msg) →
  deformat year (glogText h msg) =
  mkLogLine (severity (H_severity h))
    (Date year (Z.of_N (H_month h)) (Z.of_N (H_day h)) (Z.of_N (H_hour h)) (Z.of_N (H_minute h))
       (Z.of_N (H_second h)) (Z.of_N (H_micros h) * 1000))
    (H_file h +:+ ":" +:+ pretty (H_line h)) msg.
Proof.
  intros Hh Hmsg Hlen. unfold deformat. destruct (Nat.ltb_spec (String.length (glogText h msg)) 30); [lia|].
  rewrite logPrefix_glogText by done. cbn [ms1 ms2 ms3 ms4 ms5 ms6 ms7 ms8 ms9].
  destruct Hh as [Hsev [? ?] (? & ? & ? & ?) _].
  rewrite !(Atoi_padded 2), (Atoi_padded 6) by (done || lia). f_equal.
  repeat (apply elem_of_cons in Hsev as [->|Hsev]; [done|]). by apply elem_of_nil in Hsev.
Qed.

(** Every line is logged: the chunks of a line that does not fit the buffer are one message, and a line
    that is not glog's is logged as it is. *)
Theorem collectGlogs_lines year lines :
  collectGlogs year "" (lines ≫= λ chunks : list string * string, ((λ c, (c, true)) <$> chunks.1) ++ [(chunks.2, false)]) =
  (λ chunks, deformat year (String.concat "" (chunks.1 ++ [chunks.2]))) <$> lines.
Proof.
  induction lines as [|[cs c] lines IH]; [done|]. cbn [mbind list_bind fmap list_fmap fst snd].
  assert (∀ buf, collectGlogs year buf ((((λ c, (c, true)) <$> cs) ++ [(c, false)]) ++
      (lines ≫= λ chunks, ((λ c, (c, true)) <$> chunks.1) ++ [(chunks.2, false)])) =
    deformat year (buf +:+ String.concat "" (cs ++ [c])) :: collectGlogs year "" 
      (lines ≫= λ chunks, ((λ c, (c, true)) <$> chunks.1) ++ [(chunks.2, false)])) as H.
  { clear IH. induction cs as [|d cs IH]; intros buf; cbn [fmap list_fmap app collectGlogs]; [done|].
    rewrite IH. rewrite app_assoc_string. do 3 f_equal. by destruct (cs ++ [c]) eqn:E; [destruct cs|]. }
  rewrite (H ""), IH. done.
Qed.

Definition sampleHeader : header := mkHeader "W" 3 14 15 9 26 535897 3 1234 "reflector.go" 105.

Lemma deformat_round_trip_witness :
  deformat 2024 (glogText sampleHeader "watch closed: retrying") =
  mkLogLine AtWarn (Date 2024 3 14 15 9 26 535897000) "reflector.go:105" "watch closed: retrying".
Proof.
  rewrite (deformat_round_trip 2024 sampleHeader "watch closed: retrying").
  - vm_compute; reflexivity.
  - split; by_evaluation.
  - vm_compute; reflexivity.
  - vm_compute; lia.
Defined.

Example sample_text :
  glogText sampleHeader "m" = "W0314 15:09:26.535897    1234 reflector.go:105] m".
Proof. vm_compute. reflexivity. Qed.
