(* ===== verification/JsonPrint.v ===== *)
(** * Printing JSON

    The compact text of a value, and the round trip: reading what was printed gives the value
    back.  The parsers of [Parse.v] are shown on texts printed this way. *)

From Stdlib Require Import Ascii Lia.
From S2P Require Import Prelude GoStrings Json.

(** ** Printing *)

Section json_induction.
Variable P : json → Prop.
Hypothesis Hnull : P JNull.
Hypothesis Hbool : ∀ b, P (JBool b).
Hypothesis Hnumber : ∀ l, P (JNumber l).
Hypothesis Hstring : ∀ s, P (JString s).
Hypothesis Harray : ∀ l, Forall P l → P (JArray l).
Hypothesis Hobject : ∀ l, Forall (λ kv, P kv.2) l → P (JObject l).

Fixpoint json_nested_ind (j : json) : P j :=
  match j with
  | JNull => Hnull
  | JBool b => Hbool b
  | JNumber l => Hnumber l
  | JString s => Hstring s
  | JArray l => Harray l ((fix go l : Forall P l :=
      match l with [] => Forall_nil_2 P | j :: l => Forall_cons_2 P _ _ (json_nested_ind j) (go l) end) l)
  | JObject l => Hobject l ((fix go l : Forall (λ kv, P kv.2) l :=
      match l with [] => Forall_nil_2 _ | kv :: l => Forall_cons_2 _ _ _ (json_nested_ind kv.2) (go l) end) l)
  end.
End json_induction.

Definition quote : string := String (byte 34) "".

(** Words separated by commas. *)
Fixpoint commas (l : list string) : string :=
  match l with
  | [] => ""
  | [s] => s
  | s :: l => s +:+ "," +:+ commas l
  end.

(** The compact text of a value. *)
Fixpoint print (j : json) : string :=
  match j with
  | JNull => "null"
  | JBool b => if b then "true" else "false"
  | JNumber l => l
  | JString s => quote +:+ s +:+ quote
  | JArray l => "[" +:+ commas (print <$> l) +:+ "]"
  | JObject l => "{" +:+ commas ((λ kv, quote +:+ kv.1 +:+ quote +:+ ":" +:+ print kv.2) <$> l) +:+ "}"
  end.

(** Characters that need no escape. *)
Definition plain_char (c : ascii) : bool := between 32 127 c && negb (is_char c 34 || is_char c 92).
Fixpoint plain (s : string) : bool :=
  match s with EmptyString => true | String c s => plain_char c && plain s end.

(** Values whose strings need no escapes and whose numbers are integers. *)
Fixpoint printable (j : json) : Prop :=
  match j with
  | JNull | JBool _ => True
  | JNumber l => ∃ z : Z, l = pretty z
  | JString s => plain s = true
  | JArray l => foldr (λ j P, printable j ∧ P) True l
  | JObject l => foldr (λ kv P, (plain kv.1 = true ∧ printable kv.2) ∧ P) True l
  end.

Fixpoint height (j : json) : N :=
  match j with
  | JArray l => (1 + foldr (λ j n, N.max (height j) n) 0 l)%N
  | JObject l => (1 + foldr (λ kv n, N.max (height kv.2) n) 0 l)%N
  | _ => 0%N
  end.

(** What follows a value inside an array or an object, or at the end. *)
Definition stops (rest : string) : Prop :=
  match rest with EmptyString => True | String c _ => is_char c 44 || is_char c 93 || is_char c 125 = true end.

(** ** Reading what was printed *)

Lemma is_char_eq c n : is_char c n = true → (n < 256)%N → c = byte n.
Proof. unfold is_char, byte. intros ?%N.eqb_eq _. subst n. by rewrite ascii_N_embedding. Qed.

Lemma read_plain s rest : plain s = true → read_string (s +:+ quote +:+ rest) = Some (s, rest).
Proof.
  induction s as [|c s IH]; cbn [plain]; [done|].
  intros [Hc Hs]%andb_true_iff. unfold plain_char, between in Hc.
  apply andb_true_iff in Hc as [[Hlo Hhi]%andb_true_iff [H34 H92]%negb_true_iff%orb_false_iff].
  change (String c s +:+ quote +:+ rest) with (String c (s +:+ quote +:+ rest)). cbn [read_string].
  rewrite H34, H92. apply N.leb_le in Hlo, Hhi.
  destruct (N.ltb_spec (N_of_ascii c) 32); [lia|]. destruct (N.ltb_spec (N_of_ascii c) 128); [|lia].
  by rewrite (IH Hs).
Qed.

(** *** Numbers *)

Fixpoint all_digits (s : string) : bool :=
  match s with EmptyString => true | String c s => is_digit c && all_digits s end.

Lemma pretty_N_char_digit d : (d < 10)%N → N_of_ascii (pretty_N_char d) = (48 + d)%N.
Proof.
  intros Hd. assert (d = 0 ∨ d = 1 ∨ d = 2 ∨ d = 3 ∨ d = 4 ∨ d = 5 ∨ d = 6
    ∨ d = 7 ∨ d = 8 ∨ d = 9)%N as Hc by lia.
  by repeat destruct Hc as [->|Hc]; subst.
Qed.

Lemma pretty_N_go_digits x s : all_digits s = true → all_digits (pretty_N_go x s) = true.
Proof.
  revert s. induction (N.lt_wf_0 x) as [x _ IH]; intros s Hs.
  destruct (decide (x = 0)%N) as [->|]; [done|]. rewrite pretty_N_go_step by lia.
  apply IH; [apply N.div_lt; lia|]. cbn. rewrite Hs, andb_true_r. unfold is_digit, between.
  pose proof (N.mod_lt x 10 ltac:(lia)) as H. rewrite pretty_N_char_digit by done.
  apply andb_true_iff. rewrite !N.leb_le. revert H. generalize (x mod 10)%N. lia.
Qed.

(** A positive number does not begin with a zero. *)
Lemma pretty_N_go_head x s : (0 < x)%N →
  ∃ c r, pretty_N_go x s = String c r ∧ is_char c 48 = false ∧ is_digit c = true.
Proof.
  revert s. induction (N.lt_wf_0 x) as [x _ IH]; intros s Hx. rewrite pretty_N_go_step by done.
  destruct (decide (x `div` 10 = 0)%N) as [E|].
  - rewrite E, pretty_N_go_0. eexists _, _. split; [done|]. unfold is_char, is_digit, between.
    apply N.div_small_iff in E; [|done]. rewrite N.mod_small, pretty_N_char_digit by done.
    split; [apply N.eqb_neq; lia|]. apply andb_true_iff. rewrite !N.leb_le. lia.
  - apply IH; [apply N.div_lt; lia|by apply N.neq_0_lt_0].
Qed.

Lemma span_all_digits d rest :
  all_digits d = true → stops rest → span_digits (d +:+ rest) = (d, rest).
Proof.
  intros Hd Hr. induction d as [|c d IH].
  - destruct rest as [|c r]; [done|]. cbn [stops] in Hr. change ("" +:+ String c r) with (String c r).
    cbn [span_digits]. unfold is_digit, between, is_char in *.
    destruct (N.leb_spec 48 (N_of_ascii c)), (N.leb_spec (N_of_ascii c) 57); cbn; try done.
    rewrite !orb_true_iff, !N.eqb_eq in Hr. lia.
  - cbn in Hd. apply andb_true_iff in Hd as [Hc Hd].
    change (String c d +:+ rest) with (String c (d +:+ rest)). cbn [span_digits].
    by rewrite Hc, (IH Hd).
Qed.

(** Nothing that continues a number follows it. *)
Lemma stops_number rest : stops rest →
  match rest with
  | String c r => is_char c 46 = false ∧ is_char c 101 || is_char c 69 = false
  | EmptyString => True
  end.
Proof.
  destruct rest as [|c r]; [done|]. cbn. unfold is_char. rewrite !orb_true_iff, !N.eqb_eq, orb_false_iff.
  rewrite !N.eqb_neq. lia.
Qed.

Lemma read_unsigned (minus : string) (n : N) rest :
  stops rest →
  ∃ c r, pretty n +:+ rest = String c r ∧ is_char c 45 = false ∧ is_digit c = true ∧
    (if is_char c 48 then Some ("0", r) else if is_digit c then Some (span_digits (String c r)) else None)
      = Some (pretty n, rest).
Proof.
  intros Hr. unfold pretty, pretty_N. case_decide as E.
  - exists "0"%char, rest. done.
  - destruct (pretty_N_go_head n "") as (c & r & Hc & H48 & Hd); [lia|].
    exists c, (r +:+ rest). rewrite Hc. split_and!; [done| |done|].
    + unfold is_digit, between, is_char in *. apply andb_true_iff in Hd. rewrite !N.leb_le in Hd.
      apply N.eqb_neq. lia.
    + rewrite H48, Hd. change (String c (r +:+ rest)) with (String c r +:+ rest). rewrite <-Hc.
      by rewrite span_all_digits by (done || by apply pretty_N_go_digits).
Qed.

Lemma read_integer (z : Z) rest :
  stops rest → ∃ n, read_number (pretty z +:+ rest) = Some (n, rest) ∧ literal n = pretty z ∧
    ∃ c r, pretty z +:+ rest = String c r ∧ (is_char c 45 || is_digit c) = true.
Proof.
  intros Hr. pose proof (stops_number rest Hr) as Hstop.
  assert (∀ m (n : N), pretty z = m +:+ pretty n → m = "" ∨ m = "-" →
    ∃ x, read_number (m +:+ pretty n +:+ rest) = Some (x, rest) ∧ literal x = pretty z ∧
    ∃ c r, m +:+ pretty n +:+ rest = String c r ∧ (is_char c 45 || is_digit c) = true) as Hgen.
  { intros m n Hz Hm. destruct (read_unsigned m n rest Hr) as (c & r & Hcr & H45 & Hd & Hread).
    exists (mkNumber m (pretty n) "" ""). split_and!.
    - unfold read_number. destruct Hm as [->| ->].
      + change ("" +:+ pretty n +:+ rest) with (pretty n +:+ rest). rewrite Hcr, H45. cbn [mbind option_bind].
        rewrite Hread. cbn [mbind option_bind].
        destruct rest as [|c' r']; [done|]. destruct Hstop as [-> Hexp]. cbn [mbind option_bind].
        by rewrite Hexp.
      + change ("-" +:+ pretty n +:+ rest) with (String "-" (pretty n +:+ rest)).
        cbv iota. change (is_char "-" 45) with true. rewrite Hcr. cbn [mbind option_bind]. rewrite Hread. cbn [mbind option_bind].
        destruct rest as [|c' r']; [done|]. destruct Hstop as [-> Hexp]. cbn [mbind option_bind].
        by rewrite Hexp.
    - unfold literal; cbn [Num_minus Num_int Num_frac Num_exp]. rewrite Hz.
      change ("" +:+ "") with "". by rewrite app_nil_string.
    - destruct Hm as [->| ->]; [exists c, r; by rewrite Hd, orb_true_r|by exists "-"%char, (pretty n +:+ rest)]. }
  destruct z as [|p|p].
  - apply (Hgen "" 0%N); auto.
  - apply (Hgen "" (N.pos p)); auto.
  - change (pretty (Z.neg p) +:+ rest) with ("-" +:+ pretty (N.pos p) +:+ rest). apply (Hgen "-" (N.pos p)); auto.
Qed.

(** *** Values *)

(** The first character of a value: not a space, nor a closing bracket. *)
Definition starts (s : string) : Prop :=
  ∃ c r, s = String c r ∧ is_space c = false ∧ is_char c 93 = false ∧ is_char c 125 = false.

Lemma print_starts j rest : printable j → stops rest → starts (print j +:+ rest).
Proof.
  intros Hp Hr. destruct j as [|[]|l|s|l|l]; try (by eexists _, _; split_and!).
  destruct Hp as [z ->]. cbn [print].
  destruct (read_integer z rest Hr) as (_ & _ & _ & c & r & -> & Hc).
  exists c, r. split; [done|]. unfold is_space, is_digit, between, is_char in *.
  rewrite orb_true_iff, andb_true_iff, !N.leb_le, N.eqb_eq in Hc.
  rewrite !orb_false_iff, !N.eqb_neq. lia.
Qed.

Lemma starts_skip s : starts s → skip_space s = s.
Proof. intros (c & r & -> & Hc & _). cbn. by rewrite Hc. Qed.

Lemma starts_strip w s : (w = "]" ∨ w = "}") → starts s → strip_prefix w s = None.
Proof.
  intros Hw (c & r & -> & _ & H93 & H125). destruct (strip_prefix w (String c r)) as [x|] eqn:E; [|done].
  apply strip_prefix_Some in E. destruct Hw as [->| ->]; injection E as -> _; discriminate.
Qed.

Lemma commas_cons s l : l ≠ [] → commas (s :: l) = s +:+ "," +:+ commas l.
Proof. by destruct l. Qed.

(** Reading [j] back, whatever follows. *)
Definition reads (j : json) : Prop := ∀ fuel d rest,
  stops rest → 2 * len (print j) + 1 ≤ fuel → (d + height j ≤ maxNestingDepth)%N →
  read_value fuel d (print j +:+ rest) = Ok (j, rest).

Lemma read_elements_print l : l ≠ [] → Forall (λ j, printable j ∧ reads j) l → ∀ fuel d rest,
  2 * len (commas (print <$> l)) + 2 ≤ fuel → Forall (λ j, d + height j ≤ maxNestingDepth)%N l →
  read_elements fuel d (commas (print <$> l) +:+ "]" +:+ rest) = Ok (l, rest).
Proof.
  intros Hne Hl. induction Hl as [|j l [Hj Hr] Hl IH]; [done|]. intros fuel d rest Hf Hd.
  apply Forall_cons in Hd as [Hdj Hd]. destruct fuel as [|fuel]; [lia|]. cbn [read_elements].
  destruct (decide (l = [])) as [->|Hne'].
  - cbn [fmap list_fmap commas] in *. rewrite Hr by (done || lia). done.
  - cbn [fmap list_fmap] in *. rewrite commas_cons in * by (by destruct l).
    rewrite !length_app_string in Hf. cbn [len] in Hf.
    rewrite !app_assoc_string, Hr by (done || lia). cbn [mbind result_bind].
    change (skip_space ("," +:+ ?x)) with (String "," x).
    change (is_char "," 44) with true. cbv iota. by rewrite IH by (done || lia).
Qed.

(** After a key and its colon comes the value. *)
Lemma read_members_key fuel d k x :
  plain k = true →
  read_members (S fuel) d (quote +:+ k +:+ quote +:+ ":" +:+ x) =
  ('(v, r) ← read_value fuel d x;
   match skip_space r with
   | String c r' =>
       if is_char c 44 then '(l, r'') ← read_members fuel d r'; Ok ((k, v) :: l, r'')
       else if is_char c 125 then Ok ([(k, v)], r')
       else Err ESyntax
   | EmptyString => Err ESyntax
   end).
Proof.
  intros Hk. cbn [read_members]. change (skip_space (quote +:+ ?y)) with (String (byte 34) y).
  change (is_char (byte 34) 34) with true. cbv iota. rewrite read_plain by done.
  cbn [from_option mbind result_bind]. change (skip_space (":" +:+ ?y)) with (":" +:+ y).
  by change (strip_prefix ":" (":" +:+ ?y)) with (Some y).
Qed.

Lemma read_members_print l : l ≠ [] →
  Forall (λ kv, plain kv.1 = true ∧ printable kv.2 ∧ reads kv.2) l → ∀ fuel d rest,
  let text := commas ((λ kv, quote +:+ kv.1 +:+ quote +:+ ":" +:+ print kv.2) <$> l) in
  2 * len text + 2 ≤ fuel → Forall (λ kv, d + height kv.2 ≤ maxNestingDepth)%N l →
  read_members fuel d (text +:+ "}" +:+ rest) = Ok (l, rest).
Proof.
  intros Hne Hl. induction Hl as [|[k j] l (Hk & Hj & Hr) Hl IH]; [done|].
  intros fuel d rest text Hf Hd. subst text.
  apply Forall_cons in Hd as [Hdj Hd]. destruct fuel as [|fuel]; [lia|]. cbn [fst snd] in *.
  destruct (decide (l = [])) as [->|Hne']; cbn [fmap list_fmap fst snd] in *.
  - cbn [commas] in *. rewrite !length_app_string in Hf. cbn [len quote] in Hf.
    rewrite !app_assoc_string, read_members_key by done. by rewrite Hr by (done || lia).
  - rewrite commas_cons in * by (by destruct l).
    rewrite !length_app_string in Hf. cbn [len quote] in Hf.
    rewrite !app_assoc_string, read_members_key, Hr by (done || lia). cbn [mbind result_bind].
    change (skip_space ("," +:+ ?x)) with (String "," x).
    change (is_char "," 44) with true. cbv iota. by rewrite IH by (done || lia).
Qed.

Lemma foldr_and {A} (P : A → Prop) l : foldr (λ x Q, P x ∧ Q) True l ↔ Forall P l.
Proof. induction l as [|x l IH]; cbn; rewrite ?Forall_cons, ?IH; [split; constructor|done]. Qed.

Lemma foldr_max {A} (f : A → N) l m :
  (foldr (λ x n, N.max (f x) n) 0 l ≤ m)%N ↔ Forall (λ x, f x ≤ m)%N l.
Proof. induction l as [|x l IH]; cbn; rewrite ?Forall_cons, <-?IH; [split; [constructor|lia]|lia]. Qed.

Lemma reads_number (z : Z) : reads (JNumber (pretty z)).
Proof.
  intros fuel d rest Hr Hf _. destruct fuel as [|fuel]; [lia|].
  pose proof (print_starts (JNumber (pretty z)) rest) as Hst.
  destruct (read_integer z rest Hr) as (n & Hn & Hlit & c & r & Hc & Hd').
  cbn [print] in *. cbn [read_value]. rewrite (starts_skip (pretty z +:+ rest)) by (apply Hst; [by exists z|done]).
  rewrite Hc in *. unfold is_digit, between, is_char in Hd'.
  rewrite orb_true_iff, andb_true_iff, !N.leb_le, N.eqb_eq in Hd'. unfold is_char.
  repeat match goal with |- context [(N_of_ascii c =? ?k)%N] =>
    rewrite (proj2 (N.eqb_neq (N_of_ascii c) k)) by lia end.
  rewrite Hn. cbn [from_option mbind result_bind]. by rewrite Hlit.
Qed.

Lemma reads_string s : plain s = true → reads (JString s).
Proof.
  intros Hs fuel d rest Hr Hf _. destruct fuel as [|fuel]; [lia|].
  cbn [print]. rewrite !app_assoc_string. cbn [read_value].
  change (skip_space (quote +:+ ?y)) with (String (byte 34) y). cbv iota.
  change (is_char (byte 34) 123) with false. change (is_char (byte 34) 91) with false.
  change (is_char (byte 34) 34) with true. cbv iota. by rewrite read_plain.
Qed.

Lemma reads_array l : Forall (λ j, printable j ∧ reads j) l → reads (JArray l).
Proof.
  intros Hl fuel d rest Hr Hf Hd. destruct fuel as [|fuel]; [lia|]. cbn [height] in Hd.
  cbn [print] in *. rewrite !app_assoc_string in *. rewrite !length_app_string in Hf. cbn [len] in Hf.
  cbn [read_value]. change (skip_space ("[" +:+ ?y)) with (String "[" y). cbv iota.
  change (is_char "[" 123) with false. change (is_char "[" 91) with true. cbv iota.
  destruct (N.leb_spec maxNestingDepth d); [lia|].
  destruct (decide (l = [])) as [->|Hne]; [done|].
  assert (starts (commas (print <$> l) +:+ "]" +:+ rest)) as Hst.
  { destruct l as [|j l]; [done|]. apply Forall_cons in Hl as [[Hj _] _].
    destruct (decide (l = [])) as [->|]; [by apply print_starts|]. cbn [fmap list_fmap].
    rewrite commas_cons, !app_assoc_string by (by destruct l). by apply print_starts. }
  rewrite starts_skip, starts_strip by auto. rewrite read_elements_print; [done|done|done|lia|].
  eapply Forall_impl; [apply (foldr_max height l (maxNestingDepth - d - 1)); lia|]. cbn. lia.
Qed.

Lemma reads_object l : Forall (λ kv, plain kv.1 = true ∧ printable kv.2 ∧ reads kv.2) l → reads (JObject l).
Proof.
  intros Hl fuel d rest Hr Hf Hd. destruct fuel as [|fuel]; [lia|]. cbn [height] in Hd.
  cbn [print] in *. rewrite !app_assoc_string in *. rewrite !length_app_string in Hf. cbn [len] in Hf.
  cbn [read_value]. change (skip_space ("{" +:+ ?y)) with (String "{" y). cbv iota.
  change (is_char "{" 123) with true. cbv iota. destruct (N.leb_spec maxNestingDepth d); [lia|].
  destruct (decide (l = [])) as [->|Hne]; [done|].
  assert (∃ y, commas ((λ kv, quote +:+ kv.1 +:+ quote +:+ ":" +:+ print kv.2) <$> l) = quote +:+ y) as [y Hy].
  { destruct l as [|kv l]; [done|]. cbn [fmap list_fmap]. destruct (decide (l = [])) as [->|];
      [by eexists|]. rewrite commas_cons, !app_assoc_string by (by destruct l). by eexists. }
  rewrite Hy at 1. change (strip_prefix "}" (skip_space ((quote +:+ y) +:+ ?z))) with (@None string). cbv iota.
  rewrite read_members_print; [done|done|done|lia|].
  eapply Forall_impl; [apply (foldr_max (λ kv, height kv.2) l (maxNestingDepth - d - 1)); lia|]. cbn. lia.
Qed.

Lemma read_print j : printable j → reads j.
Proof.
  induction j as [|b|l|s|l IH|l IH] using json_nested_ind; cbn [printable]; intros Hp.
  - by intros [|fuel] d rest Hr Hf _; [lia|].
  - by destruct b; intros [|fuel] d rest Hr Hf _; [lia| |lia|].
  - destruct Hp as [z ->]. apply reads_number.
  - by apply reads_string.
  - apply reads_array. rewrite foldr_and in Hp. rewrite Forall_forall in IH, Hp |- *. auto.
  - apply reads_object. rewrite foldr_and in Hp. rewrite Forall_forall in IH, Hp |- *.
    intros kv Hkv. destruct (Hp kv Hkv). auto.
Qed.

(** Reading a printed text gives the value back. *)
Lemma read_text_print j :
  printable j → (height j ≤ maxNestingDepth)%N → read_text (print j) = Ok j.
Proof.
  intros Hp Hh. unfold read_text. rewrite <-(app_nil_string (print j)) at 2.
  rewrite read_print by (done || lia). done.
Qed.
