(* ===== verification/Parse.v ===== *)
(** * The output of vtysh ([internal/frr/parse.go])

    The structs vtysh's JSON is decoded into, field by field, and the parsers.  A Go [int] is a [Z] in the
    64-bit range, and sums of counters wrap around ([add64]).  Where the source ranges over a map the
    order is not specified: [map_to_list] stands for one order, and the theorems say what does not depend
    on it. *)

From Stdlib Require Import Ascii Lia.
From S2P Require Import Prelude GoStrings GoNet Json.

(** ** Integers *)

(** Two's complement on 64 bits. *)
Definition wrap64 (z : Z) : Z := ((z + 2 ^ 63) mod 2 ^ 64 - 2 ^ 63)%Z.
Definition add64 (a b : Z) : Z := wrap64 (a + b).

(** ** Structs *)

Record MessageStats := mkMessageStats {
  MS_OpensSent : Z;
  MS_OpensReceived : Z;
  MS_NotificationsSent : Z;
  MS_UpdatesSent : Z;
  MS_UpdatesReceived : Z;
  MS_KeepalivesSent : Z;
  MS_KeepalivesReceived : Z;
  MS_RouteRefreshSent : Z;
  MS_TotalSent : Z;
  MS_TotalReceived : Z }.

#[global] Instance MessageStats_eq_dec : EqDecision MessageStats.
Proof. solve_decision. Defined.
Definition zeroMessageStats : MessageStats :=
  mkMessageStats 0%Z 0%Z 0%Z 0%Z 0%Z 0%Z 0%Z 0%Z 0%Z 0%Z.
Definition MessageStats_names : list string :=
  ["opensSent"; "opensRecv"; "notificationsSent"; "updatesSent"; "updatesRecv";
   "keepalivesSent"; "keepalivesRecv"; "routeRefreshSent"; "totalSent"; "totalRecv"].
Definition decodeMessageStats : decoder MessageStats := λ j cur,
  l ← members j;
  let field {F} name (d : decoder F) := decodeField MessageStats_names name d l in
  opensSent ← field "opensSent" decodeInt (MS_OpensSent cur);
  opensReceived ← field "opensRecv" decodeInt (MS_OpensReceived cur);
  notificationsSent ← field "notificationsSent" decodeInt (MS_NotificationsSent cur);
  updatesSent ← field "updatesSent" decodeInt (MS_UpdatesSent cur);
  updatesReceived ← field "updatesRecv" decodeInt (MS_UpdatesReceived cur);
  keepalivesSent ← field "keepalivesSent" decodeInt (MS_KeepalivesSent cur);
  keepalivesReceived ← field "keepalivesRecv" decodeInt (MS_KeepalivesReceived cur);
  routeRefreshSent ← field "routeRefreshSent" decodeInt (MS_RouteRefreshSent cur);
  totalSent ← field "totalSent" decodeInt (MS_TotalSent cur);
  totalReceived ← field "totalRecv" decodeInt (MS_TotalReceived cur);
  Ok (mkMessageStats opensSent opensReceived notificationsSent updatesSent updatesReceived
    keepalivesSent keepalivesReceived routeRefreshSent totalSent totalReceived).

(** The element type of [AddressFamilyInfo]. *)
Record AddressFamilyInfo := mkAddressFamilyInfo {
  AF_SentPrefixCounter : Z;
  AF_AcceptedPrefixCounter : Z }.

#[global] Instance AddressFamilyInfo_eq_dec : EqDecision AddressFamilyInfo.
Proof. solve_decision. Defined.
Definition zeroAddressFamilyInfo : AddressFamilyInfo :=
  mkAddressFamilyInfo 0%Z 0%Z.
Definition AddressFamilyInfo_names : list string :=
  ["sentPrefixCounter"; "acceptedPrefixCounter"].
Definition decodeAddressFamilyInfo : decoder AddressFamilyInfo := λ j cur,
  l ← members j;
  let field {F} name (d : decoder F) := decodeField AddressFamilyInfo_names name d l in
  sentPrefixCounter ← field "sentPrefixCounter" decodeInt (AF_SentPrefixCounter cur);
  acceptedPrefixCounter ← field "acceptedPrefixCounter" decodeInt (AF_AcceptedPrefixCounter cur);
  Ok (mkAddressFamilyInfo sentPrefixCounter acceptedPrefixCounter).

Record PeerBFDInfo := mkPeerBFDInfo {
  PB_Status : string }.

#[global] Instance PeerBFDInfo_eq_dec : EqDecision PeerBFDInfo.
Proof. solve_decision. Defined.
Definition zeroPeerBFDInfo : PeerBFDInfo :=
  mkPeerBFDInfo "".
Definition PeerBFDInfo_names : list string :=
  ["status"].
Definition decodePeerBFDInfo : decoder PeerBFDInfo := λ j cur,
  l ← members j;
  let field {F} name (d : decoder F) := decodeField PeerBFDInfo_names name d l in
  status ← field "status" decodeString (PB_Status cur);
  Ok (mkPeerBFDInfo status).

Record FRRNeighbor := mkFRRNeighbor {
  FR_BGPNeighborAddr : string;
  FR_RemoteAs : Z;
  FR_LocalAs : Z;
  FR_RemoteRouterID : string;
  FR_BgpVersion : Z;
  FR_BgpState : string;
  FR_PortForeign : Z;
  FR_MsgStats : MessageStats;
  FR_VRFName : string;
  FR_AddressFamilyInfo : gmap string AddressFamilyInfo;
  FR_BFDInfo : PeerBFDInfo }.

#[global] Instance FRRNeighbor_eq_dec : EqDecision FRRNeighbor.
Proof. solve_decision. Defined.
Definition zeroFRRNeighbor : FRRNeighbor :=
  mkFRRNeighbor "" 0%Z 0%Z "" 0%Z "" 0%Z zeroMessageStats "" ∅ zeroPeerBFDInfo.
Definition FRRNeighbor_names : list string :=
  ["bgpNeighborAddr"; "remoteAs"; "localAs"; "remoteRouterId"; "bgpVersion";
   "bgpState"; "portForeign"; "messageStats"; "vrf"; "addressFamilyInfo";
   "peerBfdInfo"].
Definition decodeFRRNeighbor : decoder FRRNeighbor := λ j cur,
  l ← members j;
  let field {F} name (d : decoder F) := decodeField FRRNeighbor_names name d l in
  bGPNeighborAddr ← field "bgpNeighborAddr" decodeString (FR_BGPNeighborAddr cur);
  remoteAs ← field "remoteAs" decodeInt (FR_RemoteAs cur);
  localAs ← field "localAs" decodeInt (FR_LocalAs cur);
  remoteRouterID ← field "remoteRouterId" decodeString (FR_RemoteRouterID cur);
  bgpVersion ← field "bgpVersion" decodeInt (FR_BgpVersion cur);
  bgpState ← field "bgpState" decodeString (FR_BgpState cur);
  portForeign ← field "portForeign" decodeInt (FR_PortForeign cur);
  msgStats ← field "messageStats" decodeMessageStats (FR_MsgStats cur);
  vRFName ← field "vrf" decodeString (FR_VRFName cur);
  addressFamilyInfo ← field "addressFamilyInfo" (decodeMap zeroAddressFamilyInfo decodeAddressFamilyInfo) (FR_AddressFamilyInfo cur);
  bFDInfo ← field "peerBfdInfo" decodePeerBFDInfo (FR_BFDInfo cur);
  Ok (mkFRRNeighbor bGPNeighborAddr remoteAs localAs remoteRouterID bgpVersion bgpState
    portForeign msgStats vRFName addressFamilyInfo bFDInfo).

(** The element type of [Nexthops]. *)
Record Nexthop := mkNexthop {
  NH_IP : string;
  NH_Scope : string }.

#[global] Instance Nexthop_eq_dec : EqDecision Nexthop.
Proof. solve_decision. Defined.
Definition zeroNexthop : Nexthop :=
  mkNexthop "" "".
Definition Nexthop_names : list string :=
  ["ip"; "scope"].
Definition decodeNexthop : decoder Nexthop := λ j cur,
  l ← members j;
  let field {F} name (d : decoder F) := decodeField Nexthop_names name d l in
  iP ← field "ip" decodeString (NH_IP cur);
  scope ← field "scope" decodeString (NH_Scope cur);
  Ok (mkNexthop iP scope).

Record FRRRoute := mkFRRRoute {
  RT_Valid : bool;
  RT_PeerID : string;
  RT_LocalPref : N;
  RT_Origin : string;
  RT_Nexthops : list Nexthop }.

#[global] Instance FRRRoute_eq_dec : EqDecision FRRRoute.
Proof. solve_decision. Defined.
Definition zeroFRRRoute : FRRRoute :=
  mkFRRRoute false "" 0%N "" [].
Definition FRRRoute_names : list string :=
  ["valid"; "peerId"; "locPrf"; "origin"; "nexthops"].
Definition decodeFRRRoute : decoder FRRRoute := λ j cur,
  l ← members j;
  let field {F} name (d : decoder F) := decodeField FRRRoute_names name d l in
  valid ← field "valid" decodeBool (RT_Valid cur);
  peerID ← field "peerId" decodeString (RT_PeerID cur);
  localPref ← field "locPrf" decodeUint32 (RT_LocalPref cur);
  origin ← field "origin" decodeString (RT_Origin cur);
  nexthops ← field "nexthops" (decodeSlice zeroNexthop decodeNexthop) (RT_Nexthops cur);
  Ok (mkFRRRoute valid peerID localPref origin nexthops).

Record IPInfo := mkIPInfo {
  II_Routes : gmap string (list FRRRoute) }.

#[global] Instance IPInfo_eq_dec : EqDecision IPInfo.
Proof. solve_decision. Defined.
Definition zeroIPInfo : IPInfo :=
  mkIPInfo ∅.
Definition IPInfo_names : list string :=
  ["routes"].
Definition decodeIPInfo : decoder IPInfo := λ j cur,
  l ← members j;
  let field {F} name (d : decoder F) := decodeField IPInfo_names name d l in
  routes ← field "routes" (decodeMap [] (decodeSlice zeroFRRRoute decodeFRRRoute)) (II_Routes cur);
  Ok (mkIPInfo routes).

Record BFDPeer := mkBFDPeer {
  BP_Multihop : bool;
  BP_Peer : string;
  BP_Local : string;
  BP_Vrf : string;
  BP_Interface : string;
  BP_ID : Z;
  BP_RemoteID : Z;
  BP_PassiveMode : bool;
  BP_Status : string;
  BP_Uptime : Z;
  BP_Diagnostic : string;
  BP_RemoteDiagnostic : string;
  BP_ReceiveInterval : Z;
  BP_TransmitInterval : Z;
  BP_EchoReceiveInterval : Z;
  BP_EchoTransmitInterval : Z;
  BP_DetectMultiplier : Z;
  BP_RemoteReceiveInterval : Z;
  BP_RemoteTransmitInterval : Z;
  BP_RemoteEchoInterval : Z;
  BP_RemoteEchoReceiveInterval : Z;
  BP_RemoteDetectMultiplier : Z }.

#[global] Instance BFDPeer_eq_dec : EqDecision BFDPeer.
Proof. solve_decision. Defined.
Definition zeroBFDPeer : BFDPeer :=
  mkBFDPeer false "" "" "" "" 0%Z 0%Z false "" 0%Z "" "" 0%Z 0%Z 0%Z 0%Z 0%Z 0%Z 0%Z 0%Z 0%Z 0%Z.
Definition BFDPeer_names : list string :=
  ["multihop"; "peer"; "local"; "vrf"; "interface";
   "id"; "remote-id"; "passive-mode"; "status"; "uptime";
   "diagnostic"; "remote-diagnostic"; "receive-interval"; "transmit-interval"; "echo-receive-interval";
   "echo-transmit-interval"; "detect-multiplier"; "remote-receive-interval"; "remote-transmit-interval"; "remote-echo-interval";
   "remote-echo-receive-interval"; "remote-detect-multiplier"].
Definition decodeBFDPeer : decoder BFDPeer := λ j cur,
  l ← members j;
  let field {F} name (d : decoder F) := decodeField BFDPeer_names name d l in
  multihop ← field "multihop" decodeBool (BP_Multihop cur);
  peer ← field "peer" decodeString (BP_Peer cur);
  local_ ← field "local" decodeString (BP_Local cur);
  vrf ← field "vrf" decodeString (BP_Vrf cur);
  interface ← field "interface" decodeString (BP_Interface cur);
  iD ← field "id" decodeInt (BP_ID cur);
  remoteID ← field "remote-id" decodeInt (BP_RemoteID cur);
  passiveMode ← field "passive-mode" decodeBool (BP_PassiveMode cur);
  status ← field "status" decodeString (BP_Status cur);
  uptime ← field "uptime" decodeInt (BP_Uptime cur);
  diagnostic ← field "diagnostic" decodeString (BP_Diagnostic cur);
  remoteDiagnostic ← field "remote-diagnostic" decodeString (BP_RemoteDiagnostic cur);
  receiveInterval ← field "receive-interval" decodeInt (BP_ReceiveInterval cur);
  transmitInterval ← field "transmit-interval" decodeInt (BP_TransmitInterval cur);
  echoReceiveInterval ← field "echo-receive-interval" decodeInt (BP_EchoReceiveInterval cur);
  echoTransmitInterval ← field "echo-transmit-interval" decodeInt (BP_EchoTransmitInterval cur);
  detectMultiplier ← field "detect-multiplier" decodeInt (BP_DetectMultiplier cur);
  remoteReceiveInterval ← field "remote-receive-interval" decodeInt (BP_RemoteReceiveInterval cur);
  remoteTransmitInterval ← field "remote-transmit-interval" decodeInt (BP_RemoteTransmitInterval cur);
  remoteEchoInterval ← field "remote-echo-interval" decodeInt (BP_RemoteEchoInterval cur);
  remoteEchoReceiveInterval ← field "remote-echo-receive-interval" decodeInt (BP_RemoteEchoReceiveInterval cur);
  remoteDetectMultiplier ← field "remote-detect-multiplier" decodeInt (BP_RemoteDetectMultiplier cur);
  Ok (mkBFDPeer multihop peer local_ vrf interface iD remoteID passiveMode status uptime
    diagnostic remoteDiagnostic receiveInterval transmitInterval echoReceiveInterval
    echoTransmitInterval detectMultiplier remoteReceiveInterval remoteTransmitInterval
    remoteEchoInterval remoteEchoReceiveInterval remoteDetectMultiplier).

Record BFDPeerCounters := mkBFDPeerCounters {
  BC_Peer : string;
  BC_ControlPacketInput : Z;
  BC_ControlPacketOutput : Z;
  BC_EchoPacketInput : Z;
  BC_EchoPacketOutput : Z;
  BC_SessionUpEvents : Z;
  BC_SessionDownEvents : Z;
  BC_ZebraNotifications : Z }.

#[global] Instance BFDPeerCounters_eq_dec : EqDecision BFDPeerCounters.
Proof. solve_decision. Defined.
Definition zeroBFDPeerCounters : BFDPeerCounters :=
  mkBFDPeerCounters "" 0%Z 0%Z 0%Z 0%Z 0%Z 0%Z 0%Z.
Definition BFDPeerCounters_names : list string :=
  ["peer"; "control-packet-input"; "control-packet-output"; "echo-packet-input"; "echo-packet-output";
   "session-up"; "session-down"; "zebra-notifications"].
Definition decodeBFDPeerCounters : decoder BFDPeerCounters := λ j cur,
  l ← members j;
  let field {F} name (d : decoder F) := decodeField BFDPeerCounters_names name d l in
  peer ← field "peer" decodeString (BC_Peer cur);
  controlPacketInput ← field "control-packet-input" decodeInt (BC_ControlPacketInput cur);
  controlPacketOutput ← field "control-packet-output" decodeInt (BC_ControlPacketOutput cur);
  echoPacketInput ← field "echo-packet-input" decodeInt (BC_EchoPacketInput cur);
  echoPacketOutput ← field "echo-packet-output" decodeInt (BC_EchoPacketOutput cur);
  sessionUpEvents ← field "session-up" decodeInt (BC_SessionUpEvents cur);
  sessionDownEvents ← field "session-down" decodeInt (BC_SessionDownEvents cur);
  zebraNotifications ← field "zebra-notifications" decodeInt (BC_ZebraNotifications cur);
  Ok (mkBFDPeerCounters peer controlPacketInput controlPacketOutput echoPacketInput
    echoPacketOutput sessionUpEvents sessionDownEvents zebraNotifications).

(** [Neighbor], what the rest of the program sees. *)
Record FrrNeighbor := mkFrrNeighbor {
  FN_ID : string;
  FN_VRF : string;
  FN_BGPState : string;
  FN_Connected : bool;
  FN_LocalAS : string;
  FN_RemoteAS : string;
  FN_PrefixSent : Z;
  FN_PrefixReceived : Z;
  FN_Port : Z;
  FN_RemoteRouterID : string;
  FN_MsgStats : MessageStats;
  FN_BFDStatus : string }.

#[global] Instance FrrNeighbor_eq_dec : EqDecision FrrNeighbor.
Proof. solve_decision. Defined.

Definition MetricName (n : FrrNeighbor) : string := FN_ID n.

Record FrrRoute := mkFrrRoute {
  Route_Destination : IPNet;
  Route_NextHops : list IP;
  Route_LocalPref : N;
  Route_Origin : string }.

(** ** Neighbors *)

Inductive parseError :=
  | EUnmarshal (e : jsonError)
  | EMoreThanOnePeer
  | ENoPeers
  | EParseCIDR (s : string)
  | EParseIP (s : string).

Notation pres := (result parseError).

Definition unmarshal {T} (d : decoder T) (data : string) (v : T) : pres T :=
  match Unmarshal d data v with Ok x => Ok x | Err e => Err (EUnmarshal e) end.

Definition bgpConnected : string := "Established".

(** [x += n] over the values of a map. *)
Definition sum64 {A} (f : A → Z) (l : list A) : Z := foldl (λ acc x, add64 acc (f x)) 0%Z l.

(** The body of the loops of [ParseNeighbour] and [ParseNeighbours]. *)
Definition toNeighbor (k : string) (n : FRRNeighbor) : FrrNeighbor :=
  let connected := bool_decide (FR_BgpState n = bgpConnected) in
  let infos := (map_to_list (FR_AddressFamilyInfo n)).*2 in
  mkFrrNeighbor k "" (FR_BgpState n) connected (pretty (FR_LocalAs n)) (pretty (FR_RemoteAs n))
    (sum64 AF_SentPrefixCounter infos) (sum64 AF_AcceptedPrefixCounter infos)
    (FR_PortForeign n) (FR_RemoteRouterID n) (FR_MsgStats n) (PB_Status (FR_BFDInfo n)).

Definition decodeNeighbors : decoder (gmap string FRRNeighbor) := decodeMap zeroFRRNeighbor decodeFRRNeighbor.

Definition ParseNeighbour (vtyshRes : string) : pres FrrNeighbor :=
  res ← unmarshal decodeNeighbors vtyshRes ∅;
  match map_to_list res with
  | [] => Err ENoPeers
  | [(k, n)] => Ok (toNeighbor k n)
  | _ => Err EMoreThanOnePeer
  end.

Definition ParseNeighbours (vtyshRes : string) : pres (list FrrNeighbor) :=
  toParse ← unmarshal decodeNeighbors vtyshRes ∅;
  Ok ((λ '(k, n), toNeighbor k n) <$> map_to_list toParse).

(** ** Routes *)

(** [ip.Equal(x)]: an IPv4 address equals its 16-byte form. *)
Definition IP_Equal (ip x : IP) : bool :=
  if (length ip =? length x)%nat then bool_decide (ip = x)
  else if (length ip =? 4)%nat && (length x =? 16)%nat then bool_decide (v4InV6Prefix ++ ip = x)
  else if (length ip =? 16)%nat && (length x =? 4)%nat then bool_decide (ip = v4InV6Prefix ++ x)
  else false.

(** One next hop: link-local IPv6 addresses and those already there are skipped. *)
Definition nexthopStep (nextHops : list IP) (h : Nexthop) : pres (list IP) :=
  match ParseIP (NH_IP h) with
  | None => Err (EParseIP (NH_IP h))
  | Some ip =>
      if bool_decide (To4 ip = None) && bool_decide (NH_Scope h = "link-local") then Ok nextHops
      else if existsb (IP_Equal ip) nextHops then Ok nextHops
      else Ok (nextHops ++ [ip])
  end.

Definition frrRouteStep (r : FrrRoute) (n : FRRRoute) : pres FrrRoute :=
  nextHops ← foldM nexthopStep (Route_NextHops r) (RT_Nexthops n);
  Ok (mkFrrRoute (Route_Destination r) nextHops (RT_LocalPref n) (RT_Origin n)).

(** One destination of the loop of [ParseRoutes]. *)
Definition routeStep (res : gmap string FrrRoute) (kr : string * list FRRRoute)
    : pres (gmap string FrrRoute) :=
  let '(k, frrRoutes) := kr in
  match ParseCIDR k with
  | None => Err (EParseCIDR k)
  | Some (destIP, dest) =>
      r ← foldM frrRouteStep (mkFrrRoute dest [] 0 "") frrRoutes;
      Ok (<[IP_String destIP := r]> res)
  end.

Definition parseRoutes (routes : list (string * list FRRRoute)) : pres (gmap string FrrRoute) :=
  foldM routeStep ∅ routes.

Definition ParseRoutes (vtyshRes : string) : pres (gmap string FrrRoute) :=
  toParse ← unmarshal decodeIPInfo vtyshRes zeroIPInfo;
  parseRoutes (map_to_list (II_Routes toParse)).

(** ** BFD and VRFs *)

Definition ParseBFDPeers (vtyshRes : string) : pres (list BFDPeer) :=
  unmarshal (decodeSlice zeroBFDPeer decodeBFDPeer) vtyshRes [].

Definition ParseVRFs (vtyshRes : string) : pres (list string) :=
  vrfs ← unmarshal (decodeMap () decodeAny) vtyshRes ∅;
  Ok (sortedKeys vrfs).
