(* ===== verification/ParseProps.v ===== *)
(** * What the parsers of vtysh's output return

    Every text gives a result or an error that is the text's fault; the text FRR prints for a set of
    neighbors gives these neighbors; counters are summed modulo 2^64 in any order; the next hops of a route
    are listed once. *)

From Stdlib Require Import Ascii Lia.
From S2P Require Import Prelude GoStrings GoNet Json JsonPrint Parse.

(** ** Decoding fails only on the text *)

(** [d] never runs out of fuel (decoding has none). *)
Definition no_fuel {T} (d : decoder T) : Prop := ∀ j cur, d j cur ≠ Err EFuel.

Lemma no_fuel_string : no_fuel decodeString.
Proof. by intros [] ?. Qed.
Lemma no_fuel_bool : no_fuel decodeBool.
Proof. by intros [] ?. Qed.
Lemma no_fuel_int : no_fuel decodeInt.
Proof. intros [] ?; cbn; try done. by destruct (ParseInt _ _). Qed.
Lemma no_fuel_uint32 : no_fuel decodeUint32.
Proof. intros [] ?; cbn; try done. destruct (ParseUint _ _); [|done]. by destruct (_ <? _)%N. Qed.
Lemma no_fuel_any : no_fuel decodeAny.
Proof. intros j ?. unfold decodeAny. by destruct (fits_any j). Qed.

(** An error that no step returns is not returned by a loop. *)
Lemma bind_ne {E A B} (e : E) (m : result E A) (f : A → result E B) :
  m ≠ Err e → (∀ a, f a ≠ Err e) → (m ≫= f) ≠ Err e.
Proof. destruct m; cbn; [auto|congruence]. Qed.

Lemma foldM_ne {E A S} (e : E) (f : S → A → result E S) s l :
  (∀ s x, f s x ≠ Err e) → foldM f s l ≠ Err e.
Proof.
  intros Hf. revert s; induction l as [|x l IH]; intros s; [done|]. cbn [foldM]. by apply bind_ne.
Qed.

Lemma no_fuel_map {T} zero (d : decoder T) : no_fuel d → no_fuel (decodeMap zero d).
Proof.
  intros Hd [] ?; cbn; try done. apply foldM_ne. intros m [k v]. by apply bind_fuel.
Qed.
Lemma no_fuel_slice {T} zero (d : decoder T) : no_fuel d → no_fuel (decodeSlice zero d).
Proof.
  intros Hd [| | | |l|] cur; cbn; try done. revert cur; induction l as [|j l IH]; intros cur; [done|].
  cbn [decodeElems]. apply bind_fuel; [apply Hd|]. intros x _. by apply bind_fuel.
Qed.
Lemma no_fuel_field {F} names name (d : decoder F) l cur :
  no_fuel d → decodeField names name d l cur ≠ Err EFuel.
Proof. intros Hd. apply foldM_ne. intros x [k v]. case_bool_decide; [apply Hd|done]. Qed.
Lemma no_fuel_members j : members j ≠ Err EFuel.
Proof. by destruct j. Qed.

Create HintDb no_fuel.
#[export] Hint Resolve no_fuel_string no_fuel_bool no_fuel_int no_fuel_uint32 no_fuel_any no_fuel_map
  no_fuel_slice no_fuel_field no_fuel_members : no_fuel.

(** A struct: its members, then its fields. *)
Ltac no_fuel_struct :=
  let j := fresh "j" in let cur := fresh "cur" in intros j cur; cbv zeta;
  repeat (apply bind_fuel; [auto with no_fuel|intros ? _]); done.

Lemma no_fuel_MessageStats : no_fuel decodeMessageStats.
Proof. unfold decodeMessageStats. no_fuel_struct. Qed.
Lemma no_fuel_AddressFamilyInfo : no_fuel decodeAddressFamilyInfo.
Proof. unfold decodeAddressFamilyInfo. no_fuel_struct. Qed.
Lemma no_fuel_PeerBFDInfo : no_fuel decodePeerBFDInfo.
Proof. unfold decodePeerBFDInfo. no_fuel_struct. Qed.
#[export] Hint Resolve no_fuel_MessageStats no_fuel_AddressFamilyInfo no_fuel_PeerBFDInfo : no_fuel.
Lemma no_fuel_FRRNeighbor : no_fuel decodeFRRNeighbor.
Proof. unfold decodeFRRNeighbor. no_fuel_struct. Qed.
Lemma no_fuel_Nexthop : no_fuel decodeNexthop.
Proof. unfold decodeNexthop. no_fuel_struct. Qed.
#[export] Hint Resolve no_fuel_FRRNeighbor no_fuel_Nexthop : no_fuel.
Lemma no_fuel_FRRRoute : no_fuel decodeFRRRoute.
Proof. unfold decodeFRRRoute. no_fuel_struct. Qed.
#[export] Hint Resolve no_fuel_FRRRoute : no_fuel.
Lemma no_fuel_IPInfo : no_fuel decodeIPInfo.
Proof. unfold decodeIPInfo. no_fuel_struct. Qed.
Lemma no_fuel_BFDPeer : no_fuel decodeBFDPeer.
Proof. unfold decodeBFDPeer. no_fuel_struct. Qed.
Lemma no_fuel_BFDPeerCounters : no_fuel decodeBFDPeerCounters.
Proof. unfold decodeBFDPeerCounters. no_fuel_struct. Qed.
#[export] Hint Resolve no_fuel_IPInfo no_fuel_BFDPeer no_fuel_BFDPeerCounters : no_fuel.

Lemma Unmarshal_no_fuel {T} (d : decoder T) s v : no_fuel d → Unmarshal d s v ≠ Err EFuel.
Proof. intros Hd. apply bind_fuel; [apply read_text_fuel|]. intros j _. apply Hd. Qed.

Lemma unmarshal_no_fuel {T} (d : decoder T) s v : no_fuel d → unmarshal d s v ≠ Err (EUnmarshal EFuel).
Proof.
  intros Hd. unfold unmarshal. pose proof (Unmarshal_no_fuel d s v Hd).
  destruct (Unmarshal d s v); congruence.
Qed.

(** Reading vtysh's output always terminates: for every text, each parser returns a result or an
    error about the text, never because the reader ran out of fuel. *)
Theorem parsers_terminate s :
  ParseNeighbour s ≠ Err (EUnmarshal EFuel) ∧ ParseNeighbours s ≠ Err (EUnmarshal EFuel) ∧
  ParseRoutes s ≠ Err (EUnmarshal EFuel) ∧ ParseBFDPeers s ≠ Err (EUnmarshal EFuel) ∧
  ParseVRFs s ≠ Err (EUnmarshal EFuel).
Proof.
  split_and!.
  - apply bind_ne; [apply unmarshal_no_fuel; unfold decodeNeighbors; auto with no_fuel|].
    intros m. by destruct (map_to_list m) as [|[] []].
  - apply bind_ne; [apply unmarshal_no_fuel; unfold decodeNeighbors; auto with no_fuel|done].
  - apply bind_ne; [apply unmarshal_no_fuel; auto with no_fuel|]. intros m.
    apply foldM_ne. intros res [k rs]. unfold routeStep. destruct (ParseCIDR k) as [[ip net]|]; [|done].
    apply bind_ne; [|done]. apply foldM_ne. intros r n. apply bind_ne; [|done].
    apply foldM_ne. intros l h. unfold nexthopStep. by repeat case_match.
  - apply unmarshal_no_fuel. auto with no_fuel.
  - apply bind_ne; [apply unmarshal_no_fuel; auto with no_fuel|done].
Qed.

(** ** Counters *)

Lemma wrap64_add a b : wrap64 (wrap64 a + b) = wrap64 (a + b).
Proof.
  unfold wrap64. f_equal.
  replace ((a + 2 ^ 63) mod 2 ^ 64 - 2 ^ 63 + b + 2 ^ 63)%Z with ((a + 2 ^ 63) mod 2 ^ 64 + b)%Z by lia.
  rewrite Zplus_mod_idemp_l. f_equal. lia.
Qed.

Lemma wrap64_small z : (- 2 ^ 63 ≤ z < 2 ^ 63)%Z → wrap64 z = z.
Proof.
  unfold wrap64. change (2 ^ 63)%Z with 9223372036854775808%Z. change (2 ^ 64)%Z with 18446744073709551616%Z.
  intros Hz. rewrite Z.mod_small by lia. lia.
Qed.

Definition sumZ {A} (f : A → Z) (l : list A) : Z := foldr (λ x acc, f x + acc)%Z 0%Z l.

Lemma sum64_wrap {A} (f : A → Z) l : sum64 f l = wrap64 (sumZ f l).
Proof.
  assert (∀ a, foldl (λ acc x, add64 acc (f x)) (wrap64 a) l = wrap64 (a + sumZ f l)) as H; [|exact (H 0%Z)].
  induction l as [|x l IH]; intros a; cbn [foldl sumZ foldr]; [by rewrite Z.add_0_r|].
  unfold add64 at 2. rewrite wrap64_add, IH. f_equal. fold (sumZ f l). lia.
Qed.

Lemma sumZ_Permutation {A} (f : A → Z) l l' : l ≡ₚ l' → sumZ f l = sumZ f l'.
Proof. unfold sumZ. induction 1; cbn in *; lia. Qed.

(** ** VRFs *)

Lemma decode_keys {T} (zero : T) (d : decoder T) l m m' :
  foldM (λ (m : gmap string T) '(k, v), x ← d v zero; Ok (<[k := x]> m)) m l = (Ok m' : jres _) →
  ∀ k, is_Some (m' !! k) ↔ is_Some (m !! k) ∨ k ∈ l.*1.
Proof.
  revert m. induction l as [|[k v] l IH]; intros m H k'; cbn [foldM] in H.
  { injection H as <-. set_solver. }
  apply bind_Ok in H as (m1 & (x & _ & [= <-])%bind_Ok & H). rewrite (IH _ H k'). cbn.
  rewrite elem_of_cons. destruct (decide (k = k')) as [->|Hk].
  - rewrite lookup_insert_eq. naive_solver.
  - rewrite lookup_insert_ne by done. naive_solver.
Qed.

(** The VRFs are the members of the object FRR prints, each once and in order. *)
Theorem ParseVRFs_exact s vrfs :
  ParseVRFs s = Ok vrfs →
  StronglySorted ord_le vrfs ∧ NoDup vrfs ∧
  ∃ l, (read_text s = Ok (JObject l) ∨ read_text s = Ok JNull ∧ l = []) ∧ ∀ v, v ∈ vrfs ↔ v ∈ l.*1.
Proof.
  intros (m & Hm & [= <-])%bind_Ok. split; [apply sortedKeys_sorted|]. split; [apply sortedKeys_NoDup|].
  unfold unmarshal, Unmarshal in Hm. destruct (read_text s) as [j|e]; [|done]. cbn [mbind result_bind] in Hm.
  destruct j as [| | | | |l]; try done; cbn [decodeMap] in Hm.
  - injection Hm as <-. exists []. split; [by right|]. intros v. rewrite elem_of_sortedKeys, lookup_empty. set_solver.
  - exists l. split; [by left|]. destruct (foldM _ _ _) as [m'|] eqn:E; [|done]. injection Hm as ->.
    intros v. rewrite elem_of_sortedKeys, (decode_keys _ _ _ _ _ E), lookup_empty. split; [|by right].
    by intros [[]|?].
Qed.

(** ** Next hops *)

Lemma IP_Equal_refl ip : IP_Equal ip ip = true.
Proof. unfold IP_Equal. rewrite Nat.eqb_refl. by apply bool_decide_eq_true. Qed.

(** The next hop is used: it parses, and is not a link-local IPv6 address. *)
Definition usable (h : Nexthop) (ip : IP) : Prop :=
  ParseIP (NH_IP h) = Some ip ∧ ¬ (To4 ip = None ∧ NH_Scope h = "link-local").

Lemma nexthopStep_Ok acc h acc' :
  nexthopStep acc h = Ok acc' →
  (acc' = acc ∧ ∀ ip, usable h ip → existsb (IP_Equal ip) acc = true) ∨
  (∃ ip, usable h ip ∧ existsb (IP_Equal ip) acc = false ∧ acc' = acc ++ [ip]).
Proof.
  unfold nexthopStep, usable. destruct (ParseIP (NH_IP h)) as [ip|]; [|done].
  destruct (decide (To4 ip = None ∧ NH_Scope h = "link-local")) as [[H1 H2]|Hn].
  - rewrite !bool_decide_eq_true_2 by done. intros [= <-]. left. split; [done|]. naive_solver.
  - assert (bool_decide (To4 ip = None) && bool_decide (NH_Scope h = "link-local") = false) as ->.
    { apply andb_false_iff. rewrite !bool_decide_eq_false. destruct (decide (To4 ip = None)); naive_solver. }
    destruct (existsb (IP_Equal ip) acc) eqn:E; intros [= <-]; [left|right].
    + split; [done|]. by intros ip' [[= <-] _].
    + eauto.
Qed.

Lemma existsb_app_l {A} (f : A → bool) l1 l2 : existsb f l1 = true → existsb f (l1 ++ l2) = true.
Proof. intros H. by rewrite existsb_app, H. Qed.

(** What the next hops of a list of routes become. *)
Record nexthops_ok (hs : list Nexthop) (acc acc' : list IP) : Prop := {
  nx_once : NoDup acc → NoDup acc';
  nx_prefix : ∃ new, acc' = acc ++ new;
  nx_sound ip : ip ∈ acc' → ip ∈ acc ∨ ∃ h, h ∈ hs ∧ usable h ip;
  nx_complete h ip : h ∈ hs → usable h ip → existsb (IP_Equal ip) acc' = true }.

Lemma nexthops_spec hs acc acc' : foldM nexthopStep acc hs = Ok acc' → nexthops_ok hs acc acc'.
Proof.
  revert acc. induction hs as [|h hs IH]; intros acc H; cbn [foldM] in H.
  { injection H as <-. split; [done|by exists []; rewrite app_nil_r|by left|set_solver]. }
  apply bind_Ok in H as (acc1 & H1 & [Ho [new2 ->] Hs Hc]%IH). apply nexthopStep_Ok in H1.
  assert ((NoDup acc → NoDup acc1) ∧ (∃ new, acc1 = acc ++ new) ∧
    (∀ ip, ip ∈ acc1 → ip ∈ acc ∨ usable h ip) ∧
    (∀ ip, usable h ip → existsb (IP_Equal ip) acc1 = true)) as (Ho1 & [new1 Hp1] & Hs1 & Hc1).
  { destruct H1 as [[-> Hu]|(ip & Hu & Hno & ->)].
    - split_and!; [done|by exists []; rewrite app_nil_r|by left|done].
    - split_and!; [|by eexists| |].
      + intros Hnd. apply NoDup_app. split_and!; [done| |apply NoDup_singleton].
        intros x Hx ->%list_elem_of_singleton. apply not_true_iff_false in Hno. apply Hno, existsb_exists.
        exists ip. split; [by apply list_elem_of_In|apply IP_Equal_refl].
      + intros x [?| ->%list_elem_of_singleton]%elem_of_app; auto.
      + intros x Hx. destruct Hu as [Hp _], Hx as [Hp' _]. rewrite existsb_app. cbn.
        replace x with ip by congruence. by rewrite IP_Equal_refl, orb_true_r. }
  split.
  - auto.
  - exists (new1 ++ new2). by rewrite Hp1, app_assoc.
  - intros ip [[?|?]%Hs1|(h' & ? & ?)]%Hs; [by left|right; exists h; set_solver|right; exists h'; set_solver].
  - intros h' ip [->|Hh]%elem_of_cons Hu; [by apply existsb_app_l, Hc1|by eapply Hc].
Qed.

(** *** One destination *)

(** The route of a destination: the next hops of all its paths, the attributes of the last. *)
Record route_ok (paths : list FRRRoute) (r r' : FrrRoute) : Prop := {
  ro_dest : Route_Destination r' = Route_Destination r;
  ro_hops : nexthops_ok (paths ≫= RT_Nexthops) (Route_NextHops r) (Route_NextHops r');
  ro_attrs : (Route_LocalPref r', Route_Origin r') =
    default (Route_LocalPref r, Route_Origin r) ((λ n, (RT_LocalPref n, RT_Origin n)) <$> last paths) }.

Lemma nexthops_ok_app hs1 hs2 a b c :
  nexthops_ok hs1 a b → nexthops_ok hs2 b c → nexthops_ok (hs1 ++ hs2) a c.
Proof.
  intros [O1 [n1 P1] S1 C1] [O2 [n2 P2] S2 C2]. split.
  - auto.
  - exists (n1 ++ n2). by rewrite P2, P1, app_assoc.
  - intros ip [[?|(h & ? & ?)]%S1|(h & ? & ?)]%S2; [by left|right; exists h; set_solver..].
  - intros h ip [Hh|Hh]%elem_of_app Hu; [rewrite P2; apply existsb_app_l|]; eauto.
Qed.

Lemma frrRoutes_spec paths r r' : foldM frrRouteStep r paths = Ok r' → route_ok paths r r'.
Proof.
  revert r. induction paths as [|n paths IH]; intros r H; cbn [foldM] in H.
  { injection H as <-. split; [done| |done]. split; [done|by exists []; rewrite app_nil_r|by left|set_solver]. }
  apply bind_Ok in H as (r1 & (hops & Hh%nexthops_spec & [= <-])%bind_Ok & [Hd Hn Ha]%IH). cbn in *. split.
  - done.
  - by eapply nexthops_ok_app.
  - rewrite Ha, last_cons. by destruct (last paths).
Qed.

(** ** Routes *)

(** The key and the route of one destination. *)
Definition route_of (kr : string * list FRRRoute) : pres (string * FrrRoute) :=
  match ParseCIDR kr.1 with
  | None => Err (EParseCIDR kr.1)
  | Some (destIP, dest) =>
      r ← foldM frrRouteStep (mkFrrRoute dest [] 0 "") kr.2; Ok (IP_String destIP, r)
  end.

Lemma routeStep_route_of res kr :
  routeStep res kr = ('(k, r) ← route_of kr; Ok (<[k := r]> res)).
Proof.
  destruct kr as [k paths]. unfold routeStep, route_of. cbn [fst snd]. destruct (ParseCIDR k) as [[ip net]|]; [|done].
  by destruct (foldM _ _ _).
Qed.

(** The address of a destination, without its length. *)
Definition dest_key (kr : string * list FRRRoute) : string :=
  match ParseCIDR kr.1 with Some (ip, _) => IP_String ip | None => kr.1 end.

Lemma route_of_key kr k r : route_of kr = Ok (k, r) → k = dest_key kr.
Proof.
  unfold route_of, dest_key. destruct (ParseCIDR kr.1) as [[ip net]|]; [|done].
  by intros (r' & _ & [= <- _])%bind_Ok.
Qed.

Lemma parseRoutes_Ok routes res :
  NoDup (dest_key <$> routes) →
  parseRoutes routes = Ok res ↔
  Forall (λ kr, ∃ x, route_of kr = Ok x) routes ∧
  ∀ k r, res !! k = Some r ↔ ∃ kr, kr ∈ routes ∧ route_of kr = Ok (k, r).
Proof.
  revert res. unfold parseRoutes. induction routes as [|kr routes IH] using rev_ind; intros res Hnd.
  { cbn. split.
    - intros [= <-]. split; [constructor|]. intros k r. rewrite lookup_empty. set_solver.
    - intros [_ Hres]. f_equal. apply map_eq. intros k. rewrite lookup_empty.
      destruct (res !! k) as [r|] eqn:E; [|done]. apply Hres in E. set_solver. }
  rewrite fmap_app in Hnd. apply NoDup_app in Hnd as (Hnd & Hdisj & _). specialize (IH (delete (dest_key kr) res) Hnd) as IH'.
  rewrite foldM_app, Forall_app, Forall_singleton.
  assert (∀ kr' k r, kr' ∈ routes → route_of kr' = Ok (k, r) → k ≠ dest_key kr) as Hne.
  { intros kr' k r Hkr' ->%route_of_key He. apply (Hdisj (dest_key kr')); [by apply list_elem_of_fmap_2|].
    rewrite He. cbn. left. }
  split.
  - intros (m & Hm & H)%bind_Ok. cbn [foldM] in H. rewrite routeStep_route_of in H.
    apply bind_Ok in H as (m' & H & [= ->]). apply bind_Ok in H as ([k0 r0] & Hr & [= <-]).
    pose proof (route_of_key _ _ _ Hr) as ->. apply IH in Hm as [Hall Hm]; [|done].
    split; [by eauto|]. intros k r. setoid_rewrite elem_of_app. setoid_rewrite list_elem_of_singleton.
    destruct (decide (dest_key kr = k)) as [<-|Hk].
    + rewrite lookup_insert_eq. split; [intros [= <-]; eauto|]. intros (kr' & [Hin| ->] & Hr'); [|congruence].
      by destruct (Hne _ _ _ Hin Hr').
    + rewrite lookup_insert_ne, Hm by done. split; [naive_solver|]. intros (kr' & [Hin| ->] & Hr'); [by eauto|].
      by apply route_of_key in Hr'.
  - intros [[Hall [[k0 r0] Hr]] Hres]. pose proof (route_of_key _ _ _ Hr) as ->.
    destruct IH' as [_ IH']. rewrite IH'.
    + cbn [mbind result_bind foldM]. rewrite routeStep_route_of, Hr. cbn. f_equal. apply insert_delete_id.
      apply Hres. exists kr. split; [|done]. apply elem_of_app. right. by apply list_elem_of_singleton.
    + split; [done|]. intros k r. rewrite lookup_delete_Some, Hres. split.
      * intros [Hk (kr' & [Hin| ->%list_elem_of_singleton]%elem_of_app & Hr')]; [by eauto|]. by apply route_of_key in Hr'.
      * intros (kr' & Hin & Hr'). split; [by eapply not_eq_sym, Hne|]. exists kr'. split; [|done].
        apply elem_of_app. by left.
Qed.

(** Routes do not depend on the order in which the map of destinations is visited, as long as no two
    destinations have the same address. *)
Theorem parseRoutes_order_independent routes1 routes2 res :
  routes1 ≡ₚ routes2 → NoDup (dest_key <$> routes1) →
  parseRoutes routes1 = Ok res ↔ parseRoutes routes2 = Ok res.
Proof.
  intros Hp Hnd. assert (NoDup (dest_key <$> routes2)) as Hnd2 by (by rewrite <-Hp).
  rewrite !parseRoutes_Ok, Hp by done. setoid_rewrite Hp. done.
Qed.

(** The next hops of every route: each once, exactly the addresses of its paths that are not
    link-local IPv6 addresses; and the attributes are those of the last path. *)
Theorem parseRoutes_nexthops routes res k r :
  NoDup (dest_key <$> routes) → parseRoutes routes = Ok res → res !! k = Some r →
  ∃ dest paths, (dest, paths) ∈ routes ∧ NoDup (Route_NextHops r) ∧
    (∀ ip, ip ∈ Route_NextHops r → ∃ h, h ∈ paths ≫= RT_Nexthops ∧ usable h ip) ∧
    (∀ h ip, h ∈ paths ≫= RT_Nexthops → usable h ip → existsb (IP_Equal ip) (Route_NextHops r) = true) ∧
    (Route_LocalPref r, Route_Origin r) =
      default (0%N, "") ((λ n, (RT_LocalPref n, RT_Origin n)) <$> last paths).
Proof.
  intros Hnd Hres Hk. apply (parseRoutes_Ok _ _ Hnd) in Hres as [_ Hres].
  apply Hres in Hk as ([dest paths] & Hin & Hr). exists dest, paths. split; [done|].
  unfold route_of in Hr. cbn [fst snd] in Hr. destruct (ParseCIDR dest) as [[ip net]|]; [|done].
  apply bind_Ok in Hr as (r' & [_ [Ho _ Hs Hc] Ha]%frrRoutes_spec & [= _ <-]). cbn in *.
  split_and!; [apply Ho; constructor| |done|done].
  intros ip' [?|?]%Hs; [set_solver|done].
Qed.
