(* ===== verification/ParseText.v ===== *)
(** * The text FRR prints

    Encoders for the values the parsers decode, as FRR prints them, and the round trip: decoding what was
    encoded gives the value back.  [Codec] states it for one type; the instances compose. *)

From Stdlib Require Import Ascii Lia.
From S2P Require Import Prelude GoStrings GoNet Json JsonPrint Parse ParseProps.

(** [enc] is a right inverse of [d] on [valid] values, and its texts are nested at most [h] levels. *)
Class Codec {T} (d : decoder T) (zero : T) (valid : T → Prop) (h : N) (enc : T → json) : Prop := {
  codec_decode x : valid x → d (enc x) zero = Ok x;
  codec_printable x : valid x → printable (enc x);
  codec_height x : (height (enc x) ≤ h)%N }.

(** ** Scalars *)

Definition int64 (z : Z) : Prop := (- 2 ^ 63 ≤ z < 2 ^ 63)%Z.
Definition encodeInt (z : Z) : json := JNumber (pretty z).
Definition is_plain (s : string) : Prop := plain s = true.
Definition encodeString (s : string) : json := JString s.

#[global] Instance codec_int : Codec decodeInt 0%Z int64 0 encodeInt.
Proof.
  split; [|by intros z _; exists z|done]. intros z Hz. cbn. by rewrite ParseInt_Format.
Qed.
#[global] Instance codec_string : Codec decodeString "" is_plain 0 encodeString.
Proof. by split. Qed.

(** ** Maps *)

Definition encodeMap {T} (enc : T → json) (m : gmap string T) : json :=
  JObject (prod_map id enc <$> map_to_list m).
Definition valid_map {T} (valid : T → Prop) (m : gmap string T) : Prop :=
  map_Forall (λ k x, plain k = true ∧ valid x) m.

Lemma decode_members {T} (d : decoder T) zero enc (l : list (string * T)) (m : gmap string T) :
  Forall (λ kx, d (enc kx.2) zero = Ok kx.2) l →
  foldM (λ m '(k, v), x ← d v zero; Ok (<[k := x]> m)) m (prod_map id enc <$> l) =
  Ok (foldl (λ m kx, <[kx.1 := kx.2]> m) m l).
Proof.
  revert m. induction l as [|[k x] l IH]; intros m; [done|]. intros [Hx Hl]%Forall_cons. cbn in *.
  rewrite Hx. cbn. by apply IH.
Qed.

Lemma foldl_insert_list {T} (l : list (string * T)) (m : gmap string T) :
  NoDup l.*1 → (∀ k, k ∈ l.*1 → m !! k = None) →
  foldl (λ m kx, <[kx.1 := kx.2]> m) m l = list_to_map l ∪ m.
Proof.
  revert m. induction l as [|[k x] l IH]; intros m; cbn; [by rewrite (left_id_L ∅ (∪))|].
  intros [Hk Hnd]%NoDup_cons Hm. rewrite IH; [|done|].
  - rewrite <-insert_union_l. rewrite (insert_union_r _ m); [done|]. by apply not_elem_of_list_to_map_1.
  - intros k' Hk'. rewrite lookup_insert_ne by (intros ->; done). apply Hm. by right.
Qed.

#[global] Instance codec_map {T} (d : decoder T) zero valid h enc :
  Codec d zero valid h enc → Codec (decodeMap zero d) ∅ (valid_map valid) (1 + h) (encodeMap enc).
Proof.
  intros Hc. split.
  - intros m Hm. cbn. rewrite decode_members.
    + rewrite foldl_insert_list, list_to_map_to_list, (right_id_L ∅ (∪)); [done|apply NoDup_fst_map_to_list|done].
    + apply Forall_forall. intros [k x] Hx%elem_of_map_to_list. apply codec_decode, (Hm k x Hx).
  - intros m Hm. cbn [encodeMap printable]. apply foldr_and, Forall_fmap, Forall_forall.
    intros [k x] Hx%elem_of_map_to_list. cbn. destruct (Hm k x Hx). split; [done|by apply codec_printable].
  - intros m. cbn [encodeMap height].
    enough (foldr (λ kv n, N.max (height kv.2) n) 0 (prod_map id enc <$> map_to_list m) ≤ h)%N by lia.
    apply (foldr_max (λ kv, height kv.2)), Forall_fmap, Forall_forall. intros [k x] _.
    exact (codec_height x).
Qed.

(** ** Structs *)

Lemma resolve_name names k : k ∈ names → resolve names k = Some k.
Proof. intros Hk. unfold resolve. by rewrite bool_decide_eq_true_2. Qed.

(** The members of a struct are named after its fields, once each. *)
Lemma decodeField_encoded {F} names name (d : decoder F) l cur v :
  l.*1 = names → NoDup names → (name, v) ∈ l → decodeField names name d l cur = d v cur.
Proof.
  intros Hnames Hnd Hin. unfold decodeField.
  assert (∀ l' x, Forall (λ kv, kv.1 ∈ names) l' → name ∉ l'.*1 →
    foldM (λ x '(k, v), if bool_decide (resolve names k = Some name) then d v x else Ok x) x l' = Ok x) as Hskip.
  { induction l' as [|[k w] l' IH]; intros x; [done|]. intros [Hk Hl']%Forall_cons [Hne Hno]%not_elem_of_cons.
    cbn [foldM]. rewrite resolve_name by done. rewrite bool_decide_eq_false_2 by naive_solver. by apply IH. }
  assert (Forall (λ kv, kv.1 ∈ names) l) as Hall.
  { apply Forall_forall. intros kv Hkv. rewrite <-Hnames. by apply list_elem_of_fmap_2. }
  apply list_elem_of_split in Hin as (l1 & l2 & ->).
  rewrite <-Hnames, fmap_app, fmap_cons in Hnd. apply NoDup_app in Hnd as (_ & Hd1 & Hd2).
  apply NoDup_cons in Hd2 as [Hd2 _]. apply Forall_app in Hall as [Ha1 [Han Ha2]%Forall_cons].
  rewrite foldM_app, Hskip; [|done|intros Hx; by apply (Hd1 _ Hx); left].
  cbn [mbind result_bind foldM fst] in *. rewrite resolve_name by done. rewrite bool_decide_eq_true_2 by done.
  destruct (d v cur) as [x|]; [|done]. by apply Hskip.
Qed.

#[local] Arguments decodeField : simpl never.
#[local] Arguments decodeInt : simpl never.
#[local] Arguments decodeString : simpl never.
#[local] Arguments decodeMap : simpl never.
#[local] Arguments encodeInt : simpl never.
#[local] Arguments encodeString : simpl never.
#[local] Arguments encodeMap : simpl never.
#[local] Arguments resolve : simpl never.

(** A struct is decoded field by field. *)
Ltac decode_struct :=
  repeat (erewrite decodeField_encoded; [|reflexivity|by_evaluation|by rewrite !elem_of_cons; tauto];
    rewrite codec_decode by done; cbn [mbind result_bind]); done.
Ltac print_struct := split_and!; try done; try by apply codec_printable.
(** The heights of the fields. *)
Ltac pose_heights :=
  repeat match goal with |- context [height (?enc ?y)] =>
    lazymatch goal with
    | _ : (height (enc y) ≤ _)%N |- _ => fail
    | _ => pose proof (codec_height (enc := enc) y)
    end
  end.

Definition encodeMessageStats (x : MessageStats) : json :=
  JObject [("opensSent", encodeInt (MS_OpensSent x));
    ("opensRecv", encodeInt (MS_OpensReceived x));
    ("notificationsSent", encodeInt (MS_NotificationsSent x));
    ("updatesSent", encodeInt (MS_UpdatesSent x));
    ("updatesRecv", encodeInt (MS_UpdatesReceived x));
    ("keepalivesSent", encodeInt (MS_KeepalivesSent x));
    ("keepalivesRecv", encodeInt (MS_KeepalivesReceived x));
    ("routeRefreshSent", encodeInt (MS_RouteRefreshSent x));
    ("totalSent", encodeInt (MS_TotalSent x));
    ("totalRecv", encodeInt (MS_TotalReceived x))].
Definition validMessageStats (x : MessageStats) : Prop :=
  int64 (MS_OpensSent x) ∧
  int64 (MS_OpensReceived x) ∧
  int64 (MS_NotificationsSent x) ∧
  int64 (MS_UpdatesSent x) ∧
  int64 (MS_UpdatesReceived x) ∧
  int64 (MS_KeepalivesSent x) ∧
  int64 (MS_KeepalivesReceived x) ∧
  int64 (MS_RouteRefreshSent x) ∧
  int64 (MS_TotalSent x) ∧
  int64 (MS_TotalReceived x).

#[global] Instance codec_MessageStats :
  Codec decodeMessageStats zeroMessageStats validMessageStats 1 encodeMessageStats.
Proof.
  split; intros x.
  - intros Hx. unfold validMessageStats in Hx. destruct_and?. unfold decodeMessageStats. cbn [members encodeMessageStats mbind result_bind].
    destruct x; cbn in *. decode_struct.
  - intros Hx. unfold validMessageStats in Hx. destruct_and?. cbn. print_struct.
  - cbn. pose_heights. lia.
Qed.

Definition encodeAddressFamilyInfo (x : AddressFamilyInfo) : json :=
  JObject [("sentPrefixCounter", encodeInt (AF_SentPrefixCounter x));
    ("acceptedPrefixCounter", encodeInt (AF_AcceptedPrefixCounter x))].
Definition validAddressFamilyInfo (x : AddressFamilyInfo) : Prop :=
  int64 (AF_SentPrefixCounter x) ∧
  int64 (AF_AcceptedPrefixCounter x).

#[global] Instance codec_AddressFamilyInfo :
  Codec decodeAddressFamilyInfo zeroAddressFamilyInfo validAddressFamilyInfo 1 encodeAddressFamilyInfo.
Proof.
  split; intros x.
  - intros Hx. unfold validAddressFamilyInfo in Hx. destruct_and?. unfold decodeAddressFamilyInfo. cbn [members encodeAddressFamilyInfo mbind result_bind].
    destruct x; cbn in *. decode_struct.
  - intros Hx. unfold validAddressFamilyInfo in Hx. destruct_and?. cbn. print_struct.
  - cbn. pose_heights. lia.
Qed.

Definition encodePeerBFDInfo (x : PeerBFDInfo) : json :=
  JObject [("status", encodeString (PB_Status x))].
Definition validPeerBFDInfo (x : PeerBFDInfo) : Prop :=
  is_plain (PB_Status x).

#[global] Instance codec_PeerBFDInfo :
  Codec decodePeerBFDInfo zeroPeerBFDInfo validPeerBFDInfo 1 encodePeerBFDInfo.
Proof.
  split; intros x.
  - intros Hx. unfold validPeerBFDInfo in Hx. destruct_and?. unfold decodePeerBFDInfo. cbn [members encodePeerBFDInfo mbind result_bind].
    destruct x; cbn in *. decode_struct.
  - intros Hx. unfold validPeerBFDInfo in Hx. destruct_and?. cbn. print_struct.
  - cbn. pose_heights. lia.
Qed.

Definition encodeFRRNeighbor (x : FRRNeighbor) : json :=
  JObject [("bgpNeighborAddr", encodeString (FR_BGPNeighborAddr x));
    ("remoteAs", encodeInt (FR_RemoteAs x));
    ("localAs", encodeInt (FR_LocalAs x));
    ("remoteRouterId", encodeString (FR_RemoteRouterID x));
    ("bgpVersion", encodeInt (FR_BgpVersion x));
    ("bgpState", encodeString (FR_BgpState x));
    ("portForeign", encodeInt (FR_PortForeign x));
    ("messageStats", encodeMessageStats (FR_MsgStats x));
    ("vrf", encodeString (FR_VRFName x));
    ("addressFamilyInfo", encodeMap encodeAddressFamilyInfo (FR_AddressFamilyInfo x));
    ("peerBfdInfo", encodePeerBFDInfo (FR_BFDInfo x))].
Definition validFRRNeighbor (x : FRRNeighbor) : Prop :=
  is_plain (FR_BGPNeighborAddr x) ∧
  int64 (FR_RemoteAs x) ∧
  int64 (FR_LocalAs x) ∧
  is_plain (FR_RemoteRouterID x) ∧
  int64 (FR_BgpVersion x) ∧
  is_plain (FR_BgpState x) ∧
  int64 (FR_PortForeign x) ∧
  validMessageStats (FR_MsgStats x) ∧
  is_plain (FR_VRFName x) ∧
  valid_map validAddressFamilyInfo (FR_AddressFamilyInfo x) ∧
  validPeerBFDInfo (FR_BFDInfo x).

#[local] Arguments decodeMessageStats : simpl never.
#[local] Arguments encodeMessageStats : simpl never.
#[local] Arguments decodePeerBFDInfo : simpl never.
#[local] Arguments encodePeerBFDInfo : simpl never.

#[global] Instance codec_FRRNeighbor :
  Codec decodeFRRNeighbor zeroFRRNeighbor validFRRNeighbor 3 encodeFRRNeighbor.
Proof.
  split; intros x.
  - intros Hx. unfold validFRRNeighbor in Hx. destruct_and?. unfold decodeFRRNeighbor.
    cbn [members encodeFRRNeighbor mbind result_bind]. destruct x; cbn in *. decode_struct.
  - intros Hx. unfold validFRRNeighbor in Hx. destruct_and?. cbn. print_struct.
  - cbn. pose proof (codec_height (FR_MsgStats x)). pose proof (codec_height (FR_BFDInfo x)).
    pose proof (codec_height (FR_AddressFamilyInfo x)). pose_heights. lia.
Qed.

Lemma unmarshal_print {T} (d : decoder T) zero valid h enc `{!Codec d zero valid h enc} x :
  (h ≤ maxNestingDepth)%N → valid x → unmarshal d (print (enc x)) zero = Ok x.
Proof.
  intros Hh Hx. unfold unmarshal, Unmarshal. pose proof (codec_height x).
  rewrite read_text_print by (lia || by apply codec_printable). cbn. by rewrite codec_decode.
Qed.

Lemma ParseNeighbours_print (m : gmap string FRRNeighbor) :
  valid_map validFRRNeighbor m →
  ParseNeighbours (print (encodeMap encodeFRRNeighbor m)) =
  Ok ((λ '(k, n), toNeighbor k n) <$> map_to_list m).
Proof.
  intros Hm. unfold ParseNeighbours, decodeNeighbors.
  rewrite (unmarshal_print _ _ _ _ (encodeMap encodeFRRNeighbor)) by done. done.
Qed.

(** What is kept of a neighbor: the key as its ID, its state, and the prefixes of all its families. *)
Record describes (kn : string * FRRNeighbor) (x : FrrNeighbor) : Prop := {
  d_id : FN_ID x = kn.1;
  d_state : FN_BGPState x = FR_BgpState kn.2;
  d_connected : FN_Connected x = true ↔ FR_BgpState kn.2 = "Established";
  d_as : FN_LocalAS x = pretty (FR_LocalAs kn.2) ∧ FN_RemoteAS x = pretty (FR_RemoteAs kn.2);
  d_sent : FN_PrefixSent x = wrap64 (sumZ AF_SentPrefixCounter (map_to_list (FR_AddressFamilyInfo kn.2)).*2);
  d_received : FN_PrefixReceived x = wrap64 (sumZ AF_AcceptedPrefixCounter (map_to_list (FR_AddressFamilyInfo kn.2)).*2);
  d_peer : FN_Port x = FR_PortForeign kn.2 ∧ FN_RemoteRouterID x = FR_RemoteRouterID kn.2;
  d_stats : FN_MsgStats x = FR_MsgStats kn.2;
  d_bfd : FN_BFDStatus x = PB_Status (FR_BFDInfo kn.2) }.

Lemma toNeighbor_describes kn : describes kn (toNeighbor kn.1 kn.2).
Proof. split; cbn; rewrite ?sum64_wrap, ?bool_decide_eq_true; done. Qed.

(** C30: parsing what FRR prints for its neighbors gives exactly these neighbors, one record each: the session is
    connected exactly when its state is Established, and the prefixes are summed over the families; nothing is lost,
    invented or mixed up between the text and the records the metrics and the session states are made of. *)
Theorem ParseNeighbours_round_trip (m : gmap string FRRNeighbor) :
  valid_map validFRRNeighbor m →
  ∃ res, ParseNeighbours (print (encodeMap encodeFRRNeighbor m)) = Ok res ∧ Forall2 describes (map_to_list m) res.
Proof.
  intros Hm. eexists. split; [by apply ParseNeighbours_print|].
  apply Forall2_fmap_r, Forall_Forall2_diag, Forall_forall. intros [k n] _. apply (toNeighbor_describes (k, n)).
Qed.

(** ** What vtysh shows

    vtysh prints more members than the structs have fields, in its own order, and leaves out some that have nothing to
    say.  An object shows a struct when every field is a member with its value, or is missing and zero; no member is
    repeated, and no other member has the name of a field in another spelling, which encoding/json would take for it. *)

Record shown_field := mkShownField { SF_name : string; SF_value : json → Prop; SF_zero : Prop }.

Definition shown_in (l : list (string * json)) (f : shown_field) : Prop :=
  (∃ v, (SF_name f, v) ∈ l ∧ SF_value f v) ∨ (SF_name f ∉ l.*1 ∧ SF_zero f).
Definition no_alias (names : list string) (l : list (string * json)) : Prop :=
  Forall (λ kv, kv.1 ∈ names ∨ resolve names kv.1 = None) l.

Definition shows_object (names : list string) (fs : list shown_field) (j : json) : Prop :=
  ∃ l, j = JObject l ∧ NoDup l.*1 ∧ no_alias names l ∧ Forall (shown_in l) fs.
Definition shows_map {T} (shows : T → json → Prop) (m : gmap string T) (j : json) : Prop :=
  ∃ l, j = JObject l ∧ NoDup l.*1 ∧ (∀ k, k ∈ l.*1 ↔ is_Some (m !! k)) ∧
    ∀ k x v, m !! k = Some x → (k, v) ∈ l → shows x v.

(** What is shown is decoded. *)
Class Shown {T} (d : decoder T) (zero : T) (shows : T → json → Prop) : Prop :=
  shown_decode x j : shows x j → d j zero = Ok x.

Definition shows_int (z : Z) (j : json) : Prop := int64 z ∧ j = JNumber (pretty z).
Definition shows_string (s : string) (j : json) : Prop := j = JString s.

#[global] Instance shown_int : Shown decodeInt 0%Z shows_int.
Proof. intros z j [Hz ->]. by apply (codec_decode (enc := encodeInt)). Qed.
#[global] Instance shown_string : Shown decodeString "" shows_string.
Proof. by intros s j ->. Qed.

Lemma decodeField_shown {F} names name (d : decoder F) l zero shows `{!Shown d zero shows} x :
  name ∈ names → NoDup l.*1 → no_alias names l →
  shown_in l (mkShownField name (shows x) (x = zero)) → decodeField names name d l zero = Ok x.
Proof.
  intros Hname Hnd Hal Hx. unfold decodeField.
  assert (∀ l' y, no_alias names l' → name ∉ l'.*1 →
    foldM (λ x '(k, v), if bool_decide (resolve names k = Some name) then d v x else Ok x) y l' = Ok y) as Hskip.
  { induction l' as [|[k w] l' IH]; intros y; [done|]. intros [Hk Hl']%Forall_cons [Hne Hno]%not_elem_of_cons.
    cbn [foldM]. cbn in Hk. rewrite bool_decide_eq_false_2; [by apply IH|].
    destruct Hk as [Hk|Hk]; [rewrite resolve_name by done; naive_solver|by rewrite Hk]. }
  destruct Hx as [(v & Hin & Hv)|[Hno ->]]; [|by apply Hskip]. cbn in Hin, Hv.
  apply list_elem_of_split in Hin as (l1 & l2 & ->). rewrite fmap_app, fmap_cons in Hnd.
  apply NoDup_app in Hnd as (_ & Hd1 & [Hd2 _]%NoDup_cons). apply Forall_app in Hal as [Ha1 [_ Ha2]%Forall_cons].
  rewrite foldM_app, Hskip; [|done|intros Hx; by apply (Hd1 _ Hx); left].
  cbn [mbind result_bind foldM]. rewrite resolve_name, bool_decide_eq_true_2 by done.
  rewrite (shown_decode x v) by done. cbn [mbind result_bind]. by apply Hskip.
Qed.

#[global] Instance shown_map {T} (d : decoder T) zero shows :
  Shown d zero shows → Shown (decodeMap zero d) ∅ (shows_map shows).
Proof.
  intros Hd m j (l & -> & Hnd & Hkeys & Hvals). unfold decodeMap.
  assert (∀ l' (m0 : gmap string T), NoDup l'.*1 → (∀ kv, kv ∈ l' → kv ∈ l) → 
    ∃ m', foldM (λ (m : gmap string T) '(k, v), x ← d v zero; Ok (<[k := x]> m)) m0 l' = (Ok m' : jres _) ∧
      ∀ k, m' !! k = if bool_decide (k ∈ l'.*1) then m !! k else m0 !! k) as Hgen.
  { induction l' as [|[k v] l' IH]; intros m0; [by exists m0|]. cbn [fmap list_fmap fst].
    intros [Hk Hnd']%NoDup_cons Hl'. assert ((k, v) ∈ l) as Hin by (apply Hl'; left).
    destruct (proj1 (Hkeys k)) as [x Hx]; [by apply (list_elem_of_fmap_2 fst _ (k, v))|].
    destruct (IH (<[k := x]> m0) Hnd') as (m' & Hm' & Hlook); [intros; apply Hl'; by right|]. exists m'. split.
    - cbn [foldM]. rewrite (Hd x v) by (by eapply Hvals). done.
    - intros k'. rewrite Hlook. destruct (decide (k' = k)) as [->|Hne].
      + rewrite bool_decide_eq_false_2, lookup_insert_eq by done. by rewrite bool_decide_eq_true_2 by left.
      + rewrite lookup_insert_ne by done. apply (f_equal (λ b : bool, if b then _ else _)), bool_decide_ext. rewrite elem_of_cons. naive_solver. }
  destruct (Hgen l ∅ Hnd (λ _ H, H)) as (m' & -> & Hlook). f_equal. apply map_eq. intros k. rewrite Hlook, lookup_empty.
  case_bool_decide as Hk; [done|]. rewrite Hkeys in Hk. by apply eq_None_not_Some in Hk.
Qed.

(** A struct is decoded field by field. *)
Ltac decode_shown :=
  match goal with Hfs : Forall _ _ |- _ => rewrite !Forall_cons in Hfs end; destruct_and?;
  repeat (erewrite decodeField_shown; [|apply _|by_evaluation|eassumption|eassumption|eassumption]; cbn [mbind result_bind]); try done.

Definition shows_MessageStats (x : MessageStats) : json → Prop :=
  let int name z := mkShownField name (shows_int z) (z = 0%Z) in
  shows_object MessageStats_names
    [int "opensSent" (MS_OpensSent x); int "opensRecv" (MS_OpensReceived x);
     int "notificationsSent" (MS_NotificationsSent x); int "updatesSent" (MS_UpdatesSent x);
     int "updatesRecv" (MS_UpdatesReceived x); int "keepalivesSent" (MS_KeepalivesSent x);
     int "keepalivesRecv" (MS_KeepalivesReceived x); int "routeRefreshSent" (MS_RouteRefreshSent x);
     int "totalSent" (MS_TotalSent x); int "totalRecv" (MS_TotalReceived x)].

#[global] Instance shown_MessageStats : Shown decodeMessageStats zeroMessageStats shows_MessageStats.
Proof.
  intros x j (l & -> & Hnd & Hal & Hfs). unfold decodeMessageStats. cbn [members mbind result_bind].
  destruct x; cbn in *. decode_shown.
Qed.

Definition shows_AddressFamilyInfo (x : AddressFamilyInfo) : json → Prop :=
  let int name z := mkShownField name (shows_int z) (z = 0%Z) in
  shows_object AddressFamilyInfo_names
    [int "sentPrefixCounter" (AF_SentPrefixCounter x); int "acceptedPrefixCounter" (AF_AcceptedPrefixCounter x)].

#[global] Instance shown_AddressFamilyInfo : Shown decodeAddressFamilyInfo zeroAddressFamilyInfo shows_AddressFamilyInfo.
Proof.
  intros x j (l & -> & Hnd & Hal & Hfs). unfold decodeAddressFamilyInfo. cbn [members mbind result_bind].
  destruct x; cbn in *. decode_shown.
Qed.

Definition shows_PeerBFDInfo (x : PeerBFDInfo) : json → Prop :=
  shows_object PeerBFDInfo_names [mkShownField "status" (shows_string (PB_Status x)) (PB_Status x = "")].

#[global] Instance shown_PeerBFDInfo : Shown decodePeerBFDInfo zeroPeerBFDInfo shows_PeerBFDInfo.
Proof.
  intros x j (l & -> & Hnd & Hal & Hfs). unfold decodePeerBFDInfo. cbn [members mbind result_bind].
  destruct x; cbn in *. decode_shown.
Qed.

Definition shows_FRRNeighbor (x : FRRNeighbor) : json → Prop :=
  let int name z := mkShownField name (shows_int z) (z = 0%Z) in
  let str name s := mkShownField name (shows_string s) (s = "") in
  shows_object FRRNeighbor_names
    [str "bgpNeighborAddr" (FR_BGPNeighborAddr x); int "remoteAs" (FR_RemoteAs x); int "localAs" (FR_LocalAs x);
     str "remoteRouterId" (FR_RemoteRouterID x); int "bgpVersion" (FR_BgpVersion x); str "bgpState" (FR_BgpState x);
     int "portForeign" (FR_PortForeign x);
     mkShownField "messageStats" (shows_MessageStats (FR_MsgStats x)) (FR_MsgStats x = zeroMessageStats);
     str "vrf" (FR_VRFName x);
     mkShownField "addressFamilyInfo" (shows_map shows_AddressFamilyInfo (FR_AddressFamilyInfo x)) (FR_AddressFamilyInfo x = ∅);
     mkShownField "peerBfdInfo" (shows_PeerBFDInfo (FR_BFDInfo x)) (FR_BFDInfo x = zeroPeerBFDInfo)].

#[global] Instance shown_FRRNeighbor : Shown decodeFRRNeighbor zeroFRRNeighbor shows_FRRNeighbor.
Proof.
  intros x j (l & -> & Hnd & Hal & Hfs). unfold decodeFRRNeighbor. cbn [members mbind result_bind].
  destruct x; cbn in *. decode_shown.
Qed.

(** A text, and the value it is JSON for. *)
Definition shows_neighbors (text : string) (m : gmap string FRRNeighbor) : Prop :=
  ∃ j, read_text text = Ok j ∧ shows_map shows_FRRNeighbor m j.

Lemma ParseNeighbours_shown text m :
  shows_neighbors text m → ParseNeighbours text = Ok ((λ '(k, n), toNeighbor k n) <$> map_to_list m).
Proof.
  intros (j & Hj & Hm). unfold ParseNeighbours, unmarshal, Unmarshal, decodeNeighbors. rewrite Hj. cbn [mbind result_bind].
  by rewrite (shown_decode m j Hm).
Qed.

(** ** Sample texts *)

(** A text with its double quotes written as single ones. *)
Fixpoint text (s : string) : string :=
  match s with
  | EmptyString => ""
  | String c s => String (if is_char c 39 then byte 34 else c) (text s)
  end.

Definition sampleStats : MessageStats := mkMessageStats 1 2 3 4 5 6 7 8 9 10.

Definition sampleNeighborText : string := text
  "{ '172.18.0.5': { 'remoteAs': 64512, 'localAs': 64513, 'nbrInternalLink': true, 'bgpVersion': 4,
     'remoteRouterId': '0.0.0.0', 'bgpState': 'Established', 'gracefulRestartInfo': { 'timers': { } },
     'messageStats': { 'depthInq': 0, 'opensSent': 1, 'opensRecv': 2, 'notificationsSent': 3,
       'updatesSent': 4, 'updatesRecv': 5, 'keepalivesSent': 6, 'keepalivesRecv': 7,
       'routeRefreshSent': 8, 'totalSent': 9, 'totalRecv': 10 },
     'addressFamilyInfo': { 'ipv4Unicast': { 'acceptedPrefixCounter': 3, 'sentPrefixCounter': 1 },
       'ipv6Unicast': { 'acceptedPrefixCounter': 4, 'sentPrefixCounter': 2 } },
     'portForeign': 179, 'peerBfdInfo': { 'type': 'multi hop', 'status': 'Up' } } }".

Definition sampleParsed : FrrNeighbor :=
  mkFrrNeighbor "172.18.0.5" "" "Established" true "64513" "64512" 3 7 179 "0.0.0.0" sampleStats "Up".

Example sampleNeighborText_parsed :
  ParseNeighbours sampleNeighborText = Ok [sampleParsed] ∧ ParseNeighbour sampleNeighborText = Ok sampleParsed.
Proof. split; vm_compute; reflexivity. Qed.

(** Other fields, other types, unfinished texts and numbers that do not fit are told apart. *)
Example sampleTexts_rejected :
  ParseNeighbours (text "{ 'a': { 'remoteAs': '64512' } }") = Err (EUnmarshal EType) ∧
  ParseNeighbours (text "{ 'a': { 'remoteAs': 1.5 } }") = Err (EUnmarshal EType) ∧
  ParseNeighbours (text "{ 'a': { 'remoteAs': 9223372036854775808 } }") = Err (EUnmarshal EType) ∧
  ParseNeighbours (text "{ 'a': { } ") = Err (EUnmarshal ESyntax) ∧
  ParseNeighbour (text "{ }") = Err ENoPeers ∧
  ParseNeighbour (text "{ 'a': { }, 'b': null }") = Err EMoreThanOnePeer ∧
  ParseVRFs (text "{ 'red': { }, 'default': [ 1, -2.5e3 ] }") = Ok ["default"; "red"] ∧
  ParseVRFs (text "{ 'red': 1e309 }") = Err (EUnmarshal EType).
Proof. split_and!; vm_compute; reflexivity. Qed.

Definition sampleFRRNeighbor : FRRNeighbor :=
  mkFRRNeighbor "" 64512 64513 "0.0.0.0" 4 "Established" 179 sampleStats ""
    {["ipv4Unicast" := mkAddressFamilyInfo 1 3; "ipv6Unicast" := mkAddressFamilyInfo 2 4]} (mkPeerBFDInfo "Up").

#[global] Instance int64_dec z : Decision (int64 z).
Proof. unfold int64. apply _. Defined.
#[global] Instance is_plain_dec s : Decision (is_plain s).
Proof. unfold is_plain. apply _. Defined.
#[global] Instance validMessageStats_dec x : Decision (validMessageStats x).
Proof. unfold validMessageStats. apply _. Defined.
#[global] Instance validAddressFamilyInfo_dec x : Decision (validAddressFamilyInfo x).
Proof. unfold validAddressFamilyInfo. apply _. Defined.
#[global] Instance validPeerBFDInfo_dec x : Decision (validPeerBFDInfo x).
Proof. unfold validPeerBFDInfo. apply _. Defined.
#[global] Instance valid_map_dec {T} (valid : T → Prop) `{∀ x, Decision (valid x)} m : Decision (valid_map valid m).
Proof. unfold valid_map. apply _. Defined.
#[global] Instance validFRRNeighbor_dec x : Decision (validFRRNeighbor x).
Proof. unfold validFRRNeighbor. apply _. Defined.

Lemma ParseNeighbours_round_trip_witness :
  ∃ res, ParseNeighbours (print (encodeMap encodeFRRNeighbor {["172.18.0.5" := sampleFRRNeighbor]})) = Ok res ∧
    res = [sampleParsed].
Proof.
  destruct (ParseNeighbours_round_trip {["172.18.0.5" := sampleFRRNeighbor]} ltac:(by_evaluation)) as (res & Hres & _).
  exists res. split; [exact Hres|]. vm_compute in Hres. injection Hres as <-. vm_compute. reflexivity.
Defined.

Lemma ParseVRFs_exact_witness :
  let s := text "{ 'red': { }, 'default': { } }" in
  ∃ vrfs, ParseVRFs s = Ok vrfs ∧ NoDup vrfs ∧ "red" ∈ vrfs.
Proof.
  intros s. assert (ParseVRFs s = Ok ["default"; "red"]) as E by (vm_compute; reflexivity).
  exists ["default"; "red"]. split; [exact E|]. split; [apply (ParseVRFs_exact s _ E)|right; left].
Defined.

(** *** Routes *)

Definition pathVia (ip scope : string) (lp : N) : FRRRoute := mkFRRRoute true "" lp "IGP" [mkNexthop ip scope].

Definition sampleRoutes : list (string * list FRRRoute) :=
  [("192.168.10.0/24", [pathVia "172.18.0.4" "" 100; pathVia "172.18.0.4" "" 200]);
   ("fc00::/64", [pathVia "fe80::1" "link-local" 0; pathVia "2001:db8::1" "global" 0])].

Lemma parseRoutes_nexthops_witness :
  ∃ res r, parseRoutes sampleRoutes = Ok res ∧ res !! "192.168.10.0" = Some r ∧
    IP_String <$> Route_NextHops r = ["172.18.0.4"] ∧ NoDup (Route_NextHops r) ∧ Route_LocalPref r = 200%N.
Proof.
  assert (match parseRoutes sampleRoutes with
          | Ok res => match res !! "192.168.10.0" with
                      | Some r => bool_decide (IP_String <$> Route_NextHops r = ["172.18.0.4"] ∧ Route_LocalPref r = 200%N)
                      | None => false end
          | Err _ => false end = true) as H by (vm_compute; reflexivity).
  destruct (parseRoutes sampleRoutes) as [res|] eqn:E; [|discriminate H].
  destruct (res !! "192.168.10.0") as [r|] eqn:Er; [|discriminate H].
  apply bool_decide_eq_true in H as [H1 H2]. exists res, r. split; [reflexivity|]. split; [exact Er|].
  split; [exact H1|]. split; [|exact H2].
  destruct (parseRoutes_nexthops sampleRoutes res "192.168.10.0" r ltac:(by_evaluation) E Er)
    as (_ & _ & _ & Hnd & _). exact Hnd.
Defined.

Lemma parseRoutes_order_independent_witness :
  ∃ res, parseRoutes sampleRoutes = Ok res ∧ parseRoutes (reverse sampleRoutes) = Ok res.
Proof.
  assert ((λ _, ()) <$> parseRoutes sampleRoutes = Ok ()) as H by (vm_compute; reflexivity).
  destruct (parseRoutes sampleRoutes) as [res|] eqn:E; [|discriminate H]. exists res. split; [reflexivity|].
  apply (parseRoutes_order_independent sampleRoutes (reverse sampleRoutes) res);
    [symmetry; apply reverse_Permutation|by_evaluation|exact E].
Defined.

(** Two destinations with the same address and different lengths have the same key: one of them is
    lost, and which one depends on the order of the map. *)
Theorem same_address_loses_route :
  let short := ("10.0.0.0/8", [pathVia "172.18.0.4" "" 100]) in
  let long := ("10.0.0.0/24", [pathVia "172.18.0.5" "" 100]) in
  let hops routes := (λ res : gmap string FrrRoute, (λ kr, (kr.1, IP_String <$> Route_NextHops kr.2)) <$> map_to_list res)
                       <$> parseRoutes routes in
  hops [short; long] = Ok [("10.0.0.0", ["172.18.0.5"])] ∧
  hops [long; short] = Ok [("10.0.0.0", ["172.18.0.4"])].
Proof. split; vm_compute; reflexivity. Qed.
