(* ===== verification/Metrics.v ===== *)
(** * The metrics exporter ([cmd/metrics])

    The queries to vtysh (package vtysh), the two collectors of package collector, as the samples they send
    on their channel, and the liveness handler.  vtysh itself is the argument [frrCli].  The value of a sample is the
    integer before its conversion to a float, which is exact up to 2^53. *)

From Stdlib Require Import Ascii Lia.
From S2P Require Import Prelude GoStrings GoNet Json Parse.

(** ** Queries *)

Inductive vtyshError :=
  | ECli (e : string)
  | EParse (e : parseError).

Notation vres := (result vtyshError).

(** [type Cli func(args string) (string, error)]. *)
Definition Cli := string → result string string.

Definition run (frrCli : Cli) (args : string) : vres string :=
  match frrCli args with Ok s => Ok s | Err e => Err (ECli e) end.
Definition parse {T} (r : pres T) : vres T :=
  match r with Ok x => Ok x | Err e => Err (EParse e) end.

Definition VRFs (frrCli : Cli) : vres (list string) :=
  vrfs ← run frrCli "show bgp vrf all json";
  parse (ParseVRFs vrfs).

Definition neighborsCommand (vrf : string) : string := "show bgp vrf " +:+ vrf +:+ " neighbors json".
Definition peersCommand (vrf : string) : string := "show bfd vrf " +:+ vrf +:+ " peers json".
Definition countersCommand (vrf : string) : string := "show bfd vrf " +:+ vrf +:+ " peers counters json".

(** The loop of the three functions below: one query per VRF. *)
Definition perVRF {T} (frrCli : Cli) (command : string → string) (p : string → pres T)
    : vres (gmap string T) :=
  vrfs ← VRFs frrCli;
  foldM (λ res vrf, out ← run frrCli (command vrf); x ← parse (p out); Ok (<[vrf := x]> res)) ∅ vrfs.

Definition GetBGPNeighbors (frrCli : Cli) : vres (gmap string (list FrrNeighbor)) :=
  perVRF frrCli neighborsCommand ParseNeighbours.

Definition GetBFDPeers (frrCli : Cli) : vres (gmap string (list BFDPeer)) :=
  perVRF frrCli peersCommand ParseBFDPeers.

Definition GetBFDPeersCounters (frrCli : Cli) : vres (gmap string (list BFDPeerCounters)) :=
  perVRF frrCli countersCommand
    (λ countersJSON, unmarshal (decodeSlice zeroBFDPeerCounters decodeBFDPeerCounters) countersJSON []).

(** ** Samples *)

Inductive valueType := GaugeValue | CounterValue.

#[global] Instance valueType_eq_dec : EqDecision valueType.
Proof. solve_decision. Defined.

(** A sample; its value is what is converted to [float64]. *)
Record sample := mkSample {
  S_name : string;
  S_type : valueType;
  S_value : Z;
  S_peer : string;
  S_vrf : string }.

#[global] Instance sample_eq_dec : EqDecision sample.
Proof. solve_decision. Defined.

Definition Namespace : string := "frrk8s".

(** [prometheus.BuildFQName]. *)
Definition fqName (subsystem name : string) : string := Namespace +:+ "_" +:+ subsystem +:+ "_" +:+ name.

(** What is exported of a neighbor, with the names of the descriptions. *)
Definition neighborMetrics : list (string * valueType * (FrrNeighbor → Z)) :=
  let stat f := λ n, f (FN_MsgStats n) in
  [("session_up", GaugeValue, λ n, if FN_Connected n then 1%Z else 0%Z);
   ("announced_prefixes_total", GaugeValue, FN_PrefixSent);
   ("received_prefixes_total", GaugeValue, FN_PrefixReceived);
   ("opens_sent", CounterValue, stat MS_OpensSent);
   ("opens_received", CounterValue, stat MS_OpensReceived);
   ("notifications_sent", CounterValue, stat MS_NotificationsSent);
   ("updates_total", CounterValue, stat MS_UpdatesSent);
   ("updates_total_received", CounterValue, stat MS_UpdatesReceived);
   ("keepalives_sent", CounterValue, stat MS_KeepalivesSent);
   ("keepalives_received", CounterValue, stat MS_KeepalivesReceived);
   ("route_refresh_sent", CounterValue, stat MS_RouteRefreshSent);
   ("total_sent", CounterValue, stat MS_TotalSent);
   ("total_received", CounterValue, stat MS_TotalReceived)].

Definition peerMetrics : list (string * valueType * (BFDPeer → Z)) :=
  [("session_up", GaugeValue, λ p, if bool_decide (BP_Status p = "up") then 1%Z else 0%Z)].

Definition counterMetrics : list (string * valueType * (BFDPeerCounters → Z)) :=
  [("control_packet_input", CounterValue, BC_ControlPacketInput);
   ("control_packet_output", CounterValue, BC_ControlPacketOutput);
   ("echo_packet_input", CounterValue, BC_EchoPacketInput);
   ("echo_packet_output", CounterValue, BC_EchoPacketOutput);
   ("session_up_events", CounterValue, BC_SessionUpEvents);
   ("session_down_events", CounterValue, BC_SessionDownEvents);
   ("zebra_notifications", CounterValue, BC_ZebraNotifications)].

(** The samples of every element of every VRF. *)
Definition samplesOf {T} (subsystem : string) (metrics : list (string * valueType * (T → Z)))
    (peer : T → string) (perVRF : gmap string (list T)) : list sample :=
  map_to_list perVRF ≫= λ '(vrf, xs), xs ≫= λ x,
    (λ '(name, ty, value), mkSample (fqName subsystem name) ty (value x) (peer x) vrf) <$> metrics.

Definition updateNeighborsMetrics (neighbors : gmap string (list FrrNeighbor)) : list sample :=
  samplesOf "bgp" neighborMetrics MetricName neighbors.
Definition updatePeersMetrics (peersPerVRF : gmap string (list BFDPeer)) : list sample :=
  samplesOf "bfd" peerMetrics BP_Peer peersPerVRF.
Definition updatePeersCountersMetrics (countersPerVRF : gmap string (list BFDPeerCounters)) : list sample :=
  samplesOf "bfd" counterMetrics BC_Peer countersPerVRF.

(** [Describe]: the names of the descriptions it sends, which it lists apart from the samples. *)
Definition bgp_Describe : list string :=
  fqName "bgp" <$>
    ["session_up"; "announced_prefixes_total"; "received_prefixes_total"; "opens_sent"; "opens_received";
     "notifications_sent"; "updates_total"; "updates_total_received"; "keepalives_sent"; "keepalives_received";
     "route_refresh_sent"; "total_sent"; "total_received"].
Definition bfd_Describe : list string :=
  fqName "bfd" <$>
    ["session_up"; "control_packet_input"; "control_packet_output"; "echo_packet_input"; "echo_packet_output";
     "session_up_events"; "session_down_events"; "zebra_notifications"].

(** [Collect]: the samples sent, and the error that is logged. *)
Definition bgp_Collect (frrCli : Cli) : list sample * option vtyshError :=
  match GetBGPNeighbors frrCli with
  | Err e => ([], Some e)
  | Ok neighbors => (updateNeighborsMetrics neighbors, None)
  end.

Definition bfd_Collect (frrCli : Cli) : list sample * option vtyshError :=
  match GetBFDPeers frrCli with
  | Err e => ([], Some e)
  | Ok peers =>
      match GetBFDPeersCounters frrCli with
      | Err e => (updatePeersMetrics peers, Some e)
      | Ok counters => (updatePeersMetrics peers ++ updatePeersCountersMetrics counters, None)
      end
  end.

(** ** Liveness *)

(** [strings.TrimSuffix(s, "\n")]. *)
Fixpoint trimNewline (s : string) : string :=
  match s with
  | EmptyString => ""
  | String c EmptyString => if is_char c 10 then "" else s
  | String c r => String c (trimNewline r)
  end.

Definition expectedDaemons : gset string := {["bfdd"; "bgpd"; "staticd"; "watchfrr"; "zebra"]}.

Inductive httpStatus := StatusOK | StatusNotFound | StatusInternalServerError.

Definition livenessHandler (frrCli : Cli) : httpStatus :=
  match frrCli "show daemons" with
  | Err _ => StatusInternalServerError
  | Ok res =>
      let runningDaemons := Split (trimNewline res) " " in
      let missing := foldl (λ expected d, expected ∖ {[d]}) expectedDaemons runningDaemons in
      if (0 <? size missing)%nat then StatusNotFound else StatusOK
  end.
