(* ===== verification/MetricsProps.v ===== *)
(** * What the metrics exporter reports

    The samples are exactly those of the sessions FRR reports, one per session and metric, under distinct
    labels; from the text vtysh prints to the value that is exported. *)

From Stdlib Require Import Ascii Lia.
From S2P Require Import Prelude GoStrings GoNet Json JsonPrint Parse ParseProps ParseText Metrics.

(** ** Queries *)

Lemma run_Ok cli args s : run cli args = Ok s ↔ cli args = Ok s.
Proof. unfold run. destruct (cli args); naive_solver. Qed.
Lemma parse_Ok {T} (r : pres T) x : parse r = Ok x ↔ r = Ok x.
Proof. unfold parse. destruct r; naive_solver. Qed.

(** One query per VRF, and the answers by VRF. *)
Lemma perVRF_Ok {T} cli command (p : string → pres T) m :
  perVRF cli command p = Ok m ↔
  ∃ vrfs, VRFs cli = Ok vrfs ∧
    Forall (λ v, ∃ out x, cli (command v) = Ok out ∧ p out = Ok x) vrfs ∧
    ∀ v x, m !! v = Some x ↔ v ∈ vrfs ∧ ∃ out, cli (command v) = Ok out ∧ p out = Ok x.
Proof.
  unfold perVRF.
  assert (∀ v out x x', cli (command v) = Ok out → p out = Ok x →
    (∃ out, cli (command v) = Ok out ∧ p out = Ok x') ↔ Some x = Some x') as Hval.
  { intros v out x x' H1 H2. split; [|by intros [= <-]; eauto]. intros (out' & H3 & H4). congruence. }
  assert (∀ vrfs (m0 : gmap string T),
    foldM (λ res vrf, out ← run cli (command vrf); x ← parse (p out); Ok (<[vrf := x]> res)) m0 vrfs = Ok m ↔
    Forall (λ v, ∃ out x, cli (command v) = Ok out ∧ p out = Ok x) vrfs ∧
    ∀ v x, m !! v = Some x ↔ (v ∈ vrfs ∧ ∃ out, cli (command v) = Ok out ∧ p out = Ok x) ∨
      (v ∉ vrfs ∧ m0 !! v = Some x)) as Hloop.
  { induction vrfs as [|v vrfs IH]; intros m0; cbn [foldM].
    - split.
      + intros [= <-]. split; [constructor|]. set_solver.
      + intros [_ Hm]. f_equal. apply map_eq. intros v. apply option_eq. intros x. rewrite Hm. set_solver.
    - rewrite Forall_cons. split.
      + intros (m1 & H1 & H)%bind_Ok. apply bind_Ok in H1 as (out & Hout%run_Ok & H1).
        apply bind_Ok in H1 as (x & Hx%parse_Ok & [= <-]). apply IH in H as [Hall Hm].
        split; [by eauto|]. intros v' x'. rewrite Hm, elem_of_cons.
        destruct (decide (v = v')) as [<-|Hv]; [rewrite lookup_insert_eq|rewrite lookup_insert_ne by done].
        * rewrite (Hval _ _ _ x' Hout Hx). clear. destruct (decide (v ∈ vrfs)); intuition.
        * assert (v' ≠ v) by done. clear -H. intuition.
      + intros [[(out & x & Hout & Hx) Hall] Hm].
        rewrite (proj2 (run_Ok _ _ _) Hout). cbn [mbind result_bind]. rewrite (proj2 (parse_Ok _ _) Hx).
        cbn [mbind result_bind]. apply IH. split; [done|]. intros v' x'. rewrite Hm, elem_of_cons.
        destruct (decide (v = v')) as [<-|Hv]; [rewrite lookup_insert_eq|rewrite lookup_insert_ne by done].
        * rewrite (Hval _ _ _ x' Hout Hx). clear. destruct (decide (v ∈ vrfs)); intuition.
        * assert (v' ≠ v) by done. clear -H. intuition. }
  split.
  - intros (vrfs & Hv & [Hall Hm]%Hloop)%bind_Ok. exists vrfs. split_and!; [done..|].
    intros v x. rewrite Hm, lookup_empty. clear. intuition congruence.
  - intros (vrfs & -> & Hall & Hm). cbn [mbind result_bind]. apply Hloop. split; [done|].
    intros v x. rewrite Hm, lookup_empty. clear. intuition congruence.
Qed.

(** ** Samples *)

Lemma elem_of_samplesOf {T} sub (metrics : list (string * valueType * (T → Z))) peer m s :
  s ∈ samplesOf sub metrics peer m ↔
  ∃ vrf xs x name ty value, m !! vrf = Some xs ∧ x ∈ xs ∧ (name, ty, value) ∈ metrics ∧
    s = mkSample (fqName sub name) ty (value x) (peer x) vrf.
Proof.
  unfold samplesOf. rewrite list_elem_of_bind. split.
  - intros ([vrf xs] & Hs & Hm%elem_of_map_to_list). apply list_elem_of_bind in Hs as (x & Hs & Hx).
    apply list_elem_of_fmap in Hs as ([[name ty] value] & -> & Hin). by exists vrf, xs, x, name, ty, value.
  - intros (vrf & xs & x & name & ty & value & Hm & Hx & Hin & ->). exists (vrf, xs).
    split; [|by apply elem_of_map_to_list]. apply list_elem_of_bind. exists x. split; [|done].
    apply list_elem_of_fmap. by exists (name, ty, value).
Qed.

(** What Prometheus tells samples apart by. *)
Definition labels_of (s : sample) : string * string * string := (S_name s, S_peer s, S_vrf s).

Lemma fmap_bind {A B C} (f : B → C) (g : A → list B) l : f <$> (l ≫= g) = l ≫= λ x, f <$> g x.
Proof. induction l as [|x l IH]; [done|]. cbn. by rewrite fmap_app, IH. Qed.

Lemma fqName_inj sub n1 n2 : fqName sub n1 = fqName sub n2 → n1 = n2.
Proof. unfold fqName. intros H. by repeat apply (inj (String.append _)) in H. Qed.

Lemma samplesOf_NoDup {T} sub (metrics : list (string * valueType * (T → Z))) peer m :
  NoDup ((λ x, x.1.1) <$> metrics) → (∀ vrf xs, m !! vrf = Some xs → NoDup (peer <$> xs)) →
  NoDup (labels_of <$> samplesOf sub metrics peer m).
Proof.
  intros Hmet Hpeer. unfold samplesOf. rewrite fmap_bind. apply NoDup_bind; [apply NoDup_map_to_list|..].
  - intros [vrf xs] Hm%elem_of_map_to_list. rewrite fmap_bind. specialize (Hpeer vrf xs Hm).
    apply NoDup_bind; [by eapply NoDup_fmap_1|..].
    + intros x _. rewrite <-list_fmap_compose. eapply (NoDup_of_key _ (λ x, x.1.1)); [|exact Hmet].
      intros [[n1 t1] v1] [[n2 t2] v2] H. apply (f_equal (λ l, l.1.1)) in H. by apply fqName_inj in H.
    + intros x y b Hx Hy Hb Hb'. rewrite <-list_fmap_compose, list_elem_of_fmap in Hb, Hb'.
      destruct Hb as ([[n1 t1] v1] & -> & _), Hb' as ([[n2 t2] v2] & H & _).
      apply (f_equal (λ l, l.1.2)) in H.
      by eapply NoDup_key_inj.
  - intros [v1 xs1] [v2 xs2] b H1%elem_of_map_to_list H2%elem_of_map_to_list Hb Hb'.
    assert (∀ v xs, b ∈ labels_of <$> (xs ≫= λ x, (λ '(name, ty, value),
      mkSample (fqName sub name) ty (value x) (peer x) v) <$> metrics) → b.2 = v) as Hv.
    { intros v xs (s & -> & Hs)%list_elem_of_fmap. apply list_elem_of_bind in Hs as (x & Hs & _).
      by apply list_elem_of_fmap in Hs as ([[n t] w] & -> & _). }
    apply Hv in Hb, Hb'. subst. congruence.
Qed.

(** ** The BGP collector *)

Lemma ParseNeighbours_ids s l : ParseNeighbours s = Ok l → NoDup (FN_ID <$> l).
Proof.
  intros (m & _ & [= <-])%bind_Ok. rewrite <-list_fmap_compose.
  rewrite (list_fmap_ext _ fst); [apply NoDup_fst_map_to_list|]. by intros i [k n] _.
Qed.

Lemma GetBGPNeighbors_ids cli m vrf ns : GetBGPNeighbors cli = Ok m → m !! vrf = Some ns → NoDup (FN_ID <$> ns).
Proof.
  intros (vrfs & _ & _ & Hm)%perVRF_Ok (_ & out & _ & H)%Hm. by eapply ParseNeighbours_ids.
Qed.

Lemma neighborMetrics_names : NoDup ((λ x, x.1.1) <$> neighborMetrics).
Proof. by_evaluation. Qed.

(** The state of FRR: its neighbors, by VRF. *)
Notation frrState := (gmap string (gmap string FRRNeighbor)).

(** vtysh answers the queries with texts that show that state: the VRFs are the members of one object, and the neighbors of a
    VRF those of another, with at least the members the structs of parse.go are read from. *)
Record answers_from (cli : Cli) (st : frrState) : Prop := {
  af_vrfs : ∃ text l, cli "show bgp vrf all json" = Ok text ∧ read_text text = Ok (JObject l) ∧
    forallb (λ kv, fits_any kv.2) l = true ∧ ∀ v, v ∈ l.*1 ↔ is_Some (st !! v);
  af_neighbors vrf ns : st !! vrf = Some ns →
    ∃ text, cli ("show bgp vrf " +:+ vrf +:+ " neighbors json") = Ok text ∧ shows_neighbors text ns }.

Lemma decodeAny_members l m :
  forallb (λ kv, fits_any kv.2) l = true →
  ∃ m', foldM (λ (m : gmap string unit) '(k, v), x ← decodeAny v (); Ok (<[k := x]> m)) m l = Ok m'.
Proof.
  revert m. induction l as [|[k v] l IH]; intros m; [by eexists|]. cbn [forallb snd].
  intros [Hv Hl]%andb_true_iff. cbn [foldM]. destruct (IH (<[k := ()]> m) Hl) as [m' Hm']. exists m'.
  rewrite <-Hm'. change (decodeAny v ()) with (if fits_any v then Ok () else Err EType : jres ()). by rewrite Hv.
Qed.

Lemma VRFs_answers cli st :
  answers_from cli st → ∃ vrfs, VRFs cli = Ok vrfs ∧ ∀ v, v ∈ vrfs ↔ is_Some (st !! v).
Proof.
  intros [(text & l & Hcli & Htext & Hfit & Hl) _]. destruct (decodeAny_members l ∅ Hfit) as [m Hm].
  exists (sortedKeys m). split.
  - unfold VRFs, run, ParseVRFs, unmarshal, Unmarshal. rewrite Hcli. cbn [mbind result_bind].
    rewrite Htext. cbn [mbind result_bind decodeMap]. by rewrite Hm.
  - intros v. rewrite elem_of_sortedKeys, (decode_keys _ _ _ _ _ Hm), lookup_empty, <-Hl. split; [|by right].
    by intros [[]|].
Qed.

(** The neighbors of FRR are read as they are. *)
Lemma GetBGPNeighbors_answers cli st :
  answers_from cli st →
  GetBGPNeighbors cli = Ok ((λ ns, (λ '(k, n), toNeighbor k n) <$> map_to_list ns) <$> st).
Proof.
  intros Ha. destruct (VRFs_answers cli st Ha) as (vrfs & Hv & Hin). apply perVRF_Ok. exists vrfs.
  assert (∀ v ns, st !! v = Some ns → ∃ out, cli (neighborsCommand v) = Ok out ∧
    ParseNeighbours out = Ok ((λ '(k, n), toNeighbor k n) <$> map_to_list ns)) as Hns.
  { intros v ns Hst. destruct (af_neighbors _ _ Ha v ns Hst) as (out & Hcli & Hout). exists out. split; [done|].
    by apply ParseNeighbours_shown. }
  split_and!; [done|..].
  - apply Forall_forall. intros v [ns Hst]%Hin. destruct (Hns v ns Hst) as (out & ? & ?). eauto.
  - intros v x. rewrite lookup_fmap_Some. split.
    + intros (ns & <- & Hst). destruct (Hns v ns Hst) as (out & ? & ?). split; [by apply Hin; eexists|eauto].
    + intros [[ns Hst]%Hin (out & Hout & Hx)]. exists ns. split; [|done].
      destruct (Hns v ns Hst) as (out' & H1 & H2). congruence.
Qed.

(** What is exported of a neighbor of FRR: the name, the type and the value of each metric. *)
Definition exported (n : FRRNeighbor) : list (string * valueType * Z) :=
  let st := FR_MsgStats n in
  let infos := (map_to_list (FR_AddressFamilyInfo n)).*2 in
  [("session_up", GaugeValue, if bool_decide (FR_BgpState n = "Established") then 1%Z else 0%Z);
   ("announced_prefixes_total", GaugeValue, wrap64 (sumZ AF_SentPrefixCounter infos));
   ("received_prefixes_total", GaugeValue, wrap64 (sumZ AF_AcceptedPrefixCounter infos));
   ("opens_sent", CounterValue, MS_OpensSent st); ("opens_received", CounterValue, MS_OpensReceived st);
   ("notifications_sent", CounterValue, MS_NotificationsSent st);
   ("updates_total", CounterValue, MS_UpdatesSent st); ("updates_total_received", CounterValue, MS_UpdatesReceived st);
   ("keepalives_sent", CounterValue, MS_KeepalivesSent st); ("keepalives_received", CounterValue, MS_KeepalivesReceived st);
   ("route_refresh_sent", CounterValue, MS_RouteRefreshSent st);
   ("total_sent", CounterValue, MS_TotalSent st); ("total_received", CounterValue, MS_TotalReceived st)].

Lemma neighborMetrics_exported k n :
  (λ '(name, ty, value), (name, ty, value (toNeighbor k n))) <$> neighborMetrics = exported n.
Proof.
  unfold neighborMetrics, exported. cbn [fmap list_fmap toNeighbor FN_Connected FN_PrefixSent FN_PrefixReceived FN_MsgStats].
  by rewrite !sum64_wrap.
Qed.

(** C29: the metrics mirror FRR: when the answers of vtysh show a state of FRR (objects with at least the members parse.go reads, none
    repeated or in another spelling, and numbers of 64 bits), a sample is
    exported for every neighbor of every VRF and every metric, and for nothing else; the value is that
    of the neighbor: the session is up exactly when its state is Established, the announced and received prefixes are the sums over its
    families of the prefixes sent and accepted, modulo 2^64, and every message counter is the counter of that kind; and no two samples
    have the same name and labels, which Prometheus would refuse. *)
Theorem bgp_Collect_exact cli st :
  answers_from cli st →
  ∃ samples, bgp_Collect cli = (samples, None) ∧ NoDup (labels_of <$> samples) ∧
  ∀ s, s ∈ samples ↔ ∃ vrf ns k n name ty value,
    st !! vrf = Some ns ∧ ns !! k = Some n ∧ (name, ty, value) ∈ exported n ∧
    s = mkSample ("frrk8s_bgp_" +:+ name) ty value k vrf.
Proof.
  intros Ha. pose proof (GetBGPNeighbors_answers cli st Ha) as Hg. eexists. unfold bgp_Collect. rewrite Hg.
  split; [done|]. split.
  - apply samplesOf_NoDup; [apply neighborMetrics_names|]. intros vrf xs Hx. by eapply GetBGPNeighbors_ids.
  - intros s. unfold updateNeighborsMetrics. rewrite elem_of_samplesOf. split.
    + intros (vrf & xs & x & name & ty & value & (ns & <- & Hst)%lookup_fmap_Some & Hx & Hin & ->).
      apply list_elem_of_fmap in Hx as ([k n] & -> & Hkn%elem_of_map_to_list).
      exists vrf, ns, k, n, name, ty, (value (toNeighbor k n)). split_and!; [done..| |done].
      rewrite <-(neighborMetrics_exported k). apply list_elem_of_fmap. by exists (name, ty, value).
    + intros (vrf & ns & k & n & name & ty & z & Hst & Hkn & Hin & ->).
      rewrite <-(neighborMetrics_exported k), list_elem_of_fmap in Hin. destruct Hin as ([[name' ty'] value] & [= -> -> ->] & Hin).
      eexists vrf, _, (toNeighbor k n), name', ty', value.
      split; [apply lookup_fmap_Some; by eexists|]. split_and!; [|done|done]. apply list_elem_of_fmap.
      exists (k, n). split; [done|]. by apply elem_of_map_to_list.
Qed.

(** ** Names *)

(** C40: samples have the type they were declared with: every sample a collector sends, whatever vtysh answers, has a name the
    collector described, and its type is that of its name: sessions and prefixes are gauges, everything else is a
    counter.  A registry refuses any other sample. *)
Theorem samples_described cli :
  Forall (λ s, S_name s ∈ bgp_Describe ∧
    (S_type s = GaugeValue ↔ S_name s ∈ fqName "bgp" <$> ["session_up"; "announced_prefixes_total"; "received_prefixes_total"]))
    (fst (bgp_Collect cli)) ∧
  Forall (λ s, S_name s ∈ bfd_Describe ∧ (S_type s = GaugeValue ↔ S_name s = fqName "bfd" "session_up"))
    (fst (bfd_Collect cli)).
Proof.
  assert (∀ T sub (metrics : list (string * valueType * (T → Z))) peer m (P : string → valueType → Prop),
    Forall (λ x, P (fqName sub x.1.1) x.1.2) metrics →
    Forall (λ s, P (S_name s) (S_type s)) (samplesOf sub metrics peer m)) as Hd.
  { intros T sub metrics peer m P HP. apply Forall_forall.
    intros s (vrf & xs & x & name & ty & value & _ & _ & Hin & ->)%elem_of_samplesOf.
    by apply (proj1 (Forall_forall _ _) HP) in Hin. }
  split.
  - unfold bgp_Collect. destruct (GetBGPNeighbors cli); [|constructor].
    apply (Hd _ _ _ _ _ (λ n t, n ∈ bgp_Describe ∧ (t = GaugeValue ↔ n ∈ _))). by_evaluation.
  - set (P := λ n t, n ∈ bfd_Describe ∧ (t = GaugeValue ↔ n = fqName "bfd" "session_up")).
    unfold bfd_Collect. destruct (GetBFDPeers cli); [|constructor].
    assert (Forall (λ s, P (S_name s) (S_type s)) (updatePeersMetrics a)) by (apply Hd; unfold P; by_evaluation).
    destruct (GetBFDPeersCounters cli); [|done]. apply Forall_app. split; [done|].
    apply (Hd _ _ _ _ _ P). unfold P. by_evaluation.
Qed.

(** ** Liveness *)

Lemma foldl_difference (s : gset string) l x : x ∈ foldl (λ s d, s ∖ {[d]}) s l ↔ x ∈ s ∧ x ∉ l.
Proof. revert s. induction l as [|d l IH]; intros s; cbn; [set_solver|]. rewrite IH. set_solver. Qed.

(** The handler answers 200 exactly when vtysh lists the five daemons. *)
Theorem livenessHandler_exact cli :
  livenessHandler cli = StatusOK ↔
  ∃ res, cli "show daemons" = Ok res ∧
    ∀ d, d ∈ ["bfdd"; "bgpd"; "staticd"; "watchfrr"; "zebra"] → d ∈ Split (trimNewline res) " ".
Proof.
  unfold livenessHandler. destruct (cli "show daemons") as [res|]; [|naive_solver].
  set (missing := foldl _ _ _). destruct (Nat.ltb_spec 0 (size missing)) as [H|H]; split; try done.
  - intros (res' & [= <-] & Hall). apply size_pos_elem_of in H as [x [Hx Hno]%foldl_difference].
    destruct Hno. apply Hall. unfold expectedDaemons in Hx. set_solver.
  - intros _. exists res. split; [done|]. intros d Hd. destruct (decide (d ∈ Split (trimNewline res) " ")); [done|].
    assert (d ∈ missing) as Hm. { apply foldl_difference. split; [|done]. unfold expectedDaemons. set_solver. }
    assert (size missing = 0) as Hz by lia. apply size_empty_inv in Hz. set_solver.
Qed.

(** ** Samples of the exporter *)

Definition sampleState : frrState := {["default" := {["172.18.0.5" := sampleFRRNeighbor]}]}.

Definition sampleCli : Cli := λ args,
  if bool_decide (args = "show bgp vrf all json") then Ok (text "{ 'default': { 'vrfId': 0 } }")
  else if bool_decide (args = neighborsCommand "default") then Ok sampleNeighborText
  else if bool_decide (args = "show daemons") then Ok " zebra bgpd watchfrr staticd bfdd"
  else Err "unknown command".

(** The fields of an object, one by one. *)
Ltac show_field := first
  [ right; split; [by_evaluation|reflexivity]
  | left; eexists; split; [repeat (apply elem_of_cons; first [left; reflexivity | right])|cbn [SF_value]] ].
Ltac show_int := split; [by_evaluation|vm_compute; reflexivity].
Ltac show_object :=
  eexists; split; [reflexivity|]; split; [by_evaluation|]; split; [unfold no_alias; by_evaluation|];
  repeat first [apply List.Forall_nil | apply List.Forall_cons]; show_field.

Lemma sampleNeighborText_shows : shows_neighbors sampleNeighborText {["172.18.0.5" := sampleFRRNeighbor]}.
Proof.
  eexists. split; [vm_compute; reflexivity|]. eexists. split; [reflexivity|]. split; [by_evaluation|]. split.
  - intros k. cbn [fmap list_fmap fst]. rewrite list_elem_of_singleton, lookup_singleton_is_Some. naive_solver.
  - intros k x v [<- <-]%lookup_singleton_Some Hv%list_elem_of_singleton. injection Hv as ->.
    show_object; first [reflexivity|show_int|show_object; first [reflexivity|show_int]|idtac].
    eexists. split; [reflexivity|]. split; [by_evaluation|]. split.
    + intros k. cbn [fmap list_fmap fst]. rewrite !elem_of_cons, elem_of_nil.
      change (FR_AddressFamilyInfo sampleFRRNeighbor) with ({["ipv4Unicast" := mkAddressFamilyInfo 1 3;
        "ipv6Unicast" := mkAddressFamilyInfo 2 4]} : gmap string AddressFamilyInfo).
      rewrite lookup_insert_is_Some, lookup_singleton_is_Some. destruct (decide ("ipv4Unicast" = k)); naive_solver.
    + intros k x v Hx Hv. rewrite !elem_of_cons, elem_of_nil in Hv.
      destruct Hv as [[= -> ->]|[[= -> ->]|[]]]; vm_compute in Hx; injection Hx as <-; show_object; show_int.
Qed.

Lemma sampleCli_answers : answers_from sampleCli sampleState.
Proof.
  split.
  - eexists _, _. split; [vm_compute; reflexivity|]. split; [vm_compute; reflexivity|].
    split; [done|]. intros v. unfold sampleState. cbn [fmap list_fmap fst].
    rewrite list_elem_of_singleton, lookup_singleton_is_Some. naive_solver.
  - intros vrf ns. unfold sampleState. intros [<- <-]%lookup_singleton_Some. exists sampleNeighborText.
    split; [vm_compute; reflexivity|exact sampleNeighborText_shows].
Qed.

Lemma bgp_Collect_exact_witness :
  ∃ samples, bgp_Collect sampleCli = (samples, None) ∧
    mkSample "frrk8s_bgp_session_up" GaugeValue 1 "172.18.0.5" "default" ∈ samples ∧
    mkSample "frrk8s_bgp_announced_prefixes_total" GaugeValue 3 "172.18.0.5" "default" ∈ samples ∧
    mkSample "frrk8s_bgp_received_prefixes_total" GaugeValue 7 "172.18.0.5" "default" ∈ samples ∧
    mkSample "frrk8s_bgp_opens_sent" CounterValue 1 "172.18.0.5" "default" ∈ samples.
Proof.
  destruct (bgp_Collect_exact sampleCli sampleState sampleCli_answers) as (samples & Hs & _ & Hin).
  exists samples. split; [exact Hs|]. 
  assert (∀ x, x ∈ exported sampleFRRNeighbor →
    mkSample ("frrk8s_bgp_" +:+ x.1.1) x.1.2 x.2 "172.18.0.5" "default" ∈ samples) as Hx.
  { intros [[name ty] z] Hx. apply Hin. exists "default", {["172.18.0.5" := sampleFRRNeighbor]}, "172.18.0.5", sampleFRRNeighbor, name, ty, z.
    split; [reflexivity|]. split; [reflexivity|]. split; [exact Hx|reflexivity]. }
  split_and!.
  - apply (Hx ("session_up", GaugeValue, 1%Z)). by_evaluation.
  - apply (Hx ("announced_prefixes_total", GaugeValue, 3%Z)). by_evaluation.
  - apply (Hx ("received_prefixes_total", GaugeValue, 7%Z)). by_evaluation.
  - apply (Hx ("opens_sent", CounterValue, 1%Z)). by_evaluation.
Defined.

Definition bfdOn (peer iface status : string) : BFDPeer :=
  mkBFDPeer false peer "" "default" iface 1 2 false status 0 "ok" "ok" 300 300 50 0 3 300 300 50 50 3.

(** Two BFD sessions with the same peer address, on two interfaces, are exported under the same labels: the
    registry refuses the second sample. *)
Theorem bfd_same_peer_same_labels :
  let peers := {["default" := [bfdOn "fe80::1" "eth0" "up"; bfdOn "fe80::1" "eth1" "down"]]} in
  labels_of <$> updatePeersMetrics peers =
    [("frrk8s_bfd_session_up", "fe80::1", "default"); ("frrk8s_bfd_session_up", "fe80::1", "default")].
Proof. vm_compute. reflexivity. Qed.
