(* ===== verification/SessionState.v ===== *)
(** * The session states ([cmd/status/controller/bgpsessionstate_controller.go])

    [BGPSessionStateReconciler] keeps one BGPSessionState object per BGP session
    of the node: it compares the objects with the neighbors FRR reports, deletes
    duplicates and those of sessions that are gone, and creates or patches the
    others.  Objects keep the fields the controller uses; what the API server
    answers to each call is an argument. *)

From Stdlib Require Import Ascii Lia.
From S2P Require Import Prelude GoStrings GoNet IPFamily Community Api FrrConfig Errors.
From S2P Require Import Merge ApiToConfig Logging Reconciler.
From S2P Require Import Json Parse.

(** ** Data *)

Record BGPSessionStateStatus := mkBGPSessionStateStatus {
  SS_BGPStatus : string;
  SS_BFDStatus : string;
  SS_Node : string;
  SS_Peer : string;
  SS_VRF : string }.

Record BGPSessionState := mkBGPSessionState {
  BSS_Name : string;
  BSS_GenerateName : string;
  BSS_Namespace : string;
  BSS_Labels : labels;
  BSS_Status : BGPSessionStateStatus }.

#[global] Instance BGPSessionStateStatus_eq_dec : EqDecision BGPSessionStateStatus.
Proof. solve_decision. Defined.
#[global] Instance BGPSessionState_eq_dec : EqDecision BGPSessionState.
Proof. solve_decision. Defined.

Record SessionReconciler := mkSessionReconciler {
  SR_NodeName : string;
  SR_Namespace : string;
  SR_ResyncPeriod : Z }.

Definition nodeLabel : string := "frrk8s.metallb.io/node".
Definition peerLabel : string := "frrk8s.metallb.io/peer".
Definition vrfLabel : string := "frrk8s.metallb.io/vrf".
Definition noBFDConfigured : string := "N/A".

(** A label that is not there reads as "". *)
Definition nodeFor (s : BGPSessionState) : string := default "" (BSS_Labels s !! nodeLabel).
Definition peerFor (s : BGPSessionState) : string := default "" (BSS_Labels s !! peerLabel).
Definition vrfFor (s : BGPSessionState) : string := default "" (BSS_Labels s !! vrfLabel).

(** ** Labels *)

(** [netip.Addr.StringExpanded]: groups of four hexadecimal digits. *)
Definition appendHexPad (n : N) : string :=
  String (hexDigit (n `div` 4096 `mod` 16)) (String (hexDigit (n `div` 256 `mod` 16))
    (String (hexDigit (n `div` 16 `mod` 16)) (String (hexDigit (n `mod` 16)) ""))).

Definition StringExpanded (a : Addr) : string :=
  match a with
  | Addr4 b => string4 b
  | Addr6 b zone =>
      String.concat ":" (appendHexPad <$> groups16 b) +:+
      (if bool_decide (zone = "") then "" else "%" +:+ zone)
  end.

(** [strings.ReplaceAll(s, ":", "-")]. *)
Fixpoint replaceColons (s : string) : string :=
  match s with
  | EmptyString => ""
  | String c s => String (if bool_decide (c = ":"%char) then "-"%char else c) (replaceColons s)
  end.

Definition labelFormatForNeighbor (id : string) : string :=
  match ParseAddr id with
  | None => id
  | Some (Addr4 _) => id
  | Some a => replaceColons (StringExpanded a)
  end.

Example labelFormat_v6 :
  labelFormatForNeighbor "2001:db8::1" = "2001-0db8-0000-0000-0000-0000-0000-0001".
Proof. vm_compute. reflexivity. Qed.

(** ** Existing states *)

Notation peersStatus := (gmap string BGPSessionState).

(** The first object of each VRF and peer, and the others. *)
Definition statusStep (acc : gmap string peersStatus * list BGPSessionState) (s : BGPSessionState)
    : gmap string peersStatus * list BGPSessionState :=
  let '(existing, duplicates) := acc in
  let vrf := vrfFor s in
  let ps := default ∅ (existing !! vrf) in
  if bool_decide (is_Some (ps !! peerFor s))
  then (<[vrf := ps]> existing, duplicates ++ [s])
  else (<[vrf := <[peerFor s := s]> ps]> existing, duplicates).

Definition peersStatusPerVRF (statuses : list BGPSessionState)
    : gmap string peersStatus * list BGPSessionState :=
  foldl statusStep (∅, []) statuses.

(** ** Desired states *)

Definition desiredStateFor (r : SessionReconciler) (neigh : FrrNeighbor) (vrf : string)
    (existing : option BGPSessionState) : BGPSessionState :=
  let '(name, generateName, namespace) :=
    match existing with
    | Some e => (BSS_Name e, BSS_GenerateName e, BSS_Namespace e)
    | None => ("", SR_NodeName r +:+ "-", SR_Namespace r)
    end in
  let peer := labelFormatForNeighbor (FN_ID neigh) in
  let bfdStatus := if bool_decide (FN_BFDStatus neigh = "") then noBFDConfigured
                   else FN_BFDStatus neigh in
  mkBGPSessionState name generateName namespace
    (<[nodeLabel := SR_NodeName r]> (<[peerLabel := peer]> {[vrfLabel := vrf]}))
    (mkBGPSessionStateStatus (FN_BGPState neigh) bfdStatus (SR_NodeName r) peer vrf).

(** The object has the labels and the status of [desired]. *)
Definition upToDate (desired : BGPSessionState) (existing : option BGPSessionState) : bool :=
  match existing with
  | None => false
  | Some e => bool_decide (BSS_Labels desired = BSS_Labels e) &&
              bool_decide (BSS_Status desired = BSS_Status e)
  end.

(** [ps.statusFor] and [ps.remove] on the states of a VRF, if it has any. *)
Definition statusFor (existing : gmap string peersStatus) (vrf peer : string) : option BGPSessionState :=
  existing !! vrf ≫= λ ps, ps !! labelFormatForNeighbor peer.
Definition removePeer (existing : gmap string peersStatus) (vrf peer : string) : gmap string peersStatus :=
  match existing !! vrf with
  | Some ps => <[vrf := delete (labelFormatForNeighbor peer) ps]> existing
  | None => existing
  end.

(** The sessions of FRR, in the order the two loops visit them. *)
Definition sessions (vrfNeighbors : gmap string (list FrrNeighbor)) : list (string * FrrNeighbor) :=
  map_to_list vrfNeighbors ≫= λ '(vrf, neighs), pair vrf <$> neighs.

Definition sessionStep (r : SessionReconciler)
    (acc : gmap string peersStatus * list BGPSessionState) (session : string * FrrNeighbor)
    : gmap string peersStatus * list BGPSessionState :=
  let '(existingStates, toApply) := acc in
  let '(vrf, neigh) := session in
  let existingState := statusFor existingStates vrf (FN_ID neigh) in
  let existingStates := removePeer existingStates vrf (FN_ID neigh) in
  let desiredState := desiredStateFor r neigh vrf existingState in
  if upToDate desiredState existingState then (existingStates, toApply)
  else (existingStates, toApply ++ [desiredState]).

Definition desiredStatesForExisting (r : SessionReconciler)
    (vrfNeighbors : gmap string (list FrrNeighbor)) (states : gmap string peersStatus)
    : list BGPSessionState * list BGPSessionState :=
  let '(remaining, toApply) := foldl (sessionStep r) (states, []) (sessions vrfNeighbors) in
  (toApply, map_to_list remaining ≫= λ '(_, ps), (map_to_list ps).*2).

(** The VRF FRR calls "default" is the one with the empty name. *)
Definition renameDefaultVRF {A} (zero : A) (m : gmap string A) : gmap string A :=
  delete "default" (<["" := default zero (m !! "default")]> m).

(** ** [Reconcile] *)

Inductive call := CDelete (s : BGPSessionState) | CCreateOrPatch (s : BGPSessionState).

(** What the API server answers to a call. *)
Definition answers := call → option k8sError.

(** Deleting an object that is gone already is no failure. *)
Definition failure (a : answers) (c : call) : option k8sError :=
  match c, a c with
  | CDelete _, Some e => if IsNotFound e then None else Some e
  | _, e => e
  end.

(** The calls of a loop that stops at the first failure. *)
Fixpoint untilFailure (a : answers) (cs : list call) : list call * option k8sError :=
  match cs with
  | [] => ([], None)
  | c :: cs =>
      match failure a c with
      | Some e => ([c], Some e)
      | None => let '(performed, err) := untilFailure a cs in (c :: performed, err)
      end
  end.

Inductive outcome := Failed (errs : list k8sError) | Done (RequeueAfter : Z).

Definition Session_Reconcile (r : SessionReconciler) (a : answers)
    (listStates : result k8sError (list BGPSessionState))
    (BGPPeersFetcher : result k8sError (gmap string (list FrrNeighbor)))
    (reqName reqNamespace : string) : list call * outcome :=
  match listStates with
  | Err e => ([], Failed [e])
  | Ok items =>
      let '(states, duplicates) := peersStatusPerVRF items in
      match untilFailure a (CDelete <$> duplicates) with
      | (calls, Some e) => (calls, Failed [e])
      | (calls, None) =>
          match BGPPeersFetcher with
          | Err e => (calls, Failed [e])
          | Ok neighbors =>
              let '(toApply, toRemove) :=
                desiredStatesForExisting r (renameDefaultVRF [] neighbors) states in
              let more := (CDelete <$> toRemove) ++ (CCreateOrPatch <$> toApply) in
              let errs := omap (failure a) more in
              (calls ++ more,
               if (length errs =? 0)%nat
               then Done (if bool_decide (reqName = SR_NodeName r) && bool_decide (reqNamespace = "")
                          then SR_ResyncPeriod r else 0)
               else Failed errs)
          end
      end
  end.

(** The event filters: objects of another node are not looked at. *)
Inductive sessionObject :=
  | SOSessionState (s : BGPSessionState) (hasLabels : bool)
  | SONodeState (name : string)
  | SOOther.

Definition filterBGPSessionStateEvent (r : SessionReconciler) (o : sessionObject) : bool :=
  match o with
  | SOSessionState s hasLabels => hasLabels && bool_decide (nodeFor s = SR_NodeName r)
  | _ => true
  end.
Definition filterFRRNodeStateEvent (r : SessionReconciler) (o : sessionObject) : bool :=
  match o with SONodeState name => bool_decide (name = SR_NodeName r) | _ => true end.
