(* ===== verification/SessionProps.v ===== *)
(** * What the session state controller converges to

    The calls one reconciliation makes, from the objects of the cluster and the neighbors FRR reports, and when it
    makes none. *)

From Stdlib Require Import Ascii Lia.
From S2P Require Import Prelude GoStrings GoNet IPFamily Community Api FrrConfig Errors.
From S2P Require Import Merge ApiToConfig Logging Reconciler SessionState.
From S2P Require Import Json Parse.

(** ** Objects by VRF and peer *)

Definition key (s : BGPSessionState) : string * string :=
  (default "" (BSS_Labels s !! "frrk8s.metallb.io/vrf"), default "" (BSS_Labels s !! "frrk8s.metallb.io/peer")).

(** The first object of a VRF and peer in a list. *)
Definition first (l : list BGPSessionState) (k : string * string) : option BGPSessionState :=
  head (filter (λ s, key s = k) l).

Definition lookup2 (m : gmap string peersStatus) (k : string * string) : option BGPSessionState :=
  m !! k.1 ≫= λ ps, ps !! k.2.

Lemma first_snoc l s k :
  first (l ++ [s]) k =
  match first l k with Some x => Some x | None => if bool_decide (key s = k) then Some s else None end.
Proof.
  unfold first. rewrite filter_app, filter_cons, filter_nil.
  case_decide; case_bool_decide; try done; by destruct (filter _ l).
Qed.

Lemma first_Some l k s : first l k = Some s → s ∈ l ∧ key s = k.
Proof.
  unfold first. intros Hs%head_Some_elem_of.
  by apply list_elem_of_filter in Hs as [? ?].
Qed.

Lemma first_is_Some l s : s ∈ l → is_Some (first l (key s)).
Proof.
  intros Hs. unfold first. destruct (filter _ l) as [|x f] eqn:E; [|by eexists].
  assert (s ∈ filter (λ x, key x = key s) l) as H by (by apply list_elem_of_filter).
  rewrite E in H. by apply elem_of_nil in H.
Qed.

Lemma lookup2_default (m : gmap string peersStatus) v p :
  default ∅ (m !! v) !! p = lookup2 m (v, p).
Proof. unfold lookup2; cbn. destruct (m !! v); [done|]. apply lookup_empty. Qed.

Lemma lookup2_insert (m : gmap string peersStatus) v ps k :
  lookup2 (<[v := ps]> m) k = if bool_decide (k.1 = v) then ps !! k.2 else lookup2 m k.
Proof.
  destruct k as [v' p]; unfold lookup2; cbn. case_bool_decide as Hv.
  - by rewrite Hv, lookup_insert_eq.
  - by rewrite lookup_insert_ne.
Qed.

Lemma statusStep_fst acc x k :
  lookup2 (fst (statusStep acc x)) k =
  match lookup2 (fst acc) k with
  | Some y => Some y | None => if bool_decide (key x = k) then Some x else None end.
Proof.
  destruct acc as [st dups], k as [v p]. unfold statusStep. rewrite lookup2_default. change (vrfFor x, peerFor x) with (key x).
  destruct (decide (key x = (v, p))) as [Hk|Hk].
  - rewrite <-Hk. rewrite (bool_decide_true (key x = _)) by done.
    case_bool_decide as Hx; cbn [fst]; rewrite lookup2_insert;
      change (key x).1 with (vrfFor x); change (key x).2 with (peerFor x); rewrite bool_decide_true by done.
    + rewrite lookup2_default. change (vrfFor x, peerFor x) with (key x). by destruct Hx as [y ->].
    + rewrite lookup_insert_eq. apply eq_None_not_Some in Hx.
      change (vrfFor x, peerFor x) with (key x). by rewrite Hx.
  - rewrite (bool_decide_false (key x = _)) by done.
    transitivity (lookup2 st (v, p)); [|cbn [fst]; by destruct (lookup2 st (v, p))].
    case_bool_decide as Hx; cbn [fst]; rewrite lookup2_insert; cbn [fst snd];
      case_bool_decide as Hv; try done; subst v.
    + apply lookup2_default.
    + rewrite lookup_insert_ne by (intros <-; by apply Hk). apply lookup2_default.
Qed.

Lemma statusStep_snd acc x :
  snd (statusStep acc x) =
  if bool_decide (is_Some (lookup2 (fst acc) (key x))) then snd acc ++ [x] else snd acc.
Proof.
  destruct acc as [st dups]. unfold statusStep. rewrite lookup2_default. change (vrfFor x, peerFor x) with (key x). cbn [fst snd].
  by case_bool_decide.
Qed.

(** [peersStatusPerVRF] keeps the first object of each key. *)
Lemma peersStatusPerVRF_first l k : lookup2 (fst (peersStatusPerVRF l)) k = first l k.
Proof.
  unfold peersStatusPerVRF. induction l as [|x l IH] using rev_ind; [done|].
  by rewrite foldl_snoc, statusStep_fst, IH, first_snoc.
Qed.

Lemma peersStatusPerVRF_snoc l x :
  snd (peersStatusPerVRF (l ++ [x])) =
  if bool_decide (is_Some (first l (key x))) then snd (peersStatusPerVRF l) ++ [x]
  else snd (peersStatusPerVRF l).
Proof.
  unfold peersStatusPerVRF at 1. rewrite foldl_snoc, statusStep_snd.
  fold (peersStatusPerVRF l). by rewrite peersStatusPerVRF_first.
Qed.

(** The others, and only they, are the duplicates. *)
Lemma peersStatusPerVRF_duplicates l s :
  NoDup l → s ∈ snd (peersStatusPerVRF l) ↔ s ∈ l ∧ first l (key s) ≠ Some s.
Proof.
  induction l as [|x l IH] using rev_ind; intros Hnd.
  { split; [by intros ?%elem_of_nil|by intros [?%elem_of_nil _]]. }
  apply NoDup_app in Hnd as (Hnd & Hdis & _). specialize (IH Hnd).
  assert (x ∉ l) as Hx by (intros Hx; apply (Hdis x Hx); by left).
  rewrite peersStatusPerVRF_snoc, elem_of_app, list_elem_of_singleton, first_snoc.
  destruct (decide (s = x)) as [->|Hne].
  - rewrite (bool_decide_true (key x = key x)) by done.
    case_bool_decide as Hf.
    + rewrite elem_of_app, list_elem_of_singleton. destruct Hf as [y Hy]. rewrite Hy.
      split; [|by auto]. intros _. split; [by right|]. intros [= ->]. by apply first_Some in Hy as [? _].
    + apply eq_None_not_Some in Hf. rewrite Hf. rewrite IH. naive_solver.
  - assert (s ∈ snd (peersStatusPerVRF l) ↔ (s ∈ l ∨ s = x) ∧
      match first l (key s) with Some x0 => Some x0
        | None => if bool_decide (key x = key s) then Some x else None end ≠ Some s) as Hs.
    { rewrite IH. split.
      - intros [Hl Hf]. split; [by left|]. destruct (first_is_Some l s Hl) as [z Hz]. by rewrite Hz in *.
      - intros [[Hl|?] Hf]; [|done]. split; [done|]. intros He. by rewrite He in Hf. }
    rewrite <-Hs. destruct (bool_decide (is_Some (first l (key x)))); [|reflexivity]. rewrite elem_of_app, list_elem_of_singleton. naive_solver.
Qed.

Lemma peersStatusPerVRF_unique l : snd (peersStatusPerVRF l) = [] ↔ NoDup (key <$> l).
Proof.
  induction l as [|x l IH] using rev_ind; [split; [constructor|done]|].
  rewrite peersStatusPerVRF_snoc, fmap_app, NoDup_app. case_bool_decide as Hf.
  - split; [by intros [_ ?]%app_nil|]. intros (_ & Hd & _). destruct Hf as [y [Hy Hk]%first_Some].
    exfalso. apply (Hd (key x)); [|by left]. apply list_elem_of_fmap. by exists y.
  - rewrite IH. split; [|by intros (? & _ & _)]. intros Hnd. split_and!; [done| |apply NoDup_singleton].
    intros k Hk Hk'. apply list_elem_of_singleton in Hk' as ->.
    apply list_elem_of_fmap in Hk as (y & Hy & Hin). apply Hf.
    destruct (first_is_Some l y Hin) as [z Hz]. exists z. change (first l (key x) = Some z).
    by rewrite Hy.
Qed.

(** ** Sessions *)

Definition session_key (session : string * FrrNeighbor) : string * string :=
  (session.1, labelFormatForNeighbor (FN_ID session.2)).

(** The object wanted for a session, and whether it has to be written. *)
Definition wanted (r : SessionReconciler) (states : string * string → option BGPSessionState)
    (session : string * FrrNeighbor) : BGPSessionState :=
  desiredStateFor r session.2 session.1 (states (session_key session)).

Definition to_write r states session : option BGPSessionState :=
  if upToDate (wanted r states session) (states (session_key session)) then None
  else Some (wanted r states session).

Lemma removePeer_lookup2 m v p k :
  lookup2 (removePeer m v p) k =
  if bool_decide (k = (v, labelFormatForNeighbor p)) then None else lookup2 m k.
Proof.
  destruct k as [v' q]. unfold removePeer. destruct (m !! v) as [ps|] eqn:Em.
  - rewrite lookup2_insert; cbn. repeat case_bool_decide; simplify_eq; try done.
    + by rewrite lookup_delete_eq.
    + rewrite lookup_delete_ne by congruence. unfold lookup2; cbn. by rewrite Em.
  - case_bool_decide; simplify_eq; [|done]. unfold lookup2; cbn. by rewrite Em.
Qed.

Lemma sessions_fold r states l :
  NoDup (session_key <$> l) →
  let '(remaining, toApply) := foldl (sessionStep r) (states, []) l in
  (∀ k, lookup2 remaining k = if bool_decide (k ∈ session_key <$> l) then None else lookup2 states k) ∧
  toApply = omap (to_write r (lookup2 states)) l.
Proof.
  induction l as [|[v n] l IH] using rev_ind; intros Hnd; [done|].
  rewrite fmap_app in Hnd. apply NoDup_app in Hnd as (Hnd & Hd & _). specialize (IH Hnd).
  rewrite foldl_snoc. destruct (foldl (sessionStep r) (states, []) l) as [rest acc].
  destruct IH as [IH ->]. unfold sessionStep.
  assert (statusFor rest v (FN_ID n) = lookup2 states (session_key (v, n))) as ->.
  { change (statusFor rest v (FN_ID n)) with (lookup2 rest (session_key (v, n))).
    rewrite IH, bool_decide_false; [done|]. intros Hin. apply (Hd _ Hin). by left. }
  assert (∀ k, lookup2 (removePeer rest v (FN_ID n)) k =
    if bool_decide (k ∈ session_key <$> l ++ [(v, n)]) then None else lookup2 states k) as Hk.
  { intros k. rewrite removePeer_lookup2, IH. fold (session_key (v, n)). rewrite fmap_app. cbn [fmap list_fmap].
    repeat case_bool_decide; try done; exfalso; set_solver. }
  assert (to_write r (lookup2 states) (v, n) =
    let d := desiredStateFor r n v (lookup2 states (session_key (v, n))) in
    if upToDate d (lookup2 states (session_key (v, n))) then None else Some d) as Hw by done.
  rewrite omap_app. cbn [omap list_omap]. rewrite Hw; cbn zeta.
  destruct (upToDate _ _); (split; [exact Hk|]); [by rewrite app_nil_r|done].
Qed.

(** ** Exactness *)

Lemma elem_of_remaining (m : gmap string peersStatus) s :
  s ∈ (map_to_list m ≫= λ '(_, ps), (map_to_list ps).*2) ↔ ∃ k, lookup2 m k = Some s.
Proof.
  rewrite list_elem_of_bind. split.
  - intros ([v ps] & Hs & Hm%elem_of_map_to_list). apply list_elem_of_fmap in Hs as ([p s'] & -> & Hp).
    apply elem_of_map_to_list in Hp. exists (v, p). unfold lookup2; cbn. by rewrite Hm.
  - intros ([v p] & Hk). unfold lookup2 in Hk; cbn in Hk.
    apply bind_Some in Hk as (ps & Hm & Hp). exists (v, ps). split; [|by apply elem_of_map_to_list].
    apply list_elem_of_fmap. exists (p, s). split; [done|]. by apply elem_of_map_to_list.
Qed.

Lemma desiredStates_spec r neighbors l :
  NoDup (session_key <$> sessions neighbors) →
  let '(toApply, toRemove) :=
    desiredStatesForExisting r neighbors (fst (peersStatusPerVRF l)) in
  toApply = omap (to_write r (first l)) (sessions neighbors) ∧
  (∀ s, s ∈ toRemove ↔ first l (key s) = Some s ∧ key s ∉ session_key <$> sessions neighbors).
Proof.
  intros Hnd. unfold desiredStatesForExisting.
  pose proof (sessions_fold r (fst (peersStatusPerVRF l)) _ Hnd) as H.
  destruct (foldl _ _ _) as [remaining toApply]. destruct H as [Hk ->]. split.
  - apply list_omap_ext, Forall_Forall2_diag, Forall_true. intros x. unfold to_write, wanted.
    by rewrite peersStatusPerVRF_first.
  - intros s. rewrite elem_of_remaining. split.
    + intros (k & Hs). rewrite Hk, peersStatusPerVRF_first in Hs. case_bool_decide as Hin; [done|].
      pose proof (first_Some _ _ _ Hs) as [_ Hkey]. by rewrite Hkey.
    + intros [Hf Hin]. exists (key s). by rewrite Hk, peersStatusPerVRF_first, bool_decide_false.
Qed.

Lemma untilFailure_none cs : untilFailure (λ _, None) cs = (cs, None).
Proof. induction cs as [|c cs IH]; [done|]. cbn. rewrite IH. by destruct c. Qed.

Lemma no_failures cs : omap (failure (λ _, None)) cs = [].
Proof. induction cs as [|c cs IH]; [done|]. cbn. rewrite IH. by destruct c. Qed.

(** The sessions FRR reports, with the name of the default VRF replaced. *)
Definition reported (neighbors : gmap string (list FrrNeighbor)) : list (string * FrrNeighbor) :=
  sessions (renameDefaultVRF [] neighbors).

(** All the calls of a reconciliation none of which fails. *)
Lemma Session_Reconcile_calls r items neighbors reqName reqNs :
  let '(toApply, toRemove) := desiredStatesForExisting r (renameDefaultVRF [] neighbors)
    (fst (peersStatusPerVRF items)) in
  Session_Reconcile r (λ _, None) (Ok items) (Ok neighbors) reqName reqNs =
  ((CDelete <$> snd (peersStatusPerVRF items)) ++ (CDelete <$> toRemove) ++ (CCreateOrPatch <$> toApply),
   Done (if bool_decide (reqName = SR_NodeName r) && bool_decide (reqNs = "") then SR_ResyncPeriod r else 0)).
Proof.
  unfold Session_Reconcile. destruct (peersStatusPerVRF items) as [states dups]; cbn [fst snd].
  rewrite untilFailure_none.
  destruct (desiredStatesForExisting r _ states) as [toApply toRemove]. by rewrite no_failures.
Qed.

Lemma elem_of_calls (a b c : list BGPSessionState) s :
  (CDelete s ∈ (CDelete <$> a) ++ (CDelete <$> b) ++ (CCreateOrPatch <$> c) ↔ s ∈ a ∨ s ∈ b) ∧
  (CCreateOrPatch s ∈ (CDelete <$> a) ++ (CDelete <$> b) ++ (CCreateOrPatch <$> c) ↔ s ∈ c).
Proof. rewrite !elem_of_app, !list_elem_of_fmap. naive_solver. Qed.

(** When no call to the API server fails, a reconciliation deletes exactly the objects
    that are not the first of their VRF and peer, or whose VRF and peer is no session of
    FRR, and creates or patches exactly the session objects that are
    missing or not up to date, each with the labels and status of its session; it
    then asks to be run again if it was triggered by the state of the node. *)
Lemma Session_Reconcile_spec r items neighbors reqName reqNs :
  NoDup items → NoDup (session_key <$> reported neighbors) →
  let '(calls, out) :=
    Session_Reconcile r (λ _, None) (Ok items) (Ok neighbors) reqName reqNs in
  (∀ s, CDelete s ∈ calls ↔
     s ∈ items ∧ (first items (key s) ≠ Some s ∨ key s ∉ session_key <$> reported neighbors)) ∧
  (∀ s, CCreateOrPatch s ∈ calls ↔
     ∃ session, session ∈ reported neighbors ∧ s = wanted r (first items) session ∧
       upToDate s (first items (session_key session)) = false) ∧
  out = Done (if bool_decide (reqName = SR_NodeName r) && bool_decide (reqNs = "") then SR_ResyncPeriod r else 0).
Proof.
  intros Hi Hs. pose proof (Session_Reconcile_calls r items neighbors reqName reqNs) as Hc.
  pose proof (desiredStates_spec r (renameDefaultVRF [] neighbors) items Hs) as Hd.
  destruct (desiredStatesForExisting r _ _) as [toApply toRemove]. destruct Hd as [-> Hr].
  rewrite Hc. split_and!; [| |done].
  - intros s. rewrite (proj1 (elem_of_calls _ _ _ s)), Hr, peersStatusPerVRF_duplicates by done.
    fold (reported neighbors). split.
    + intros [[? ?]|[Hf ?]]; [by auto|]. split; [|by right]. by apply first_Some in Hf as [? _].
    + intros [Hin [Hf|Hk]]; [by left|].
      destruct (decide (first items (key s) = Some s)) as [Hf|Hf]; [by right|by left].
  - intros s. rewrite (proj2 (elem_of_calls _ _ _ s)), list_elem_of_omap. fold (reported neighbors).
    unfold to_write. split.
    + intros (session & Hin & Hw). exists session. destruct (upToDate _ _) eqn:E; [done|].
      injection Hw as <-. done.
    + intros (session & Hin & -> & Hu). exists session. by rewrite Hu.
Qed.

Lemma calls_nil (a b c : list BGPSessionState) :
  (CDelete <$> a) ++ (CDelete <$> b) ++ (CCreateOrPatch <$> c) = [] ↔ a = [] ∧ b = [] ∧ c = [].
Proof. destruct a, b, c; naive_solver. Qed.

Lemma omap_nil_iff {A B} (f : A → option B) l : omap f l = [] ↔ ∀ x, x ∈ l → f x = None.
Proof.
  induction l as [|x l IH]; cbn; [split; [by intros _ x ?%elem_of_nil|done]|].
  destruct (f x) eqn:E.
  - split; [done|]. intros H. specialize (H x ltac:(by left)). congruence.
  - rewrite IH. setoid_rewrite elem_of_cons. naive_solver.
Qed.

Lemma first_unique items s : NoDup (key <$> items) → s ∈ items → first items (key s) = Some s.
Proof.
  intros Hnd Hs. destruct (first_is_Some items s Hs) as [z Hz]. rewrite Hz.
  apply first_Some in Hz as [Hin Hk]. f_equal.
  apply list_elem_of_lookup in Hs as [i Hi], Hin as [j Hj].
  assert (i = j) as <-; [|congruence].
  eapply (NoDup_lookup (key <$> items)); [done| |]; rewrite list_lookup_fmap.
  - by rewrite Hi.
  - by rewrite Hj; cbn; rewrite Hk.
Qed.

Lemma upToDate_wanted r items session :
  upToDate (wanted r (first items) session) (first items (session_key session)) = true ↔
  ∃ s, first items (session_key session) = Some s ∧
    BSS_Labels s = BSS_Labels (wanted r (λ _, None) session) ∧
    BSS_Status s = BSS_Status (wanted r (λ _, None) session).
Proof.
  assert (BSS_Labels (wanted r (first items) session) = BSS_Labels (wanted r (λ _, None) session) ∧
    BSS_Status (wanted r (first items) session) = BSS_Status (wanted r (λ _, None) session)) as [Hl Hst].
  { unfold wanted, desiredStateFor. by destruct (first items _). }
  unfold upToDate. destruct (first items (session_key session)) as [s|]; [|naive_solver].
  rewrite andb_true_iff, !bool_decide_eq_true, Hl, Hst. naive_solver.
Qed.

(** The controller is at rest exactly when the objects mirror FRR: a reconciliation makes no
    call if and only if no two objects are for the same VRF and peer, every object
    is that of a session, with its labels and status, and every session
    has an object. *)
Theorem Session_Reconcile_rest r items neighbors reqName reqNs :
  NoDup (session_key <$> reported neighbors) →
  fst (Session_Reconcile r (λ _, None) (Ok items) (Ok neighbors) reqName reqNs) = [] ↔
  NoDup (key <$> items) ∧
  (∀ s, s ∈ items → key s ∈ session_key <$> reported neighbors) ∧
  (∀ session, session ∈ reported neighbors → ∃ s, s ∈ items ∧ key s = session_key session ∧
     BSS_Labels s = BSS_Labels (wanted r (λ _, None) session) ∧
     BSS_Status s = BSS_Status (wanted r (λ _, None) session)).
Proof.
  intros Hs. pose proof (Session_Reconcile_calls r items neighbors reqName reqNs) as Hc.
  pose proof (desiredStates_spec r (renameDefaultVRF [] neighbors) items Hs) as Hd.
  destruct (desiredStatesForExisting r _ _) as [toApply toRemove]. destruct Hd as [-> Hr].
  rewrite Hc. cbn [fst]. rewrite calls_nil, peersStatusPerVRF_unique, omap_nil_iff.
  fold (reported neighbors) in Hr |- *. split.
  - intros (Hnd & Hrem & Hw). split_and!; [done|..].
    + intros s Hin. destruct (decide (key s ∈ session_key <$> reported neighbors)) as [|Hk]; [done|].
      exfalso. assert (s ∈ toRemove) as H by (apply Hr; split; [by apply first_unique|done]).
      rewrite Hrem in H. by apply elem_of_nil in H.
    + intros session Hin. apply Hw in Hin. unfold to_write in Hin.
      destruct (upToDate _ _) eqn:E; [|done]. apply upToDate_wanted in E as (s & Hf & ? & ?).
      apply first_Some in Hf as [? ?]. by exists s.
  - intros (Hnd & Hk & Hw). split_and!; [done|..].
    + apply elem_of_nil_inv. intros s [Hf Hn]%Hr. apply Hn, Hk. by apply first_Some in Hf as [? _].
    + intros session Hin. apply Hw in Hin as (s & Hin & Hkey & Hl & Hst). unfold to_write.
      rewrite (proj2 (upToDate_wanted r items session)); [done|]. exists s. rewrite <-Hkey.
      split_and!; [by apply first_unique|done|done].
Qed.

(** ** A sample node *)

Definition sampleSession : SessionReconciler := mkSessionReconciler "node1" "frr-k8s-system" 120000000000.

Definition sampleFrr (id state bfd : string) : FrrNeighbor :=
  mkFrrNeighbor id "" state (bool_decide (state = bgpConnected)) "64512" "64513" 0 0 179 "" zeroMessageStats bfd.
Definition sampleFrrNeighbors : gmap string (list FrrNeighbor) :=
  {["default" := [sampleFrr "10.0.0.1" "Established" ""; sampleFrr "2001:db8::1" "Active" "down"]]}.

(** The object of the first session, with the name the API server gave it. *)
Definition firstObject : BGPSessionState :=
  let s := desiredStateFor sampleSession (sampleFrr "10.0.0.1" "Established" "") "" None in
  mkBGPSessionState "node1-abcde" (BSS_GenerateName s) (BSS_Namespace s) (BSS_Labels s) (BSS_Status s).

Definition secondObject : BGPSessionState :=
  let s := desiredStateFor sampleSession (sampleFrr "2001:db8::1" "Active" "down") "" None in
  mkBGPSessionState "node1-fghij" (BSS_GenerateName s) (BSS_Namespace s) (BSS_Labels s) (BSS_Status s).

(** The object of a session that is gone. *)
Definition goneObject : BGPSessionState :=
  let s := desiredStateFor sampleSession (sampleFrr "10.9.9.9" "Idle" "") "red" None in
  mkBGPSessionState "node1-klmno" (BSS_GenerateName s) (BSS_Namespace s) (BSS_Labels s) (BSS_Status s).

Lemma Session_Reconcile_rest_witness :
  fst (Session_Reconcile sampleSession (λ _, None) (Ok [secondObject; firstObject])
    (Ok sampleFrrNeighbors) "node1" "") = [] ∧
  NoDup (key <$> [secondObject; firstObject]).
Proof.
  assert (fst (Session_Reconcile sampleSession (λ _, None) (Ok [secondObject; firstObject])
    (Ok sampleFrrNeighbors) "node1" "") = []) as H by (vm_compute; reflexivity).
  split; [exact H|].
  apply (Session_Reconcile_rest sampleSession [secondObject; firstObject] sampleFrrNeighbors
    "node1" "" ltac:(by_evaluation)), H.
Defined.
