(* ===== verification/Watches.v ===== *)
(** * What wakes the controllers

    The [SetupWithManager] of the five controllers: the objects each one watches, how an event becomes a
    request, and the events it filters out.  controller-runtime, which turns these declarations into calls
    of [Reconcile], is an interface: [deliver] gives the requests an event adds to the queue of a controller, and
    the law [deliver_watched] is its documented contract. *)

From Stdlib Require Import Ascii Lia.
From S2P Require Import Prelude GoStrings GoNet IPFamily Community Api FrrConfig Errors Merge ApiToConfig.
From S2P Require Import Logging Debouncer FRRManager Reconciler StateControllers SessionState.

(** ** Objects and events *)

(** The objects the controllers watch, and the event object of frrstate_controller.go. *)
Inductive object :=
  | ONode (name : string) (l : labels)
  | OConfig (c : FRRConfiguration)
  | OSecret (s : Secret)
  | OK8sConfig (namespace name logLevel : string)
  | OPod (namespace name nodeName : string)
  | ONodeState (name : string) (status : FRRNodeStateStatus)
  | OSessionState (s : BGPSessionState) (hasLabels : bool)
  | OStateEvent (namespace name : string).

Inductive kind := KNode | KConfig | KSecret | KK8sConfig | KPod | KNodeState | KSessionState | KStateEvent.
#[global] Instance kind_eq_dec : EqDecision kind.
Proof. solve_decision. Defined.

Definition kind_of (o : object) : kind :=
  match o with
  | ONode _ _ => KNode | OConfig _ => KConfig | OSecret _ => KSecret | OK8sConfig _ _ _ => KK8sConfig
  | OPod _ _ _ => KPod | ONodeState _ _ => KNodeState | OSessionState _ _ => KSessionState
  | OStateEvent _ _ => KStateEvent
  end.

Definition GetName (o : object) : string :=
  match o with
  | ONode name _ | OK8sConfig _ name _ | OPod _ name _ | ONodeState name _ | OStateEvent _ name => name
  | OConfig c => Cfg_Name c
  | OSecret s => Secret_Name s
  | OSessionState s _ => BSS_Name s
  end.

Definition GetNamespace (o : object) : string :=
  match o with
  | ONode _ _ | ONodeState _ _ => ""
  | OConfig c => Cfg_Namespace c
  | OSecret s => Secret_Namespace s
  | OK8sConfig namespace _ _ | OPod namespace _ _ | OStateEvent namespace _ => namespace
  | OSessionState s _ => BSS_Namespace s
  end.

Inductive event :=
  | CreateEvent (o : object)
  | UpdateEvent (objectOld objectNew : object)
  | DeleteEvent (o : object)
  | GenericEvent (o : object).

(** The object an event is about. *)
Definition event_object (e : event) : object :=
  match e with CreateEvent o | UpdateEvent _ o | DeleteEvent o | GenericEvent o => o end.

(** [reconcile.Request]. *)
Record request := mkReconcileRequest { Request_Namespace : string; Request_Name : string }.
#[global] Instance request_eq_dec : EqDecision request.
Proof. solve_decision. Defined.
#[global] Instance request_countable : Countable request.
Proof.
  refine (inj_countable (λ r, (Request_Namespace r, Request_Name r)) (λ p, Some (mkReconcileRequest p.1 p.2)) _).
  by intros [].
Defined.

Definition requestFor (o : object) : request := mkReconcileRequest (GetNamespace o) (GetName o).

(** ** What a controller declares *)

(** [predicate.Funcs]: a function that is not set lets every event pass. *)
Record predicateFuncs := mkFuncs {
  CreateFunc : option (object → bool);
  UpdateFunc : option (object → object → bool);
  DeleteFunc : option (object → bool);
  GenericFunc : option (object → bool) }.

(** [predicate.NewPredicateFuncs]: of an update the new object is looked at. *)
Definition NewPredicateFuncs (f : object → bool) : predicateFuncs :=
  mkFuncs (Some f) (Some (λ _ objectNew, f objectNew)) (Some f) (Some f).

Definition allows (p : predicateFuncs) (e : event) : bool :=
  match e with
  | CreateEvent o => match CreateFunc p with Some f => f o | None => true end
  | UpdateEvent old new => match UpdateFunc p with Some f => f old new | None => true end
  | DeleteEvent o => match DeleteFunc p with Some f => f o | None => true end
  | GenericEvent o => match GenericFunc p with Some f => f o | None => true end
  end.

Inductive eventHandler :=
  | EnqueueRequestForObject
  | EnqueueRequestsFromMapFunc (f : object → list request).

Definition enqueued (h : eventHandler) (o : object) : list request :=
  match h with
  | EnqueueRequestForObject => [requestFor o]
  | EnqueueRequestsFromMapFunc f => f o
  end.

(** The sources of [For], [Watches] and [WatchesRawSource], and the filter of [WithEventFilter]. *)
Record controller := mkController {
  C_sources : list (kind * eventHandler);
  C_eventFilter : predicateFuncs }.

Definition noFilter : predicateFuncs := mkFuncs None None None None.

(** ** The controllers *)

(** [SetupWithManager] of frrconfiguration_controller.go: changes of FRRConfigurations are
    squashed to a single key per namespace. *)
Definition toEventObject (o : object) : eventObject :=
  match o with ONode name l => EvNode name l | _ => EvOther end.

Definition FRRConfiguration_SetupWithManager (LabelsEquals : labels → labels → bool)
    (r : FRRConfigurationReconciler) : controller :=
  mkController
    [(KConfig, EnqueueRequestsFromMapFunc (λ obj, [mkReconcileRequest (GetNamespace obj) "frrconfig"]));
     (KNode, EnqueueRequestForObject);
     (KSecret, EnqueueRequestForObject);
     (KK8sConfig, EnqueueRequestForObject)]
    (mkFuncs None (Some (λ objectOld objectNew,
       filterNodeEvent LabelsEquals (toEventObject objectOld) (toEventObject objectNew) (R_NodeName r))) None None).

(** frrstate_controller.go: the states of other nodes are not looked at; the channel [Update] is a source, and
    gets a first event at once. *)
Definition NewStateEvent : event := GenericEvent (OStateEvent "metallbreload" "stateUpdate").

Definition ownNodeState (nodeName : string) (o : object) : bool :=
  match o with ONodeState name _ => bool_decide (name = nodeName) | _ => true end.

Definition FRRState_SetupWithManager (nodeName : string) : controller * list event :=
  (mkController [(KNodeState, EnqueueRequestForObject); (KStateEvent, EnqueueRequestForObject)]
     (NewPredicateFuncs (ownNodeState nodeName)), [NewStateEvent]).

(** nodestate_cleaner_controller.go: only the creation of a state and the deletion of a pod matter. *)
Definition isPod (o : object) : bool := match o with OPod _ _ _ => true | _ => false end.

Definition NodeStateCleaner_SetupWithManager : controller :=
  mkController [(KPod, EnqueueRequestForObject); (KNodeState, EnqueueRequestForObject)]
    (mkFuncs (Some (λ o, negb (isPod o))) (Some (λ _ _, false)) (Some isPod) (Some (λ _, false))).

(** bgpsessionstate_controller.go. *)
Definition toSessionObject (o : object) : sessionObject :=
  match o with
  | OSessionState s hasLabels => SOSessionState s hasLabels
  | ONodeState name _ => SONodeState name
  | _ => SOOther
  end.

Definition Session_SetupWithManager (r : SessionReconciler) : controller :=
  mkController [(KSessionState, EnqueueRequestForObject); (KNodeState, EnqueueRequestForObject)]
    (NewPredicateFuncs (λ o,
       filterBGPSessionStateEvent r (toSessionObject o) && filterFRRNodeStateEvent r (toSessionObject o))).

(** frrk8sconfiguration_controller.go. *)
Definition FRRK8sConfiguration_SetupWithManager : controller :=
  mkController [(KK8sConfig, EnqueueRequestForObject)] noFilter.

(** ** controller-runtime *)

Class ControllerRuntime := deliver : controller → event → list request.

(** An event of a watched kind that the filter lets pass adds the requests of its handler to the queue. *)
Class ControllerRuntimeLaws `{!ControllerRuntime} : Prop := {
  deliver_watched c e k h r :
    (k, h) ∈ C_sources c → kind_of (event_object e) = k → allows (C_eventFilter c) e = true →
    r ∈ enqueued h (event_object e) → r ∈ deliver c e }.

(** An implementation of the contract, for examples: it does this and nothing else. *)
Definition plainRuntime : ControllerRuntime := λ c e,
  if allows (C_eventFilter c) e then
    C_sources c ≫= λ '(k, h), if bool_decide (k = kind_of (event_object e)) then enqueued h (event_object e) else []
  else [].

Lemma plainRuntime_laws : @ControllerRuntimeLaws plainRuntime.
Proof.
  split. intros c e k h r Hs Hk Ha Hr. unfold deliver, plainRuntime. rewrite Ha. apply list_elem_of_bind. exists (k, h).
  split; [|done]. by rewrite bool_decide_eq_true_2.
Qed.
