(* ===== verification/ControlLoop.v ===== *)
(** * The loop of a controller

    A controller sleeps until an event adds a request to its queue, takes one request at a time, and reads the
    world while it changes.  [loop_step] is this loop for any controller: events come at any time, also
    while [Reconcile] runs, and a run that ends with an error is queued again.  [loop_settles] shows
    what makes a controller correct: if the events it ignores do not matter, and a run that succeeded on a
    world that did not change in what matters leaves things as they should be, then whenever the
    controller is idle, things are as they should be. *)

From Stdlib Require Import Lia.
From S2P Require Import Prelude GoStrings GoNet IPFamily Community Api FrrConfig Errors Merge ApiToConfig.
From S2P Require Import Logging Debouncer FRRManager Reconciler StateControllers SessionState Watches.

Section loop.
Context `{!ControllerRuntime} (c : controller).
(** What the controller reads, and its own state. *)
Context {W S : Type}.
(** The world changes and emits events. *)
Context (changes : W → list event → W → Prop).
(** [reconciles ws w s es w' s' failed]: having read any of the worlds [ws], and ending in [w], a run of
    [Reconcile] changes the world to [w'], with the events [es], and the state to [s']. *)
Context (reconciles : list W → W → S → list event → W → S → bool → Prop).

Record loop := mkLoop {
  L_world : W;
  L_queue : gset request;
  (** the request being handled, and the worlds since it was taken *)
  L_running : option (request * list W);
  L_state : S }.

Definition queued (es : list event) : gset request := list_to_set (es ≫= deliver c).

Inductive loop_step : loop → loop → Prop :=
  | loop_change w es w' q running s :
      changes w es w' →
      loop_step (mkLoop w q running s) (mkLoop w' (q ∪ queued es) (prod_map id (cons w') <$> running) s)
  | loop_start w q s req :
      req ∈ q → loop_step (mkLoop w q None s) (mkLoop w (q ∖ {[req]}) (Some (req, [w])) s)
  | loop_end w q req ws s es w' s' failed :
      reconciles ws w s es w' s' failed →
      loop_step (mkLoop w q (Some (req, ws)) s)
        (mkLoop w' ((if (failed : bool) then q ∪ {[req]} else q) ∪ queued es) None s').

(** The steps, with the queue after them. *)
Lemma loop_change' w es w' q q' running running' s :
  changes w es w' → q ∪ list_to_set (es ≫= deliver c) = q' → prod_map id (cons w') <$> running = running' →
  loop_step (mkLoop w q running s) (mkLoop w' q' running' s).
Proof using Type. intros Hc <- <-. by constructor. Qed.
Lemma loop_start' w q q' s req :
  req ∈ q → q ∖ {[req]} = q' → loop_step (mkLoop w q None s) (mkLoop w q' (Some (req, [w])) s).
Proof using Type. intros Hc <-. by constructor. Qed.
Lemma loop_end' w q q' req ws s es w' s' :
  reconciles ws w s es w' s' false → q ∪ list_to_set (es ≫= deliver c) = q' →
  loop_step (mkLoop w q (Some (req, ws)) s) (mkLoop w' q' None s').
Proof using Type. intros Hc <-. by apply (loop_end w q req ws s es w' s' false). Qed.

Definition idle (l : loop) : Prop := L_queue l = ∅ ∧ L_running l = None.

Context (quiet : W → W → Prop) `{!PreOrder quiet}.
Context (settled : W → S → Prop).

(** Events that wake nobody do not matter; what does not matter unsettles nothing; a run that read only
    worlds like the last one and did not fail settles it. *)
Class Settles : Prop := {
  ignored_quiet w es w' : changes w es w' → queued es = ∅ → quiet w w';
  quiet_settled w w' s : quiet w w' → settled w s → settled w' s;
  run_settles ws w s es w' s' : ws ≠ [] → (∀ w0, w0 ∈ ws → quiet w0 w) →
    reconciles ws w s es w' s' false → settled w' s' }.

Context `{!Settles}.

Definition loop_inv (l : loop) : Prop :=
  match L_running l with
  | None => L_queue l ≠ ∅ ∨ settled (L_world l) (L_state l)
  | Some (_, ws) => ws ≠ [] ∧ (L_queue l ≠ ∅ ∨ ∀ w0, w0 ∈ ws → quiet w0 (L_world l))
  end.

Lemma loop_inv_step l l' : loop_inv l → loop_step l l' → loop_inv l'.
Proof using All.
  intros Hl Hstep. destruct Hstep as [w es w' q running s Hc|w q s req Hin|w q req ws s es w' s' err Hr]; unfold loop_inv in *; cbn in *.
  - destruct (decide (q ∪ queued es = ∅)) as [He|He].
    + assert (q = ∅) as -> by set_solver. assert (queued es = ∅) as Hq by set_solver.
      pose proof (ignored_quiet _ _ _ Hc Hq) as Hw. destruct running as [[req ws]|]; cbn in *.
      * destruct Hl as [Hne [?|Hl]]; [done|]. split; [done|]. right. intros w0 [->|Hw0]%elem_of_cons; [reflexivity|].
        etrans; [by apply Hl|done].
      * destruct Hl as [?|Hl]; [done|]. right. by eapply quiet_settled.
    + destruct running as [[req ws]|]; cbn in *; [|by left]. destruct Hl as [Hne _]. split; [done|by left].
  - split; [done|]. right. intros w0 ->%list_elem_of_singleton. reflexivity.
  - destruct Hl as [Hne Hl]. destruct err; [left; set_solver|]. destruct (decide (q ∪ queued es = ∅)) as [He|He]; [|by left].
    destruct Hl as [Hq|Hl]; [set_solver|]. right. by eapply run_settles.
Qed.

(** Whenever the controller is idle, everything is settled. *)
Lemma loop_settles l l' :
  L_running l = None → L_queue l ≠ ∅ ∨ settled (L_world l) (L_state l) →
  rtc loop_step l l' → idle l' → settled (L_world l') (L_state l').
Proof using All.
  intros Hr Hinit Hsteps [Hq Hn].
  assert (loop_inv l') as Hl'.
  { assert (loop_inv l) as Hl by (unfold loop_inv; by rewrite Hr). clear Hq Hn Hr Hinit.
    induction Hsteps; [done|]. eauto using loop_inv_step. }
  unfold loop_inv in Hl'. rewrite Hn in Hl'. by destruct Hl'.
Qed.
End loop.

Arguments mkLoop {W S}.
Arguments L_world {W S}.
Arguments L_queue {W S}.
Arguments L_running {W S}.
Arguments L_state {W S}.
Arguments idle {W S}.

(** ** Waking up *)

Section waking.
Context `{!ControllerRuntime, !ControllerRuntimeLaws} (c : controller).

Lemma queued_elem e es : e ∈ es → queued c es = ∅ → queued c [e] = ∅.
Proof using Type.
  unfold queued. cbn [mbind list_bind]. rewrite app_nil_r. intros He Hq. apply elem_of_equiv_empty_L. intros q Hin.
  assert (q ∈ (∅ : gset request)) as Hq'; [|by apply not_elem_of_empty in Hq']. rewrite <-Hq. apply elem_of_list_to_set, list_elem_of_bind.
  exists e. split; [by apply elem_of_list_to_set in Hin|done].
Qed.

(** An event of a watched kind that adds no request was filtered out. *)
Lemma ignored_filtered e h es :
  queued c es = ∅ → e ∈ es → (kind_of (event_object e), h) ∈ C_sources c → enqueued h (event_object e) ≠ [] →
  allows (C_eventFilter c) e = false.
Proof using All.
  intros Hq He Hs Hne. destruct (allows _ e) eqn:Ha; [|done]. exfalso. apply (queued_elem e) in Hq; [|done].
  destruct (enqueued h (event_object e)) as [|q qs] eqn:Eh; [done|].
  assert (q ∈ queued c [e]) as Hin; [|rewrite Hq in Hin; set_solver].
  unfold queued. cbn [mbind list_bind]. rewrite app_nil_r. apply elem_of_list_to_set.
  eapply (deliver_watched _ _ _ h); [exact Hs|done..|]. rewrite Eh. left.
Qed.
End waking.
