(* ===== verification/Loops.v ===== *)
(** * No controller misses a change

    The loops of the configuration controller, of the node state controller, of the node state cleaner and of the log level
    controller, as instances of [ControlLoop.v]: what each one reads, how that changes and which
    events it gives, and what it means that everything is settled. *)

From Stdlib Require Import Ascii Lia.
From S2P Require Import Prelude GoStrings GoNet IPFamily Community Api FrrConfig Errors Merge ApiToConfig Samples.
From S2P Require Import Logging Debouncer FRRManager Reconciler ReconcilerProps StateControllers SessionState.
From S2P Require Import Watches ControlLoop.

(** ** The configuration controller *)

(** What it reads of the cluster. *)
Record world := mkWorld {
  W_configs : list FRRConfiguration;
  W_levels : gmap (string * string) string;
  W_nodes : gmap string labels;
  W_secrets : list Secret }.

(** One object is created, updated or deleted. *)
Inductive world_changes : world → list event → world → Prop :=
  | config_created c cs cs' lv ns ss : cs' ≡ₚ c :: cs →
      world_changes (mkWorld cs lv ns ss) [CreateEvent (OConfig c)] (mkWorld cs' lv ns ss)
  | config_updated old new cs cs1 cs2 lv ns ss : cs1 ≡ₚ old :: cs → cs2 ≡ₚ new :: cs →
      world_changes (mkWorld cs1 lv ns ss) [UpdateEvent (OConfig old) (OConfig new)] (mkWorld cs2 lv ns ss)
  | config_deleted c cs cs' lv ns ss : cs ≡ₚ c :: cs' →
      world_changes (mkWorld cs lv ns ss) [DeleteEvent (OConfig c)] (mkWorld cs' lv ns ss)
  | level_created k l cs lv ns ss : lv !! k = None →
      world_changes (mkWorld cs lv ns ss) [CreateEvent (OK8sConfig k.1 k.2 l)] (mkWorld cs (<[k := l]> lv) ns ss)
  | level_updated k l l' cs lv ns ss : lv !! k = Some l →
      world_changes (mkWorld cs lv ns ss) [UpdateEvent (OK8sConfig k.1 k.2 l) (OK8sConfig k.1 k.2 l')]
        (mkWorld cs (<[k := l']> lv) ns ss)
  | level_deleted k l cs lv ns ss : lv !! k = Some l →
      world_changes (mkWorld cs lv ns ss) [DeleteEvent (OK8sConfig k.1 k.2 l)] (mkWorld cs (delete k lv) ns ss)
  | node_created n l cs lv ns ss : ns !! n = None →
      world_changes (mkWorld cs lv ns ss) [CreateEvent (ONode n l)] (mkWorld cs lv (<[n := l]> ns) ss)
  | node_updated n l l' cs lv ns ss : ns !! n = Some l →
      world_changes (mkWorld cs lv ns ss) [UpdateEvent (ONode n l) (ONode n l')] (mkWorld cs lv (<[n := l']> ns) ss)
  | node_deleted n l cs lv ns ss : ns !! n = Some l →
      world_changes (mkWorld cs lv ns ss) [DeleteEvent (ONode n l)] (mkWorld cs lv (delete n ns) ss)
  | secret_created s cs lv ns ss ss' : ss' ≡ₚ s :: ss →
      world_changes (mkWorld cs lv ns ss) [CreateEvent (OSecret s)] (mkWorld cs lv ns ss')
  | secret_updated old new cs lv ns ss ss1 ss2 : ss1 ≡ₚ old :: ss → ss2 ≡ₚ new :: ss →
      world_changes (mkWorld cs lv ns ss1) [UpdateEvent (OSecret old) (OSecret new)] (mkWorld cs lv ns ss2)
  | secret_deleted s cs lv ns ss ss' : ss ≡ₚ s :: ss' →
      world_changes (mkWorld cs lv ns ss) [DeleteEvent (OSecret s)] (mkWorld cs lv ns ss').

(** A get. *)
Definition found {A} (o : option A) : result k8sError A := match o with Some x => Ok x | None => Err ENotFound end.
(** A list, in any order. *)
Definition listed {A} (r : result k8sError (list A)) (l : list A) : Prop := ∃ l', r = Ok l' ∧ l' ≡ₚ l.
Definition secrets_of (w : world) (namespace : string) : list Secret :=
  filter (λ s, Secret_Namespace s = namespace) (W_secrets w).
Definition unavailable {A} (r : result k8sError A) : Prop := ∃ msg, r = Err (EAPI msg).

Section config.
Context {Selector : Type}.
Context (LabelSelectorAsSelector : LabelSelector → result string Selector).
Context (Matches : Selector → labels → bool).
Context (errorString : rerror → string).
Context (LabelsEquals : labels → labels → bool).
Context (r : FRRConfigurationReconciler).
Notation desired := (desired LabelSelectorAsSelector Matches r).

(** The API server answers every call from the world. *)
Record answers (w : world) (c : Cluster) : Prop := {
  an_configs : listed (listFRRConfigurations c) (W_configs w);
  an_level ns n : getFRRK8sConfiguration c ns n = found (W_levels w !! (ns, n));
  an_node : getNode c (R_NodeName r) = found (W_nodes w !! R_NodeName r);
  an_secrets ns : listed (listSecrets c ns) (secrets_of w ns) }.

(** It answers each call from one of the worlds, or fails. *)
Record answers_from (ws : list world) (c : Cluster) : Prop := {
  af_configs : unavailable (listFRRConfigurations c) ∨ ∃ w, w ∈ ws ∧ listed (listFRRConfigurations c) (W_configs w);
  af_level ns n : unavailable (getFRRK8sConfiguration c ns n) ∨
    ∃ w, w ∈ ws ∧ getFRRK8sConfiguration c ns n = found (W_levels w !! (ns, n));
  af_node : unavailable (getNode c (R_NodeName r)) ∨
    ∃ w, w ∈ ws ∧ getNode c (R_NodeName r) = found (W_nodes w !! R_NodeName r);
  af_secrets ns : unavailable (listSecrets c ns) ∨ ∃ w, w ∈ ws ∧ listed (listSecrets c ns) (secrets_of w ns) }.

(** Nothing it reads changed. *)
Definition same_reads (w w' : world) : Prop :=
  W_configs w ≡ₚ W_configs w' ∧ W_levels w = W_levels w' ∧ W_nodes w !! R_NodeName r = W_nodes w' !! R_NodeName r ∧
  W_secrets w ≡ₚ W_secrets w'.

#[local] Instance same_reads_preorder : PreOrder same_reads.
Proof using Type.
  split; [by intros w|]. intros w1 w2 w3 (H1 & H2 & H3 & H4) (H1' & H2' & H3' & H4').
  split_and!; [by etrans|congruence|congruence|by etrans].
Qed.

(** The handler was last given this configuration. *)
Definition sent (h : FRRHandler) (cfg : Config NeighborConfig) : Prop :=
  ∃ ev a, last (FH_sent h) = Some ev ∧ RE_useOld ev = false ∧ RE_config ev = Some a ∧ completes a cfg.

(** FRR was sent the configuration the cluster asks for, or the reason why there is none is reported. *)
Definition config_settled (w : world) (s : RState FRRHandler) : Prop :=
  ∃ c, answers w c ∧
  match desired c with
  | Ok cfg => conversionResult s = ConversionSuccess ∧ sent (handler s) cfg
  | Err e => is_conversion e = true ∧ conversionResult s = failed errorString e
  end.

Definition config_reconciles (ws : list world) (w : world) (s : RState FRRHandler) (es : list event) (w' : world)
    (s' : RState FRRHandler) (isError : bool) : Prop :=
  ∃ c err reload, answers_from ws c ∧
    Reconcile LabelSelectorAsSelector Matches errorString r c s = Some (s', err, reload) ∧
    isError = match err with Some _ => true | None => false end ∧ w' = w ∧ es = [].

(** Calls that failed are repaired: either the failure was noticed or it made no difference. *)
Lemma desired_repaired ws w c :
  (∀ w0, w0 ∈ ws → same_reads w0 w) → answers_from ws c →
  ∃ c', answers w c' ∧ (desired c = desired c' ∨ ∃ e, desired c = Err e ∧ is_conversion e = false).
Proof using Type.
  intros Hws [Hc Hl Hn Hs].
  set (c' := mkCluster (match listFRRConfigurations c with Ok l => Ok l | Err _ => Ok (W_configs w) end)
    (λ ns n, found (W_levels w !! (ns, n))) (λ n, found (W_nodes w !! n))
    (λ ns, match listSecrets c ns with Ok l => Ok l | Err _ => Ok (secrets_of w ns) end)).
  assert (∀ w0, w0 ∈ ws → ∀ ns, secrets_of w0 ns ≡ₚ secrets_of w ns) as Hsec.
  { intros w0 (_ & _ & _ & Hw)%Hws ns. unfold secrets_of. by rewrite Hw. }
  exists c'. split.
  - split; cbn; [| |done|].
    + destruct Hc as [[msg ->]|(w0 & (Hw & _)%Hws & l & -> & Hp)]; [by exists (W_configs w)|].
      exists l. split; [done|]. by rewrite Hp.
    + done.
    + intros ns. destruct (Hs ns) as [[msg ->]|(w0 & Hw & l & -> & Hp)]; [by eexists|].
      exists l. split; [done|]. rewrite Hp. by apply Hsec.
  - unfold ReconcilerProps.desired.
    destruct Hc as [[msg Hc]|(w0 & _ & l & Hc & _)]; [right; rewrite Hc; by eexists; split|].
    assert (listFRRConfigurations c' = Ok l) as -> by (cbn; by rewrite Hc). rewrite Hc. cbn [from_api mbind result_bind].
    assert (getLogLevel c (R_Namespace r) (R_DefaultLogLevel r) = getLogLevel c' (R_Namespace r) (R_DefaultLogLevel r) ∨
      ∃ lvl e, getLogLevel c (R_Namespace r) (R_DefaultLogLevel r) = (lvl, Some (EK8s e))) as [->|(lvl & e & ->)].
    { unfold getLogLevel. destruct (Hl (R_Namespace r) frrK8sConfigurationName) as [[msg ->]|(w1 & (_ & Hw & _)%Hws & ->)].
      - right. by eexists _, _.
      - left. unfold c'; cbn. by rewrite Hw. }
    2:{ right. by eexists; split. }
    destruct (checked (getLogLevel c' _ _)) as [level|e]; [|by left]. cbn [mbind result_bind].
    case_bool_decide; [by left|].
    destruct Hn as [[msg ->]|(w1 & (_ & _ & Hw & _)%Hws & ->)]; [right; by eexists; split|].
    assert (getNode c' (R_NodeName r) = found (W_nodes w !! R_NodeName r)) as -> by done. rewrite Hw.
    destruct (from_api (found _)) as [nl|e]; [|by left]. cbn [mbind result_bind].
    destruct (configsForNode _ _ l nl) as [cfgs|e]; [|by left]. cbn [mbind result_bind].
    assert (getSecrets c (R_Namespace r) = getSecrets c' (R_Namespace r) ∨
      ∃ e, getSecrets c (R_Namespace r) = Err (EK8s e)) as [->|[e ->]]; [|by left|right; by eexists; split].
    unfold getSecrets, c'; cbn. destruct (Hs (R_Namespace r)) as [[msg ->]|(w2 & _ & l1 & -> & _)]; [right|by left]. by eexists.
Qed.
Context `{!ControllerRuntime, !ControllerRuntimeLaws}.
Hypothesis LabelsEquals_eq : ∀ a b, LabelsEquals a b = true → a = b.
Notation ctrl := (FRRConfiguration_SetupWithManager LabelsEquals r).

Lemma config_woken e es :
  queued ctrl es = ∅ → e ∈ es → kind_of (event_object e) ∈ [KConfig; KNode; KSecret; KK8sConfig] →
  allows (C_eventFilter ctrl) e = false.
Proof using All.
  intros Hq He Hk. apply elem_of_cons in Hk as [Hk|Hk].
  - eapply ignored_filtered; [done..|rewrite Hk; left|done].
  - apply (ignored_filtered _ _ EnqueueRequestForObject es); [done..| |done]. cbn.
    repeat (apply elem_of_cons in Hk as [->|Hk]; [by repeat (left || right)|]). by apply elem_of_nil in Hk.
Qed.

#[local] Instance config_loop_settles :
  Settles ctrl world_changes config_reconciles same_reads config_settled.
Proof using All.
  split.
  - intros w es w' Hc Hq. assert (∀ e, es = [e] → kind_of (event_object e) ∈ [KConfig; KNode; KSecret; KK8sConfig] →
      allows (C_eventFilter ctrl) e = false) as Ha
      by (intros e ->; by apply (config_woken e [e]); [|left]).
    destruct Hc; specialize (Ha _ eq_refl); cbn in Ha; try (by specialize (Ha ltac:(set_solver))).
    specialize (Ha ltac:(set_solver)). rewrite bool_decide_eq_true_2 in Ha by done. cbn in Ha.
    split_and!; [done..| |done]. cbn. destruct (decide (n = R_NodeName r)) as [->|Hne]; [|by rewrite lookup_insert_ne].
    rewrite bool_decide_eq_true_2 in Ha by done. cbn in Ha. rewrite lookup_insert_eq. 
    destruct (LabelsEquals l l') eqn:El; [|done]. apply LabelsEquals_eq in El. congruence.
  - intros w w' s (H1 & H2 & H3 & H4) (c & [Hc Hl Hn Hs] & Hd).
    exists c. split; [|done]. destruct Hc as (l & Hl1 & Hl2). split.
    + exists l. split; [done|]. by rewrite Hl2.
    + intros ns n. by rewrite Hl, H2.
    + by rewrite Hn, H3.
    + intros ns. destruct (Hs ns) as (l1 & Hl3 & Hl4). exists l1. split; [done|]. rewrite Hl4. unfold secrets_of. by rewrite H4.
  - intros ws w s es w' s' Hne Hws (c & err & reload & Hc & HR & Herr & -> & ->).
    destruct err; [done|]. destruct (desired_repaired ws w c Hws Hc) as (c' & Hc' & Hd).
    destruct (Reconcile_spec LabelSelectorAsSelector Matches errorString r c s) as (s1 & err & rl & HR' & _ & _ & Hspec).
    rewrite HR in HR'. injection HR' as <- <- <-. exists c'. split; [done|].
    destruct Hd as [<-|(e & He & Hconv)].
    + destruct (desired c) as [cfg|e] eqn:Ed.
      * destruct Hspec as (Hh & Ha & ->). split; [done|]. revert Hh Ha. unfold applyConfig, FRR_ConfigHandler.
        destruct (ApplyConfig _ _ cfg) as [ev|e] eqn:Ea; [|done]. cbn. intros -> _.
        apply ApplyConfig_completes in Ea as (Hu & a & Ha & Hcomp). exists ev, a. cbn. by rewrite last_snoc.
      * destruct Hspec as (_ & He & Hres). destruct (is_conversion e) eqn:Ei; [|done]. split; [done|].
        destruct (about_level r c) eqn:Eb; [|done]. by rewrite (about_level_desired _ _ r c e Eb Ed) in Ei.
    + rewrite He in Hspec. destruct Hspec as (_ & Herr' & _). by rewrite Hconv in Herr'.
Qed.
(** The controller starts with an event for every object there is. *)
Definition objects_of (w : world) : list object :=
  (OConfig <$> W_configs w) ++ ((λ '(k, l), OK8sConfig k.1 k.2 l) <$> map_to_list (W_levels w)) ++
  ((λ '(n, l), ONode n l) <$> map_to_list (W_nodes w)) ++ (OSecret <$> W_secrets w).
Definition config_start (w : world) (s : RState FRRHandler) : loop :=
  mkLoop w (queued ctrl (CreateEvent <$> objects_of w)) None s.

(** The configuration controller misses no change: resources, nodes, secrets and the log level may change at any time, also
    while [Reconcile] is reading them, calls may fail, and resources are listed in any order; whenever the
    controller has no request left, FRR was last sent the configuration the cluster asks for and success is
    reported, or the cluster asks for one that cannot be converted and the reason is reported. *)
Theorem config_controller_settles w s l :
  is_Some (W_nodes w !! R_NodeName r) →
  rtc (loop_step ctrl world_changes config_reconciles) (config_start w s) l → idle l →
  config_settled (L_world l) (L_state l).
Proof using All.
  intros [nl Hn] Hsteps. apply (loop_settles ctrl world_changes config_reconciles same_reads config_settled (config_start w s));
    [done| |done]. left. intros Hq. cbn in Hq.
  assert (allows (C_eventFilter ctrl) (CreateEvent (ONode (R_NodeName r) nl)) = false) as Ha; [|done].
  apply (config_woken _ (CreateEvent <$> objects_of w)); [done| |set_solver]. apply list_elem_of_fmap_2. unfold objects_of.
  rewrite !elem_of_app. right; right; left. apply list_elem_of_fmap. exists (R_NodeName r, nl). split; [done|].
  by apply elem_of_map_to_list.
Qed.
End config.

(** ** The log level controller *)

Section level.
Context `{!ControllerRuntime, !ControllerRuntimeLaws} (namespace : string) (defaultLogLevel : Level).
Notation levels := (gmap (string * string) string).
Notation ctrl := FRRK8sConfiguration_SetupWithManager.

Inductive level_changes : levels → list event → levels → Prop :=
  | lv_created k l lv : lv !! k = None → level_changes lv [CreateEvent (OK8sConfig k.1 k.2 l)] (<[k := l]> lv)
  | lv_updated k l l' lv : lv !! k = Some l →
      level_changes lv [UpdateEvent (OK8sConfig k.1 k.2 l) (OK8sConfig k.1 k.2 l')] (<[k := l']> lv)
  | lv_deleted k l lv : lv !! k = Some l → level_changes lv [DeleteEvent (OK8sConfig k.1 k.2 l)] (delete k lv).

(** A cluster that answers this call. *)
Definition level_cluster (answer : result k8sError string) : Cluster :=
  mkCluster (Ok []) (λ _ _, answer) (λ _, Err ENotFound) (λ _, Ok []).

Definition level_reconciles (ws : list levels) (w : levels) (s : Logger) (es : list event) (w' : levels) (s' : Logger)
    (isError : bool) : Prop :=
  ∃ answer err, (unavailable answer ∨ ∃ w0, w0 ∈ ws ∧ answer = found (w0 !! (namespace, frrK8sConfigurationName))) ∧
    FRRK8sConfiguration_Reconcile namespace defaultLogLevel (level_cluster answer) s = (s', err) ∧
    isError = match err with Some _ => true | None => false end ∧ w' = w ∧ es = [].

(** The logger has the level the resource asks for, or the default. *)
Definition level_settled (w : levels) (s : Logger) : Prop :=
  ∃ l, getLogLevel (level_cluster (found (w !! (namespace, frrK8sConfigurationName)))) namespace defaultLogLevel = (l, None) ∧
    ∃ s0, s = SetLogLevel s0 l.

#[local] Instance level_loop_settles : Settles ctrl level_changes level_reconciles (=) level_settled.
Proof using All.
  split.
  - intros w es w' Hc Hq. exfalso.
    assert (∃ e, es = [e] ∧ kind_of (event_object e) = KK8sConfig) as (e & -> & Hk) by (destruct Hc; by eexists).
    apply (ignored_filtered _ e EnqueueRequestForObject) in Hq; [by destruct e|left|cbn; rewrite Hk; left|done].
  - by intros w w' s <-.
  - intros ws w s es w' s' _ Hws (answer & err & Ha & HR & Herr & -> & ->). destruct err; [done|].
    unfold FRRK8sConfiguration_Reconcile in HR. destruct (getLogLevel _ _ _) as [l [e|]] eqn:El; [done|].
    injection HR as <-. exists l. split; [|by eexists].
    destruct Ha as [[msg ->]|(w0 & <-%Hws & ->)]; [|done]. done.
Qed.

(** The log level follows the resource: whenever the controller is idle, the logger has the level of the FRRK8sConfiguration
    named "config" of its namespace, and the default if there is none or it is empty. *)
Theorem level_controller_settles w s l :
  w ≠ ∅ → rtc (loop_step ctrl level_changes level_reconciles)
    (mkLoop w (queued ctrl ((λ '(k, l), CreateEvent (OK8sConfig k.1 k.2 l)) <$> map_to_list w)) None s) l → idle l →
  level_settled (L_world l) (L_state l).
Proof using All.
  intros Hw Hsteps. eapply (loop_settles ctrl level_changes level_reconciles (=) level_settled); [| |exact Hsteps]; [done|].
  left. cbn. apply map_choose in Hw as (k & x & Hk). intros Hq.
  apply (ignored_filtered _ (CreateEvent (OK8sConfig k.1 k.2 x)) EnqueueRequestForObject) in Hq; [done| |left|done].
  apply list_elem_of_fmap. exists (k, x). split; [done|by apply elem_of_map_to_list].
Qed.
End level.

(** ** The node state controller *)

Section node_state.
Context `{!ControllerRuntime, !ControllerRuntimeLaws} (nodeName : string).
Context {Selector : Type}.
Context (LabelSelectorAsSelector : LabelSelector → result string Selector).
Context (Matches : Selector → labels → bool).
Context (errorString : rerror → string).
Notation ctrl := (FRRState_SetupWithManager nodeName).1.

(** The manager, whose status the poller updates; the state of the configuration controller; the
    FRRNodeStates. *)
Record nodeWorld := mkNodeWorld {
  NW_frr : FRR;
  NW_config : RState FRRHandler;
  NW_states : nodeStates }.

Definition notified (b : bool) : list event := if b then [NewStateEvent] else [].

Inductive node_changes : nodeWorld → list event → nodeWorld → Prop :=
  | status_polled f files f' ev changed s st : pollTick f files = (f', ev, changed) →
      node_changes (mkNodeWorld f s st) (notified changed) (mkNodeWorld f' s st)
  | config_reconciled r c f s s' err reload st :
      Reconcile LabelSelectorAsSelector Matches errorString r c s = Some (s', err, reload) →
      node_changes (mkNodeWorld f s st) (notified reload) (mkNodeWorld f s' st)
  | state_created n x f s st : st !! n = None →
      node_changes (mkNodeWorld f s st) [CreateEvent (ONodeState n x)] (mkNodeWorld f s (<[n := x]> st))
  | state_updated n x x' f s st : st !! n = Some x →
      node_changes (mkNodeWorld f s st) [UpdateEvent (ONodeState n x) (ONodeState n x')]
        (mkNodeWorld f s (<[n := x']> st))
  | state_deleted n x f s st : st !! n = Some x →
      node_changes (mkNodeWorld f s st) [DeleteEvent (ONodeState n x)] (mkNodeWorld f s (delete n st)).

(** The status and the conversion result are read one after the other. *)
Definition node_reconciles (ws : list nodeWorld) (w : nodeWorld) (u : unit) (es : list event) (w' : nodeWorld) (u' : unit)
    (isError : bool) : Prop :=
  ∃ faults w1 w2 states wrote err, w1 ∈ ws ∧ w2 ∈ ws ∧
    FRRState_Reconcile faults nodeName (FRR_Status (NW_frr w1)) (conversionResult (NW_config w2)) (NW_states w)
      = (states, wrote, err) ∧
    w' = mkNodeWorld (NW_frr w) (NW_config w) states ∧ isError = match err with Some _ => true | None => false end.

Definition node_settled (w : nodeWorld) (u : unit) : Prop :=
  NW_states w !! nodeName = Some (newStatus (FRR_Status (NW_frr w)) (conversionResult (NW_config w))).

Definition same_node (w w' : nodeWorld) : Prop :=
  FRR_Status (NW_frr w) = FRR_Status (NW_frr w') ∧
  conversionResult (NW_config w) = conversionResult (NW_config w') ∧ NW_states w !! nodeName = NW_states w' !! nodeName.

#[local] Instance same_node_preorder : PreOrder same_node.
Proof using Type. split; [done|]. intros w1 w2 w3 (?&?&?) (?&?&?). split_and!; congruence. Qed.

Lemma FRRState_Reconcile_publishes faults status res store store' wrote :
  FRRState_Reconcile faults nodeName status res store = (store', wrote, None) →
  store' !! nodeName = Some (newStatus status res).
Proof using Type.
  unfold FRRState_Reconcile, getState, createState, updateStatus. destruct faults as [gf cf uf]; cbn.
  destruct gf as [e|]; cbn.
  - destruct (IsNotFound e); cbn; [|done]. destruct cf; cbn; [done|]. destruct (store !! nodeName) as [x|] eqn:E; cbn; [done|].
    case_bool_decide as Hx; [intros [= <- _]; by rewrite lookup_insert_eq, Hx|].
    destruct uf; [done|]. rewrite lookup_insert_eq. intros [= <- _]. by rewrite lookup_insert_eq.
  - destruct (store !! nodeName) as [x|] eqn:E; cbn.
    + case_bool_decide as Hx; [intros [= <- _]; by rewrite E, Hx|]. destruct uf; [done|]. rewrite E.
      intros [= <- _]. by rewrite lookup_insert_eq.
    + destruct cf; cbn; [done|]. change (IsNotFound ENotFound) with true; cbn.
      case_bool_decide as Hx; [intros [= <- _]; by rewrite lookup_insert_eq, Hx|].
      destruct uf; [done|]. rewrite lookup_insert_eq. intros [= <- _]. by rewrite lookup_insert_eq.
Qed.

Lemma node_woken e : queued ctrl [e] = ∅ → kind_of (event_object e) ∈ [KNodeState; KStateEvent] →
  allows (C_eventFilter ctrl) e = false.
Proof using All.
  intros Hq Hk. apply (ignored_filtered _ _ EnqueueRequestForObject [e]); [done|left| |done]. cbn.
  repeat (apply elem_of_cons in Hk as [->|Hk]; [by repeat (left || right)|]). by apply elem_of_nil in Hk.
Qed.

#[local] Instance node_loop_settles : Settles ctrl node_changes node_reconciles same_node node_settled.
Proof using All.
  split.
  - intros w es w' Hc Hq. destruct Hc as [f files f' ev changed s st Hp|r c f s s' err reload st HR|n x f s st Hn
      |n x x' f s st Hn|n x f s st Hn].
    + destruct changed; [apply node_woken in Hq; [done|set_solver]|]. split_and!; [cbn|done..].
      unfold pollTick in Hp. destruct (fetchStatus files); [|by injection Hp as <- _].
      case_bool_decide; [by injection Hp as <- _|done].
    + destruct reload; [apply node_woken in Hq; [done|set_solver]|]. split_and!; [done| |done]. cbn.
      destruct (Reconcile_spec LabelSelectorAsSelector Matches errorString r c s) as (s1 & e1 & rl & HR' & Hrl & _).
      rewrite HR in HR'. injection HR' as <- <- <-. symmetry in Hrl. apply negb_false_iff, bool_decide_eq_true in Hrl. done.
    + apply node_woken in Hq; [|set_solver]. cbn in Hq. apply bool_decide_eq_false in Hq.
      split_and!; [done..|]. cbn. by rewrite lookup_insert_ne.
    + apply node_woken in Hq; [|set_solver]. cbn in Hq. apply bool_decide_eq_false in Hq.
      split_and!; [done..|]. cbn. by rewrite lookup_insert_ne.
    + apply node_woken in Hq; [|set_solver]. cbn in Hq. apply bool_decide_eq_false in Hq.
      split_and!; [done..|]. cbn. by rewrite lookup_delete_ne.
  - intros w w' u (H1 & H2 & H3). unfold node_settled. by rewrite H1, H2, H3.
  - intros ws w u es w' u' _ Hws (faults & w1 & w2 & states & wrote & err & Hw1 & Hw2 & HR & -> & Herr).
    destruct err; [done|]. apply FRRState_Reconcile_publishes in HR. unfold node_settled. cbn. rewrite HR.
    apply Hws in Hw1 as (-> & _), Hw2 as (_ & -> & _). done.
Qed.

(** C33: the node state is up to date: the poller reads new files, the configuration controller reports new results, and
    others may write or delete node states, at any time; whenever the controller has no request left, the
    FRRNodeState of the node shows the running configuration, the last reload and the last conversion
    as they are. *)
Theorem node_state_settles w l :
  rtc (loop_step ctrl node_changes node_reconciles)
    (mkLoop w (queued ctrl (FRRState_SetupWithManager nodeName).2) None ()) l → idle l →
  NW_states (L_world l) !! nodeName =
    Some (newStatus (FRR_Status (NW_frr (L_world l))) (conversionResult (NW_config (L_world l)))).
Proof using All.
  intros Hsteps Hidle. eapply (loop_settles ctrl node_changes node_reconciles same_node node_settled);
    [| |exact Hsteps|exact Hidle]; [done|]. left. cbn. intros Hq. apply node_woken in Hq; [done|set_solver].
Qed.
End node_state.

(** ** The node state cleaner *)

Section cleaner.
Context `{!ControllerRuntime, !ControllerRuntimeLaws}.
(** The namespace of the daemon, and the selector of its pods. *)
Context (Namespace : string) (FRRK8sSelector : labels → bool).
Notation ctrl := NodeStateCleaner_SetupWithManager.

Record pod := mkPod { Pod_Labels : labels; Pod_NodeName : string }.
Record cleanerWorld := mkCleanerWorld {
  CW_pods : gmap (string * string) pod;
  CW_states : nodeStates }.

(** A pod is scheduled once, and keeps the labels that tell whether it is one of the daemon's. *)
Definition same_pod (p p' : pod) : Prop :=
  FRRK8sSelector (Pod_Labels p) = FRRK8sSelector (Pod_Labels p') ∧
  (Pod_NodeName p = "" ∨ Pod_NodeName p = Pod_NodeName p').

Inductive cleaner_changes : cleanerWorld → list event → cleanerWorld → Prop :=
  | pod_created k p ps st : ps !! k = None →
      cleaner_changes (mkCleanerWorld ps st) [CreateEvent (OPod k.1 k.2 (Pod_NodeName p))] (mkCleanerWorld (<[k := p]> ps) st)
  | pod_updated k p p' ps st : ps !! k = Some p → same_pod p p' →
      cleaner_changes (mkCleanerWorld ps st)
        [UpdateEvent (OPod k.1 k.2 (Pod_NodeName p)) (OPod k.1 k.2 (Pod_NodeName p'))] (mkCleanerWorld (<[k := p']> ps) st)
  | pod_deleted k p ps st : ps !! k = Some p →
      cleaner_changes (mkCleanerWorld ps st) [DeleteEvent (OPod k.1 k.2 (Pod_NodeName p))] (mkCleanerWorld (delete k ps) st)
  | node_state_created n x ps st : st !! n = None →
      cleaner_changes (mkCleanerWorld ps st) [CreateEvent (ONodeState n x)] (mkCleanerWorld ps (<[n := x]> st))
  | node_state_updated n x x' ps st : st !! n = Some x →
      cleaner_changes (mkCleanerWorld ps st) [UpdateEvent (ONodeState n x) (ONodeState n x')]
        (mkCleanerWorld ps (<[n := x']> st))
  | node_state_deleted n x ps st : st !! n = Some x →
      cleaner_changes (mkCleanerWorld ps st) [DeleteEvent (ONodeState n x)] (mkCleanerWorld ps (delete n st)).

Definition ours (kp : (string * string) * pod) : bool := bool_decide (kp.1.1 = Namespace) && FRRK8sSelector (Pod_Labels kp.2).
Definition pods_nodes (w : cleanerWorld) : list string :=
  (λ kp, Pod_NodeName kp.2) <$> filter ours (map_to_list (CW_pods w)).
Definition states_names (w : cleanerWorld) : list string := (map_to_list (CW_states w)).*1.

Definition cleaner_reconciles (ws : list cleanerWorld) (w : cleanerWorld) (u : unit) (es : list event) (w' : cleanerWorld)
    (u' : unit) (isError : bool) : Prop :=
  ∃ listPods listStates deleteFault states errors,
    (unavailable listPods ∨ ∃ w1, w1 ∈ ws ∧ listed listPods (pods_nodes w1)) ∧
    (unavailable listStates ∨ ∃ w2, w2 ∈ ws ∧ listed listStates (states_names w2)) ∧
    NodeStateCleaner_Reconcile listPods listStates deleteFault (CW_states w) = (states, errors) ∧
    w' = mkCleanerWorld (CW_pods w) states ∧ isError = match errors with [] => false | _ => true end.

(** A pod of the daemon is on the node. *)
Definition has_pod (w : cleanerWorld) (n : string) : Prop :=
  ∃ name p, CW_pods w !! (Namespace, name) = Some p ∧ FRRK8sSelector (Pod_Labels p) = true ∧ Pod_NodeName p = n.

Definition cleaner_settled (w : cleanerWorld) (u : unit) : Prop :=
  ∀ n, n ≠ "" → is_Some (CW_states w !! n) → has_pod w n.

Definition cleaner_quiet (w w' : cleanerWorld) : Prop :=
  (∀ n, n ≠ "" → has_pod w n → has_pod w' n) ∧ (∀ n, is_Some (CW_states w' !! n) → is_Some (CW_states w !! n)).

#[local] Instance cleaner_quiet_preorder : PreOrder cleaner_quiet.
Proof using Type. split; [by split|]. intros w1 w2 w3 [] []. split; eauto. Qed.

Lemma elem_of_pods_nodes w n : n ∈ pods_nodes w ↔ has_pod w n.
Proof using Type.
  unfold pods_nodes, has_pod. rewrite list_elem_of_fmap. split.
  - intros ([[ns name] p] & -> & Hin). apply list_elem_of_filter in Hin as [Ho Hin%elem_of_map_to_list].
    unfold ours in Ho; cbn in Ho. apply andb_True in Ho as [->%bool_decide_unpack Hs%Is_true_true]. by exists name, p.
  - intros (name & p & Hp & Hs & <-). exists (Namespace, name, p). split; [done|]. apply list_elem_of_filter. split.
    + unfold ours; cbn. by rewrite bool_decide_eq_true_2, Hs.
    + by apply elem_of_map_to_list.
Qed.

Lemma elem_of_states_names w n : n ∈ states_names w ↔ is_Some (CW_states w !! n).
Proof using Type.
  unfold states_names. rewrite list_elem_of_fmap. split.
  - intros ([n' x] & -> & Hin%elem_of_map_to_list). by exists x.
  - intros [x Hx]. exists (n, x). split; [done|by apply elem_of_map_to_list].
Qed.

Lemma cleaner_woken e es : queued ctrl es = ∅ → e ∈ es → kind_of (event_object e) ∈ [KPod; KNodeState] →
  allows (C_eventFilter ctrl) e = false.
Proof using All.
  intros Hq He Hk. apply (ignored_filtered _ _ EnqueueRequestForObject es); [done..| |done]. cbn.
  repeat (apply elem_of_cons in Hk as [->|Hk]; [by repeat (left || right)|]). by apply elem_of_nil in Hk.
Qed.

#[local] Instance cleaner_loop_settles : Settles ctrl cleaner_changes cleaner_reconciles cleaner_quiet cleaner_settled.
Proof using All.
  split.
  - intros w es w' Hc Hq. assert (∀ e, es = [e] → kind_of (event_object e) ∈ [KPod; KNodeState] →
      allows (C_eventFilter ctrl) e = false) as Ha by (intros e ->; apply (cleaner_woken e [e]); [done|left]).
    destruct Hc as [k p ps st Hk|k p p' ps st Hk Hp|k p ps st Hk|n x ps st Hn|n x x' ps st Hn|n x ps st Hn];
      specialize (Ha _ eq_refl); cbn in Ha; try (by specialize (Ha ltac:(set_solver))); clear Ha Hq.
    + split; [|done]. intros n _ (name & q & Hq & Hs & Hn). exists name, q. cbn in *. split; [|done].
      rewrite lookup_insert_ne; [done|]. intros ->. congruence.
    + split; [|done]. intros n Hne (name & q & Hq & Hs & Hn). cbn in Hq. destruct (decide (k = (Namespace, name))) as [->|Hkn].
      * assert (q = p) as -> by congruence. destruct Hp as [Hl [Hp|Hp]]; [congruence|]. exists name, p'. cbn.
        rewrite lookup_insert_eq. split_and!; congruence.
      * exists name, q. cbn. by rewrite lookup_insert_ne.
    + split; [done|]. cbn. intros m. destruct (decide (n = m)) as [->|Hnm]; [by rewrite Hn|by rewrite lookup_insert_ne].
    + split; [done|]. cbn. intros m. destruct (decide (n = m)) as [->|Hnm]; [by rewrite Hn|by rewrite lookup_delete_ne].
  - intros w w' u [Hp Hs] Hw n Hn Hst. apply Hp, Hw, Hs; done.
  - intros ws w u es w' u' _ Hws (listPods & listStates & deleteFault & states & errors & Hp & Hst & HR & -> & Herr).
    destruct errors; [|done]. unfold NodeStateCleaner_Reconcile in HR.
    destruct Hp as [[msg ->]|(w1 & Hw1 & pods & -> & Hpods)]; [done|].
    destruct Hst as [[msg ->]|(w2 & Hw2 & items & -> & Hitems)]; [done|].
    pose proof (clean_fold (list_to_set pods) deleteFault items (CW_states w) []) as Hf. rewrite HR in Hf.
    destruct Hf as [Hf1 Hf2]. intros n Hne Hsome. cbn in Hsome. rewrite Hf1 in Hsome.
    case_bool_decide as Hb; [by destruct Hsome|]. apply Hws in Hw1 as [Hw1 _], Hw2 as [_ Hw2].
    assert (n ∈ items) as Hi by (rewrite Hitems; by apply elem_of_states_names, Hw2).
    destruct (decide (n ∈ pods)) as [Hin|Hin].
    + apply Hw1 in Hne; [done|]. apply elem_of_pods_nodes. by rewrite <-Hpods.
    + destruct (deleteFault n) as [e|] eqn:Ef.
      * assert (EDeleteFRRNodeState n e ∈ ([] : list cleanerError)) as Hx; [|by apply elem_of_nil in Hx].
        apply Hf2. right. exists n, e. by rewrite elem_of_list_to_set.
      * exfalso. apply Hb. by rewrite elem_of_list_to_set.
Qed.

(** The controller starts with an event for every object there is. *)
Definition cleaner_start (w : cleanerWorld) : loop :=
  mkLoop w (queued ctrl (((λ '(k, p), CreateEvent (OPod k.1 k.2 (Pod_NodeName p))) <$> map_to_list (CW_pods w)) ++
    ((λ '(n, x), CreateEvent (ONodeState n x)) <$> map_to_list (CW_states w)))) None ().

(** C35: no node state outlives the pod of its node: pods and node states come and go at any time, calls may fail and lists may
    be out of date; whenever the cleaner has no request left, every FRRNodeState is that of a node with
    one of the daemon's pods.  The cleaner looks only at states that are created and pods that are deleted: this is enough
    because a pod is scheduled once and keeps its labels. *)
Theorem cleaner_settles w l n :
  rtc (loop_step ctrl cleaner_changes cleaner_reconciles) (cleaner_start w) l → idle l →
  n ≠ "" → is_Some (CW_states (L_world l) !! n) → has_pod (L_world l) n.
Proof using All.
  intros Hsteps Hidle. eapply (loop_settles ctrl cleaner_changes cleaner_reconciles cleaner_quiet cleaner_settled);
    [| |exact Hsteps|exact Hidle]; [done|].
  destruct (decide (L_queue (cleaner_start w) = ∅)) as [Hq|Hq]; [right|by left]. intros m _ [x Hx]. exfalso.
  apply (cleaner_woken (CreateEvent (ONodeState m x))) in Hq; [done| |set_solver].
  apply elem_of_app. right. apply list_elem_of_fmap. exists (m, x). split; [done|by apply elem_of_map_to_list].
Qed.
End cleaner.

(** ** Runs of the loops *)

Definition startWorld : world := mkWorld [] ∅ {["node1" := {["zone" := "a"]}]} [].
Definition laterConfig : FRRConfiguration := sampleConfig "later" [routerRed] "".
Definition laterWorld : world := mkWorld [laterConfig] ∅ {["node1" := {["zone" := "a"]}]} [].
Definition labelsEqual (a b : labels) : bool := bool_decide (a = b).

(** The queue after the events of an example. *)
Ltac compute_queue :=
  repeat match goal with |- context [list_to_set (?es ≫= deliver ?c)] =>
    let reqs := eval vm_compute in (es ≫= deliver c) in
    replace (es ≫= deliver c) with reqs by (vm_compute; reflexivity)
  end; clear; set_solver.

(** What the API server answers in a world. *)
Definition cluster_of (w : world) : Cluster :=
  mkCluster (Ok (W_configs w)) (λ ns n, found (W_levels w !! (ns, n))) (λ n, found (W_nodes w !! n))
    (λ ns, Ok (secrets_of w ns)).

Lemma cluster_of_answers r ws w : w ∈ ws → answers_from r ws (cluster_of w).
Proof.
  intros Hw. split; [|intros ns n| |intros ns]; right; exists w; (split; [done|]); try done; by eexists.
Qed.

(** A resource is created while the controller looks at a cluster without any. *)
Lemma config_controller_settles_witness :
  ∃ s, config_settled matchLabelsOnly includes sampleError sampleReconciler laterWorld s ∧
    conversionResult s = ConversionSuccess.
Proof.
  destruct (sampleReconcile (cluster_of startWorld) freshState) as [[[s1 [e|]] rl1]|] eqn:E1; try by vm_compute in E1.
  destruct (sampleReconcile (cluster_of laterWorld) s1) as [[[s2 [e|]] rl2]|] eqn:E2;
    try (vm_compute in E1; injection E1 as <- _; by vm_compute in E2).
  exists s2. split; [|vm_compute in E1; injection E1 as <- _; vm_compute in E2; by injection E2 as <- _].
  set (ctrl := FRRConfiguration_SetupWithManager labelsEqual sampleReconciler).
  apply (@config_controller_settles _ matchLabelsOnly includes sampleError labelsEqual sampleReconciler plainRuntime
    plainRuntime_laws (λ a b, bool_decide_eq_true_1 _) startWorld freshState
    (mkLoop laterWorld ∅ None s2)).
  - eexists. reflexivity.
  - assert (config_start labelsEqual sampleReconciler startWorld freshState = mkLoop startWorld {[mkReconcileRequest "" "node1"]} None
      freshState) as -> by (unfold config_start, queued; f_equal; compute_queue).
    eapply rtc_l; [apply loop_start' with (q' := ∅); [apply elem_of_singleton_2; reflexivity|compute_queue]|].
    eapply rtc_l; [apply loop_change' with (es := [CreateEvent (OConfig laterConfig)]) (w' := laterWorld)
      (q' := {[mkReconcileRequest "frr-k8s-system" "frrconfig"]}); [by constructor|compute_queue|reflexivity]|].
    eapply rtc_l; [apply loop_end' with (es := []) (w' := laterWorld) (s' := s1)
      (q' := {[mkReconcileRequest "frr-k8s-system" "frrconfig"]}); [|compute_queue]|].
    { exists (cluster_of startWorld), None, rl1. split_and!; [apply cluster_of_answers; right; left|exact E1|reflexivity..]. }
    eapply rtc_l; [apply loop_start' with (q' := ∅); [apply elem_of_singleton_2; reflexivity|compute_queue]|].
    apply rtc_once. apply loop_end' with (es := []); [|compute_queue].
    exists (cluster_of laterWorld), None, rl2. split_and!; [apply cluster_of_answers; left|exact E2|reflexivity..].
  - by split.
Defined.

(** The first event creates and fills the state of the node. *)
Definition runningFRR : FRR := mkFRR (mkStatus "1700000000" "router bgp 64512" "success") "10.0.0.1".

Lemma node_state_settles_witness :
  ({["node1" := mkFRRNodeStateStatus "router bgp 64512" "success" ""]} : nodeStates) !! "node1" =
    Some (newStatus (FRR_Status runningFRR) (conversionResult freshState)).
Proof.
  set (w0 := mkNodeWorld runningFRR freshState ∅).
  set (w1 := mkNodeWorld runningFRR freshState {["node1" := mkFRRNodeStateStatus "router bgp 64512" "success" ""]}).
  set (ctrl := (FRRState_SetupWithManager "node1").1).
  apply (@node_state_settles plainRuntime plainRuntime_laws "node1" _ matchLabelsOnly includes sampleError w0 (mkLoop w1 ∅ None ())).
  - assert (queued ctrl (FRRState_SetupWithManager "node1").2 = {[mkReconcileRequest "metallbreload" "stateUpdate"]}) as ->
      by (unfold queued; compute_queue).
    eapply rtc_l; [apply loop_start' with (q' := ∅); [apply elem_of_singleton_2; reflexivity|compute_queue]|].
    apply rtc_once. apply loop_end' with (es := []); [|compute_queue].
    exists noFaults, w0, w0, (NW_states w1), true, None. split_and!; [left|left|vm_compute; reflexivity|done..].
  - by split.
Defined.

(** The state of the node without a pod is deleted, by the first of two runs. *)
Lemma cleaner_settles_witness :
  let pods : gmap (string * string) pod := {[("frr-k8s-system", "frr-k8s-x") := mkPod ∅ "node2"]} in
  let states : nodeStates := {["node2" := emptyNodeStatus]} in
  is_Some (states !! "node2") ∧ has_pod "frr-k8s-system" (λ _, true) (mkCleanerWorld pods states) "node2".
Proof.
  intros pods states. split; [by eexists|].
  set (w0 := mkCleanerWorld pods {["node1" := emptyNodeStatus; "node2" := emptyNodeStatus]}).
  set (w1 := mkCleanerWorld pods states).
  apply (@cleaner_settles plainRuntime plainRuntime_laws "frr-k8s-system" (λ _, true) w0 (mkLoop w1 ∅ None ()) "node2").
  - assert (cleaner_start w0 = mkLoop w0 {[mkReconcileRequest "" "node1"; mkReconcileRequest "" "node2"]} None ()) as -> by
      (unfold cleaner_start, queued; f_equal; compute_queue).
    eapply rtc_l; [apply loop_start' with (req := mkReconcileRequest "" "node1") (q' := {[mkReconcileRequest "" "node2"]});
      [compute_queue|compute_queue]|].
    eapply rtc_l; [apply loop_end' with (es := []) (w' := w1) (s' := ()) (q' := {[mkReconcileRequest "" "node2"]});
      [|compute_queue]|].
    { exists (Ok ["node2"]), (Ok ["node2"; "node1"]), (λ _, None), states, [].
      split_and!; [right|right|vm_compute; reflexivity|done..]; (exists w0; split; [left|]); eexists; (split; [reflexivity|]);
        vm_compute; solve_Permutation. }
    eapply rtc_l; [apply loop_start' with (q' := ∅); [apply elem_of_singleton_2; reflexivity|compute_queue]|].
    apply rtc_once. apply loop_end' with (es := []); [|compute_queue].
    exists (Ok ["node2"]), (Ok ["node2"]), (λ _, None), states, [].
    split_and!; [right|right|vm_compute; reflexivity|done..]; (exists w1; split; [left|]); eexists; (split; [reflexivity|]);
      by vm_compute.
  - by split.
  - done.
  - by eexists.
Defined.
