(* ===== verification/Daemon.v ===== *)
(** * The daemon of a node

    The configuration controller, the FRR manager, the debouncer and the file, together: the controller's loop of
    [Loops.v] sends configurations over the channel of the manager to the debouncer, which writes the file and tells FRR to reload;
    the poller asks for the old configuration again after a failure.  Every step of the daemon is a step of one of its parts, and a
    run of the daemon projects to a run of each. *)

From Stdlib Require Import Ascii Lia.
From S2P Require Import Prelude GoStrings GoNet IPFamily Community Api FrrConfig Errors Merge ApiToConfig Samples.
From S2P Require Import HeapLogic ApiHeap ApiResult ApiProps Logging Debouncer FRRManager Template TemplateProps FilterNames FileFilters.
From S2P Require Import Render ReadFilters FileText ReadRouters RouterText PeerText Reconciler ReconcilerProps StateControllers SessionState.
From S2P Require Import Watches ControlLoop Loops.

Section daemon.
Context {Selector : Type}.
Context (LabelSelectorAsSelector : LabelSelector → result string Selector).
Context (Matches : Selector → labels → bool).
Context (errorString : rerror → string).
Context (LabelsEquals : labels → labels → bool).
Context (r : FRRConfigurationReconciler).
Context `{!ControllerRuntime, !ControllerRuntimeLaws}.
Hypothesis LabelsEquals_eq : ∀ a b, LabelsEquals a b = true → a = b.
(** The debounce timeout and the retry interval; the names of the files. *)
Context (reloadInterval failureRetryInterval : Z) (configFileName reloaderPidFileName : string).
Notation ctrl := (FRRConfiguration_SetupWithManager LabelsEquals r).
Notation desired := (desired LabelSelectorAsSelector Matches r).
Notation controller_step :=
  (loop_step ctrl world_changes (config_reconciles LabelSelectorAsSelector Matches errorString r)).

Record daemon := mkDaemon {
  Dm_loop : loop (W := world) (S := RState FRRHandler);
  Dm_trace : list (label (C := Config NeighborConfig));
  Dm_debouncer : debouncerState (C := Config NeighborConfig);
  Dm_now : Z;
  (** the files written and the reloads, so far *)
  Dm_done : list action }.

Definition sent_by (l : loop (W := world) (S := RState FRRHandler)) : list (reloadEvent (C := Config NeighborConfig)) :=
  FH_sent (handler (L_state l)).

Definition no_error {E} (e : option E) : bool := match e with None => true | Some _ => false end.

Inductive daemon_step : daemon → daemon → Prop :=
  (** The controller works, or the cluster changes. *)
  | daemon_works l l' tr st t acts :
      controller_step l l' → sent_by l' = sent_by l →
      daemon_step (mkDaemon l tr st t acts) (mkDaemon l' tr st t acts)
  (** The controller ends a run and the debouncer takes what it sends. *)
  | daemon_sends l l' ev tr st t now acts :
      controller_step l l' → sent_by l' = sent_by l ++ [ev] → (t ≤ now)%Z →
      daemon_step (mkDaemon l tr st t acts) (mkDaemon l' (tr ++ [LReload now ev]) (onReload reloadInterval now st ev) now acts)
  (** The poller has seen a reload that failed. *)
  | daemon_polls l tr st t now acts f files f' ev changed :
      pollTick f files = (f', Some ev, changed) → (t ≤ now)%Z →
      daemon_step (mkDaemon l tr st t acts) (mkDaemon l (tr ++ [LReload now ev]) (onReload reloadInterval now st ev) now acts)
  (** The timer expires; the file system may fail in any way. *)
  | daemon_reloads l tr st t now deadline acts env a acts' err :
      D_timeOut st = Some deadline → (deadline ≤ now)%Z → (t ≤ now)%Z → D_config st = Some a →
      generateAndReloadConfigFile env configFileName reloaderPidFileName a = (acts', err) →
      daemon_step (mkDaemon l tr st t acts)
        (mkDaemon l (tr ++ [LBody now (Some a) (no_error err)]) (onTimeOut failureRetryInterval now st (no_error err)) now
           (acts ++ acts')).

Definition daemon_start (w : world) (s : RState FRRHandler) (t : Z) : daemon :=
  mkDaemon (config_start LabelsEquals r w s) [] initial t [].

(** A step of the controller sends at most one configuration: the steps of the daemon are all there are. *)
Lemma controller_sends l l' :
  controller_step l l' → sent_by l' = sent_by l ∨
    ∃ ev, sent_by l' = sent_by l ++ [ev] ∧ RE_useOld ev = false ∧ is_Some (RE_config ev).
Proof using Type.
  destruct 1 as [w es w' q running s Hc|w q s req Hin|w q req ws s es w' s' failed Hr]; [by left..|].
  destruct Hr as (c & err & reload & _ & HR & _). unfold sent_by. cbn [L_state].
  destruct (Reconcile_spec LabelSelectorAsSelector Matches errorString r c s) as (s1 & err1 & rl & HR' & _ & _ & Hspec).
  rewrite HR in HR'. injection HR' as <- <- <-. destruct (desired c) as [cfg|e].
  - destruct Hspec as (-> & _). unfold applyConfig, FRR_ConfigHandler.
    destruct (ApplyConfig _ _ cfg) as [ev|e] eqn:Ea; [right|by left]. cbn. exists ev.
    apply ApplyConfig_completes in Ea as (Hu & a & Ha & _). by rewrite Ha.
  - destruct Hspec as (-> & _). by left.
Qed.

(** What the debouncer was asked for is what the controller sent; when it is idle, the file FRR was last
    told to read is the last one that was applied. *)
Record daemon_inv (d : daemon) : Prop := {
  di_run : run reloadInterval failureRetryInterval (Dm_trace d) (Dm_debouncer d) (Dm_now d);
  di_sent : last_requested (Dm_trace d) = last (sent_by (Dm_loop d)) ≫= RE_config;
  di_timer : D_timerSet (Dm_debouncer d) = true → is_Some (D_config (Dm_debouncer d));
  di_file : D_timerSet (Dm_debouncer d) = false → ∀ a, last_applied (Dm_trace d) = Some a →
    ∃ acts file pid, Dm_done d = acts ++ [Wrote file (templateConfig a); Signalled pid] }.

Lemma daemon_inv_start w s t : FH_sent (handler s) = [] → daemon_inv (daemon_start w s t).
Proof using Type. intros Hs. split; [constructor|unfold sent_by; cbn; by rewrite Hs|done..]. Qed.

Lemma pollTick_useOld f files f' ev changed : pollTick f files = (f', Some ev, changed) → ev = mkReloadEvent None true.
Proof using Type.
  unfold pollTick. destruct (fetchStatus files) as [st|]; [|done]. case_bool_decide; [done|]. case_bool_decide; [done|].
  by intros [= _ <- _].
Qed.

(** A request keeps the invariant. *)
Lemma daemon_inv_request l l' tr st t acts now ev :
  daemon_inv (mkDaemon l tr st t acts) → (t ≤ now)%Z →
  (RE_useOld ev = true ∧ sent_by l' = sent_by l ∨ RE_useOld ev = false ∧ is_Some (RE_config ev) ∧ sent_by l' = sent_by l ++ [ev]) →
  daemon_inv (mkDaemon l' (tr ++ [LReload now ev]) (onReload reloadInterval now st ev) now acts).
Proof using Type.
  intros [Hrun Hsent Htimer Hfile] Hle Hev. cbn in *.
  assert (D_config st = last_requested tr) as Hcfg by apply (run_inv _ _ _ _ _ Hrun).
  split; cbn [Dm_trace Dm_debouncer Dm_now Dm_loop Dm_done].
  - apply (run_step _ _ tr st t (LReload now ev)); [done..|constructor].
  - rewrite last_requested_snoc. cbn. destruct Hev as [[-> ->]|(-> & _ & ->)]; [done|]. by rewrite last_snoc.
  - destruct (onReload_cases reloadInterval now st ev) as [[-> _]|(Hc & _ & _)]; [done|].
    destruct Hev as [[Hu Hs]|(Hu & Hsome & _)]; rewrite Hu in Hc; [|intros _; by rewrite Hc].
    destruct (D_config st) as [a|] eqn:Ec; [intros _; by rewrite Hc|].
    unfold onReload. rewrite Hu, Ec, bool_decide_eq_true_2 by done. cbn. rewrite Ec. exact Htimer.
  - destruct (onReload_cases reloadInterval now st ev) as [[-> _]|(_ & -> & _)]; [|done].
    intros Ht a. rewrite last_applied_snoc. cbn. by apply Hfile.
Qed.

Lemma daemon_inv_step d d' : daemon_inv d → daemon_step d d' → daemon_inv d'.
Proof using Type.
  intros Hd Hstep. destruct Hstep as [l l' tr st t acts Hl Hs|l l' ev tr st t now acts Hl Hs Hle
    |l tr st t now acts f files f' ev changed Hp Hle|l tr st t now deadline acts env a acts' err Hdl Hle Ht Ha Hg].
  - destruct Hd as [Hrun Hsent Htimer Hfile]. cbn in *. split; cbn; [done|by rewrite Hs|done..].
  - eapply daemon_inv_request; [done..|]. right.
    destruct (controller_sends _ _ Hl) as [He|(ev' & He & Hu & Hc)].
    + rewrite He in Hs. apply (f_equal length) in Hs. rewrite length_app in Hs. cbn in Hs. lia.
    + rewrite He in Hs. apply app_inj_tail in Hs as [_ <-]. by split_and!.
  - eapply daemon_inv_request; [done..|]. left. by apply pollTick_useOld in Hp as ->.
  - destruct Hd as [Hrun Hsent Htimer Hfile]. cbn in *. split; cbn [Dm_trace Dm_debouncer Dm_now Dm_loop Dm_done].
    + apply (run_step _ _ tr st t (LBody now (Some a) (no_error err))); [done..|]. rewrite <-Ha. by econstructor.
    + by rewrite last_requested_snoc.
    + intros _. unfold onTimeOut. destruct (no_error err); cbn; by rewrite Ha.
    + unfold onTimeOut. destruct err as [e|]; cbn; [done|]. intros _ b. rewrite last_applied_snoc. cbn. intros [= <-].
      pose proof (reload_follows_write env configFileName reloaderPidFileName a) as Hw. rewrite Hg in Hw.
      destruct Hw as (pid & -> & _). by eexists acts, _, pid.
Qed.

(** A run of the daemon is a run of its controller. *)
Lemma daemon_controller d d' : rtc daemon_step d d' → rtc controller_step (Dm_loop d) (Dm_loop d').
Proof using Type.
  induction 1 as [d|d1 d2 d3 Hstep _ IH]; [done|]. destruct Hstep; cbn in *; [by eapply rtc_l..|done|done].
Qed.

Lemma daemon_invariant w s t d : FH_sent (handler s) = [] → rtc daemon_step (daemon_start w s t) d → daemon_inv d.
Proof using Type.
  intros Hs Hsteps. pose proof (daemon_inv_start w s t Hs) as Hd. revert Hd.
  induction Hsteps; eauto using daemon_inv_step.
Qed.

(** What the daemon has done when nothing is left to do. *)
Lemma daemon_idle w s t d :
  is_Some (W_nodes w !! R_NodeName r) → FH_sent (handler s) = [] →
  rtc daemon_step (daemon_start w s t) d → idle (Dm_loop d) → D_timerSet (Dm_debouncer d) = false →
  ∃ c, answers r (L_world (Dm_loop d)) c ∧
  match desired c with
  | Ok cfg => conversionResult (L_state (Dm_loop d)) = ConversionSuccess ∧
      ∃ a acts file pid, completes a cfg ∧ Dm_done d = acts ++ [Wrote file (templateConfig a); Signalled pid]
  | Err e => is_conversion e = true ∧ conversionResult (L_state (Dm_loop d)) = failed errorString e
  end.
Proof using All.
  intros Hn Hs Hsteps Hidle Htimer. pose proof (daemon_invariant _ _ _ _ Hs Hsteps) as [Hrun Hsent _ Hfile].
  apply daemon_controller in Hsteps.
  destruct (config_controller_settles LabelSelectorAsSelector Matches errorString LabelsEquals r LabelsEquals_eq _ _ _ Hn Hsteps Hidle)
    as (c & Hc & Hd). exists c. split; [done|]. destruct (desired c) as [cfg|e]; [|done].
  destruct Hd as (Hres & ev & a & Hl & _ & Ha & Hcomp). split; [done|]. exists a.
  destruct (Hfile Htimer a) as (acts & file & pid & Hdone); [|by exists acts, file, pid].
  pose proof (run_inv _ _ _ _ _ Hrun) as Hi.
  rewrite <-(inv_clean _ _ _ _ _ Hi Htimer), (inv_config _ _ _ _ _ Hi), Hsent. unfold sent_by. rewrite Hl. done.
Qed.

(** C12: the daemon keeps FRR up to date: resources, nodes, secrets and the log level change at any time, calls to the API server
    and writes of the file fail, requests are squashed and retried; whenever the controller has no request left and the
    debouncer no timer, the last thing the daemon did was to write the text of the configuration the cluster asks
    for, completed with host name and router IDs, and to tell FRR to read it, and success is reported; or the
    cluster asks for one that cannot be converted, and the reason is reported. *)
Theorem daemon_settles w s t d :
  is_Some (W_nodes w !! R_NodeName r) → FH_sent (handler s) = [] →
  rtc daemon_step (daemon_start w s t) d → idle (Dm_loop d) → D_timerSet (Dm_debouncer d) = false →
  ∃ c, answers r (L_world (Dm_loop d)) c ∧
  match desired c with
  | Ok cfg => conversionResult (L_state (Dm_loop d)) = ConversionSuccess ∧
      ∃ a acts file pid, completes a cfg ∧ Dm_done d = acts ++ [Wrote file (templateConfig a); Signalled pid]
  | Err e => is_conversion e = true ∧ conversionResult (L_state (Dm_loop d)) = failed errorString e
  end.
Proof using All. apply daemon_idle. Qed.

(** ** Its peers *)

Section serves.
Context {route : Type} (family_of : route → string) (covers : string → N → N → route → bool).
Context (at_end : bool).

(** Every peer of every router is sent and may send exactly what the configuration says. *)
Definition serves (text : string) (cfg : Config NeighborConfig) : Prop :=
  ∀ r0 n rt, r0 ∈ Config_Routers cfg → n ∈ RC_Neighbors r0 → family_of rt = "ip" ∨ family_of rt = "ipv6" →
  sent_to family_of covers n rt (peer_sends family_of covers at_end text (RC_VRF r0) (peerOf n) rt) ∧
  peer_accepts family_of covers at_end text (RC_VRF r0) (peerOf n) rt =
    accepted_from family_of covers (R_AlwaysBlockCIDRS r) n rt.

Lemma desired_served c cfg a :
  desired c = Ok cfg → completes a cfg → text_ok a → no_raw_filters a → apart (config_sessions cfg) →
  serves (templateConfig a) cfg.
Proof using Type.
  intros Hd (_ & _ & _ & Ha) Ht Hraw Hap r0 n rt Hr Hn Hf.
  destruct (desired_converted _ _ _ _ _ Hd) as [Hnil|(resources & config & Hc & Hrs)].
  { rewrite Hnil in Hr. by apply elem_of_nil in Hr. }
  apply list_elem_of_lookup in Hr as [i Hi]. destruct (Forall2_lookup_r _ _ _ _ _ Ha Hi) as (r' & Hi' & Hv & _ & Hn' & _).
  apply list_elem_of_lookup_2 in Hi'. rewrite <-Hv, <-Hn' in *. unfold same_routers in Ha. rewrite Hrs in Ha.
  unfold config_sessions in Hap. rewrite Hrs in Hap.
  split; [by eapply peer_sends_spec|by eapply peer_accepts_spec].
Qed.

(** C1: from the cluster to the peers: whenever the daemon, started on a node the cluster knows before anything was sent to FRR, has nothing left to do and the cluster asks for a configuration, the file FRR was
    last told to read makes FRR send every peer of every router of this configuration exactly the prefixes advertised to
    it, in the families its session is active in, with the tags requested, and accept from it exactly what is allowed and not always
    blocked; FRR keeps the entries of lists and maps by sequence number.  This is provided that the values in the file are words and its numbers
    fit (text_ok), that the raw configuration adds no prefix list or route map and no command to a router (no_raw_filters, raw_outside), and
    that no two sessions have the same identifier, or one that is another's with -denied (apart). *)
Theorem daemon_serves_peers w s t d :
  is_Some (W_nodes w !! R_NodeName r) → FH_sent (handler s) = [] →
  rtc daemon_step (daemon_start w s t) d → idle (Dm_loop d) → D_timerSet (Dm_debouncer d) = false →
  ∃ c, answers r (L_world (Dm_loop d)) c ∧ ∀ cfg, desired c = Ok cfg →
  ∃ a acts file pid, Dm_done d = acts ++ [Wrote file (templateConfig a); Signalled pid] ∧ completes a cfg ∧
    (text_ok a → no_raw_filters a → apart (config_sessions cfg) → serves (templateConfig a) cfg).
Proof using All.
  intros Hn Hs Hsteps Hidle Htimer. destruct (daemon_idle w s t d Hn Hs Hsteps Hidle Htimer) as (c & Hc & Hd).
  exists c. split; [done|]. intros cfg Hcfg. rewrite Hcfg in Hd. destruct Hd as (_ & a & acts & file & pid & Ha & Hdone).
  exists a, acts, file, pid. split_and!; [done..|]. intros. by eapply desired_served.
Qed.
End serves.
End daemon.

(** ** A run of the daemon *)

(** The first reconciliation finds no resource; one is created meanwhile, and the second reconciliation finds it.  The
    debouncer takes both configurations, and reloads FRR once. *)
Definition state1 : RState FRRHandler := Eval vm_compute in
  match sampleReconcile (cluster_of startWorld) freshState with Some (s, _, _) => s | None => freshState end.
Definition state2 : RState FRRHandler := Eval vm_compute in
  match sampleReconcile (cluster_of laterWorld) state1 with Some (s, _, _) => s | None => freshState end.
Definition emptyEvent : reloadEvent (C := Config NeighborConfig) := Eval vm_compute in
  default (mkReloadEvent None true) (last (FH_sent (handler state1))).
Definition laterEvent : reloadEvent (C := Config NeighborConfig) := Eval vm_compute in
  default (mkReloadEvent None true) (last (FH_sent (handler state2))).
Definition laterApplied : Config NeighborConfig := Eval vm_compute in default (mkConfig "" "" [] [] "") (RE_config laterEvent).
Definition diskEnv : reloadEnv := mkReloadEnv (λ _, None) (λ _, Ok "42") (λ _ _, None) (λ _, None).

Definition sampleDaemon : daemon :=
  mkDaemon (mkLoop laterWorld ∅ None state2)
    [LReload 0 emptyEvent; LReload 1 laterEvent; LBody 3 (Some laterApplied) true]
    (mkDebouncerState (Some laterApplied) None false) 3
    [Wrote "frr.conf" (templateConfig laterApplied); Signalled 42].

Lemma sampleDaemon_run :
  rtc (@daemon_step _ matchLabelsOnly includes sampleError labelsEqual sampleReconciler plainRuntime 3 5 "frr.conf" "pid")
    (@daemon_start labelsEqual sampleReconciler plainRuntime startWorld freshState 0) sampleDaemon.
Proof.
  unfold daemon_start.
  assert (@config_start labelsEqual sampleReconciler plainRuntime startWorld freshState =
    mkLoop startWorld {[mkReconcileRequest "" "node1"]} None freshState) as -> by (unfold config_start, queued; f_equal; compute_queue).
  eapply rtc_l.
  { apply daemon_works; [apply loop_start' with (q' := ∅); [apply elem_of_singleton_2; reflexivity|compute_queue]|reflexivity]. }
  eapply rtc_l.
  { apply daemon_works; [apply loop_change' with (es := [CreateEvent (OConfig laterConfig)]) (w' := laterWorld)
      (q' := {[mkReconcileRequest "frr-k8s-system" "frrconfig"]}); [by constructor|compute_queue|reflexivity]|reflexivity]. }
  eapply rtc_l.
  { apply daemon_sends with (ev := emptyEvent) (now := 0%Z); [apply loop_end' with (es := []) (w' := laterWorld) (s' := state1)
      (q' := {[mkReconcileRequest "frr-k8s-system" "frrconfig"]}); [|compute_queue]|vm_compute; reflexivity|done].
    exists (cluster_of startWorld), None, true. split_and!; [apply cluster_of_answers; right; left|vm_compute; reflexivity|reflexivity..]. }
  eapply rtc_l.
  { apply daemon_works; [apply loop_start' with (q' := ∅); [apply elem_of_singleton_2; reflexivity|compute_queue]|reflexivity]. }
  eapply rtc_l.
  { apply daemon_sends with (ev := laterEvent) (now := 1%Z); [apply loop_end' with (es := []) (w' := laterWorld) (s' := state2)
      (q' := ∅); [|compute_queue]|vm_compute; reflexivity|done].
    exists (cluster_of laterWorld), None, false. split_and!; [apply cluster_of_answers; left|vm_compute; reflexivity|reflexivity..]. }
  apply rtc_once.
  apply (daemon_reloads matchLabelsOnly includes sampleError labelsEqual sampleReconciler 3 5 "frr.conf" "pid" _
    [LReload 0 emptyEvent; LReload 1 laterEvent] (mkDebouncerState (Some laterApplied) (Some 3%Z) true) 1 3 3 [] diskEnv laterApplied
    [Wrote "frr.conf" (templateConfig laterApplied); Signalled 42] None); done.
Qed.

Lemma daemon_settles_witness :
  ∃ c, answers sampleReconciler laterWorld c ∧
  match desired matchLabelsOnly includes sampleReconciler c with
  | Ok cfg => conversionResult state2 = ConversionSuccess ∧
      ∃ a acts file pid, completes a cfg ∧ Dm_done sampleDaemon = acts ++ [Wrote file (templateConfig a); Signalled pid]
  | Err e => is_conversion e = true ∧ conversionResult state2 = failed sampleError e
  end.
Proof.
  apply (@daemon_settles _ matchLabelsOnly includes sampleError labelsEqual sampleReconciler plainRuntime plainRuntime_laws
    (λ a b, bool_decide_eq_true_1 _) 3 5 "frr.conf" "pid" startWorld freshState 0 sampleDaemon).
  - by eexists.
  - reflexivity.
  - exact sampleDaemon_run.
  - by split.
  - reflexivity.
Defined.

(** The file of the run can be read. *)
Lemma laterApplied_text : text_ok laterApplied ∧ no_raw_filters laterApplied ∧ apart (config_sessions laterApplied).
Proof. split_and!; [split; [split; by_evaluation|by_evaluation..]|vm_compute; reflexivity|by_evaluation]. Qed.

Lemma daemon_serves_peers_witness :
  ∃ c, answers sampleReconciler laterWorld c ∧ ∀ cfg, desired matchLabelsOnly includes sampleReconciler c = Ok cfg →
  ∃ a acts file pid, Dm_done sampleDaemon = acts ++ [Wrote file (templateConfig a); Signalled pid] ∧ completes a cfg ∧
    (text_ok a → no_raw_filters a → apart (config_sessions cfg) →
     serves sampleReconciler fst sampleCovers false (templateConfig a) cfg).
Proof.
  apply (@daemon_serves_peers _ matchLabelsOnly includes sampleError labelsEqual sampleReconciler plainRuntime plainRuntime_laws
    (λ a b, bool_decide_eq_true_1 _) 3 5 "frr.conf" "pid" _ fst sampleCovers false startWorld freshState 0 sampleDaemon).
  - by eexists.
  - reflexivity.
  - exact sampleDaemon_run.
  - by split.
  - reflexivity.
Defined.
