(* ===== verification/Store.v ===== *)
(** * Go memory: pointers, slices and maps of a store

    What the deep copies of the API types need: a store of cells, each the elements of one allocation, the
    loops and assignments generated code makes, and what it means for such code to copy.  A pointer is a cell of
    one element, a slice a cell of all its elements (nothing in the program reslices the API types), and a
    failing computation is a panic. *)

From Stdlib Require Import Lia.
From S2P Require Import Prelude.

Notation address := positive (only parsing).

(** A memory. *)
Notation memory cell := (gmap positive cell) (only parsing).

(** References to cells; the type of the elements is part of the type, and [None] is [nil]. *)
Inductive ptr (T : Type) := Ptr (p : option address).
Inductive slice (T : Type) := Slice (p : option address).
Inductive gomap := GoMap (p : option address).
Arguments Ptr {T} p.
Arguments Slice {T} p.

(** [T] is stored in cells of type [cell]. *)
Class Stored (cell T : Type) := {
  toCell : list T → cell;
  ofCell : cell → option (list T);
  zero : T;
  ofCell_toCell l : ofCell (toCell l) = Some l }.

Section store.
Context {cell : Type}.

Definition Go (A : Type) : Type := memory cell → option (A * memory cell).

#[global] Instance Go_ret : MRet Go := λ A a h, Some (a, h).
#[global] Instance Go_bind : MBind Go := λ A B f m h,
  match m h with Some (a, h') => f a h' | None => None end.

(** ** Primitive operations *)

Definition new (c : cell) : Go address := λ h,
  let p := fresh (dom h) in Some (p, <[p := c]> h).

Definition elements {T} `{!Stored cell T} (p : address) : Go (list T) := λ h,
  match h !! p ≫= ofCell with Some l => Some (l, h) | None => None end.

Definition update {T} `{!Stored cell T} (p : address) (l : list T) : Go unit := λ h,
  Some ((), <[p := toCell l]> h).

Definition panic {A} : Go A := λ _, None.

(** [p[i]] and [p[i] = x]. *)
Definition index {T} `{!Stored cell T} (p : address) (i : nat) : Go T :=
  l ← elements p; match l !! i with Some x => mret x | None => panic end.
Definition assign {T} `{!Stored cell T} (p : address) (i : nat) (x : T) : Go unit :=
  l ← elements p; match l !! i with Some _ => update p (<[i := x]> l) | None => panic end.

(** [for i := range n], from [i]. *)
Fixpoint forRange (n i : nat) (body : nat → Go unit) : Go unit :=
  match n with
  | O => mret ()
  | S n => _ ← body i; forRange n (S i) body
  end.

(** ** Copying one field *)

(** [if in != nil { *out = make([]T, len( *in)); for i := range *in { ( *in)[i].DeepCopyInto(&( *out)[i]) } }]. *)
Definition copySlice {T} `{!Stored cell T} (DeepCopyInto : T → Go T) (s : slice T) : Go (slice T) :=
  match s with
  | Slice None => mret (Slice None)
  | Slice (Some p) =>
      l ← elements (T:=T) p;
      q ← new (toCell (replicate (length l) (zero (T:=T))));
      _ ← forRange (length l) 0 (λ i, x ← index p i; y ← DeepCopyInto x; assign q i y);
      mret (Slice (Some q))
  end.

(** [if in != nil { *out = make([]T, len( *in)); copy( *out, *in) }]. *)
Definition copyElements {T} `{!Stored cell T} (s : slice T) : Go (slice T) :=
  match s with
  | Slice None => mret (Slice None)
  | Slice (Some p) =>
      l ← elements (T:=T) p;
      q ← new (toCell (replicate (length l) (zero (T:=T))));
      _ ← update q l;
      mret (Slice (Some q))
  end.

(** [if in != nil { *out = new(T); ( *in).DeepCopyInto( *out) }], and the body of every [DeepCopy]. *)
Definition copyPtr {T} `{!Stored cell T} (DeepCopyInto : T → Go T) (r : ptr T) : Go (ptr T) :=
  match r with
  | Ptr None => mret (Ptr None)
  | Ptr (Some p) =>
      q ← new (toCell [zero (T:=T)]);
      x ← index p 0;
      y ← DeepCopyInto x;
      _ ← assign q 0 y;
      mret (Ptr (Some q))
  end.

(** A struct without references is copied by [*out = *in]. *)
Definition copyValue {T} (x : T) : Go T := mret x.
End store.
#[global] Arguments Go : clear implicits.

(** ** What the memory holds

    [view h m] follows the references of [m] in [h]: the value it finds, and the addresses it goes
    through, each as often as it is reached. *)

Class View (cell M V : Type) := view : memory cell → M → option (V * list address).

(** Types without references. *)
Class Plain (T : Type) := {}.

Section views.
Context {cell : Type}.
Notation Go := (Go cell).

#[global] Instance view_plain {T} `{!Plain T} : View cell T T := λ h x, Some (x, []).

#[global] Instance view_pair {M1 M2 V1 V2} `{!View cell M1 V1, !View cell M2 V2} : View cell (M1 * M2) (V1 * V2) :=
  λ h '(m1, m2),
    '(v1, L1) ← view h m1; '(v2, L2) ← view h m2; Some ((v1, v2), L1 ++ L2).

Fixpoint view_elements {M V} `{!View cell M V} (h : memory cell) (ms : list M) : option (list V * list address) :=
  match ms with
  | [] => Some ([], [])
  | m :: ms => '(v, L1) ← view h m; '(vs, L2) ← view_elements h ms; Some (v :: vs, L1 ++ L2)
  end.

#[global] Instance view_slice {M V} `{!Stored cell M, !View cell M V} : View cell (slice M) (list V) := λ h s,
  match s with
  | Slice None => Some ([], [])
  | Slice (Some p) =>
      ms ← h !! p ≫= ofCell (T:=M); '(vs, L) ← view_elements h ms; Some (vs, p :: L)
  end.

#[global] Instance view_ptr {M V} `{!Stored cell M, !View cell M V} : View cell (ptr M) (option V) := λ h r,
  match r with
  | Ptr None => Some (None, [])
  | Ptr (Some p) =>
      match h !! p ≫= ofCell (T:=M) with
      | Some [m] => '(v, L) ← view h m; Some (Some v, p :: L)
      | _ => None
      end
  end.

(** A struct, seen as the tuple of its fields with references and the rest of it, which is plain. *)
Definition view_struct {M T V TV} `{!View cell T TV} (fields : M → T) (value : M → TV → V) : View cell M V := λ h m,
  '(t, L) ← view h (fields m); Some (value m t, L).

(** The laws of a view: it stays inside the memory, and depends on nothing but the cells it goes through. *)
Class ViewLaws {M V} (V0 : View cell M V) : Prop := {
  view_dom h m v L : view h m = Some (v, L) → ∀ p, p ∈ L → is_Some (h !! p);
  view_frame h h' m v L : view h m = Some (v, L) → (∀ p, p ∈ L → h' !! p = h !! p) → view h' m = Some (v, L) }.

Lemma view_mono {M V} `{W : !View cell M V} `{!ViewLaws W} h h' (m : M) (v : V) L :
  view h m = Some (v, L) → h ⊆ h' → view h' m = Some (v, L).
Proof.
  intros Hv Hh. eapply view_frame; [done|]. intros p Hp.
  destruct (view_dom _ _ _ _ Hv p Hp) as [c Hc]. by rewrite Hc, (lookup_weaken _ _ _ _ Hc Hh).
Qed.

#[global] Instance view_plain_laws {T} `{!Plain T} : ViewLaws (view_plain (T:=T)).
Proof.
  split.
  - intros h m v L [= <- <-] p []%elem_of_nil.
  - intros h h' m v L [= <- <-] _. done.
Qed.

Lemma view_pair_Some {M1 M2 V1 V2} `{!View cell M1 V1, !View cell M2 V2} h (m1 : M1) (m2 : M2) (v : V1 * V2) L :
  view h (m1, m2) = Some (v, L) ↔
  ∃ v1 v2 L1 L2, view h m1 = Some (v1, L1) ∧ view h m2 = Some (v2, L2) ∧ v = (v1, v2) ∧ L = L1 ++ L2.
Proof.
  unfold view at 1, view_pair. rewrite bind_Some. split.
  - intros ([v1 L1] & H1 & ([v2 L2] & H2 & [= <- <-])%bind_Some). by exists v1, v2, L1, L2.
  - intros (v1 & v2 & L1 & L2 & H1 & H2 & -> & ->). exists (v1, L1). split; [done|].
    apply bind_Some. by exists (v2, L2).
Qed.

#[global] Instance view_pair_laws {M1 M2 V1 V2} `{W1 : !View cell M1 V1, W2 : !View cell M2 V2} `{!ViewLaws W1, !ViewLaws W2} :
  ViewLaws (view_pair (M1:=M1) (M2:=M2) (V1:=V1) (V2:=V2)).
Proof.
  split.
  - intros h [m1 m2] v L (v1 & v2 & L1 & L2 & H1 & H2 & -> & ->)%view_pair_Some p [Hp|Hp]%elem_of_app.
    + exact (view_dom _ _ _ _ H1 p Hp).
    + exact (view_dom _ _ _ _ H2 p Hp).
  - intros h h' [m1 m2] v L (v1 & v2 & L1 & L2 & H1 & H2 & -> & ->)%view_pair_Some Hf. apply view_pair_Some.
    exists v1, v2, L1, L2. split_and!; [..|done|done]; (eapply view_frame; [done|]); set_solver.
Qed.

Lemma view_elements_cons {M V} `{!View cell M V} h (m : M) ms (vs : list V) L :
  view_elements h (m :: ms) = Some (vs, L) ↔
  ∃ v vs' L1 L2, view h m = Some (v, L1) ∧ view_elements h ms = Some (vs', L2) ∧ vs = v :: vs' ∧ L = L1 ++ L2.
Proof.
  cbn [view_elements]. rewrite bind_Some. split.
  - intros ([v L1] & H1 & ([vs' L2] & H2 & [= <- <-])%bind_Some). eauto 10.
  - intros (v & vs' & L1 & L2 & H1 & H2 & -> & ->). exists (v, L1). split; [done|].
    apply bind_Some. by exists (vs', L2).
Qed.

Section elements.
Context {M V : Type} `{W : !View cell M V} `{!ViewLaws W}.

Lemma view_elements_dom h (ms : list M) (vs : list V) L :
  view_elements h ms = Some (vs, L) → ∀ p, p ∈ L → is_Some (h !! p).
Proof using Type*.
  revert vs L. induction ms as [|m ms IH]; intros vs L.
  - intros [= <- <-] p []%elem_of_nil.
  - intros (v & vs' & L1 & L2 & H1 & H2 & -> & ->)%view_elements_cons p [Hp|Hp]%elem_of_app.
    + by eapply view_dom.
    + by eapply IH.
Qed.

Lemma view_elements_frame h h' (ms : list M) (vs : list V) L :
  view_elements h ms = Some (vs, L) → (∀ p, p ∈ L → h' !! p = h !! p) → view_elements h' ms = Some (vs, L).
Proof using Type*.
  revert vs L. induction ms as [|m ms IH]; intros vs L; [done|].
  intros (v & vs' & L1 & L2 & H1 & H2 & -> & ->)%view_elements_cons Hf. apply view_elements_cons.
  exists v, vs', L1, L2. split_and!; [|apply IH|done..]; try done.
  - eapply view_frame; [done|]. set_solver.
  - set_solver.
Qed.

Lemma view_elements_length h (ms : list M) (vs : list V) L :
  view_elements h ms = Some (vs, L) → length vs = length ms.
Proof using Type*.
  revert vs L. induction ms as [|m ms IH]; intros vs L; [by intros [= <- _]|].
  intros (v & vs' & L1 & L2 & _ & H2%IH & -> & _)%view_elements_cons. cbn. by rewrite H2.
Qed.

Lemma view_elements_snoc h (ms : list M) m (vs : list V) v L1 L2 :
  view_elements h ms = Some (vs, L1) → view h m = Some (v, L2) →
  view_elements h (ms ++ [m]) = Some (vs ++ [v], L1 ++ L2).
Proof using Type*.
  revert vs L1. induction ms as [|m' ms IH]; intros vs L1.
  - intros [= <- <-] H2. cbn [app]. apply view_elements_cons. exists v, [], L2, []. by rewrite app_nil_r.
  - intros (v' & vs' & L & L' & H1 & H2 & -> & ->)%view_elements_cons Hm. cbn [app]. apply view_elements_cons.
    exists v', (vs' ++ [v]), L, (L' ++ L2). split_and!; [done|by apply IH|done|by rewrite app_assoc].
Qed.

Lemma view_elements_lookup h (ms : list M) (vs : list V) L i m :
  view_elements h ms = Some (vs, L) → ms !! i = Some m →
  ∃ v L', view h m = Some (v, L') ∧ vs !! i = Some v ∧ L' ⊆ L.
Proof using Type*.
  revert vs L i. induction ms as [|m' ms IH]; intros vs L i; [done|].
  intros (v & vs' & L1 & L2 & H1 & H2 & -> & ->)%view_elements_cons. destruct i as [|i]; cbn.
  - intros [= <-]. exists v, L1. split_and!; [done..|set_solver].
  - intros (v' & L' & Hv & Hl & Hs)%(IH _ _ _ H2). exists v', L'. split_and!; [done..|set_solver].
Qed.
End elements.

Lemma view_slice_Some {M V} `{!Stored cell M, !View cell M V} h p (vs : list V) L :
  view h (Slice (T:=M) (Some p)) = Some (vs, L) ↔
  ∃ ms L', h !! p ≫= ofCell = Some ms ∧ view_elements h ms = Some (vs, L') ∧ L = p :: L'.
Proof.
  unfold view, view_slice. rewrite bind_Some. split.
  - intros (ms & Hp & ([vs' L'] & Hv & [= <- <-])%bind_Some). eauto.
  - intros (ms & L' & Hp & Hv & ->). exists ms. split; [done|]. apply bind_Some. by exists (vs, L').
Qed.

Lemma view_ptr_Some {M V} `{!Stored cell M, !View cell M V} h p (v : option V) L :
  view h (Ptr (T:=M) (Some p)) = Some (v, L) ↔
  ∃ m w L', h !! p ≫= ofCell = Some [m] ∧ view h m = Some (w, L') ∧ v = Some w ∧ L = p :: L'.
Proof.
  unfold view at 1, view_ptr. split.
  - destruct (h !! p ≫= ofCell) as [[|m [|]]|]; try done.
    intros ([w L'] & Hv & [= <- <-])%bind_Some. by exists m, w, L'.
  - intros (m & w & L' & -> & Hv & -> & ->). apply bind_Some. by exists (w, L').
Qed.

Lemma is_Some_cell {M} `{!Stored cell M} (h : memory cell) p (ms : list M) :
  h !! p ≫= ofCell = Some ms → is_Some (h !! p).
Proof. intros (c & -> & _)%bind_Some. done. Qed.

#[global] Instance view_slice_laws {M V} `{!Stored cell M, W : !View cell M V} `{!ViewLaws W} :
  ViewLaws (view_slice (M:=M) (V:=V)).
Proof.
  split.
  - intros h [[p|]] v L H q Hq; [|injection H as <- <-; by apply elem_of_nil in Hq].
    apply view_slice_Some in H as (ms & L' & Hp & Hv & ->).
    apply elem_of_cons in Hq as [->|Hq]; [by eapply is_Some_cell|by eapply view_elements_dom].
  - intros h h' [[p|]] v L H Hf; [|done]. apply view_slice_Some in H as (ms & L' & Hp & Hv & ->).
    apply view_slice_Some. exists ms, L'. split_and!; [|eapply view_elements_frame; [done|set_solver]|done].
    by rewrite Hf by set_solver.
Qed.

#[global] Instance view_ptr_laws {M V} `{!Stored cell M, W : !View cell M V} `{!ViewLaws W} :
  ViewLaws (view_ptr (M:=M) (V:=V)).
Proof.
  split.
  - intros h [[p|]] v L H q Hq; [|injection H as <- <-; by apply elem_of_nil in Hq].
    apply view_ptr_Some in H as (m & w & L' & Hp & Hv & -> & ->).
    apply elem_of_cons in Hq as [->|Hq]; [by eapply is_Some_cell|by eapply view_dom].
  - intros h h' [[p|]] v L H Hf; [|done]. apply view_ptr_Some in H as (m & w & L' & Hp & Hv & -> & ->).
    apply view_ptr_Some. exists m, w, L'. split_and!; [|eapply view_frame; [done|set_solver]|done..].
    by rewrite Hf by set_solver.
Qed.

Lemma view_struct_laws {M T V TV} `{W : !View cell T TV} (fields : M → T) (value : M → TV → V) :
  ViewLaws W → ViewLaws (view_struct (TV:=TV) fields value).
Proof.
  intros HT. split.
  - intros h m v L ([t L'] & Ht & [= <- <-])%bind_Some. by eapply view_dom.
  - intros h h' m v L ([t L'] & Ht & [= <- <-])%bind_Some Hf. apply bind_Some. exists (t, L').
    split; [by eapply view_frame|done].
Qed.
End views.

(** ** Copying

    [f] copies what [m] holds: it does not panic, it changes no cell there was, and what its result
    holds is the same, in cells that are all new and each reached once. *)

Section copies.
Context {cell : Type}.
Notation Go := (Go cell).

Definition copies {M V} (W : View cell M V) (f : M → Go M) : Prop :=
  ∀ (h : memory cell) (m : M) (v : V) L, view h m = Some (v, L) → ∃ m' h' L',
    f m h = Some (m', h') ∧ h ⊆ h' ∧ view h' m' = Some (v, L') ∧ NoDup L' ∧ ∀ p, p ∈ L' → h !! p = None.

Lemma bind_Go {A B} (m : Go A) (f : A → Go B) h a h' : m h = Some (a, h') → (m ≫= f) h = f a h'.
Proof. unfold mbind, Go_bind. by intros ->. Qed.

Lemma copies_ext {M V} (W : View cell M V) (f g : M → Go M) :
  (∀ m h, g m h = f m h) → copies W f → copies W g.
Proof. intros He Hf h m v L Hv. destruct (Hf h m v L Hv) as (m' & h' & L' & H). exists m', h', L'. by rewrite He. Qed.

Lemma copies_value {T} `{!Plain T} : copies (view_plain (T:=T)) copyValue.
Proof. intros h m v L [= <- <-]. exists m, h, []. split_and!; [done..|constructor|by intros p []%elem_of_nil]. Qed.

(** Two fields, one after the other. *)
Definition copyPair {M1 M2} (f1 : M1 → Go M1) (f2 : M2 → Go M2) (m : M1 * M2) : Go (M1 * M2) :=
  match m with (m1, m2) => n1 ← f1 m1; n2 ← f2 m2; mret (n1, n2) end.

Lemma copies_pair {M1 M2 V1 V2} `{W1 : !View cell M1 V1, W2 : !View cell M2 V2} `{!ViewLaws W1, !ViewLaws W2}
    (f1 : M1 → Go M1) (f2 : M2 → Go M2) :
  copies W1 f1 → copies W2 f2 →
  copies (view_pair (M1:=M1) (M2:=M2)) (copyPair f1 f2).
Proof.
  intros H1 H2 h [m1 m2] v L (v1 & v2 & L1 & L2 & Hv1 & Hv2 & -> & ->)%view_pair_Some.
  destruct (H1 h m1 v1 L1 Hv1) as (n1 & h1 & K1 & E1 & Hs1 & Hn1 & Hd1 & Hf1).
  destruct (H2 h1 m2 v2 L2) as (n2 & h2 & K2 & E2 & Hs2 & Hn2 & Hd2 & Hf2); [by eapply view_mono|].
  exists (n1, n2), h2, (K1 ++ K2). cbn [copyPair].
  rewrite (bind_Go _ _ _ _ _ E1), (bind_Go _ _ _ _ _ E2). split_and!; [done|by etrans|..].
  - apply view_pair_Some. exists v1, v2, K1, K2. split_and!; [by eapply view_mono|done..].
  - apply NoDup_app. split_and!; [done| |done]. intros p Hp Hp'. apply Hf2 in Hp'.
    destruct (view_dom _ _ _ _ Hn1 p Hp). congruence.
  - intros p [Hp|Hp]%elem_of_app; [by apply Hf1|]. eapply lookup_weaken_None; [by apply Hf2|done].
Qed.

Lemma copies_struct {M T V TV} `{W : !View cell T TV} (fields : M → T) (value : M → TV → V) (build : M → T → M)
    (f : T → Go T) :
  (∀ m t, fields (build m t) = t) → (∀ m t tv, value (build m t) tv = value m tv) →
  copies W f → copies (view_struct fields value) (λ m, t ← f (fields m); mret (build m t)).
Proof.
  intros Hfb Hvb Hf h m v L ([tv K] & Ht & [= <- <-])%bind_Some.
  destruct (Hf h (fields m) tv K Ht) as (t' & h' & L' & E & Hs & Hv & Hd & Hfr).
  exists (build m t'), h', L'. rewrite (bind_Go _ _ _ _ _ E). split_and!; [done..| |done|done].
  apply bind_Some. exists (tv, L'). rewrite Hfb. split; [done|]. cbn. by rewrite Hvb.
Qed.

Lemma forRange_inv (I : nat → memory cell → Prop) n i body h :
  I i h → (∀ j h, i ≤ j < i + n → I j h → ∃ h', body j h = Some ((), h') ∧ I (S j) h') →
  ∃ h', forRange n i body h = Some ((), h') ∧ I (i + n) h'.
Proof.
  revert i h. induction n as [|n IH]; intros i h Hi Hb; cbn [forRange].
  - exists h. by rewrite Nat.add_0_r.
  - destruct (Hb i h) as (h1 & E & H1); [lia|done|]. rewrite (bind_Go _ _ _ _ _ E).
    rewrite <-Nat.add_succ_comm. apply IH; [done|]. intros j h' Hj. apply Hb. lia.
Qed.

(** The memory while a cell [q] is filled: what was there before stays. *)
Lemma fresh_new (h : memory cell) (c : cell) :
  ∃ q, new c h = Some (q, <[q := c]> h) ∧ h !! q = None.
Proof. exists (fresh (dom h)). split; [done|]. apply (not_elem_of_dom (D:=gset positive)), is_fresh. Qed.

Lemma elements_run {T} `{!Stored cell T} (h : memory cell) p (l : list T) :
  h !! p ≫= ofCell = Some l → elements p h = Some (l, h).
Proof. unfold elements. by intros ->. Qed.

Lemma index_run {T} `{!Stored cell T} (h : memory cell) p (l : list T) i x :
  h !! p ≫= ofCell = Some l → l !! i = Some x → index p i h = Some (x, h).
Proof. intros Hp Hi. unfold index. rewrite (bind_Go _ _ _ _ _ (elements_run _ _ _ Hp)). by rewrite Hi. Qed.

Lemma assign_run {T} `{!Stored cell T} (h : memory cell) p (l : list T) i y :
  h !! p ≫= ofCell = Some l → i < length l → assign p i y h = Some ((), <[p := toCell (<[i := y]> l)]> h).
Proof.
  intros Hp Hi. unfold assign. rewrite (bind_Go _ _ _ _ _ (elements_run _ _ _ Hp)).
  destruct (lookup_lt_is_Some_2 l i Hi) as [x ->]. done.
Qed.

Lemma lookup_cell {T} `{!Stored cell T} (h : memory cell) p (l : list T) :
  h !! p = Some (toCell l) → h !! p ≫= ofCell = Some l.
Proof. intros ->. cbn. apply ofCell_toCell. Qed.

Lemma cell_mono {T} `{!Stored cell T} (h h' : memory cell) p (l : list T) :
  h !! p ≫= ofCell = Some l → h ⊆ h' → h' !! p ≫= ofCell = Some l.
Proof. intros (c & Hc & Ho)%bind_Some Hs. by rewrite (lookup_weaken _ _ _ _ Hc Hs). Qed.

(** A slice whose elements are in its cell. *)
Lemma copies_elements {T} `{!Stored cell T, !Plain T} :
  copies (view_slice (M:=T) (V:=T)) copyElements.
Proof.
  intros h [[p|]] v L; [|intros [= <- <-]; exists (Slice None), h, []; split_and!;
    [done..|constructor|by intros p []%elem_of_nil]].
  intros (l & L' & Hp & Hv & ->)%view_slice_Some.
  assert (∀ (h' : memory cell) (l : list T), view_elements h' l = Some (l, [])) as Hpl.
  { intros h' l0. induction l0 as [|x l0 IH]; [done|]. apply view_elements_cons. by exists x, l0, [], []. }
  rewrite Hpl in Hv. injection Hv as <- <-.
  destruct (fresh_new h (toCell (replicate (length l) (zero (T:=T))))) as (q & E & Hq).
  exists (Slice (Some q)), (<[q := toCell l]> h), [q]. unfold copyElements.
  rewrite (bind_Go _ _ _ _ _ (elements_run _ _ _ Hp)), (bind_Go _ _ _ _ _ E).
  unfold update, mbind, Go_bind, mret, Go_ret. rewrite insert_insert_eq. split_and!; [done|by apply insert_subseteq|..].
  - apply view_slice_Some. exists l, []. split_and!; [|apply Hpl|done]. apply lookup_cell, lookup_insert_eq.
  - apply NoDup_singleton.
  - intros p' ->%list_elem_of_singleton. done.
Qed.

Section deep.
Context {M V : Type} `{!Stored cell M, W : !View cell M V, !ViewLaws W} (f : M → Go M) (Hf : copies W f).

(** The loop of [copySlice] after [i] elements: the cell [q] holds the copies of the first [i] elements. *)
Definition filled (h0 : memory cell) (q : address) (vs : list V) (i : nat) (h : memory cell) : Prop :=
  h0 ⊆ h ∧ h0 !! q = None ∧ ∃ ys L,
    length ys = i ∧ h !! q = Some (toCell (ys ++ replicate (length vs - i) zero)) ∧
    view_elements h ys = Some (take i vs, L) ∧ NoDup (q :: L) ∧ ∀ p, p ∈ L → h0 !! p = None.

Lemma filled_step h0 p q (l : list M) vs L0 i h :
  h0 !! p ≫= ofCell = Some l → view_elements h0 l = Some (vs, L0) → i < length l → filled h0 q vs i h →
  ∃ h', (x ← index p i; y ← f x; assign q i y) h = Some ((), h') ∧ filled h0 q vs (S i) h'.
Proof using Type*.
  intros Hp Hl Hi (Hs & Hq & ys & L & Hlen & Hc & Hv & Hnd & Hfr).
  destruct (lookup_lt_is_Some_2 l i Hi) as [x Hx].
  destruct (view_elements_lookup _ _ _ _ _ _ Hl Hx) as (v & L' & Hvx & Hvi & _).
  destruct (Hf h x v L') as (y & h1 & K & E & Hs1 & Hvy & HK & HfrK); [by eapply view_mono|].
  rewrite (bind_Go _ _ _ _ _ (index_run _ _ _ _ _ (cell_mono _ _ _ _ Hp Hs) Hx)), (bind_Go _ _ _ _ _ E).
  pose proof (view_elements_length _ _ _ _ Hl) as Hlv.
  assert (length vs - i = S (length vs - S i)) as Hr by lia. rewrite Hr in Hc. cbn [replicate] in Hc.
  set (rest := replicate (length vs - S i) (zero (T:=M))) in *.
  rewrite (assign_run h1 q (ys ++ zero :: rest)).
  2:{ eapply cell_mono; [by apply lookup_cell|done]. }
  2:{ rewrite length_app. cbn. lia. }
  eexists. split; [done|]. assert (q ∉ K) as HqK by (intros Hin%HfrK; congruence).
  apply NoDup_cons in Hnd as [HqL HL].
  assert (∀ p', p' ∈ L ++ K → <[q := toCell (<[i := y]> (ys ++ zero :: rest))]> h1 !! p' = h1 !! p') as Hsame.
  { intros p' Hp'. apply lookup_insert_ne. intros <-. set_solver. }
  split_and!; [apply insert_subseteq_r; [done|by etrans]|done|].
  exists (ys ++ [y]), (L ++ K). split_and!.
  - rewrite length_app. cbn. lia.
  - rewrite lookup_insert_eq. do 2 f_equal. fold rest. rewrite insert_app_r_alt, Hlen, Nat.sub_diag by lia.
    cbn. by rewrite <-app_assoc.
  - rewrite (take_S_r _ _ _ Hvi). apply view_elements_snoc.
    + eapply (view_elements_frame h1); [eapply (view_elements_frame h); [exact Hv|]|].
      * intros p' Hp'. destruct (view_elements_dom _ _ _ _ Hv p' Hp') as [c Hc']. by rewrite Hc', (lookup_weaken _ _ _ _ Hc' Hs1).
      * intros p' Hp'. apply Hsame. set_solver.
    + eapply view_frame; [exact Hvy|]. intros p' Hp'. apply Hsame. set_solver.
  - apply NoDup_cons. split; [set_solver|]. apply NoDup_app. split_and!; [done| |done].
    intros p' Hp' Hp2%HfrK. destruct (view_elements_dom _ _ _ _ Hv p' Hp'). congruence.
  - intros p' [Hp'|Hp']%elem_of_app; [by apply Hfr|]. eapply lookup_weaken_None; [by apply HfrK|done].
Qed.

Lemma copies_slice : copies (view_slice (M:=M) (V:=V)) (copySlice f).
Proof using Type*.
  intros h [[p|]] vs L; [|intros [= <- <-]; exists (Slice None), h, []; split_and!;
    [done..|constructor|by intros p []%elem_of_nil]].
  intros (l & L0 & Hp & Hv & ->)%view_slice_Some.
  destruct (fresh_new h (toCell (replicate (length l) (zero (T:=M))))) as (q & E & Hq).
  pose proof (view_elements_length _ _ _ _ Hv) as Hlen.
  destruct (forRange_inv (filled h q vs) (length l) 0 (λ i, x ← index p i; y ← f x; assign q i y)
    (<[q := toCell (replicate (length l) zero)]> h)) as (h' & E' & Hs & _ & ys & K & Hys & Hc & Hvy & Hnd & Hfr).
  - split_and!; [by apply insert_subseteq|done|]. exists [], []. split_and!; [done| |done|apply NoDup_singleton|].
    + rewrite lookup_insert_eq, Nat.sub_0_r. by rewrite Hlen.
    + by intros p' []%elem_of_nil.
  - intros j h' Hj. eapply filled_step; [done..|lia].
  - exists (Slice (Some q)), h', (q :: K). unfold copySlice.
    rewrite (bind_Go _ _ _ _ _ (elements_run _ _ _ Hp)), (bind_Go _ _ _ _ _ E), (bind_Go _ _ _ _ _ E').
    split_and!; [done..| |done|].
    + apply view_slice_Some. exists ys, K. cbn in *. rewrite take_ge in Hvy by lia. split_and!; [|done..].
      apply lookup_cell. rewrite Hc. by rewrite Hlen, Nat.sub_diag, app_nil_r.
    + intros p' [->|Hp']%elem_of_cons; [done|by apply Hfr].
Qed.

Lemma copies_ptr : copies (view_ptr (M:=M) (V:=V)) (copyPtr f).
Proof using Type*.
  intros h [[p|]] vs L; [|intros [= <- <-]; exists (Ptr None), h, []; split_and!;
    [done..|constructor|by intros p []%elem_of_nil]].
  intros (m & w & L0 & Hp & Hv & -> & ->)%view_ptr_Some.
  destruct (fresh_new h (toCell [zero (T:=M)])) as (q & E & Hq).
  destruct (filled_step h p q [m] [w] L0 0 (<[q := toCell [zero (T:=M)]]> h)) as (h' & E' & Hs & _ & ys & K & Hys & Hc & Hvy & Hnd & Hfr).
  - done.
  - apply view_elements_cons. exists w, [], L0, []. by rewrite app_nil_r.
  - cbn. lia.
  - split_and!; [by apply insert_subseteq|done|]. exists [], []. split_and!; [done| |done|apply NoDup_singleton|].
    + by rewrite lookup_insert_eq.
    + by intros p' []%elem_of_nil.
  - exists (Ptr (Some q)), h', (q :: K). unfold copyPtr. rewrite (bind_Go _ _ _ _ _ E).
    assert ((x ← index (T:=M) p 0; y ← f x; _ ← assign q 0 y; mret (Ptr (T:=M) (Some q))) (<[q := toCell [zero]]> h)
      = Some (Ptr (Some q), h')) as ->.
    { revert E'. unfold mbind, Go_bind. destruct (index p 0 _) as [[x h1]|]; [|done].
      destruct (f x h1) as [[y h2]|]; [|done]. destruct (assign q 0 y h2) as [[[] h3]|]; [|done]. by intros [= ->]. }
    split_and!; [done..| |done|].
    + apply view_ptr_Some. destruct ys as [|y [|]]; try done. apply view_elements_cons in Hvy as (v & vs & K1 & K2 & Hy & [= <- <-] & Hw & ->).
      injection Hw as <-. exists y, w, K1. rewrite app_nil_r. split_and!; [|done..]. by apply lookup_cell.
    + intros p' [->|Hp']%elem_of_cons; [done|by apply Hfr].
Qed.
End deep.
End copies.

Notation "f ⊗ g" := (copyPair f g) (at level 40, left associativity) : stdpp_scope.
