(* ===== verification/DeepCopy.v ===== *)
(** * The deep copies of the API types ([api/v1beta1/zz_generated.deepcopy.go])

    The structs of the API as they are in memory, with their slices, pointers and maps, and the generated
    [DeepCopyInto], [DeepCopy] and [DeepCopyObject] of each.  A [DeepCopyInto] returns the struct it writes to [*out], which no one
    reads before it returns.

    [ObjectMeta], [ListMeta] and [LabelSelector] belong to apimachinery: what they hold in memory and their
    copies are parameters, gathered in two classes. *)

From Stdlib Require Import Lia.
From S2P Require Import Prelude GoStrings GoNet IPFamily Community Api FrrConfig Errors.
From S2P Require Import Merge ApiToConfig Logging Reconciler StateControllers Json Parse SessionState Store.

(** ** Structs in memory *)

Record AllowedInPrefixesM := mkAllowedInPrefixesM {
  AIM_Prefixes : slice PrefixSelector;
  AIM_Mode : AllowMode }.

Record AllowedOutPrefixesM := mkAllowedOutPrefixesM {
  AOM_Prefixes : slice string;
  AOM_Mode : AllowMode }.

Record LocalPrefPrefixesM := mkLocalPrefPrefixesM {
  LPM_Prefixes : slice string;
  LPM_LocalPref : N }.

Record CommunityPrefixesM := mkCommunityPrefixesM {
  CPM_Prefixes : slice string;
  CPM_Community : string }.

Record AdvertiseM := mkAdvertiseM {
  AdvM_Allowed : AllowedOutPrefixesM;
  AdvM_NextHop : NextHop;
  AdvM_PrefixesWithLocalPref : slice LocalPrefPrefixesM;
  AdvM_PrefixesWithCommunity : slice CommunityPrefixesM }.

Record ReceiveM := mkReceiveM { RecM_Allowed : AllowedInPrefixesM }.

Record NeighborM := mkNeighborM {
  NM_ASN : N;
  NM_DynamicASN : DynamicASNMode;
  NM_SourceAddress : string;
  NM_Address : string;
  NM_Interface : string;
  NM_Port : ptr N;
  NM_Password : string;
  NM_PasswordSecret : SecretReference;
  NM_HoldTime : ptr Duration;
  NM_KeepaliveTime : ptr Duration;
  NM_ConnectTime : ptr Duration;
  NM_EBGPMultiHop : bool;
  NM_BFDProfile : string;
  NM_EnableGracefulRestart : bool;
  NM_ToAdvertise : AdvertiseM;
  NM_ToReceive : ReceiveM;
  NM_DisableMP : bool;
  NM_DualStackAddressFamily : bool;
  NM_LocalASN : N;
  NM_AddressFamilies : slice AddressFamily }.

Record VNIPropertiesM := mkVNIPropertiesM {
  VM_RD : string;
  VM_ImportRTs : slice string;
  VM_ExportRTs : slice string }.

Record L2VNIM := mkL2VNIM {
  L2M_VNI : N;
  L2M_Properties : VNIPropertiesM }.

Record L3VNIM := mkL3VNIM {
  L3M_VNI : N;
  L3M_Properties : VNIPropertiesM;
  L3M_AdvertisePrefixes : slice AdvertisePrefixType }.

Record EVPNConfigM := mkEVPNConfigM {
  EM_AdvertiseVNIs : ptr VNIAdvertisement;
  EM_AdvertiseSVI : bool;
  EM_L2VNIs : slice L2VNIM;
  EM_L3VNI : ptr L3VNIM }.

Record RouterM := mkRouterM {
  RM_ASN : N;
  RM_ID : string;
  RM_VRF : string;
  RM_Neighbors : slice NeighborM;
  RM_Prefixes : slice string;
  RM_Imports : slice Import;
  RM_EVPN : ptr EVPNConfigM }.

Record BFDProfileM := mkBFDProfileM {
  BM_Name : string;
  BM_ReceiveInterval : ptr N;
  BM_TransmitInterval : ptr N;
  BM_DetectMultiplier : ptr N;
  BM_EchoInterval : ptr N;
  BM_EchoMode : ptr bool;
  BM_PassiveMode : ptr bool;
  BM_MinimumTTL : ptr N }.

Record BGPConfigM := mkBGPConfigM {
  BGPM_Routers : slice RouterM;
  BGPM_BFDProfiles : slice BFDProfileM }.

Record TypeMeta := mkTypeMeta { TypeMeta_Kind : string; TypeMeta_APIVersion : string }.

Record FRRK8sConfigurationSpec := mkFRRK8sConfigurationSpec { KSpec_LogLevel : string }.

(** What apimachinery keeps in memory: the fields of [ObjectMeta] the program does not name, [ListMeta], label
    selectors, and the cells they refer to; and the values they stand for. *)
Class Apimachinery := {
  MetaRest : Type;
  MetaRestV : Type;
  ListMeta : Type;
  ListMetaV : Type;
  LabelSelectorM : Type;
  OtherCell : Type;
  zeroMetaRest : MetaRest;
  zeroListMeta : ListMeta;
  zeroLabelSelector : LabelSelectorM }.

Section memory.
Context `{AM : Apimachinery}.

(** [ObjectMeta], with the fields the program uses; [ObjectMetaV] is its value. *)
Record ObjectMetaM := mkObjectMetaM {
  OM_Name : string;
  OM_Namespace : string;
  OM_Annotations : gomap;
  OM_rest : MetaRest }.
Record ObjectMetaV := mkObjectMetaV {
  OV_Name : string;
  OV_Namespace : string;
  OV_Annotations : gmap string string;
  OV_rest : MetaRestV }.

Record FRRConfigurationSpecM := mkSpecM {
  SM_BGP : BGPConfigM;
  SM_Raw : RawConfig;
  SM_NodeSelector : LabelSelectorM }.

(** The structs of resources and of their lists have the same fields for all four kinds; a spec or status that is an empty struct is
    [unit]. *)
Record object (S T : Type) := mkObject {
  O_TypeMeta : TypeMeta;
  O_ObjectMeta : ObjectMetaM;
  O_Spec : S;
  O_Status : T }.
Record objects (I : Type) := mkObjects {
  L_TypeMeta : TypeMeta;
  L_ListMeta : ListMeta;
  L_Items : slice I }.

Definition FRRConfigurationM := object FRRConfigurationSpecM unit.
Definition BGPSessionStateM := object unit BGPSessionStateStatus.
Definition FRRK8sConfigurationM := object FRRK8sConfigurationSpec unit.
Definition FRRNodeStateM := object unit FRRNodeStateStatus.

(** One constructor per type that is allocated. *)
Inductive cell :=
  | CStrings (l : list string)
  | CNumbers (l : list N)
  | CDurations (l : list Z)
  | CBools (l : list bool)
  | CSelectors (l : list PrefixSelector)
  | CImports (l : list Import)
  | CLocalPrefs (l : list LocalPrefPrefixesM)
  | CCommunities (l : list CommunityPrefixesM)
  | CNeighbors (l : list NeighborM)
  | CL2VNIs (l : list L2VNIM)
  | CL3VNIs (l : list L3VNIM)
  | CEVPNs (l : list EVPNConfigM)
  | CRouters (l : list RouterM)
  | CProfiles (l : list BFDProfileM)
  | CConfigs (l : list FRRConfigurationM)
  | CSessions (l : list BGPSessionStateM)
  | CK8sConfigs (l : list FRRK8sConfigurationM)
  | CNodeStates (l : list FRRNodeStateM)
  | CNextHops (l : list NextHop)
  | CRaws (l : list RawConfig)
  | CSecrets (l : list SecretReference)
  | CAllowedIns (l : list AllowedInPrefixesM)
  | CAllowedOuts (l : list AllowedOutPrefixesM)
  | CAdvertises (l : list AdvertiseM)
  | CReceives (l : list ReceiveM)
  | CProperties (l : list VNIPropertiesM)
  | CBGPs (l : list BGPConfigM)
  | CSpecs (l : list FRRConfigurationSpecM)
  | CEmpties (l : list unit)
  | CSessionStatuses (l : list BGPSessionStateStatus)
  | CK8sSpecs (l : list FRRK8sConfigurationSpec)
  | CNodeStatuses (l : list FRRNodeStateStatus)
  | CConfigLists (l : list (objects FRRConfigurationM))
  | CSessionLists (l : list (objects BGPSessionStateM))
  | CK8sConfigLists (l : list (objects FRRK8sConfigurationM))
  | CNodeStateLists (l : list (objects FRRNodeStateM))
  | CMap (m : gmap string string)
  | COther (o : OtherCell).
End memory.
#[global] Arguments mkObject {AM S T} _ _ _ _.
#[global] Arguments O_TypeMeta {AM S T} _.
#[global] Arguments O_ObjectMeta {AM S T} _.
#[global] Arguments O_Spec {AM S T} _.
#[global] Arguments O_Status {AM S T} _.
#[global] Arguments mkObjects {AM I} _ _ _.
#[global] Arguments L_TypeMeta {AM I} _.
#[global] Arguments L_ListMeta {AM I} _.
#[global] Arguments L_Items {AM I} _.

(** ** Cells of each type, with the zero values [make] and [new] fill them with *)

Section cells.
Context `{AM : Apimachinery}.
Notation nilS := (Slice None) (only parsing).
Notation nilP := (Ptr None) (only parsing).

#[global] Program Instance stored_string : Stored cell string := {|
  toCell := CStrings; ofCell c := match c with CStrings l => Some l | _ => None end; zero := "" |}.
#[global] Program Instance stored_N : Stored cell N := {|
  toCell := CNumbers; ofCell c := match c with CNumbers l => Some l | _ => None end; zero := 0%N |}.
#[global] Program Instance stored_Z : Stored cell Z := {|
  toCell := CDurations; ofCell c := match c with CDurations l => Some l | _ => None end; zero := 0%Z |}.
#[global] Program Instance stored_bool : Stored cell bool := {|
  toCell := CBools; ofCell c := match c with CBools l => Some l | _ => None end; zero := false |}.
#[global] Program Instance stored_selector : Stored cell PrefixSelector := {|
  toCell := CSelectors; ofCell c := match c with CSelectors l => Some l | _ => None end;
  zero := mkPrefixSelector "" 0 0 |}.
#[global] Program Instance stored_import : Stored cell Import := {|
  toCell := CImports; ofCell c := match c with CImports l => Some l | _ => None end; zero := mkImport "" |}.
#[global] Program Instance stored_localPref : Stored cell LocalPrefPrefixesM := {|
  toCell := CLocalPrefs; ofCell c := match c with CLocalPrefs l => Some l | _ => None end;
  zero := mkLocalPrefPrefixesM nilS 0 |}.
#[global] Program Instance stored_community : Stored cell CommunityPrefixesM := {|
  toCell := CCommunities; ofCell c := match c with CCommunities l => Some l | _ => None end;
  zero := mkCommunityPrefixesM nilS "" |}.

Definition zeroAdvertiseM : AdvertiseM := mkAdvertiseM (mkAllowedOutPrefixesM nilS "") (mkNextHop "" "") nilS nilS.
Definition zeroReceiveM : ReceiveM := mkReceiveM (mkAllowedInPrefixesM nilS "").
#[global] Program Instance stored_neighbor : Stored cell NeighborM := {|
  toCell := CNeighbors; ofCell c := match c with CNeighbors l => Some l | _ => None end;
  zero := mkNeighborM 0 "" "" "" "" nilP "" (mkSecretReference "" "") nilP nilP nilP false "" false
            zeroAdvertiseM zeroReceiveM false false 0 nilS |}.
#[global] Program Instance stored_l2vni : Stored cell L2VNIM := {|
  toCell := CL2VNIs; ofCell c := match c with CL2VNIs l => Some l | _ => None end;
  zero := mkL2VNIM 0 (mkVNIPropertiesM "" nilS nilS) |}.
#[global] Program Instance stored_l3vni : Stored cell L3VNIM := {|
  toCell := CL3VNIs; ofCell c := match c with CL3VNIs l => Some l | _ => None end;
  zero := mkL3VNIM 0 (mkVNIPropertiesM "" nilS nilS) nilS |}.
#[global] Program Instance stored_evpn : Stored cell EVPNConfigM := {|
  toCell := CEVPNs; ofCell c := match c with CEVPNs l => Some l | _ => None end;
  zero := mkEVPNConfigM nilP false nilS nilP |}.
#[global] Program Instance stored_router : Stored cell RouterM := {|
  toCell := CRouters; ofCell c := match c with CRouters l => Some l | _ => None end;
  zero := mkRouterM 0 "" "" nilS nilS nilS nilP |}.
#[global] Program Instance stored_profile : Stored cell BFDProfileM := {|
  toCell := CProfiles; ofCell c := match c with CProfiles l => Some l | _ => None end;
  zero := mkBFDProfileM "" nilP nilP nilP nilP nilP nilP nilP |}.

Definition zeroObject {S T} (s : S) (t : T) : object S T :=
  mkObject (mkTypeMeta "" "") (mkObjectMetaM "" "" (GoMap None) zeroMetaRest) s t.
#[global] Program Instance stored_config : Stored cell FRRConfigurationM := {|
  toCell := CConfigs; ofCell c := match c with CConfigs l => Some l | _ => None end;
  zero := zeroObject (mkSpecM (mkBGPConfigM nilS nilS) (mkRawConfig 0 "") zeroLabelSelector) () |}.
#[global] Program Instance stored_session : Stored cell BGPSessionStateM := {|
  toCell := CSessions; ofCell c := match c with CSessions l => Some l | _ => None end;
  zero := zeroObject () (mkBGPSessionStateStatus "" "" "" "" "") |}.
#[global] Program Instance stored_k8sConfig : Stored cell FRRK8sConfigurationM := {|
  toCell := CK8sConfigs; ofCell c := match c with CK8sConfigs l => Some l | _ => None end;
  zero := zeroObject (mkFRRK8sConfigurationSpec "") () |}.
#[global] Program Instance stored_nodeState : Stored cell FRRNodeStateM := {|
  toCell := CNodeStates; ofCell c := match c with CNodeStates l => Some l | _ => None end;
  zero := zeroObject () (mkFRRNodeStateStatus "" "" "") |}.
#[global] Program Instance stored_nextHop : Stored cell NextHop := {|
  toCell := CNextHops; ofCell c := match c with CNextHops l => Some l | _ => None end;
  zero := mkNextHop "" "" |}.
#[global] Program Instance stored_raw : Stored cell RawConfig := {|
  toCell := CRaws; ofCell c := match c with CRaws l => Some l | _ => None end;
  zero := mkRawConfig 0 "" |}.
#[global] Program Instance stored_secretReference : Stored cell SecretReference := {|
  toCell := CSecrets; ofCell c := match c with CSecrets l => Some l | _ => None end;
  zero := mkSecretReference "" "" |}.
#[global] Program Instance stored_allowedIn : Stored cell AllowedInPrefixesM := {|
  toCell := CAllowedIns; ofCell c := match c with CAllowedIns l => Some l | _ => None end;
  zero := mkAllowedInPrefixesM nilS "" |}.
#[global] Program Instance stored_allowedOut : Stored cell AllowedOutPrefixesM := {|
  toCell := CAllowedOuts; ofCell c := match c with CAllowedOuts l => Some l | _ => None end;
  zero := mkAllowedOutPrefixesM nilS "" |}.
#[global] Program Instance stored_advertise : Stored cell AdvertiseM := {|
  toCell := CAdvertises; ofCell c := match c with CAdvertises l => Some l | _ => None end;
  zero := zeroAdvertiseM |}.
#[global] Program Instance stored_receive : Stored cell ReceiveM := {|
  toCell := CReceives; ofCell c := match c with CReceives l => Some l | _ => None end;
  zero := zeroReceiveM |}.
#[global] Program Instance stored_vniProperties : Stored cell VNIPropertiesM := {|
  toCell := CProperties; ofCell c := match c with CProperties l => Some l | _ => None end;
  zero := mkVNIPropertiesM "" nilS nilS |}.
#[global] Program Instance stored_bgp : Stored cell BGPConfigM := {|
  toCell := CBGPs; ofCell c := match c with CBGPs l => Some l | _ => None end;
  zero := mkBGPConfigM nilS nilS |}.
#[global] Program Instance stored_spec : Stored cell FRRConfigurationSpecM := {|
  toCell := CSpecs; ofCell c := match c with CSpecs l => Some l | _ => None end;
  zero := mkSpecM (mkBGPConfigM nilS nilS) (mkRawConfig 0 "") zeroLabelSelector |}.
#[global] Program Instance stored_unit : Stored cell unit := {|
  toCell := CEmpties; ofCell c := match c with CEmpties l => Some l | _ => None end;
  zero := () |}.
#[global] Program Instance stored_sessionStatus : Stored cell BGPSessionStateStatus := {|
  toCell := CSessionStatuses; ofCell c := match c with CSessionStatuses l => Some l | _ => None end;
  zero := mkBGPSessionStateStatus "" "" "" "" "" |}.
#[global] Program Instance stored_k8sSpec : Stored cell FRRK8sConfigurationSpec := {|
  toCell := CK8sSpecs; ofCell c := match c with CK8sSpecs l => Some l | _ => None end;
  zero := mkFRRK8sConfigurationSpec "" |}.
#[global] Program Instance stored_nodeStatus : Stored cell FRRNodeStateStatus := {|
  toCell := CNodeStatuses; ofCell c := match c with CNodeStatuses l => Some l | _ => None end;
  zero := mkFRRNodeStateStatus "" "" "" |}.
#[global] Program Instance stored_configList : Stored cell (objects FRRConfigurationM) := {|
  toCell := CConfigLists; ofCell c := match c with CConfigLists l => Some l | _ => None end;
  zero := mkObjects (mkTypeMeta "" "") zeroListMeta nilS |}.
#[global] Program Instance stored_sessionList : Stored cell (objects BGPSessionStateM) := {|
  toCell := CSessionLists; ofCell c := match c with CSessionLists l => Some l | _ => None end;
  zero := mkObjects (mkTypeMeta "" "") zeroListMeta nilS |}.
#[global] Program Instance stored_k8sConfigList : Stored cell (objects FRRK8sConfigurationM) := {|
  toCell := CK8sConfigLists; ofCell c := match c with CK8sConfigLists l => Some l | _ => None end;
  zero := mkObjects (mkTypeMeta "" "") zeroListMeta nilS |}.
#[global] Program Instance stored_nodeStateList : Stored cell (objects FRRNodeStateM) := {|
  toCell := CNodeStateLists; ofCell c := match c with CNodeStateLists l => Some l | _ => None end;
  zero := mkObjects (mkTypeMeta "" "") zeroListMeta nilS |}.
Solve All Obligations with done.
End cells.

(** ** What the memory holds *)

(** Scalars and structs without references. *)
#[global] Instance isPlain_unit : Plain unit := {}.
#[global] Instance isPlain_string : Plain string := {}.
#[global] Instance isPlain_N : Plain N := {}.
#[global] Instance isPlain_Z : Plain Z := {}.
#[global] Instance isPlain_bool : Plain bool := {}.
#[global] Instance isPlain_selector : Plain PrefixSelector := {}.
#[global] Instance isPlain_import : Plain Import := {}.
#[global] Instance isPlain_secret : Plain SecretReference := {}.
#[global] Instance isPlain_nextHop : Plain NextHop := {}.
#[global] Instance isPlain_raw : Plain RawConfig := {}.
#[global] Instance isPlain_sessionStatus : Plain BGPSessionStateStatus := {}.
#[global] Instance isPlain_nodeStatus : Plain FRRNodeStateStatus := {}.
#[global] Instance isPlain_k8sSpec : Plain FRRK8sConfigurationSpec := {}.

Section viewing.
Context `{AM : Apimachinery}.

#[global] Instance view_gomap : View cell gomap (gmap string string) := λ h r,
  match r with
  | GoMap None => Some (∅, [])
  | GoMap (Some p) => match h !! p with Some (CMap m) => Some (m, [p]) | _ => None end
  end.

(** Each struct: the fields with references, how they are put back, and the value of the whole. *)
Definition AllowedIn_fields (m : AllowedInPrefixesM) := AIM_Prefixes m.
Definition AllowedIn_value (m : AllowedInPrefixesM) (ps : list PrefixSelector) : AllowedInPrefixes :=
  mkAllowedInPrefixes ps (AIM_Mode m).
#[global] Instance view_AllowedIn : View cell AllowedInPrefixesM AllowedInPrefixes :=
  view_struct AllowedIn_fields AllowedIn_value.

Definition AllowedOut_fields (m : AllowedOutPrefixesM) := AOM_Prefixes m.
Definition AllowedOut_value (m : AllowedOutPrefixesM) (ps : list string) : AllowedOutPrefixes :=
  mkAllowedOutPrefixes ps (AOM_Mode m).
#[global] Instance view_AllowedOut : View cell AllowedOutPrefixesM AllowedOutPrefixes :=
  view_struct AllowedOut_fields AllowedOut_value.

Definition LocalPref_fields (m : LocalPrefPrefixesM) := LPM_Prefixes m.
Definition LocalPref_value (m : LocalPrefPrefixesM) (ps : list string) : LocalPrefPrefixes :=
  mkLocalPrefPrefixes ps (LPM_LocalPref m).
#[global] Instance view_LocalPref : View cell LocalPrefPrefixesM LocalPrefPrefixes :=
  view_struct LocalPref_fields LocalPref_value.

Definition Community_fields (m : CommunityPrefixesM) := CPM_Prefixes m.
Definition Community_value (m : CommunityPrefixesM) (ps : list string) : CommunityPrefixes :=
  mkCommunityPrefixes ps (CPM_Community m).
#[global] Instance view_Community : View cell CommunityPrefixesM CommunityPrefixes :=
  view_struct Community_fields Community_value.

Definition Advertise_fields (m : AdvertiseM) :=
  (AdvM_Allowed m, AdvM_PrefixesWithLocalPref m, AdvM_PrefixesWithCommunity m).
Definition Advertise_value (m : AdvertiseM)
    (t : AllowedOutPrefixes * list LocalPrefPrefixes * list CommunityPrefixes) : Advertise :=
  mkAdvertise t.1.1 (AdvM_NextHop m) t.1.2 t.2.
#[global] Instance view_Advertise : View cell AdvertiseM Advertise := view_struct Advertise_fields Advertise_value.

Definition Receive_fields (m : ReceiveM) := RecM_Allowed m.
Definition Receive_value (m : ReceiveM) (a : AllowedInPrefixes) : Receive := mkReceive a.
#[global] Instance view_Receive : View cell ReceiveM Receive := view_struct Receive_fields Receive_value.

Definition Neighbor_fields (m : NeighborM) :=
  (NM_Port m, NM_HoldTime m, NM_KeepaliveTime m, NM_ConnectTime m, NM_ToAdvertise m, NM_ToReceive m, NM_AddressFamilies m).
Definition Neighbor_value (m : NeighborM)
    (t : option N * option Duration * option Duration * option Duration * Advertise * Receive * list AddressFamily)
    : Neighbor :=
  let '(port, hold, keep, conn, adv, rec, fams) := t in
  mkNeighbor (NM_ASN m) (NM_DynamicASN m) (NM_SourceAddress m) (NM_Address m) (NM_Interface m) port (NM_Password m)
    (NM_PasswordSecret m) hold keep conn (NM_EBGPMultiHop m) (NM_BFDProfile m) (NM_EnableGracefulRestart m) adv rec
    (NM_DisableMP m) (NM_DualStackAddressFamily m) (NM_LocalASN m) fams.
#[global] Instance view_Neighbor : View cell NeighborM Neighbor := view_struct Neighbor_fields Neighbor_value.

Definition VNIProperties_fields (m : VNIPropertiesM) := (VM_ImportRTs m, VM_ExportRTs m).
Definition VNIProperties_value (m : VNIPropertiesM) (t : list string * list string) : VNIProperties :=
  mkVNIProperties (VM_RD m) t.1 t.2.
#[global] Instance view_VNIProperties : View cell VNIPropertiesM VNIProperties :=
  view_struct VNIProperties_fields VNIProperties_value.

Definition L2VNI_fields (m : L2VNIM) := L2M_Properties m.
Definition L2VNI_value (m : L2VNIM) (p : VNIProperties) : L2VNI := mkL2VNI (L2M_VNI m) p.
#[global] Instance view_L2VNI : View cell L2VNIM L2VNI := view_struct L2VNI_fields L2VNI_value.

Definition L3VNI_fields (m : L3VNIM) := (L3M_Properties m, L3M_AdvertisePrefixes m).
Definition L3VNI_value (m : L3VNIM) (t : VNIProperties * list AdvertisePrefixType) : L3VNI :=
  mkL3VNI (L3M_VNI m) t.1 t.2.
#[global] Instance view_L3VNI : View cell L3VNIM L3VNI := view_struct L3VNI_fields L3VNI_value.

Definition EVPNConfig_fields (m : EVPNConfigM) := (EM_AdvertiseVNIs m, EM_L2VNIs m, EM_L3VNI m).
Definition EVPNConfig_value (m : EVPNConfigM) (t : option VNIAdvertisement * list L2VNI * option L3VNI) : EVPNConfig :=
  mkEVPNConfig t.1.1 (EM_AdvertiseSVI m) t.1.2 t.2.
#[global] Instance view_EVPNConfig : View cell EVPNConfigM EVPNConfig := view_struct EVPNConfig_fields EVPNConfig_value.

Definition Router_fields (m : RouterM) := (RM_Neighbors m, RM_Prefixes m, RM_Imports m, RM_EVPN m).
Definition Router_value (m : RouterM) (t : list Neighbor * list string * list Import * option EVPNConfig) : Router :=
  let '(ns, ps, imps, evpn) := t in mkRouter (RM_ASN m) (RM_ID m) (RM_VRF m) ns ps imps evpn.
#[global] Instance view_Router : View cell RouterM Router := view_struct Router_fields Router_value.

Definition BFDProfile_fields (m : BFDProfileM) :=
  (BM_ReceiveInterval m, BM_TransmitInterval m, BM_DetectMultiplier m, BM_EchoInterval m, BM_EchoMode m, BM_PassiveMode m,
   BM_MinimumTTL m).
Definition BFDProfile_value (m : BFDProfileM)
    (t : option N * option N * option N * option N * option bool * option bool * option N) : BFDProfile :=
  let '(rx, tx, mult, echo, mode, passive, ttl) := t in mkBFDProfile (BM_Name m) rx tx mult echo mode passive ttl.
#[global] Instance view_BFDProfile : View cell BFDProfileM BFDProfile := view_struct BFDProfile_fields BFDProfile_value.

Definition BGPConfig_fields (m : BGPConfigM) := (BGPM_Routers m, BGPM_BFDProfiles m).
Definition BGPConfig_value (m : BGPConfigM) (t : list Router * list BFDProfile) : BGPConfig := mkBGPConfig t.1 t.2.
#[global] Instance view_BGPConfig : View cell BGPConfigM BGPConfig := view_struct BGPConfig_fields BGPConfig_value.

(** The cells apimachinery's structs refer to: its own, maps and scalars. *)
Definition own_cell (c : cell) : Prop :=
  match c with COther _ | CMap _ | CStrings _ | CNumbers _ | CDurations _ | CBools _ => True | _ => False end.

(** What the program relies on of apimachinery: what its structs hold can be read, its [DeepCopyInto]s copy, and
    none of them refers to memory of the program's types. *)
Class ApimachineryCopies := {
  view_MetaRest :: View cell MetaRest MetaRestV;
  view_ListMeta :: View cell ListMeta ListMetaV;
  view_LabelSelector :: View cell LabelSelectorM LabelSelector;
  view_MetaRest_laws :: ViewLaws view_MetaRest;
  view_ListMeta_laws :: ViewLaws view_ListMeta;
  view_LabelSelector_laws :: ViewLaws view_LabelSelector;
  ObjectMeta_DeepCopyInto : ObjectMetaM → Go cell ObjectMetaM;
  ListMeta_DeepCopyInto : ListMeta → Go cell ListMeta;
  LabelSelector_DeepCopyInto : LabelSelectorM → Go cell LabelSelectorM;
  ObjectMeta_copies : copies
    (view_struct (λ m, (OM_Annotations m, OM_rest m))
       (λ m t, mkObjectMetaV (OM_Name m) (OM_Namespace m) t.1 t.2)) ObjectMeta_DeepCopyInto;
  ListMeta_copies : copies view_ListMeta ListMeta_DeepCopyInto;
  LabelSelector_copies : copies view_LabelSelector LabelSelector_DeepCopyInto;
  MetaRest_cells h (m : MetaRest) v L : view h m = Some (v, L) → ∀ p, p ∈ L → ∃ c, h !! p = Some c ∧ own_cell c;
  LabelSelector_cells h (m : LabelSelectorM) v L :
    view h m = Some (v, L) → ∀ p, p ∈ L → ∃ c, h !! p = Some c ∧ own_cell c }.

Context `{AC : !ApimachineryCopies}.

Definition ObjectMeta_fields (m : ObjectMetaM) := (OM_Annotations m, OM_rest m).
Definition ObjectMeta_value (m : ObjectMetaM) (t : gmap string string * MetaRestV) : ObjectMetaV :=
  mkObjectMetaV (OM_Name m) (OM_Namespace m) t.1 t.2.
#[global] Instance view_ObjectMeta : View cell ObjectMetaM ObjectMetaV := view_struct ObjectMeta_fields ObjectMeta_value.

Definition Spec_fields (m : FRRConfigurationSpecM) := (SM_BGP m, SM_NodeSelector m).
Definition Spec_value (m : FRRConfigurationSpecM) (t : BGPConfig * LabelSelector) : FRRConfigurationSpec :=
  mkSpec t.1 (SM_Raw m) t.2.
#[global] Instance view_Spec : View cell FRRConfigurationSpecM FRRConfigurationSpec := view_struct Spec_fields Spec_value.

(** The value of a resource: the [FRRConfiguration] the conversion uses, and the metadata it does not look at. *)
Definition Config_fields (m : FRRConfigurationM) := (O_ObjectMeta m, O_Spec m).
Definition Config_value (m : FRRConfigurationM) (t : ObjectMetaV * FRRConfigurationSpec)
    : FRRConfiguration * (TypeMeta * MetaRestV) :=
  (mkFRRConfiguration (OV_Name t.1) (OV_Namespace t.1) (OV_Annotations t.1) t.2, (O_TypeMeta m, OV_rest t.1)).
#[global] Instance view_Config : View cell FRRConfigurationM (FRRConfiguration * (TypeMeta * MetaRestV)) :=
  view_struct Config_fields Config_value.

(** The other kinds: only the metadata has references. *)
Definition object_fields {S T} (m : object S T) := O_ObjectMeta m.
Definition object_value {S T} (m : object S T) (v : ObjectMetaV) : TypeMeta * ObjectMetaV * S * T :=
  (O_TypeMeta m, v, O_Spec m, O_Status m).
Definition view_object {S T} : View cell (object S T) (TypeMeta * ObjectMetaV * S * T) :=
  view_struct object_fields object_value.
#[global] Instance view_SessionState : View cell BGPSessionStateM _ := view_object.
#[global] Instance view_K8sConfig : View cell FRRK8sConfigurationM _ := view_object.
#[global] Instance view_NodeState : View cell FRRNodeStateM _ := view_object.

Definition objects_fields {I} (m : objects I) := (L_ListMeta m, L_Items m).
Definition objects_value {I V} (m : objects I) (t : ListMetaV * list V) : TypeMeta * ListMetaV * list V :=
  (L_TypeMeta m, t.1, t.2).
#[global] Instance view_objects {I V} `{!Stored cell I, !View cell I V} : View cell (objects I) (TypeMeta * ListMetaV * list V) :=
  view_struct objects_fields objects_value.
End viewing.

(** ** The generated functions *)

Section generated.
Context `{AM : Apimachinery} `{AC : !ApimachineryCopies}.
Notation Go := (Go cell).

(** [DeepCopy] of a type with the given [DeepCopyInto] is [copyPtr]; [DeepCopyObject] makes a [runtime.Object] of its
    result, which is the nil interface when the result is nil. *)
Notation DeepCopy := copyPtr.
Definition runtimeObject {T} (c : ptr T) : option (ptr T) := match c with Ptr None => None | c => Some c end.
Definition DeepCopyObject {T} (DeepCopy : ptr T → Go (ptr T)) (in_ : ptr T) : Go (option (ptr T)) :=
  c ← DeepCopy in_; mret (runtimeObject c).

Definition NextHop_DeepCopyInto : NextHop → Go NextHop := copyValue.
Definition PrefixSelector_DeepCopyInto : PrefixSelector → Go PrefixSelector := copyValue.
Definition RawConfig_DeepCopyInto : RawConfig → Go RawConfig := copyValue.
Definition Import_DeepCopyInto : Import → Go Import := copyValue.
Definition SecretReference_DeepCopyInto : SecretReference → Go SecretReference := copyValue.

Definition AllowedInPrefixes_DeepCopyInto (in_ : AllowedInPrefixesM) : Go AllowedInPrefixesM :=
  prefixes ← copyElements (AIM_Prefixes in_);
  mret (mkAllowedInPrefixesM prefixes (AIM_Mode in_)).

Definition AllowedOutPrefixes_DeepCopyInto (in_ : AllowedOutPrefixesM) : Go AllowedOutPrefixesM :=
  prefixes ← copyElements (AOM_Prefixes in_);
  mret (mkAllowedOutPrefixesM prefixes (AOM_Mode in_)).

Definition LocalPrefPrefixes_DeepCopyInto (in_ : LocalPrefPrefixesM) : Go LocalPrefPrefixesM :=
  prefixes ← copyElements (LPM_Prefixes in_);
  mret (mkLocalPrefPrefixesM prefixes (LPM_LocalPref in_)).

Definition CommunityPrefixes_DeepCopyInto (in_ : CommunityPrefixesM) : Go CommunityPrefixesM :=
  prefixes ← copyElements (CPM_Prefixes in_);
  mret (mkCommunityPrefixesM prefixes (CPM_Community in_)).

Definition Advertise_DeepCopyInto (in_ : AdvertiseM) : Go AdvertiseM :=
  allowed ← AllowedOutPrefixes_DeepCopyInto (AdvM_Allowed in_);
  localPrefs ← copySlice LocalPrefPrefixes_DeepCopyInto (AdvM_PrefixesWithLocalPref in_);
  communities ← copySlice CommunityPrefixes_DeepCopyInto (AdvM_PrefixesWithCommunity in_);
  mret (mkAdvertiseM allowed (AdvM_NextHop in_) localPrefs communities).

Definition Receive_DeepCopyInto (in_ : ReceiveM) : Go ReceiveM :=
  allowed ← AllowedInPrefixes_DeepCopyInto (RecM_Allowed in_);
  mret (mkReceiveM allowed).

Definition Neighbor_DeepCopyInto (in_ : NeighborM) : Go NeighborM :=
  port ← copyPtr copyValue (NM_Port in_);
  holdTime ← copyPtr copyValue (NM_HoldTime in_);
  keepaliveTime ← copyPtr copyValue (NM_KeepaliveTime in_);
  connectTime ← copyPtr copyValue (NM_ConnectTime in_);
  toAdvertise ← Advertise_DeepCopyInto (NM_ToAdvertise in_);
  toReceive ← Receive_DeepCopyInto (NM_ToReceive in_);
  addressFamilies ← copyElements (NM_AddressFamilies in_);
  mret (mkNeighborM (NM_ASN in_) (NM_DynamicASN in_) (NM_SourceAddress in_) (NM_Address in_) (NM_Interface in_) port
    (NM_Password in_) (NM_PasswordSecret in_) holdTime keepaliveTime connectTime (NM_EBGPMultiHop in_)
    (NM_BFDProfile in_) (NM_EnableGracefulRestart in_) toAdvertise toReceive (NM_DisableMP in_)
    (NM_DualStackAddressFamily in_) (NM_LocalASN in_) addressFamilies).

Definition VNIProperties_DeepCopyInto (in_ : VNIPropertiesM) : Go VNIPropertiesM :=
  importRTs ← copyElements (VM_ImportRTs in_);
  exportRTs ← copyElements (VM_ExportRTs in_);
  mret (mkVNIPropertiesM (VM_RD in_) importRTs exportRTs).

Definition L2VNI_DeepCopyInto (in_ : L2VNIM) : Go L2VNIM :=
  properties ← VNIProperties_DeepCopyInto (L2M_Properties in_);
  mret (mkL2VNIM (L2M_VNI in_) properties).

Definition L3VNI_DeepCopyInto (in_ : L3VNIM) : Go L3VNIM :=
  properties ← VNIProperties_DeepCopyInto (L3M_Properties in_);
  advertisePrefixes ← copyElements (L3M_AdvertisePrefixes in_);
  mret (mkL3VNIM (L3M_VNI in_) properties advertisePrefixes).

Definition EVPNConfig_DeepCopyInto (in_ : EVPNConfigM) : Go EVPNConfigM :=
  advertiseVNIs ← copyPtr copyValue (EM_AdvertiseVNIs in_);
  l2vnis ← copySlice L2VNI_DeepCopyInto (EM_L2VNIs in_);
  l3vni ← copyPtr L3VNI_DeepCopyInto (EM_L3VNI in_);
  mret (mkEVPNConfigM advertiseVNIs (EM_AdvertiseSVI in_) l2vnis l3vni).

Definition Router_DeepCopyInto (in_ : RouterM) : Go RouterM :=
  neighbors ← copySlice Neighbor_DeepCopyInto (RM_Neighbors in_);
  prefixes ← copyElements (RM_Prefixes in_);
  imports ← copyElements (RM_Imports in_);
  evpn ← copyPtr EVPNConfig_DeepCopyInto (RM_EVPN in_);
  mret (mkRouterM (RM_ASN in_) (RM_ID in_) (RM_VRF in_) neighbors prefixes imports evpn).

Definition BFDProfile_DeepCopyInto (in_ : BFDProfileM) : Go BFDProfileM :=
  receiveInterval ← copyPtr copyValue (BM_ReceiveInterval in_);
  transmitInterval ← copyPtr copyValue (BM_TransmitInterval in_);
  detectMultiplier ← copyPtr copyValue (BM_DetectMultiplier in_);
  echoInterval ← copyPtr copyValue (BM_EchoInterval in_);
  echoMode ← copyPtr copyValue (BM_EchoMode in_);
  passiveMode ← copyPtr copyValue (BM_PassiveMode in_);
  minimumTTL ← copyPtr copyValue (BM_MinimumTTL in_);
  mret (mkBFDProfileM (BM_Name in_) receiveInterval transmitInterval detectMultiplier echoInterval echoMode passiveMode
    minimumTTL).

Definition BGPConfig_DeepCopyInto (in_ : BGPConfigM) : Go BGPConfigM :=
  routers ← copySlice Router_DeepCopyInto (BGPM_Routers in_);
  profiles ← copySlice BFDProfile_DeepCopyInto (BGPM_BFDProfiles in_);
  mret (mkBGPConfigM routers profiles).

Definition FRRConfigurationSpec_DeepCopyInto (in_ : FRRConfigurationSpecM) : Go FRRConfigurationSpecM :=
  bgp ← BGPConfig_DeepCopyInto (SM_BGP in_);
  nodeSelector ← LabelSelector_DeepCopyInto (SM_NodeSelector in_);
  mret (mkSpecM bgp (SM_Raw in_) nodeSelector).

Definition FRRConfigurationStatus_DeepCopyInto : unit → Go unit := copyValue.

Definition FRRConfiguration_DeepCopyInto (in_ : FRRConfigurationM) : Go FRRConfigurationM :=
  meta ← ObjectMeta_DeepCopyInto (O_ObjectMeta in_);
  spec ← FRRConfigurationSpec_DeepCopyInto (O_Spec in_);
  mret (mkObject (O_TypeMeta in_) meta spec (O_Status in_)).

Definition FRRConfigurationList_DeepCopyInto (in_ : objects FRRConfigurationM) : Go (objects FRRConfigurationM) :=
  meta ← ListMeta_DeepCopyInto (L_ListMeta in_);
  items ← copySlice FRRConfiguration_DeepCopyInto (L_Items in_);
  mret (mkObjects (L_TypeMeta in_) meta items).

Definition BGPSessionStateSpec_DeepCopyInto : unit → Go unit := copyValue.
Definition BGPSessionStateStatus_DeepCopyInto : BGPSessionStateStatus → Go BGPSessionStateStatus := copyValue.

Definition BGPSessionState_DeepCopyInto (in_ : BGPSessionStateM) : Go BGPSessionStateM :=
  meta ← ObjectMeta_DeepCopyInto (O_ObjectMeta in_);
  mret (mkObject (O_TypeMeta in_) meta (O_Spec in_) (O_Status in_)).

Definition BGPSessionStateList_DeepCopyInto (in_ : objects BGPSessionStateM) : Go (objects BGPSessionStateM) :=
  meta ← ListMeta_DeepCopyInto (L_ListMeta in_);
  items ← copySlice BGPSessionState_DeepCopyInto (L_Items in_);
  mret (mkObjects (L_TypeMeta in_) meta items).

Definition FRRK8sConfigurationSpec_DeepCopyInto : FRRK8sConfigurationSpec → Go FRRK8sConfigurationSpec := copyValue.
Definition FRRK8sConfigurationStatus_DeepCopyInto : unit → Go unit := copyValue.

Definition FRRK8sConfiguration_DeepCopyInto (in_ : FRRK8sConfigurationM) : Go FRRK8sConfigurationM :=
  meta ← ObjectMeta_DeepCopyInto (O_ObjectMeta in_);
  mret (mkObject (O_TypeMeta in_) meta (O_Spec in_) (O_Status in_)).

Definition FRRK8sConfigurationList_DeepCopyInto (in_ : objects FRRK8sConfigurationM)
    : Go (objects FRRK8sConfigurationM) :=
  meta ← ListMeta_DeepCopyInto (L_ListMeta in_);
  items ← copySlice FRRK8sConfiguration_DeepCopyInto (L_Items in_);
  mret (mkObjects (L_TypeMeta in_) meta items).

Definition FRRNodeStateSpec_DeepCopyInto : unit → Go unit := copyValue.
Definition FRRNodeStateStatus_DeepCopyInto : FRRNodeStateStatus → Go FRRNodeStateStatus := copyValue.

Definition FRRNodeState_DeepCopyInto (in_ : FRRNodeStateM) : Go FRRNodeStateM :=
  meta ← ObjectMeta_DeepCopyInto (O_ObjectMeta in_);
  mret (mkObject (O_TypeMeta in_) meta (O_Spec in_) (O_Status in_)).

Definition FRRNodeStateList_DeepCopyInto (in_ : objects FRRNodeStateM) : Go (objects FRRNodeStateM) :=
  meta ← ListMeta_DeepCopyInto (L_ListMeta in_);
  items ← copySlice FRRNodeState_DeepCopyInto (L_Items in_);
  mret (mkObjects (L_TypeMeta in_) meta items).

(** The [DeepCopy] of every type, and the [DeepCopyObject] of the resources. *)
Definition Advertise_DeepCopy : ptr AdvertiseM → Go (ptr AdvertiseM) := DeepCopy Advertise_DeepCopyInto.
Definition AllowedInPrefixes_DeepCopy : ptr AllowedInPrefixesM → Go (ptr AllowedInPrefixesM) := DeepCopy AllowedInPrefixes_DeepCopyInto.
Definition AllowedOutPrefixes_DeepCopy : ptr AllowedOutPrefixesM → Go (ptr AllowedOutPrefixesM) := DeepCopy AllowedOutPrefixes_DeepCopyInto.
Definition BFDProfile_DeepCopy : ptr BFDProfileM → Go (ptr BFDProfileM) := DeepCopy BFDProfile_DeepCopyInto.
Definition BGPConfig_DeepCopy : ptr BGPConfigM → Go (ptr BGPConfigM) := DeepCopy BGPConfig_DeepCopyInto.
Definition BGPSessionState_DeepCopy : ptr BGPSessionStateM → Go (ptr BGPSessionStateM) := DeepCopy BGPSessionState_DeepCopyInto.
Definition BGPSessionStateList_DeepCopy : ptr (objects BGPSessionStateM) → Go (ptr (objects BGPSessionStateM)) :=
  DeepCopy BGPSessionStateList_DeepCopyInto.
Definition BGPSessionStateSpec_DeepCopy : ptr unit → Go (ptr unit) := DeepCopy BGPSessionStateSpec_DeepCopyInto.
Definition BGPSessionStateStatus_DeepCopy : ptr BGPSessionStateStatus → Go (ptr BGPSessionStateStatus) :=
  DeepCopy BGPSessionStateStatus_DeepCopyInto.
Definition CommunityPrefixes_DeepCopy : ptr CommunityPrefixesM → Go (ptr CommunityPrefixesM) := DeepCopy CommunityPrefixes_DeepCopyInto.
Definition EVPNConfig_DeepCopy : ptr EVPNConfigM → Go (ptr EVPNConfigM) := DeepCopy EVPNConfig_DeepCopyInto.
Definition FRRConfiguration_DeepCopy : ptr FRRConfigurationM → Go (ptr FRRConfigurationM) := DeepCopy FRRConfiguration_DeepCopyInto.
Definition FRRConfigurationList_DeepCopy : ptr (objects FRRConfigurationM) → Go (ptr (objects FRRConfigurationM)) :=
  DeepCopy FRRConfigurationList_DeepCopyInto.
Definition FRRConfigurationSpec_DeepCopy : ptr FRRConfigurationSpecM → Go (ptr FRRConfigurationSpecM) :=
  DeepCopy FRRConfigurationSpec_DeepCopyInto.
Definition FRRConfigurationStatus_DeepCopy : ptr unit → Go (ptr unit) := DeepCopy FRRConfigurationStatus_DeepCopyInto.
Definition FRRK8sConfiguration_DeepCopy : ptr FRRK8sConfigurationM → Go (ptr FRRK8sConfigurationM) := DeepCopy FRRK8sConfiguration_DeepCopyInto.
Definition FRRK8sConfigurationList_DeepCopy : ptr (objects FRRK8sConfigurationM) → Go (ptr (objects FRRK8sConfigurationM)) :=
  DeepCopy FRRK8sConfigurationList_DeepCopyInto.
Definition FRRK8sConfigurationSpec_DeepCopy : ptr FRRK8sConfigurationSpec → Go (ptr FRRK8sConfigurationSpec) :=
  DeepCopy FRRK8sConfigurationSpec_DeepCopyInto.
Definition FRRK8sConfigurationStatus_DeepCopy : ptr unit → Go (ptr unit) := DeepCopy FRRK8sConfigurationStatus_DeepCopyInto.
Definition FRRNodeState_DeepCopy : ptr FRRNodeStateM → Go (ptr FRRNodeStateM) := DeepCopy FRRNodeState_DeepCopyInto.
Definition FRRNodeStateList_DeepCopy : ptr (objects FRRNodeStateM) → Go (ptr (objects FRRNodeStateM)) := DeepCopy FRRNodeStateList_DeepCopyInto.
Definition FRRNodeStateSpec_DeepCopy : ptr unit → Go (ptr unit) := DeepCopy FRRNodeStateSpec_DeepCopyInto.
Definition FRRNodeStateStatus_DeepCopy : ptr FRRNodeStateStatus → Go (ptr FRRNodeStateStatus) := DeepCopy FRRNodeStateStatus_DeepCopyInto.
Definition Import_DeepCopy : ptr Import → Go (ptr Import) := DeepCopy Import_DeepCopyInto.
Definition L2VNI_DeepCopy : ptr L2VNIM → Go (ptr L2VNIM) := DeepCopy L2VNI_DeepCopyInto.
Definition L3VNI_DeepCopy : ptr L3VNIM → Go (ptr L3VNIM) := DeepCopy L3VNI_DeepCopyInto.
Definition LocalPrefPrefixes_DeepCopy : ptr LocalPrefPrefixesM → Go (ptr LocalPrefPrefixesM) := DeepCopy LocalPrefPrefixes_DeepCopyInto.
Definition Neighbor_DeepCopy : ptr NeighborM → Go (ptr NeighborM) := DeepCopy Neighbor_DeepCopyInto.
Definition NextHop_DeepCopy : ptr NextHop → Go (ptr NextHop) := DeepCopy NextHop_DeepCopyInto.
Definition PrefixSelector_DeepCopy : ptr PrefixSelector → Go (ptr PrefixSelector) := DeepCopy PrefixSelector_DeepCopyInto.
Definition RawConfig_DeepCopy : ptr RawConfig → Go (ptr RawConfig) := DeepCopy RawConfig_DeepCopyInto.
Definition Receive_DeepCopy : ptr ReceiveM → Go (ptr ReceiveM) := DeepCopy Receive_DeepCopyInto.
Definition Router_DeepCopy : ptr RouterM → Go (ptr RouterM) := DeepCopy Router_DeepCopyInto.
Definition SecretReference_DeepCopy : ptr SecretReference → Go (ptr SecretReference) := DeepCopy SecretReference_DeepCopyInto.
Definition VNIProperties_DeepCopy : ptr VNIPropertiesM → Go (ptr VNIPropertiesM) := DeepCopy VNIProperties_DeepCopyInto.
Definition BGPSessionState_DeepCopyObject := DeepCopyObject BGPSessionState_DeepCopy.
Definition BGPSessionStateList_DeepCopyObject := DeepCopyObject BGPSessionStateList_DeepCopy.
Definition FRRConfiguration_DeepCopyObject := DeepCopyObject FRRConfiguration_DeepCopy.
Definition FRRConfigurationList_DeepCopyObject := DeepCopyObject FRRConfigurationList_DeepCopy.
Definition FRRK8sConfiguration_DeepCopyObject := DeepCopyObject FRRK8sConfiguration_DeepCopy.
Definition FRRK8sConfigurationList_DeepCopyObject := DeepCopyObject FRRK8sConfigurationList_DeepCopy.
Definition FRRNodeState_DeepCopyObject := DeepCopyObject FRRNodeState_DeepCopy.
Definition FRRNodeStateList_DeepCopyObject := DeepCopyObject FRRNodeStateList_DeepCopy.
End generated.
