(* ===== verification/DeepCopyProps.v ===== *)
(** * Deep copies are deep

    Every generated [DeepCopyInto] copies: the result holds the same value in cells that are all new, and nothing that
    was in memory changes.  The proofs follow the types: a struct is copied when its fields are. *)

From Stdlib Require Import Lia.
From S2P Require Import Prelude GoStrings GoNet IPFamily Community Api FrrConfig Errors.
From S2P Require Import Merge ApiToConfig Logging Reconciler StateControllers Json Parse SessionState Store DeepCopy.

(** Copying the fields of a struct one after the other is copying them as a tuple. *)
Ltac head_of f := lazymatch f with ?g _ => head_of g | _ => f end.
Ltac same_steps :=
  intros m h;
  lazymatch goal with |- ?f m h = _ => let g := head_of f in try unfold g | _ => idtac end;
  unfold copyPair, mbind, Go_bind, mret, Go_ret; cbn;
  repeat match goal with
  | |- context [match ?f ?x ?h with Some _ => _ | None => _ end] => destruct (f x h) as [[]|]; cbn; [|reflexivity]
  end; reflexivity.

Ltac split_tuples := repeat match goal with t : _ * _ |- _ => destruct t end; reflexivity.

(** [copy_struct fields value build f]: a struct whose fields [f] copies. *)
Ltac copy_struct fields value build f :=
  refine (copies_ext _ _ _ _ (copies_struct fields value build f _ _ _));
  [ same_steps | intros; split_tuples | intros; split_tuples | ].

Section laws.
Context `{AM : Apimachinery}.

#[global] Instance view_gomap_laws : ViewLaws view_gomap.
Proof.
  split.
  - intros h [[p|]] v L H q Hq; [|injection H as <- <-; by apply elem_of_nil in Hq].
    unfold view, view_gomap in H. destruct (h !! p) as [[]|] eqn:E; try done. injection H as <- <-.
    apply list_elem_of_singleton in Hq as ->. by rewrite E.
  - intros h h' [[p|]] v L H Hf; [|done]. unfold view, view_gomap in *.
    destruct (h !! p) as [[]|] eqn:E; try done. injection H as <- <-.
    by rewrite (Hf p), E by set_solver.
Qed.
#[global] Instance view_AllowedIn_laws : ViewLaws view_AllowedIn.
Proof. apply view_struct_laws, _. Qed.
#[global] Instance view_AllowedOut_laws : ViewLaws view_AllowedOut.
Proof. apply view_struct_laws, _. Qed.
#[global] Instance view_LocalPref_laws : ViewLaws view_LocalPref.
Proof. apply view_struct_laws, _. Qed.
#[global] Instance view_Community_laws : ViewLaws view_Community.
Proof. apply view_struct_laws, _. Qed.
#[global] Instance view_Advertise_laws : ViewLaws view_Advertise.
Proof. apply view_struct_laws, _. Qed.
#[global] Instance view_Receive_laws : ViewLaws view_Receive.
Proof. apply view_struct_laws, _. Qed.
#[global] Instance view_Neighbor_laws : ViewLaws view_Neighbor.
Proof. apply view_struct_laws, _. Qed.
#[global] Instance view_VNIProperties_laws : ViewLaws view_VNIProperties.
Proof. apply view_struct_laws, _. Qed.
#[global] Instance view_L2VNI_laws : ViewLaws view_L2VNI.
Proof. apply view_struct_laws, _. Qed.
#[global] Instance view_L3VNI_laws : ViewLaws view_L3VNI.
Proof. apply view_struct_laws, _. Qed.
#[global] Instance view_EVPNConfig_laws : ViewLaws view_EVPNConfig.
Proof. apply view_struct_laws, _. Qed.
#[global] Instance view_Router_laws : ViewLaws view_Router.
Proof. apply view_struct_laws, _. Qed.
#[global] Instance view_BFDProfile_laws : ViewLaws view_BFDProfile.
Proof. apply view_struct_laws, _. Qed.
#[global] Instance view_BGPConfig_laws : ViewLaws view_BGPConfig.
Proof. apply view_struct_laws, _. Qed.

Context `{AC : !ApimachineryCopies}.
#[global] Instance view_ObjectMeta_laws : ViewLaws view_ObjectMeta.
Proof. apply view_struct_laws, _. Qed.
#[global] Instance view_Spec_laws : ViewLaws view_Spec.
Proof. apply view_struct_laws, _. Qed.
#[global] Instance view_Config_laws : ViewLaws view_Config.
Proof. apply view_struct_laws, _. Qed.
#[global] Instance view_object_laws {S T} : ViewLaws (view_object (S:=S) (T:=T)).
Proof. apply view_struct_laws, _. Qed.
#[global] Instance view_SessionState_laws : ViewLaws view_SessionState := view_object_laws.
#[global] Instance view_K8sConfig_laws : ViewLaws view_K8sConfig := view_object_laws.
#[global] Instance view_NodeState_laws : ViewLaws view_NodeState := view_object_laws.
#[global] Instance view_objects_laws {I V} `{!Stored cell I, W : !View cell I V} `{!ViewLaws W} :
  ViewLaws (view_objects (I:=I) (V:=V)).
Proof. apply view_struct_laws, _. Qed.
End laws.

(** ** Every type *)

Create HintDb copies discriminated.
#[export] Hint Resolve copies_value copies_elements copies_slice copies_ptr copies_pair : copies.
#[export] Hint Extern 1 (ViewLaws _) => apply _ : copies.
#[export] Hint Extern 1 (Plain _) => apply _ : copies.

Section every_type.
Context `{AM : Apimachinery}.

Lemma AllowedIn_copies : copies view_AllowedIn AllowedInPrefixes_DeepCopyInto.
Proof.
  copy_struct AllowedIn_fields AllowedIn_value (λ m t, mkAllowedInPrefixesM t (AIM_Mode m))
    (@copyElements cell PrefixSelector _). eauto 10 with copies.
Qed.
Lemma AllowedOut_copies : copies view_AllowedOut AllowedOutPrefixes_DeepCopyInto.
Proof.
  copy_struct AllowedOut_fields AllowedOut_value (λ m t, mkAllowedOutPrefixesM t (AOM_Mode m))
    (@copyElements cell string _). eauto 10 with copies.
Qed.
Lemma LocalPref_copies : copies view_LocalPref LocalPrefPrefixes_DeepCopyInto.
Proof.
  copy_struct LocalPref_fields LocalPref_value (λ m t, mkLocalPrefPrefixesM t (LPM_LocalPref m))
    (@copyElements cell string _). eauto 10 with copies.
Qed.
Lemma Community_copies : copies view_Community CommunityPrefixes_DeepCopyInto.
Proof.
  copy_struct Community_fields Community_value (λ m t, mkCommunityPrefixesM t (CPM_Community m))
    (@copyElements cell string _). eauto 10 with copies.
Qed.
#[local] Hint Resolve AllowedIn_copies AllowedOut_copies LocalPref_copies Community_copies : copies.

Lemma Advertise_copies : copies view_Advertise Advertise_DeepCopyInto.
Proof.
  copy_struct Advertise_fields Advertise_value (λ m t, mkAdvertiseM t.1.1 (AdvM_NextHop m) t.1.2 t.2)
    (AllowedOutPrefixes_DeepCopyInto ⊗ copySlice LocalPrefPrefixes_DeepCopyInto ⊗
     copySlice CommunityPrefixes_DeepCopyInto). eauto 10 with copies.
Qed.
Lemma Receive_copies : copies view_Receive Receive_DeepCopyInto.
Proof.
  copy_struct Receive_fields Receive_value (λ (_ : ReceiveM) t, mkReceiveM t) AllowedInPrefixes_DeepCopyInto.
  eauto 10 with copies.
Qed.
#[local] Hint Resolve Advertise_copies Receive_copies : copies.

Lemma Neighbor_copies : copies view_Neighbor Neighbor_DeepCopyInto.
Proof.
  copy_struct Neighbor_fields Neighbor_value
    (λ m t, let '(port, hold, keep, conn, adv, rec, fams) := t in
      mkNeighborM (NM_ASN m) (NM_DynamicASN m) (NM_SourceAddress m) (NM_Address m) (NM_Interface m) port
        (NM_Password m) (NM_PasswordSecret m) hold keep conn (NM_EBGPMultiHop m) (NM_BFDProfile m)
        (NM_EnableGracefulRestart m) adv rec (NM_DisableMP m) (NM_DualStackAddressFamily m) (NM_LocalASN m) fams)
    (copyPtr (T:=N) copyValue ⊗ copyPtr (T:=Duration) copyValue ⊗ copyPtr (T:=Duration) copyValue ⊗ copyPtr (T:=Duration) copyValue ⊗
     Advertise_DeepCopyInto ⊗ Receive_DeepCopyInto ⊗ copyElements (T:=AddressFamily)). eauto 14 with copies.
Qed.
Lemma VNIProperties_copies : copies view_VNIProperties VNIProperties_DeepCopyInto.
Proof.
  copy_struct VNIProperties_fields VNIProperties_value (λ m t, mkVNIPropertiesM (VM_RD m) t.1 t.2)
    (copyElements (T:=string) ⊗ copyElements (T:=string)). eauto 10 with copies.
Qed.
#[local] Hint Resolve Neighbor_copies VNIProperties_copies : copies.

Lemma L2VNI_copies : copies view_L2VNI L2VNI_DeepCopyInto.
Proof.
  copy_struct L2VNI_fields L2VNI_value (λ m t, mkL2VNIM (L2M_VNI m) t) VNIProperties_DeepCopyInto. eauto 10 with copies.
Qed.
Lemma L3VNI_copies : copies view_L3VNI L3VNI_DeepCopyInto.
Proof.
  copy_struct L3VNI_fields L3VNI_value (λ m t, mkL3VNIM (L3M_VNI m) t.1 t.2)
    (VNIProperties_DeepCopyInto ⊗ copyElements (T:=AdvertisePrefixType)). eauto 10 with copies.
Qed.
#[local] Hint Resolve L2VNI_copies L3VNI_copies : copies.

Lemma EVPNConfig_copies : copies view_EVPNConfig EVPNConfig_DeepCopyInto.
Proof.
  copy_struct EVPNConfig_fields EVPNConfig_value (λ m t, mkEVPNConfigM t.1.1 (EM_AdvertiseSVI m) t.1.2 t.2)
    (copyPtr (T:=VNIAdvertisement) copyValue ⊗ copySlice L2VNI_DeepCopyInto ⊗ copyPtr L3VNI_DeepCopyInto).
  eauto 10 with copies.
Qed.
#[local] Hint Resolve EVPNConfig_copies : copies.

Lemma Router_copies : copies view_Router Router_DeepCopyInto.
Proof.
  copy_struct Router_fields Router_value
    (λ m t, let '(ns, ps, imps, evpn) := t in mkRouterM (RM_ASN m) (RM_ID m) (RM_VRF m) ns ps imps evpn)
    (copySlice Neighbor_DeepCopyInto ⊗ copyElements (T:=string) ⊗ copyElements (T:=Import) ⊗
     copyPtr EVPNConfig_DeepCopyInto). eauto 10 with copies.
Qed.
Lemma BFDProfile_copies : copies view_BFDProfile BFDProfile_DeepCopyInto.
Proof.
  copy_struct BFDProfile_fields BFDProfile_value
    (λ m t, let '(rx, tx, mult, echo, mode, passive, ttl) := t in
      mkBFDProfileM (BM_Name m) rx tx mult echo mode passive ttl)
    (copyPtr (T:=N) copyValue ⊗ copyPtr (T:=N) copyValue ⊗ copyPtr (T:=N) copyValue ⊗ copyPtr (T:=N) copyValue ⊗
     copyPtr (T:=bool) copyValue ⊗ copyPtr (T:=bool) copyValue ⊗ copyPtr (T:=N) copyValue). eauto 14 with copies.
Qed.
#[local] Hint Resolve Router_copies BFDProfile_copies : copies.

Lemma BGPConfig_copies : copies view_BGPConfig BGPConfig_DeepCopyInto.
Proof.
  copy_struct BGPConfig_fields BGPConfig_value (λ (_ : BGPConfigM) t, mkBGPConfigM t.1 t.2)
    (copySlice Router_DeepCopyInto ⊗ copySlice BFDProfile_DeepCopyInto). eauto 10 with copies.
Qed.
#[local] Hint Resolve BGPConfig_copies : copies.

Context `{AC : !ApimachineryCopies}.
#[local] Hint Resolve ObjectMeta_copies ListMeta_copies LabelSelector_copies : copies.

Lemma Meta_copies : copies view_ObjectMeta ObjectMeta_DeepCopyInto.
Proof. exact ObjectMeta_copies. Qed.
#[local] Hint Resolve Meta_copies : copies.

Lemma Spec_copies : copies view_Spec FRRConfigurationSpec_DeepCopyInto.
Proof.
  copy_struct Spec_fields Spec_value (λ m t, mkSpecM t.1 (SM_Raw m) t.2)
    (BGPConfig_DeepCopyInto ⊗ LabelSelector_DeepCopyInto). eauto 10 with copies.
Qed.
#[local] Hint Resolve Spec_copies : copies.

Lemma Config_copies : copies view_Config FRRConfiguration_DeepCopyInto.
Proof.
  copy_struct Config_fields Config_value
    (λ (m : FRRConfigurationM) t, mkObject (S:=FRRConfigurationSpecM) (T:=unit) (O_TypeMeta m) t.1 t.2 (O_Status m))
    (ObjectMeta_DeepCopyInto ⊗ FRRConfigurationSpec_DeepCopyInto). eauto 10 with copies.
Qed.

(** The other kinds have the same functions. *)
Lemma object_copies {S T} : copies (view_object (S:=S) (T:=T)) (λ in_,
  meta ← ObjectMeta_DeepCopyInto (O_ObjectMeta in_); mret (mkObject (O_TypeMeta in_) meta (O_Spec in_) (O_Status in_))).
Proof.
  copy_struct (object_fields (S:=S) (T:=T)) (object_value (S:=S) (T:=T))
    (λ (m : object S T) t, mkObject (O_TypeMeta m) t (O_Spec m) (O_Status m)) ObjectMeta_DeepCopyInto. eauto 10 with copies.
Qed.
Lemma objects_copies {I V} `{!Stored cell I, W : !View cell I V} `{!ViewLaws W} (f : I → Go cell I) :
  copies W f → copies (view_objects (I:=I) (V:=V)) (λ in_,
    meta ← ListMeta_DeepCopyInto (L_ListMeta in_); items ← copySlice f (L_Items in_);
    mret (mkObjects (L_TypeMeta in_) meta items)).
Proof.
  intros Hf. copy_struct (objects_fields (I:=I)) (objects_value (I:=I) (V:=V))
    (λ (m : objects I) t, mkObjects (I:=I) (L_TypeMeta m) t.1 t.2) (ListMeta_DeepCopyInto ⊗ copySlice f).
  eauto 10 with copies.
Qed.

Lemma SessionState_copies : copies view_SessionState BGPSessionState_DeepCopyInto.
Proof. apply object_copies. Qed.
Lemma K8sConfig_copies : copies view_K8sConfig FRRK8sConfiguration_DeepCopyInto.
Proof. apply object_copies. Qed.
Lemma NodeState_copies : copies view_NodeState FRRNodeState_DeepCopyInto.
Proof. apply object_copies. Qed.
#[local] Hint Resolve Config_copies SessionState_copies K8sConfig_copies NodeState_copies : copies.

Lemma ConfigList_copies : copies (view_objects (I:=FRRConfigurationM)) FRRConfigurationList_DeepCopyInto.
Proof. apply objects_copies, Config_copies. Qed.
Lemma SessionStateList_copies : copies (view_objects (I:=BGPSessionStateM)) BGPSessionStateList_DeepCopyInto.
Proof. apply objects_copies, SessionState_copies. Qed.
Lemma K8sConfigList_copies : copies (view_objects (I:=FRRK8sConfigurationM)) FRRK8sConfigurationList_DeepCopyInto.
Proof. apply objects_copies, K8sConfig_copies. Qed.
Lemma NodeStateList_copies : copies (view_objects (I:=FRRNodeStateM)) FRRNodeStateList_DeepCopyInto.
Proof. apply objects_copies, NodeState_copies. Qed.
#[local] Hint Resolve ConfigList_copies SessionStateList_copies K8sConfigList_copies NodeStateList_copies : copies.
End every_type.
#[export] Hint Resolve AllowedIn_copies AllowedOut_copies LocalPref_copies Community_copies Advertise_copies
  Receive_copies Neighbor_copies VNIProperties_copies L2VNI_copies L3VNI_copies EVPNConfig_copies
  Router_copies BFDProfile_copies BGPConfig_copies ObjectMeta_copies ListMeta_copies LabelSelector_copies
  Meta_copies Spec_copies Config_copies SessionState_copies K8sConfig_copies NodeState_copies
  ConfigList_copies SessionStateList_copies K8sConfigList_copies NodeStateList_copies : copies.
