(* ===== verification/InPlace.v ===== *)
(** * Updates in place ([internal/controller/dump.go], [internal/controller/validate.go])

    [sanitizedConfig] masks the passwords of a deep copy, and [resetSecrets] drops the secret references of the
    resources it is given, both by assigning to the neighbors where they are in memory.  Here they run on the
    store; the functions of [Reconciler.v] on values are what they compute. *)

From Stdlib Require Import Lia.
From S2P Require Import Prelude GoStrings GoNet IPFamily Community Api FrrConfig Errors.
From S2P Require Import Merge ApiToConfig Logging Reconciler Webhook StateControllers Json Parse SessionState Store.
From S2P Require Import DeepCopy DeepCopyProps.

(** ** The code *)

Section code.
Context `{AM : Apimachinery}.
Notation Go := (Go cell).

(** [for _, x := range s { body(x) }]. *)
Definition rangeSlice {T} `{!Stored cell T} (s : slice T) (body : T → Go unit) : Go unit :=
  match s with
  | Slice None => mret ()
  | Slice (Some p) => l ← elements (T:=T) p; forRange (length l) 0 (λ i, x ← index p i; body x)
  end.

(** The same over the structs of an array that is not assigned to. *)
Fixpoint rangeList {T} (l : list T) (body : T → Go unit) : Go unit :=
  match l with [] => mret () | x :: l => _ ← body x; rangeList l body end.

(** [for i := range r.Neighbors { r.Neighbors[i] = f(r.Neighbors[i]) }], for every router. *)
Definition assignNeighbors (f : NeighborM → NeighborM) (r : RouterM) : Go unit :=
  match RM_Neighbors r with
  | Slice None => mret ()
  | Slice (Some p) => l ← elements (T:=NeighborM) p; forRange (length l) 0 (λ i, n ← index p i; assign p i (f n))
  end.
Definition assignConfig (f : NeighborM → NeighborM) (c : FRRConfigurationM) : Go unit :=
  rangeSlice (BGPM_Routers (SM_BGP (O_Spec c))) (assignNeighbors f).

Definition withCredentialsM (password : string) (secret : SecretReference) (n : NeighborM) : NeighborM :=
  mkNeighborM (NM_ASN n) (NM_DynamicASN n) (NM_SourceAddress n) (NM_Address n) (NM_Interface n) (NM_Port n)
    password secret (NM_HoldTime n) (NM_KeepaliveTime n) (NM_ConnectTime n) (NM_EBGPMultiHop n) (NM_BFDProfile n)
    (NM_EnableGracefulRestart n) (NM_ToAdvertise n) (NM_ToReceive n) (NM_DisableMP n) (NM_DualStackAddressFamily n)
    (NM_LocalASN n) (NM_AddressFamilies n).
Definition maskPassword (n : NeighborM) : NeighborM := withCredentialsM retracted (NM_PasswordSecret n) n.
Definition dropSecret (n : NeighborM) : NeighborM := withCredentialsM (NM_Password n) (mkSecretReference "" "") n.

(** [delete(m, k)]. *)
Definition deleteKey (m : gomap) (k : string) : Go unit := λ h,
  match m with
  | GoMap None => Some ((), h)
  | GoMap (Some p) => match h !! p with Some (CMap kv) => Some ((), <[p := CMap (delete k kv)]> h) | _ => None end
  end.

(** [sanitizedConfig]: its argument is a struct of its own, whose references are the caller's. *)
Definition sanitizedConfigM `{!ApimachineryCopies} (c : FRRConfigurationM) : Go FRRConfigurationM :=
  p ← new (toCell [c]);
  res ← FRRConfiguration_DeepCopy (Ptr (Some p));
  match res with
  | Ptr None => panic
  | Ptr (Some q) =>
      r ← index q 0;
      _ ← assignConfig maskPassword r;
      _ ← deleteKey (OM_Annotations (O_ObjectMeta r)) lastAppliedAnnotation;
      index q 0
  end.

Definition resetSecretsM (cfgs : list FRRConfigurationM) : Go unit := rangeList cfgs (assignConfig dropSecret).

(** The values of the resources, as [apiToFRR] reads them. *)
Definition readConfigs `{!ApimachineryCopies} (cfgs : list FRRConfigurationM) : Go (list FRRConfiguration) := λ h,
  match view_elements h cfgs with Some (vs, _) => Some (vs.*1, h) | None => None end.

(** [Validate] of one list, and the loop of [validateConfig] over the nodes: the lists of the nodes hold copies of
    the same structs, which share their arrays. *)
Definition ValidateM `{!ApimachineryCopies} (cfgs : list FRRConfigurationM) : Go (res unit) :=
  _ ← resetSecretsM cfgs;
  values ← readConfigs cfgs;
  mret (_ ← apiToFRR (mkClusterResources values ∅) []; Ok ()).
Fixpoint validateNodesM `{!ApimachineryCopies} (nodes : list (string * list FRRConfigurationM))
    : Go (result werror unit) :=
  match nodes with
  | [] => mret (Ok ())
  | (name, cfgs) :: nodes =>
      r ← ValidateM cfgs;
      match r with
      | Ok _ => validateNodesM nodes
      | Err e => mret (Err (EInvalidForNode name e))
      end
  end.
End code.

(** ** The neighbors of some arrays, all updated *)

Section mapped.
Context `{AM : Apimachinery}.

Definition mapCell (f : NeighborM → NeighborM) (c : cell) : cell :=
  match c with CNeighbors l => CNeighbors (f <$> l) | c => c end.
Definition mapAt (f : NeighborM → NeighborM) (S : gset address) (h : memory cell) : memory cell :=
  map_imap (λ a c, Some (if decide (a ∈ S) then mapCell f c else c)) h.

Lemma lookup_mapAt f S h a :
  mapAt f S h !! a = (λ c, if decide (a ∈ S) then mapCell f c else c) <$> h !! a.
Proof. unfold mapAt. rewrite map_lookup_imap. by destruct (h !! a). Qed.

Lemma mapAt_empty f h : mapAt f ∅ h = h.
Proof.
  apply map_eq. intros a. rewrite lookup_mapAt. destruct (h !! a); [|done]. cbn. by rewrite decide_False by set_solver.
Qed.

(** Updating an array again changes nothing. *)
Lemma mapAt_mapAt f S T h : (∀ n, f (f n) = f n) → mapAt f T (mapAt f S h) = mapAt f (T ∪ S) h.
Proof.
  intros Hf. apply map_eq. intros a. rewrite !lookup_mapAt. destruct (h !! a) as [c|]; [|done]. cbn. f_equal.
  destruct (decide (a ∈ T)), (decide (a ∈ S)), (decide (a ∈ T ∪ S)); try set_solver.
  destruct c; cbn; try done. rewrite <-list_fmap_compose. f_equal. apply list_fmap_ext. intros ? x _. apply Hf.
Qed.

(** ** Views that do not reach neighbors *)

Definition no_neighbors (c : cell) : Prop := match c with CNeighbors _ => False | _ => True end.

Class Elsewhere {M V} (W : View cell M V) : Prop :=
  elsewhere h (m : M) (v : V) L : view h m = Some (v, L) → ∀ p, p ∈ L → ∃ c, h !! p = Some c ∧ no_neighbors c.
Class NoNeighbors (M : Type) `{!Stored cell M} : Prop :=
  cells_no_neighbors c (l : list M) : ofCell c = Some l → no_neighbors c.

Lemma view_unmapped {M V} `{W : !View cell M V, !ViewLaws W, !Elsewhere W} f S h (m : M) (v : V) L :
  view h m = Some (v, L) → view (mapAt f S h) m = Some (v, L).
Proof.
  intros Hv. eapply view_frame; [done|]. intros p Hp. destruct (elsewhere _ _ _ _ Hv p Hp) as (c & Hc & Hk).
  rewrite lookup_mapAt, Hc. cbn. by destruct c, (decide (p ∈ S)).
Qed.

#[global] Instance elsewhere_plain {T} `{!Plain T} : Elsewhere (view_plain (T:=T)).
Proof. intros h m v L [= <- <-] p []%elem_of_nil. Qed.
#[global] Instance elsewhere_pair {M1 M2 V1 V2} `{W1 : !View cell M1 V1, W2 : !View cell M2 V2}
    `{!Elsewhere W1, !Elsewhere W2} : Elsewhere (view_pair (M1:=M1) (M2:=M2)).
Proof.
  intros h [m1 m2] v L (v1 & v2 & L1 & L2 & H1 & H2 & -> & ->)%view_pair_Some p [Hp|Hp]%elem_of_app.
  - by eapply (elsewhere h m1).
  - by eapply (elsewhere h m2).
Qed.

Lemma cell_elsewhere {M} `{!Stored cell M, !NoNeighbors M} (h : memory cell) p (ms : list M) :
  h !! p ≫= ofCell = Some ms → ∃ c, h !! p = Some c ∧ no_neighbors c.
Proof. intros (c & Hc & Ho)%bind_Some. exists c. split; [done|]. by eapply cells_no_neighbors. Qed.

Lemma elements_elsewhere {M V} `{W : !View cell M V, !Elsewhere W} h (ms : list M) (vs : list V) L :
  view_elements h ms = Some (vs, L) → ∀ p, p ∈ L → ∃ c, h !! p = Some c ∧ no_neighbors c.
Proof.
  revert vs L. induction ms as [|m ms IH]; intros vs L; [intros [= <- <-] p []%elem_of_nil|].
  intros (v & vs' & L1 & L2 & H1 & H2 & -> & ->)%view_elements_cons p [Hp|Hp]%elem_of_app.
  - by eapply (elsewhere h m).
  - by eapply IH.
Qed.

#[global] Instance elsewhere_slice {M V} `{!Stored cell M, W : !View cell M V, !NoNeighbors M, !Elsewhere W} :
  Elsewhere (view_slice (M:=M) (V:=V)).
Proof.
  intros h [[p|]] v L H q Hq; [|injection H as <- <-; by apply elem_of_nil in Hq].
  apply view_slice_Some in H as (ms & L' & Hp & Hv & ->).
  apply elem_of_cons in Hq as [->|Hq]; [by eapply cell_elsewhere|by eapply elements_elsewhere].
Qed.
#[global] Instance elsewhere_ptr {M V} `{!Stored cell M, W : !View cell M V, !NoNeighbors M, !Elsewhere W} :
  Elsewhere (view_ptr (M:=M) (V:=V)).
Proof.
  intros h [[p|]] v L H q Hq; [|injection H as <- <-; by apply elem_of_nil in Hq].
  apply view_ptr_Some in H as (m & w & L' & Hp & Hv & -> & ->).
  apply elem_of_cons in Hq as [->|Hq]; [by eapply cell_elsewhere|by eapply (elsewhere h m)].
Qed.
Lemma elsewhere_struct {M T V TV} `{W : !View cell T TV} (fields : M → T) (value : M → TV → V) :
  Elsewhere W → Elsewhere (view_struct (TV:=TV) fields value).
Proof. intros HW h m v L ([t L'] & Ht & [= <- <-])%bind_Some. by eapply elsewhere. Qed.

#[global] Instance elsewhere_gomap : Elsewhere view_gomap.
Proof.
  intros h [[p|]] v L H q Hq; [|injection H as <- <-; by apply elem_of_nil in Hq].
  unfold view, view_gomap in H. destruct (h !! p) as [[]|] eqn:E; try done. injection H as <- <-.
  apply list_elem_of_singleton in Hq as ->. by rewrite E; eexists.
Qed.
End mapped.

(** By the constructors of cells. *)
#[export] Hint Extern 1 (NoNeighbors _) => (intros []; done) : typeclass_instances.
#[export] Hint Extern 3 (Elsewhere _) => (apply elsewhere_struct, _) : typeclass_instances.

(** ** What an update makes of a resource *)

Section effects.
Context `{AM : Apimachinery} `{AC : !ApimachineryCopies}.

#[global] Instance elsewhere_LabelSelector : Elsewhere view_LabelSelector.
Proof.
  intros h m v L Hv p Hp. destruct (LabelSelector_cells _ _ _ _ Hv p Hp) as (c & Hc & Ho).
  exists c. split; [done|]. by destruct c.
Qed.
#[global] Instance elsewhere_MetaRest : Elsewhere view_MetaRest.
Proof.
  intros h m v L Hv p Hp. destruct (MetaRest_cells _ _ _ _ Hv p Hp) as (c & Hc & Ho).
  exists c. split; [done|]. by destruct c.
Qed.

(** The arrays of neighbors of a resource. *)
Definition array_of (r : RouterM) : gset address :=
  match RM_Neighbors r with Slice (Some p) => {[p]} | Slice None => ∅ end.
Definition arrays_of (rs : list RouterM) : gset address := ⋃ (array_of <$> rs).
Definition arrays (h : memory cell) (c : FRRConfigurationM) : gset address :=
  match BGPM_Routers (SM_BGP (O_Spec c)) with
  | Slice (Some p) => match h !! p ≫= ofCell with Some rs => arrays_of rs | None => ∅ end
  | Slice None => ∅
  end.

Lemma arrays_of_snoc rs r : arrays_of (rs ++ [r]) = array_of r ∪ arrays_of rs.
Proof. unfold arrays_of. rewrite fmap_app, union_list_app_L. cbn. set_solver. Qed.

(** [f] assigns to fields without references; [g] is the same on values. *)
Context (f : NeighborM → NeighborM) (g : Neighbor → Neighbor).
Context (f_idem : ∀ n, f (f n) = f n) (f_fields : ∀ n, Neighbor_fields (f n) = Neighbor_fields n).
Context (f_value : ∀ n t, Neighbor_value (f n) t = g (Neighbor_value n t)).

Definition updateRouter (r : Router) : Router :=
  mkRouter (Router_ASN r) (Router_ID r) (Router_VRF r) (g <$> Router_Neighbors r)
    (Router_Prefixes r) (Router_Imports r) (Router_EVPN r).
Definition updateValue (c : FRRConfiguration) : FRRConfiguration :=
  mkFRRConfiguration (Cfg_Name c) (Cfg_Namespace c) (Cfg_Annotations c) (updateNeighbors g (Cfg_Spec c)).

Lemma view_neighbor_mapped S h (n : NeighborM) (v : Neighbor) L :
  view h n = Some (v, L) → view (mapAt f S h) (f n) = Some (g v, L).
Proof using f_idem f_fields f_value.
  intros ([t L'] & Ht & [= <- <-])%bind_Some. apply bind_Some. exists (t, L'). rewrite f_fields.
  split; [by apply view_unmapped|]. by rewrite f_value.
Qed.

Lemma view_neighbors_mapped S h (ns : list NeighborM) (vs : list Neighbor) L :
  view_elements h ns = Some (vs, L) → view_elements (mapAt f S h) (f <$> ns) = Some (g <$> vs, L).
Proof using f_idem f_fields f_value.
  revert vs L. induction ns as [|n ns IH]; intros vs L; [by intros [= <- <-]|].
  intros (v & vs' & L1 & L2 & H1 & H2 & -> & ->)%view_elements_cons. cbn [fmap list_fmap].
  apply view_elements_cons. exists (g v), (g <$> vs'), L1, L2.
  split_and!; [by apply view_neighbor_mapped|by apply IH|done..].
Qed.

Lemma view_router_mapped S h (r : RouterM) (v : Router) L :
  array_of r ⊆ S → view h r = Some (v, L) → view (mapAt f S h) r = Some (updateRouter v, L).
Proof using f_idem f_fields f_value.
  intros Hr ([[[[ns ps] imps] evpn] L'] & Ht & [= <- <-])%bind_Some. apply bind_Some.
  exists (g <$> ns, ps, imps, evpn, L'). split; [|done]. unfold Router_fields in *.
  apply view_pair_Some in Ht as (t & ? & L1 & L2 & Ht & He & [= <- <-] & ->).
  apply view_pair_Some in Ht as (t & ? & L3 & L4 & Ht & Hi & [= <- <-] & ->).
  apply view_pair_Some in Ht as (? & ? & L5 & L6 & Hn & Hp & [= <- <-] & ->).
  apply view_pair_Some. exists (g <$> ns, ps, imps), evpn, ((L5 ++ L6) ++ L4), L2.
  split_and!; [|by apply view_unmapped|done..].
  apply view_pair_Some. exists (g <$> ns, ps), imps, (L5 ++ L6), L4. split_and!; [|by apply view_unmapped|done..].
  apply view_pair_Some. exists (g <$> ns), ps, L5, L6. split_and!; [|by apply view_unmapped|done..].
  unfold array_of in Hr. destruct (RM_Neighbors r) as [[p|]]; [|by injection Hn as <- <-].
  apply view_slice_Some in Hn as (ms & K & Hc & Hv & ->). apply view_slice_Some.
  exists (f <$> ms), K. split_and!; [|by apply view_neighbors_mapped|done].
  apply bind_Some in Hc as (c & Hc & Ho). rewrite lookup_mapAt, Hc. cbn. rewrite decide_True by set_solver.
  destruct c; try done. by injection Ho as ->.
Qed.

Lemma view_routers_mapped S h (rs : list RouterM) (vs : list Router) L :
  arrays_of rs ⊆ S → view_elements h rs = Some (vs, L) →
  view_elements (mapAt f S h) rs = Some (updateRouter <$> vs, L).
Proof using f_idem f_fields f_value.
  revert vs L. induction rs as [|r rs IH]; intros vs L; [by intros _ [= <- <-]|].
  intros Hs (v & vs' & L1 & L2 & H1 & H2 & -> & ->)%view_elements_cons. unfold arrays_of in Hs. cbn in Hs.
  apply view_elements_cons. exists (updateRouter v), (updateRouter <$> vs'), L1, L2.
  split_and!; [apply view_router_mapped; [set_solver|done]|apply IH; [set_solver|done]|done..].
Qed.

Lemma routers_cell S h p (rs : list RouterM) :
  h !! p ≫= ofCell = Some rs → mapAt f S h !! p ≫= ofCell = Some rs.
Proof using Type.
  intros (c & Hc & Ho)%bind_Some. rewrite lookup_mapAt, Hc. cbn. by destruct c, (decide (p ∈ S)).
Qed.

(** After the update the resource has the updated value, whatever else was updated. *)
Lemma view_config_mapped S h (c : FRRConfigurationM) (v : FRRConfiguration) meta L :
  arrays h c ⊆ S → view h c = Some ((v, meta), L) →
  view (mapAt f S h) c = Some ((updateValue v, meta), L).
Proof using f_idem f_fields f_value.
  intros Hs ([[mv sv] L'] & Ht & Hv)%bind_Some. injection Hv as <- <- <-.
  apply bind_Some. exists ((mv, updateNeighbors g sv), L'). split; [|done]. unfold Config_fields in *.
  apply view_pair_Some in Ht as (? & ? & L1 & L2 & Hm & Hsp & [= <- <-] & ->).
  apply view_pair_Some. exists mv, (updateNeighbors g sv), L1, L2. split_and!; [by apply view_unmapped| |done..].
  clear Hm. apply bind_Some in Hsp as ([[bv lv] K] & Ht & [= <- <-]). apply bind_Some.
  exists ((mkBGPConfig (updateRouter <$> BGP_Routers bv) (BGP_BFDProfiles bv), lv), K). split; [|done].
  unfold Spec_fields in *. apply view_pair_Some in Ht as (? & ? & L3 & L4 & Hb & Hl & [= <- <-] & ->).
  apply view_pair_Some. eexists _, lv, L3, L4. split_and!; [|by apply view_unmapped|done..]. clear Hl.
  apply bind_Some in Hb as ([[rv pv] K] & Ht & [= <- <-]). apply bind_Some.
  exists ((updateRouter <$> rv, pv), K). split; [|done]. unfold BGPConfig_fields in *.
  apply view_pair_Some in Ht as (? & ? & L5 & L6 & Hr & Hp & [= <- <-] & ->).
  apply view_pair_Some. exists (updateRouter <$> rv), pv, L5, L6. split_and!; [|by apply view_unmapped|done..].
  unfold arrays in Hs. destruct (BGPM_Routers _) as [[p|]]; [|by injection Hr as <- <-].
  apply view_slice_Some in Hr as (rs & K & Hc & Hrs & ->). rewrite Hc in Hs. apply view_slice_Some.
  exists rs, K. split_and!; [by apply routers_cell|by apply view_routers_mapped|done].
Qed.

(** ** The loops *)

Lemma assignNeighbors_run S h (r : RouterM) (v : Router) L :
  view h r = Some (v, L) →
  assignNeighbors f r (mapAt f S h) = Some ((), mapAt f (array_of r ∪ S) h).
Proof using f_idem f_fields f_value.
  intros ([[[[ns ps] imps] evpn] L'] & Ht & _)%bind_Some. unfold Router_fields in Ht.
  do 3 apply view_pair_Some in Ht as (? & ? & ? & ? & Ht & _).
  rewrite <-mapAt_mapAt by done. set (h0 := mapAt f S h). unfold assignNeighbors, array_of.
  destruct (RM_Neighbors r) as [[p|]]; [|by rewrite mapAt_empty].
  apply view_slice_Some in Ht as (ms & K & Hc & _ & _).
  assert (∃ l, h0 !! p = Some (CNeighbors l)) as [l Hl].
  { apply bind_Some in Hc as (c & Hc & Ho). destruct c; try done. unfold h0. rewrite lookup_mapAt, Hc. cbn.
    destruct (decide (p ∈ S)); eauto. }
  assert (h0 !! p ≫= ofCell = Some l) as Hc0 by (by rewrite Hl).
  rewrite (bind_Go _ _ _ _ _ (elements_run h0 p l Hc0)).
  destruct (forRange_inv (λ i h', h' = <[p := CNeighbors ((f <$> take i l) ++ drop i l)]> h0) (length l) 0
    (λ i, n ← index p i; assign p i (f n)) h0) as (h' & -> & ->).
  - cbn. by rewrite drop_0, insert_id.
  - intros j h1 Hj ->. destruct (lookup_lt_is_Some_2 l j) as [n Hn]; [lia|].
    set (lj := (f <$> take j l) ++ drop j l).
    assert (length (f <$> take j l) = j) as Hlj by (rewrite length_fmap, length_take; lia).
    assert (lj !! j = Some n) as Hnj.
    { unfold lj. rewrite lookup_app_r by lia. by rewrite Hlj, Nat.sub_diag, lookup_drop, Nat.add_0_r. }
    assert (<[p := CNeighbors lj]> h0 !! p ≫= ofCell = Some lj) as Hcell by (by rewrite lookup_insert_eq).
    rewrite (bind_Go _ _ _ _ _ (index_run _ _ _ _ _ Hcell Hnj)).
    rewrite (assign_run _ _ lj) by (done || by eapply lookup_lt_Some). eexists. split; [done|].
    cbn [toCell stored_neighbor]. rewrite insert_insert_eq. do 2 f_equal. unfold lj.
    rewrite (drop_S _ _ _ Hn), (take_S_r _ _ _ Hn), fmap_app, <-app_assoc.
    by rewrite insert_app_r_alt, Hlj, Nat.sub_diag by lia.
  - f_equal. f_equal. cbn. rewrite take_ge, drop_ge, app_nil_r by done. apply map_eq. intros a.
    rewrite lookup_mapAt. destruct (decide (a = p)) as [->|Ha].
    + rewrite lookup_insert_eq, Hl. cbn. by rewrite decide_True by set_solver.
    + rewrite lookup_insert_ne by done. destruct (h0 !! a); [|done]. cbn. by rewrite decide_False by set_solver.
Qed.

Lemma assignConfig_run S h (c : FRRConfigurationM) (v : FRRConfiguration * (TypeMeta * MetaRestV)) L :
  view h c = Some (v, L) →
  assignConfig f c (mapAt f S h) = Some ((), mapAt f (arrays h c ∪ S) h).
Proof using f_idem f_fields f_value.
  intros ([[mv sv] K1] & Ht & _)%bind_Some. unfold Config_fields in Ht.
  apply view_pair_Some in Ht as (? & ? & ? & ? & _ & Hsp & _). clear mv sv K1.
  apply bind_Some in Hsp as ([[bv lv] K] & Ht & _). unfold Spec_fields in Ht.
  apply view_pair_Some in Ht as (? & ? & ? & ? & Hb & _). clear bv lv K.
  apply bind_Some in Hb as ([[rv pv] K] & Ht & _). unfold BGPConfig_fields in Ht.
  apply view_pair_Some in Ht as (? & ? & ? & ? & Hr & _). clear rv pv K.
  unfold assignConfig, rangeSlice, arrays. destruct (BGPM_Routers _) as [[p|]]; [|by rewrite (left_id_L ∅ (∪))].
  apply view_slice_Some in Hr as (rs & K & Hc & Hrs & _). rewrite Hc.
  rewrite (bind_Go _ _ _ _ _ (elements_run _ p rs (routers_cell S h p rs Hc))).
  destruct (forRange_inv (λ i h', h' = mapAt f (arrays_of (take i rs) ∪ S) h) (length rs) 0
    (λ i, r ← index p i; assignNeighbors f r) (mapAt f S h)) as (h' & -> & ->).
  - change (arrays_of (take 0 rs)) with (∅ : gset address). by rewrite (left_id_L ∅ (∪)).
  - intros j h1 Hj ->. destruct (lookup_lt_is_Some_2 rs j) as [r Hrj]; [lia|].
    destruct (view_elements_lookup _ _ _ _ _ _ Hrs Hrj) as (v' & L' & Hv' & _).
    rewrite (bind_Go _ _ _ _ _ (index_run _ p rs j r (routers_cell _ _ _ _ Hc) Hrj)).
    rewrite (assignNeighbors_run _ _ _ _ _ Hv'). eexists. split; [done|].
    by rewrite (take_S_r _ _ _ Hrj), arrays_of_snoc, (assoc_L (∪)).
  - cbn. by rewrite take_ge by done.
Qed.
End effects.
