(* ===== verification/Aliasing.v ===== *)
(** * What sharing does not change

    Dumping a resource leaves the resource alone, because what is masked is a deep copy; and validating the
    resources of one node does not change the verdict on the next, although the secrets are dropped in arrays the
    lists share. *)

From Stdlib Require Import Lia.
From S2P Require Import Prelude GoStrings GoNet IPFamily Community Api FrrConfig Errors Samples.
From S2P Require Import Merge ApiToConfig Logging Reconciler Webhook StateControllers Json Parse SessionState Store.
From S2P Require Import DeepCopy DeepCopyProps InPlace.

Section aliasing.
Context `{AM : Apimachinery} `{AC : !ApimachineryCopies}.

(** A copy that shares nothing with its original. *)
Definition deep {M V} `{!Stored cell M} (W : View cell M V) (DeepCopy : ptr M → Go cell (ptr M)) : Prop :=
  ∀ (h : memory cell) (p : ptr M) (v : option V) L, view h p = Some (v, L) → ∃ q h' L',
    DeepCopy p h = Some (q, h') ∧ view h' q = Some (v, L') ∧ NoDup L' ∧
    (∀ h2, (∀ a, a ∉ L' → h2 !! a = h' !! a) → view h2 p = Some (v, L)) ∧
    (∀ h2, (∀ a, a ∈ L' → h2 !! a = h' !! a) → view h2 q = Some (v, L')).

Lemma deep_of_copies {M V} `{!Stored cell M, W : !View cell M V, !ViewLaws W} (DeepCopyInto : M → Go cell M) :
  copies W DeepCopyInto → deep W (copyPtr DeepCopyInto).
Proof.
  intros Hc h p v L Hp. destruct (copies_ptr DeepCopyInto Hc h p v L Hp) as (q & h' & L' & E & Hs & Hq & Hnd & Hf).
  exists q, h', L'. split_and!; [done..| |].
  - intros h2 H2. eapply view_frame; [exact Hp|]. intros a Ha. destruct (view_dom _ _ _ _ Hp a Ha) as [c Hca].
    rewrite H2; [by rewrite Hca; eapply lookup_weaken|]. intros Hin%Hf. congruence.
  - intros h2 H2. by eapply view_frame.
Qed.

(** C17: deep copies are deep: every [DeepCopy] of the API package, run on a pointer to readable memory, returns a pointer to
    the same value in cells that are all distinct, does not panic, and shares nothing with the original: whatever
    is written to the cells of the copy later does not change the original, and whatever is written anywhere
    else does not change the copy.  A nil pointer gives nil. *)
Theorem deep_copies_are_deep :
  deep view_Advertise Advertise_DeepCopy ∧ deep view_AllowedIn AllowedInPrefixes_DeepCopy ∧
  deep view_AllowedOut AllowedOutPrefixes_DeepCopy ∧ deep view_BFDProfile BFDProfile_DeepCopy ∧
  deep view_BGPConfig BGPConfig_DeepCopy ∧ deep view_SessionState BGPSessionState_DeepCopy ∧
  deep view_objects BGPSessionStateList_DeepCopy ∧ deep view_plain BGPSessionStateSpec_DeepCopy ∧
  deep view_plain BGPSessionStateStatus_DeepCopy ∧ deep view_Community CommunityPrefixes_DeepCopy ∧
  deep view_EVPNConfig EVPNConfig_DeepCopy ∧ deep view_Config FRRConfiguration_DeepCopy ∧
  deep view_objects FRRConfigurationList_DeepCopy ∧ deep view_Spec FRRConfigurationSpec_DeepCopy ∧
  deep view_plain FRRConfigurationStatus_DeepCopy ∧ deep view_K8sConfig FRRK8sConfiguration_DeepCopy ∧
  deep view_objects FRRK8sConfigurationList_DeepCopy ∧ deep view_plain FRRK8sConfigurationSpec_DeepCopy ∧
  deep view_plain FRRK8sConfigurationStatus_DeepCopy ∧ deep view_NodeState FRRNodeState_DeepCopy ∧
  deep view_objects FRRNodeStateList_DeepCopy ∧ deep view_plain FRRNodeStateSpec_DeepCopy ∧
  deep view_plain FRRNodeStateStatus_DeepCopy ∧ deep view_plain Import_DeepCopy ∧
  deep view_L2VNI L2VNI_DeepCopy ∧ deep view_L3VNI L3VNI_DeepCopy ∧
  deep view_LocalPref LocalPrefPrefixes_DeepCopy ∧ deep view_Neighbor Neighbor_DeepCopy ∧
  deep view_plain NextHop_DeepCopy ∧ deep view_plain PrefixSelector_DeepCopy ∧
  deep view_plain RawConfig_DeepCopy ∧ deep view_Receive Receive_DeepCopy ∧ deep view_Router Router_DeepCopy ∧
  deep view_plain SecretReference_DeepCopy ∧ deep view_VNIProperties VNIProperties_DeepCopy.
Proof. split_and!; apply deep_of_copies; eauto with copies. Qed.

(** ** Dumps *)

Lemma maskPassword_value n t :
  Neighbor_value (maskPassword n) t =
  (λ n, withCredentials retracted (Neighbor_PasswordSecret n) n) (Neighbor_value n t).
Proof. by destruct t as [[[[[[]]]]]]. Qed.
Lemma dropSecret_value n t :
  Neighbor_value (dropSecret n) t =
  (λ n, withCredentials (Neighbor_Password n) (mkSecretReference "" "") n) (Neighbor_value n t).
Proof. by destruct t as [[[[[[]]]]]]. Qed.

Lemma array_viewed h (r : RouterM) (v : Router) L a : view h r = Some (v, L) → a ∈ array_of r → a ∈ L.
Proof.
  intros ([[[[ns ps] imps] evpn] L'] & Ht & [= <- <-])%bind_Some. unfold Router_fields in Ht.
  apply view_pair_Some in Ht as (? & ? & ? & ? & Ht & _ & _ & ->).
  apply view_pair_Some in Ht as (? & ? & ? & ? & Ht & _ & _ & ->).
  apply view_pair_Some in Ht as (? & ? & ? & ? & Ht & _ & _ & ->).
  unfold array_of. destruct (RM_Neighbors r) as [[p|]]; [|set_solver].
  apply view_slice_Some in Ht as (ms & K & _ & _ & ->). set_solver.
Qed.

Lemma arrays_viewed h (c : FRRConfigurationM) (v : FRRConfiguration * (TypeMeta * MetaRestV)) L a :
  view h c = Some (v, L) → a ∈ arrays h c → a ∈ L.
Proof.
  intros ([[mv sv] K1] & Ht & [= <- <-])%bind_Some. unfold Config_fields in Ht.
  apply view_pair_Some in Ht as (? & ? & ? & L1 & _ & Hsp & _ & ->). clear mv sv.
  apply bind_Some in Hsp as ([[bv lv] K] & Ht & [= <- <-]). unfold Spec_fields in Ht.
  apply view_pair_Some in Ht as (? & ? & L2 & ? & Hb & _ & _ & ->). clear bv lv.
  apply bind_Some in Hb as ([[rv pv] K] & Ht & [= <- <-]). unfold BGPConfig_fields in Ht.
  apply view_pair_Some in Ht as (? & ? & L3 & ? & Hr & _ & _ & ->). clear rv pv.
  unfold arrays. destruct (BGPM_Routers _) as [[p|]]; [|set_solver].
  apply view_slice_Some in Hr as (rs & K & Hc & Hrs & ->). rewrite Hc.
  intros (X & HX & Ha)%elem_of_union_list. apply list_elem_of_fmap in HX as (r & -> & [i Hi]%list_elem_of_lookup).
  destruct (view_elements_lookup _ _ _ _ _ _ Hrs Hi) as (v' & L' & Hv' & _ & Hsub).
  pose proof (array_viewed _ _ _ _ _ Hv' Ha). set_solver.
Qed.

(** Deleting a key of the annotations of a resource whose cells are distinct. *)
Lemma deleteKey_run h (c : FRRConfigurationM) (v : FRRConfiguration) meta L k :
  view h c = Some ((v, meta), L) → NoDup L → ∃ h',
    deleteKey (OM_Annotations (O_ObjectMeta c)) k h = Some ((), h') ∧
    view h' c = Some ((mkFRRConfiguration (Cfg_Name v) (Cfg_Namespace v) (delete k (Cfg_Annotations v)) (Cfg_Spec v), meta), L) ∧
    ∀ a, a ∉ L → h' !! a = h !! a.
Proof.
  intros ([[mv sv] K1] & Ht & Hv)%bind_Some. injection Hv as <- <- <-. unfold Config_fields in Ht. intros Hnd.
  apply view_pair_Some in Ht as (? & ? & L1 & L2 & Hm & Hsp & [= <- <-] & ->).
  apply bind_Some in Hm as ([[av rv] K] & Ht & [= <- <-]). unfold ObjectMeta_fields in Ht.
  apply view_pair_Some in Ht as (? & ? & L3 & L4 & Ha & Hr & [= <- <-] & ->).
  assert (∀ h', (∀ a, a ∈ L4 ++ L2 → h' !! a = h !! a) →
    view h' (OM_Annotations (O_ObjectMeta c)) = Some (delete k av, L3) →
    view h' c = Some ((mkFRRConfiguration (OM_Name (O_ObjectMeta c)) (OM_Namespace (O_ObjectMeta c)) (delete k av) sv,
      (O_TypeMeta c, rv)), (L3 ++ L4) ++ L2)) as Hback.
  { intros h' Hf Ha'. apply bind_Some. exists ((ObjectMeta_value (O_ObjectMeta c) (delete k av, rv), sv), (L3 ++ L4) ++ L2).
    split; [|done]. apply view_pair_Some. eexists _, sv, (L3 ++ L4), L2. split_and!; [| |done..].
    - apply bind_Some. exists ((delete k av, rv), L3 ++ L4). split; [|done]. apply view_pair_Some.
      exists (delete k av), rv, L3, L4. split_and!; [done| |done..]. eapply view_frame; [done|set_solver].
    - eapply view_frame; [done|set_solver]. }
  unfold deleteKey. unfold view at 1, view_gomap in Ha.
  destruct (OM_Annotations (O_ObjectMeta c)) as [[p|]].
  - destruct (h !! p) as [[]|] eqn:E; try done. injection Ha as <- <-. eexists. split; [done|].
    rewrite !NoDup_app in Hnd. split.
    + apply Hback.
      * intros a Hin. apply lookup_insert_ne. intros <-. set_solver.
      * unfold view, view_gomap. by rewrite lookup_insert_eq.
    + intros a Ha. apply lookup_insert_ne. set_solver.
  - injection Ha as <- <-. exists h. split_and!; [done| |done]. apply Hback; [done|]. by rewrite delete_empty.
Qed.

(** C19: dumping a resource does not change it: on any memory, [sanitizedConfig] returns a resource with the value the
    function on values computes (passwords masked, annotation removed) and changes no cell there was, so
    that the resource it was given, and everything else, still has the passwords that are to be configured. *)
Theorem sanitizedConfig_leaves_original h (c : FRRConfigurationM) (cfg : FRRConfiguration) meta L :
  view h c = Some ((cfg, meta), L) → ∃ c' h' L',
    sanitizedConfigM c h = Some (c', h') ∧ view h' c' = Some ((sanitizedConfig cfg, meta), L') ∧
    h ⊆ h' ∧ view h' c = Some ((cfg, meta), L) ∧ ∀ a, a ∈ L' → h !! a = None.
Proof.
  intros Hv. destruct (fresh_new h (toCell [c])) as (p & E1 & Hp). set (h1 := <[p := toCell [c]]> h) in *.
  assert (h ⊆ h1) as Hs1 by (by apply insert_subseteq).
  destruct (copies_ptr FRRConfiguration_DeepCopyInto Config_copies h1 (Ptr (Some p)) (Some (cfg, meta)) (p :: L))
    as (q & h2 & L2 & E2 & Hs2 & Hq & Hnd & Hf).
  { apply view_ptr_Some. exists c, (cfg, meta), L. split_and!; [|by eapply view_mono|done..].
    unfold h1. by rewrite lookup_insert_eq. }
  destruct q as [[q|]]; [|done]. apply view_ptr_Some in Hq as (r & w & L' & Hcq & Hr & [= <-] & ->).
  apply NoDup_cons in Hnd as [HqL Hnd].
  pose proof (assignConfig_run maskPassword (λ n, withCredentials retracted (Neighbor_PasswordSecret n) n)
    ltac:(done) ltac:(done) maskPassword_value ∅ h2 r _ _ Hr) as E3. rewrite mapAt_empty, (right_id_L ∅ (∪)) in E3.
  pose proof (view_config_mapped maskPassword (λ n, withCredentials retracted (Neighbor_PasswordSecret n) n)
    ltac:(done) ltac:(done) maskPassword_value _ h2 r _ _ _ (reflexivity (arrays h2 r)) Hr) as Hr3.
  set (h3 := mapAt maskPassword (arrays h2 r) h2) in *.
  assert (∀ a, a ∉ L' → h3 !! a = h2 !! a) as H3.
  { intros a Ha. unfold h3. rewrite lookup_mapAt. destruct (h2 !! a); [|done]. cbn. rewrite decide_False; [done|].
    intros Hin. exact (Ha (arrays_viewed _ _ _ _ _ Hr Hin)). }
  destruct (deleteKey_run h3 r _ _ _ lastAppliedAnnotation Hr3 Hnd) as (h4 & E4 & Hr4 & H4).
  assert (∀ a, a ∉ L' → h4 !! a = h2 !! a) as H24 by (intros a Ha; by rewrite H4, H3).
  assert (h ⊆ h4) as Hs4.
  { apply map_subseteq_spec. intros a x Ha. rewrite H24.
    - eapply lookup_weaken; [|exact Hs2]. by eapply lookup_weaken.
    - intros Hin. assert (h1 !! a = None) by (apply Hf; set_solver). rewrite (lookup_weaken _ _ _ _ Ha Hs1) in *. done. }
  exists r, h4, L'. unfold sanitizedConfigM, FRRConfiguration_DeepCopy.
  rewrite (bind_Go _ _ _ _ _ E1), (bind_Go _ _ _ _ _ E2), (bind_Go _ _ _ _ _ (index_run h2 q [r] 0 r Hcq eq_refl)).
  rewrite (bind_Go _ _ _ _ _ E3), (bind_Go _ _ _ _ _ E4). split_and!; [|done|done|by eapply view_mono|].
  - apply (index_run h4 q [r] 0 r); [|done]. by rewrite H24.
  - intros a Ha. assert (h1 !! a = None) by (apply Hf; set_solver). by eapply lookup_weaken_None.
Qed.

(** ** The webhook *)

Notation dropped := (λ n, withCredentials (Neighbor_Password n) (mkSecretReference "" "") n).

Definition all_arrays (h : memory cell) (cfgs : list FRRConfigurationM) : gset address := ⋃ (arrays h <$> cfgs).

(** The secrets are dropped where they are, whatever was dropped before. *)
Lemma resetSecretsM_run S h cfgs (vs : list (FRRConfiguration * (TypeMeta * MetaRestV))) L :
  view_elements h cfgs = Some (vs, L) →
  resetSecretsM cfgs (mapAt dropSecret S h) = Some ((), mapAt dropSecret (all_arrays h cfgs ∪ S) h).
Proof.
  revert S vs L. induction cfgs as [|c cfgs IH]; intros S vs L.
  { intros _. unfold all_arrays. cbn. by rewrite (left_id_L ∅ (∪)). }
  intros (v & vs' & L1 & L2 & H1 & H2 & _ & _)%view_elements_cons. unfold resetSecretsM. cbn [rangeList].
  rewrite (bind_Go _ _ _ _ _ (assignConfig_run dropSecret dropped ltac:(done) ltac:(done) dropSecret_value S h c _ _ H1)).
  fold (resetSecretsM cfgs). rewrite (IH _ _ _ H2). do 3 f_equal. unfold all_arrays. cbn. set_solver.
Qed.

Lemma view_configs_mapped S h cfgs (vs : list (FRRConfiguration * (TypeMeta * MetaRestV))) L :
  all_arrays h cfgs ⊆ S → view_elements h cfgs = Some (vs, L) →
  view_elements (mapAt dropSecret S h) cfgs = Some (prod_map (updateValue dropped) id <$> vs, L).
Proof.
  revert vs L. induction cfgs as [|c cfgs IH]; intros vs L; [by intros _ [= <- <-]|].
  intros Hs ([v meta] & vs' & L1 & L2 & H1 & H2 & -> & ->)%view_elements_cons. unfold all_arrays in Hs. cbn in Hs.
  apply view_elements_cons. eexists (updateValue dropped v, meta), _, L1, L2. split_and!; [| |done..].
  - apply (view_config_mapped dropSecret dropped ltac:(done) ltac:(done) dropSecret_value); [set_solver|done].
  - apply IH; [|done]. unfold all_arrays. set_solver.
Qed.

Lemma ValidateM_run S h cfgs (vs : list (FRRConfiguration * (TypeMeta * MetaRestV))) L :
  view_elements h cfgs = Some (vs, L) → ∃ S',
    ValidateM cfgs (mapAt dropSecret S h) = Some (Validate [FRRConfigurationList vs.*1], mapAt dropSecret S' h).
Proof.
  intros Hv. exists (all_arrays h cfgs ∪ S). unfold ValidateM.
  rewrite (bind_Go _ _ _ _ _ (resetSecretsM_run S h cfgs vs L Hv)).
  assert (readConfigs cfgs (mapAt dropSecret (all_arrays h cfgs ∪ S) h) =
    Some (resetSecrets vs.*1, mapAt dropSecret (all_arrays h cfgs ∪ S) h)) as E.
  { unfold readConfigs. rewrite (view_configs_mapped _ h cfgs vs L) by (done || set_solver).
    do 2 f_equal. unfold resetSecrets. rewrite <-!list_fmap_compose. by apply list_fmap_ext. }
  rewrite (bind_Go _ _ _ _ _ E). unfold Validate. cbn [fmap list_fmap mjoin list_join]. by rewrite app_nil_r.
Qed.

(** What the webhook has in memory for the nodes it validates. *)
Definition in_memory (h : memory cell) (node : string * list FRRConfigurationM) (n : nodeAndConfigs) : Prop :=
  node.1 = NAC_name n ∧
  ∃ (vs : list (FRRConfiguration * (TypeMeta * MetaRestV))) L,
    view_elements h node.2 = Some (vs, L) ∧ vs.*1 = NAC_cfgs n.

(** C18: validation is not disturbed by the sharing: the lists of the nodes may share any of their arrays, and
    validating a node drops the secrets in place; still the loop over the nodes gives the verdict of validating each
    node on its own, as the model of the webhook does. *)
Theorem shared_validation_exact h nodesM nodes :
  Forall2 (in_memory h) nodesM nodes → ∃ h',
    validateNodesM nodesM h = Some (each validateNode nodes, h').
Proof.
  intros Hn. enough (∀ S, ∃ S', validateNodesM nodesM (mapAt dropSecret S h) = Some (each validateNode nodes, mapAt dropSecret S' h))
    as H by (destruct (H ∅) as [S' H']; rewrite mapAt_empty in H'; eauto).
  induction Hn as [|[name cfgs] n nodesM nodes [Hname (vs & L & Hv & Hc)] Hn IH]; intros S; [by exists S|].
  cbn [fst snd] in *. cbn [validateNodesM each]. destruct (ValidateM_run S h cfgs vs L Hv) as [S1 E].
  rewrite (bind_Go _ _ _ _ _ E). unfold validateNode at 2. rewrite Hc, <-Hname.
  destruct (Validate [FRRConfigurationList (NAC_cfgs n)]) as [[]|e]; cbn; [apply IH|]. by exists S1.
Qed.
End aliasing.

(** ** A concrete memory *)

(** The rest of the metadata, list metadata and selectors without references. *)
#[local] Instance sampleMachinery : Apimachinery := {|
  MetaRest := unit; MetaRestV := unit; ListMeta := string; ListMetaV := string; LabelSelectorM := LabelSelector;
  OtherCell := Empty_set; zeroMetaRest := (); zeroListMeta := ""; zeroLabelSelector := emptySelector |}.
#[local] Instance plain_selectors : Plain LabelSelector := {}.

Definition copyMap (m : gomap) : Go cell gomap := λ h,
  match m with
  | GoMap None => Some (GoMap None, h)
  | GoMap (Some p) =>
      match h !! p with
      | Some (CMap kv) => let q := fresh (dom h) in Some (GoMap (Some q), <[q := CMap kv]> h)
      | _ => None
      end
  end.
Definition sampleMetaCopy (m : ObjectMetaM) : Go cell ObjectMetaM :=
  annotations ← copyMap (OM_Annotations m);
  mret (mkObjectMetaM (OM_Name m) (OM_Namespace m) annotations (OM_rest m)).

Lemma copyMap_copies : copies view_gomap copyMap.
Proof.
  intros h [[p|]] v L H; unfold view, view_gomap in H.
  - destruct (h !! p) as [[]|] eqn:E; try done. injection H as <- <-.
    destruct (fresh_new h (CMap m)) as (q & Eq & Hq). exists (GoMap (Some q)), (<[q := CMap m]> h), [q].
    unfold copyMap. rewrite E. unfold new in Eq. injection Eq as -> _. split_and!; [done|by apply insert_subseteq| | |].
    + unfold view, view_gomap. by rewrite lookup_insert_eq.
    + apply NoDup_singleton.
    + intros a ->%list_elem_of_singleton. done.
  - injection H as <- <-. exists (GoMap None), h, []. split_and!; [done..|constructor|by intros a []%elem_of_nil].
Qed.

#[local] Program Instance sampleCopies : ApimachineryCopies := {|
  view_MetaRest := view_plain (T:=unit); view_ListMeta := view_plain (T:=string);
  view_LabelSelector := view_plain (T:=LabelSelector);
  ObjectMeta_DeepCopyInto := sampleMetaCopy; ListMeta_DeepCopyInto := copyValue;
  LabelSelector_DeepCopyInto := copyValue |}.
Next Obligation.
  refine (copies_ext _ _ _ _ (copies_struct _ _ (λ (m : ObjectMetaM) t, mkObjectMetaM (OM_Name m) (OM_Namespace m) t.1 t.2)
    (copyMap ⊗ copyValue) _ _ (copies_pair _ _ copyMap_copies copies_value))).
  - intros m h. unfold sampleMetaCopy, copyPair, copyValue, mbind, Go_bind, mret, Go_ret. cbn.
    by destruct (copyMap _ h) as [[]|].
  - by intros m [].
  - by intros m [] [].
Qed.
Next Obligation. apply copies_value. Qed.
Next Obligation. apply copies_value. Qed.
Next Obligation. intros h m v L [= <- <-] p []%elem_of_nil. Qed.
Next Obligation. intros h m v L [= <- <-] p []%elem_of_nil. Qed.

(** A router with two neighbors, one with a password and one with a secret, in arrays that two resources share. *)
Definition sampleNeighborM (address password : string) (secret : SecretReference) : NeighborM :=
  mkNeighborM 64513 "" "" address "" (Ptr None) password secret (Ptr None) (Ptr None) (Ptr None) false "" false
    zeroAdvertiseM zeroReceiveM false false 0 (Slice None).
Definition sampleMemory : memory cell :=
  {[1%positive := CNeighbors [sampleNeighborM "10.1.1.1" "hunter2" (mkSecretReference "" "");
                              sampleNeighborM "10.1.1.2" "" (mkSecretReference "secret" "ns")];
    2%positive := CRouters [mkRouterM 64512 "" "" (Slice (Some 1%positive)) (Slice None) (Slice None) (Ptr None)];
    3%positive := CMap {[lastAppliedAnnotation := "hunter2"]}]}.
Definition sampleConfigM (name : string) : FRRConfigurationM :=
  mkObject (mkTypeMeta "FRRConfiguration" "frrk8s.metallb.io/v1beta1")
    (mkObjectMetaM name "ns" (GoMap (Some 3%positive)) ())
    (mkSpecM (mkBGPConfigM (Slice (Some 2%positive)) (Slice None)) (mkRawConfig 0 "") emptySelector) ().

Definition sampleConfigV (name : string) : FRRConfiguration * (TypeMeta * MetaRestV) := Eval vm_compute in
  match view sampleMemory (sampleConfigM name) with
  | Some (v, _) => v
  | None => (mkFRRConfiguration "" "" ∅ (mkSpec (mkBGPConfig [] []) (mkRawConfig 0 "") emptySelector), (mkTypeMeta "" "", ()))
  end.

Lemma sanitizedConfig_leaves_original_witness :
  ∃ c' h' L', sanitizedConfigM (sampleConfigM "a") sampleMemory = Some (c', h') ∧
    view h' c' = Some ((sanitizedConfig (sampleConfigV "a").1, (sampleConfigV "a").2), L') ∧
    view h' (sampleConfigM "a") = Some (sampleConfigV "a", [3; 2; 1]%positive).
Proof.
  destruct (sanitizedConfig_leaves_original sampleMemory (sampleConfigM "a") (sampleConfigV "a").1 (sampleConfigV "a").2
    [3; 2; 1]%positive) as (c' & h' & L' & E & Hv & _ & Ho & _); [vm_compute; reflexivity|].
  exists c', h', L'. split; [exact E|]. split; [exact Hv|exact Ho].
Defined.

(** Two nodes, the second of which also uses another resource with the same arrays. *)
Definition sampleNodesM : list (string * list FRRConfigurationM) :=
  [("node1", [sampleConfigM "a"]); ("node2", [sampleConfigM "a"; sampleConfigM "b"])].
Definition sampleNodesV : list nodeAndConfigs :=
  [mkNodeAndConfigs "node1" ∅ [(sampleConfigV "a").1];
   mkNodeAndConfigs "node2" ∅ [(sampleConfigV "a").1; (sampleConfigV "b").1]].

Lemma shared_validation_exact_witness :
  ∃ h', validateNodesM sampleNodesM sampleMemory = Some (each validateNode sampleNodesV, h').
Proof.
  apply (shared_validation_exact sampleMemory sampleNodesM sampleNodesV).
  constructor; [|constructor; [|constructor]].
  - split; [reflexivity|]. exists [sampleConfigV "a"], [3; 2; 1]%positive. split; vm_compute; reflexivity.
  - split; [reflexivity|]. exists [sampleConfigV "a"; sampleConfigV "b"], [3; 2; 1; 3; 2; 1]%positive.
    split; vm_compute; reflexivity.
Defined.

Lemma deep_copies_are_deep_witness :
  ∃ q h', FRRConfigurationList_DeepCopy (Ptr (Some 4%positive))
    (<[4%positive := CConfigLists [mkObjects (mkTypeMeta "" "") "" (Slice (Some 5%positive))]]>
      (<[5%positive := CConfigs [sampleConfigM "a"; sampleConfigM "b"]]> sampleMemory)) = Some (q, h').
Proof.
  destruct (deep_copies_are_deep (AM:=sampleMachinery)) as (_ & _ & _ & _ & _ & _ & _ & _ & _ & _ & _ & _ & Hlist & _).
  set (h := <[4%positive := _]> _).
  destruct (Hlist h (Ptr (Some 4%positive)) (Some (mkTypeMeta "" "", "", [sampleConfigV "a"; sampleConfigV "b"]))
    [4; 5; 3; 2; 1; 3; 2; 1]%positive) as (q & h' & L' & E & _); [vm_compute; reflexivity|].
  exists q, h'. exact E.
Defined.
