(* ===== verification/Duration.v ===== *)
(** * Durations as Go parses them ([time.ParseDuration])

    The poll interval of the status exporter is a duration such as ["2m"] or ["1h15.5s"].  Integers are [uint64],
    with the wrap-around of additions written out; fractions go through [float64], computed
    here with the Standard Library's [SpecFloat] at the precision and range of IEEE 754 binary64. *)

From Stdlib Require Import Ascii Lia Floats.SpecFloat.
From S2P Require Import Prelude GoStrings.

(** ** [float64] *)

Definition float64 (n : N) : spec_float := binary_normalize 53 1024 (Z.of_N n) 0 false.
Definition float64_mul : spec_float → spec_float → spec_float := SFmul 53 1024.
Definition float64_div : spec_float → spec_float → spec_float := SFdiv 53 1024.

(** [uint64(x)] truncates; a value that is not finite and positive does not occur below. *)
Definition float64_to_uint64 (x : spec_float) : N :=
  match x with
  | S754_finite false m (Zneg e) => (N.pos m / 2 ^ N.pos e)%N
  | S754_finite false m e => (N.pos m * 2 ^ Z.to_N e)%N
  | _ => 0%N
  end.

(** ** Parsing *)

Definition wrapU64 (n : N) : N := (n mod 2 ^ 64)%N.

(** [1<<63]. *)
Definition maxAbs : N := 2 ^ 63.

Inductive durationError := EInvalidDuration | EMissingUnit | EUnknownUnit (u : string).

#[global] Instance durationError_eq_dec : EqDecision durationError.
Proof. solve_decision. Defined.

(** The leading digits and what follows; [None] is [errLeadingInt]. *)
Fixpoint leadingInt (x : N) (s : string) : option (N * string) :=
  match s with
  | EmptyString => Some (x, "")
  | String c r =>
      match digit_val c with
      | None => Some (x, s)
      | Some d =>
          if (maxAbs / 10 <? x)%N then None
          else if (maxAbs <? x * 10 + d)%N then None
          else leadingInt (x * 10 + d) r
      end
  end.

(** The digits of a fraction, the power of ten they count, and what follows; digits that do not fit are dropped. *)
Fixpoint leadingFraction (x : N) (scale : spec_float) (overflow : bool) (s : string)
    : N * spec_float * string :=
  match s with
  | EmptyString => (x, scale, "")
  | String c r =>
      match digit_val c with
      | None => (x, scale, s)
      | Some d =>
          if overflow then leadingFraction x scale true r
          else if ((maxAbs - 1) / 10 <? x)%N then leadingFraction x scale true r
          else if (maxAbs <? x * 10 + d)%N then leadingFraction x scale true r
          else leadingFraction (x * 10 + d) (float64_mul scale (float64 10)) false r
      end
  end.

(** The characters of a unit: everything up to a digit or a point. *)
Definition startsNumber (c : ascii) : bool := bool_decide (c = "."%char) || bool_decide (is_Some (digit_val c)).

Fixpoint takeUnit (s : string) : string * string :=
  match s with
  | EmptyString => ("", "")
  | String c r => if startsNumber c then ("", s) else let '(u, rest) := takeUnit r in (String c u, rest)
  end.

(** The two ways to write a micro sign are two bytes each. *)
Definition unitMap : gmap string N :=
  list_to_map [("ns", 1); ("us", 1000);
    (String (ascii_of_nat 0xC2) (String (ascii_of_nat 0xB5) "s"), 1000);
    (String (ascii_of_nat 0xCE) (String (ascii_of_nat 0xBC) "s"), 1000);
    ("ms", 1000000); ("s", 1000000000); ("m", 60000000000); ("h", 3600000000000)]%N.

(** One term: an integer, an optional fraction and a unit; its value, and what follows. *)
Definition parseTerm (s : string) : result durationError (N * string) :=
  match s with
  | String c _ => if startsNumber c then Ok () else Err EInvalidDuration
  | EmptyString => Ok ()
  end ≫= λ _,
  match leadingInt 0 s with
  | None => Err EInvalidDuration
  | Some (v, s1) =>
      let pre := negb (String.length s1 =? String.length s) in
      let '(f, scale, s2, post) :=
        match s1 with
        | String "." r =>
            let '(f, scale, s2) := leadingFraction 0 (float64 1) false r in
            (f, scale, s2, negb (String.length s2 =? String.length r))
        | _ => (0%N, float64 1, s1, false)
        end in
      if negb pre && negb post then Err EInvalidDuration else
      let '(u, s3) := takeUnit s2 in
      if bool_decide (u = "") then Err EMissingUnit else
      match unitMap !! u with
      | None => Err (EUnknownUnit u)
      | Some unit =>
          if (maxAbs / unit <? v)%N then Err EInvalidDuration else
          let v := (v * unit)%N in
          if (0 <? f)%N then
            let v := wrapU64 (v + float64_to_uint64 (float64_mul (float64 f) (float64_div (float64 unit) scale))) in
            if (maxAbs <? v)%N then Err EInvalidDuration else Ok (v, s3)
          else Ok (v, s3)
      end
  end.

(** The loop over the terms; every term consumes a character, so [fuel] is the length of the text. *)
Fixpoint parseTerms (fuel : nat) (d : N) (s : string) : option (result durationError N) :=
  if bool_decide (s = "") then Some (Ok d) else
  match fuel with
  | O => None
  | S fuel =>
      match parseTerm s with
      | Err e => Some (Err e)
      | Ok (v, s) =>
          let d := wrapU64 (d + v) in
          if (maxAbs <? d)%N then Some (Err EInvalidDuration) else parseTerms fuel d s
      end
  end.

(** A [time.Duration] counts nanoseconds in an [int64]. *)
Definition ParseDuration (orig : string) : result durationError Z :=
  let '(neg, s) :=
    match orig with
    | String c r => if bool_decide (c = "-"%char) then (true, r)
                    else if bool_decide (c = "+"%char) then (false, r) else (false, orig)
    | EmptyString => (false, orig)
    end in
  if bool_decide (s = "0") then Ok 0%Z
  else if bool_decide (s = "") then Err EInvalidDuration
  else match parseTerms (String.length s) 0 s with
       | None => Err EInvalidDuration
       | Some (Err e) => Err e
       | Some (Ok d) =>
           if neg then Ok (- Z.of_N d)%Z
           else if (maxAbs - 1 <? d)%N then Err EInvalidDuration else Ok (Z.of_N d)
       end.

(** The tests of the package. *)
Example ParseDuration_tests :
  (ParseDuration <$> ["0"; "-5s"; "2m"; "-1.5h"; "1h15m30.918273645s"; "9007199254740.993ms"; "0.9223372036854775807h";
     "9223372036854775807ns"; "-9223372036854775808ns"; "0.3333333333333333333h";
     ""; "3"; "."; "-.s"; "3000000h"; "9223372036854775808ns"; "1x"])
  = [Ok 0; Ok (-5000000000); Ok 120000000000; Ok (-5400000000000); Ok 4530918273645; Ok 9007199254740993000;
     Ok 3320413933267; Ok 9223372036854775807; Ok (-9223372036854775808); Ok 1200000000000;
     Err EInvalidDuration; Err EMissingUnit; Err EInvalidDuration; Err EInvalidDuration; Err EInvalidDuration;
     Err EInvalidDuration; Err (EUnknownUnit "x")]%Z.
Proof. vm_compute. reflexivity. Qed.

(** ** The loop ends *)

Lemma leadingInt_length x s v r : leadingInt x s = Some (v, r) → String.length r ≤ String.length s.
Proof.
  revert x. induction s as [|c s IH]; intros x; cbn [leadingInt]; [intros [= _ <-]; done|].
  destruct (digit_val c); [|intros [= _ <-]; done].
  repeat (case_match; [done|]). intros Hr%IH. cbn. lia.
Qed.

Lemma leadingFraction_length x scale o s f scale' r :
  leadingFraction x scale o s = (f, scale', r) → String.length r ≤ String.length s.
Proof.
  revert x scale o. induction s as [|c s IH]; intros x scale o; cbn [leadingFraction]; [intros [= _ _ <-]; done|].
  destruct (digit_val c); [|intros [= _ _ <-]; done].
  repeat case_match; intros Hr%IH; cbn; lia.
Qed.

Lemma takeUnit_length s u r : takeUnit s = (u, r) → String.length u + String.length r = String.length s.
Proof.
  revert u. induction s as [|c s IH]; intros u; cbn [takeUnit]; [intros [= <- <-]; done|].
  destruct (startsNumber c); [intros [= <- <-]; done|].
  destruct (takeUnit s) as [u' r'] eqn:E. intros [= <- ->]. specialize (IH u' eq_refl). cbn. lia.
Qed.

Lemma parseTerm_consumes s v r : parseTerm s = Ok (v, r) → String.length r < String.length s.
Proof.
  unfold parseTerm. intros ([] & _ & H)%bind_Ok.
  destruct (leadingInt 0 s) as [[v0 s1]|] eqn:E1; [|done]. apply leadingInt_length in E1.
  set (t := match s1 with String _ _ => _ | _ => _ end) in H.
  assert (String.length t.1.2 ≤ String.length s1) as E2.
  { subst t. destruct s1 as [|[[] [] [] [] [] [] [] []] s1]; try (cbn; lia).
    destruct (leadingFraction _ _ _ s1) as [[f scale] s2] eqn:E2. apply leadingFraction_length in E2. cbn; lia. }
  destruct t as [[[f scale] s2] post]. cbn in E2. destruct (_ && _); [done|].
  destruct (takeUnit s2) as [u s3] eqn:E3. apply takeUnit_length in E3.
  case_bool_decide as Hu; [done|]. assert (0 < String.length u) by (destruct u; cbn; [done|lia]).
  destruct (unitMap !! u); [|done]. repeat (case_match; try done); simplify_eq; lia.
Qed.

Lemma parseTerms_total fuel d s : String.length s ≤ fuel → is_Some (parseTerms fuel d s).
Proof.
  revert d s. induction fuel as [|fuel IH]; intros d s Hs; destruct s as [|c s]; cbn [parseTerms String.length] in *;
    try by eauto.
  { lia. }
  rewrite bool_decide_eq_false_2 by done.
  destruct (parseTerm (String c s)) as [[v r]|e] eqn:E; [|by eauto].
  apply parseTerm_consumes in E. cbn in E. case_match; [by eauto|]. apply IH. lia.
Qed.

(** ** Durations without fractions *)

(** What may follow a unit: nothing, or the next term. *)
Definition term_ends (s : string) : Prop := match s with EmptyString => True | String c _ => startsNumber c = true end.

(** What may follow the digits of an integer. *)
Definition int_ends (s : string) : Prop := match s with EmptyString => True | String c _ => digit_val c = None end.

Lemma leadingInt_stop x s : int_ends s → leadingInt x s = Some (x, s).
Proof. destruct s as [|c s]; [done|]. cbn. by intros ->. Qed.

Lemma leadingInt_go x s :
  leadingInt 0 (pretty_N_go x s) = if (maxAbs <? x)%N then None else leadingInt x s.
Proof.
  revert s. induction (N.lt_wf_0 x) as [x _ IH]; intros s.
  destruct (decide (x = 0)%N) as [->|]; [done|]. rewrite pretty_N_go_step by lia.
  rewrite IH by (apply N.div_lt; lia). cbn [leadingInt].
  rewrite digit_val_pretty by (apply N.mod_lt; lia).
  replace (x `div` 10 * 10 + x `mod` 10)%N with x by (pose proof (N.div_mod' x 10); lia).
  assert (maxAbs < x → maxAbs / 10 ≤ x `div` 10)%N by (intros; apply N.Div0.div_le_mono; lia).
  assert (maxAbs / 10 < x `div` 10 → maxAbs < x)%N
    by (intros Hlt; apply N.nle_gt; intros Hle%(N.Div0.div_le_mono _ _ 10); by apply N.nle_gt in Hlt).
  assert (x `div` 10 ≤ x)%N by (apply N.Div0.div_le_upper_bound; lia).
  repeat case_match; rewrite ?N.ltb_lt, ?N.ltb_ge in *; try done; lia.
Qed.

Lemma pretty_app (x : N) s : x ≠ 0%N → pretty x +:+ s = pretty_N_go x s.
Proof.
  intros Hx. unfold pretty, pretty_N. rewrite decide_False by done.
  assert (∀ t, pretty_N_go x t +:+ s = pretty_N_go x (t +:+ s)) as H.
  { clear Hx. induction (N.lt_wf_0 x) as [x _ IH]; intros t.
    destruct (decide (x = 0)%N) as [->|]; [done|]. rewrite (pretty_N_go_step x t), (pretty_N_go_step x (t +:+ s)) by lia.
    apply (IH (x `div` 10)%N), N.div_lt; lia. }
  apply H.
Qed.

Lemma leadingInt_pretty (n : N) s :
  int_ends s → leadingInt 0 (pretty n +:+ s) = if (maxAbs <? n)%N then None else Some (n, s).
Proof.
  intros Hs. destruct (decide (n = 0)%N) as [->|Hn].
  - change (pretty 0%N +:+ s) with (String "0" s). cbn [leadingInt]. change (digit_val "0") with (Some 0%N). cbn.
    by rewrite leadingInt_stop.
  - rewrite pretty_app, leadingInt_go by done. by rewrite leadingInt_stop.
Qed.

Lemma takeUnit_app u s :
  (∀ c, contains_char c u = true → startsNumber c = false) → term_ends s → takeUnit (u +:+ s) = (u, s).
Proof.
  intros Hu Hs. induction u as [|c u IH].
  - destruct s as [|c s]; [done|]. cbn [term_ends] in Hs. change ("" +:+ String c s) with (String c s). cbn [takeUnit]. by rewrite Hs.
  - change (String c u +:+ s) with (String c (u +:+ s)). cbn [takeUnit].
    rewrite (Hu c) by (cbn [contains_char]; by rewrite bool_decide_eq_true_2). rewrite IH; [done|].
    intros c' Hc. apply Hu. cbn. rewrite Hc. apply orb_true_r.
Qed.

(** The texts of units: none starts a number. *)
Lemma unitMap_chars u unit :
  unitMap !! u = Some unit →
  u ≠ "" ∧ (unit ≠ 0)%N ∧ (∀ s, int_ends (u +:+ s)) ∧
  (∀ c, contains_char c u = true → startsNumber c = false).
Proof.
  intros H%elem_of_list_to_map_2. repeat (apply elem_of_cons in H as [[= -> ->]|H]); [..|by apply elem_of_nil in H];
    (split; [done|]; split; [done|]; split; [intros s; vm_compute; reflexivity|]); intros c Hc;
    cbn [contains_char] in Hc;
    repeat (apply orb_true_iff in Hc as [<-%bool_decide_eq_true|Hc]; [reflexivity|]); done.
Qed.

Lemma startsNumber_pretty (n : N) : ∃ c r, pretty n = String c r ∧ is_Some (digit_val c).
Proof.
  assert (∀ (x : N) c r, is_Some (digit_val c) → ∃ c' r', pretty_N_go x (String c r) = String c' r' ∧ is_Some (digit_val c')) as H.
  { intros x. induction (N.lt_wf_0 x) as [x _ IH]; intros c r Hc.
    destruct (decide (x = 0)%N) as [->|]; [by eauto|]. rewrite pretty_N_go_step by lia.
    apply IH; [apply N.div_lt; lia|]. rewrite digit_val_pretty by (apply N.mod_lt; lia). done. }
  unfold pretty, pretty_N. case_decide; [by eauto|]. rewrite pretty_N_go_step by lia.
  apply H. rewrite digit_val_pretty by (apply N.mod_lt; lia). done.
Qed.

Lemma parseTerm_whole (n : N) u unit s :
  unitMap !! u = Some unit → term_ends s →
  parseTerm (pretty n +:+ u +:+ s) =
  if (maxAbs <? n * unit)%N then Err EInvalidDuration else Ok ((n * unit)%N, s).
Proof.
  intros Hu Hs. destruct (unitMap_chars _ _ Hu) as (Hne & H0 & Hint & Hc).
  destruct (startsNumber_pretty n) as (c & r & Hp & Hd). unfold parseTerm.
  assert (pretty n +:+ u +:+ s = String c (r +:+ u +:+ s)) as -> by (by rewrite Hp).
  assert (startsNumber c = true) as -> by (unfold startsNumber; by rewrite (bool_decide_eq_true_2 (is_Some _)), orb_true_r).
  cbn [mbind result_bind]. change (String c (r +:+ u +:+ s)) with (String c r +:+ u +:+ s). rewrite <-Hp.
  rewrite leadingInt_pretty by done.
  assert (maxAbs / unit < n ↔ maxAbs < n * unit)%N as Hdiv.
  { rewrite N.lt_nge, (N.lt_nge maxAbs). apply not_iff_compat. rewrite N.mul_comm. split.
    - intros H. etrans; [apply N.mul_le_mono_l, H|]. by apply N.Div0.mul_div_le.
    - intros H. by apply N.div_le_lower_bound. }
  destruct (N.ltb_spec maxAbs n) as [Hn|Hn].
  { destruct (N.ltb_spec maxAbs (n * unit)); [done|nia]. }
  assert (String.length (pretty n) ≠ 0) by (by rewrite Hp).
  set (t := match u +:+ s with String _ _ => _ | _ => _ end).
  assert (t = (0%N, float64 1, u +:+ s, false)) as ->.
  { subst t. destruct u as [|a u]; [done|]. change (String a u +:+ s) with (String a (u +:+ s)).
    assert (startsNumber a = false) as Ha by (apply Hc; cbn; by rewrite bool_decide_eq_true_2).
    destruct a as [[] [] [] [] [] [] [] []]; try reflexivity. by vm_compute in Ha. }
  destruct (Nat.eqb_spec (String.length (u +:+ s)) (String.length (pretty n +:+ u +:+ s))) as [He|_];
    [rewrite !length_app_string in He; lia|].
  cbn [negb andb]. rewrite takeUnit_app by done. rewrite bool_decide_eq_false_2 by done. rewrite Hu.
  repeat (case_match; rewrite ?N.ltb_lt, ?N.ltb_ge in * ); try done; lia.
Qed.

(** A duration written without fractions. *)
Definition term_text (t : N * string) : string := pretty t.1 +:+ t.2.
Definition duration_text (ts : list (N * string)) : string := String.concat "" (term_text <$> ts).
Definition term_value (t : N * string) : N := (t.1 * default 0 (unitMap !! t.2))%N.
Definition duration_value (ts : list (N * string)) : N := foldr N.add 0%N (term_value <$> ts).
Definition known_unit (t : N * string) : Prop := is_Some (unitMap !! t.2).

Lemma duration_text_cons t ts : duration_text (t :: ts) = pretty t.1 +:+ t.2 +:+ duration_text ts.
Proof.
  unfold duration_text, term_text. destruct ts; cbn [fmap list_fmap String.concat].
  - by rewrite (app_nil_string t.2).
  - apply app_assoc_string.
Qed.

Lemma duration_text_ends ts : term_ends (duration_text ts).
Proof.
  destruct ts as [|t ts]; [done|]. rewrite duration_text_cons.
  destruct (startsNumber_pretty t.1) as (c & r & -> & Hd). change (startsNumber c = true).
  unfold startsNumber. by rewrite (bool_decide_eq_true_2 (is_Some _)), orb_true_r.
Qed.

Lemma parseTerms_whole fuel d ts :
  Forall known_unit ts → Forall (λ t, term_value t ≠ maxAbs) ts → (d ≤ maxAbs)%N →
  String.length (duration_text ts) ≤ fuel →
  parseTerms fuel d (duration_text ts) =
  Some (if (maxAbs <? d + duration_value ts)%N then Err EInvalidDuration else Ok (d + duration_value ts)%N).
Proof.
  intros Hu Hv. revert fuel d. induction ts as [|t ts IH]; intros fuel d Hd Hf.
  { destruct fuel; cbn; rewrite N.add_0_r; destruct (N.ltb_spec maxAbs d); done || lia. }
  apply Forall_cons in Hu as [[unit Hu] Hus]. apply Forall_cons in Hv as [Hv Hvs].
  assert (term_value t = (t.1 * unit)%N) as Ht by (unfold term_value; by rewrite Hu).
  assert (duration_value (t :: ts) = (t.1 * unit + duration_value ts)%N) as -> by (by rewrite <-Ht).
  rewrite duration_text_cons in *. pose proof (parseTerm_whole t.1 t.2 unit _ Hu (duration_text_ends ts)) as Hp.
  assert (String.length (pretty t.1) ≠ 0) by (destruct (startsNumber_pretty t.1) as (c & r & -> & _); done).
  destruct fuel as [|fuel]; [rewrite length_app_string in Hf; lia|]. cbn [parseTerms].
  rewrite bool_decide_eq_false_2.
  2:{ intros E. apply (f_equal String.length) in E. rewrite length_app_string in E. cbn in E. lia. }
  rewrite Hp. destruct (N.ltb_spec maxAbs (t.1 * unit)) as [Hm|Hm].
  { destruct (N.ltb_spec maxAbs (d + (t.1 * unit + duration_value ts))); [done|lia]. }
  assert (wrapU64 (d + t.1 * unit) = d + t.1 * unit)%N as ->.
  { unfold wrapU64. apply N.mod_small. unfold maxAbs in *. rewrite Ht in Hv. lia. }
  destruct (N.ltb_spec maxAbs (d + t.1 * unit)) as [Ho|Ho].
  { destruct (N.ltb_spec maxAbs (d + (t.1 * unit + duration_value ts))); [done|lia]. }
  rewrite IH, N.add_assoc; [done..|]. rewrite !length_app_string in Hf. lia.
Qed.

(** A duration without fractions is parsed exactly, with either sign, and refused exactly when it does not fit
    in 64 bits. *)
Lemma ParseDuration_whole ts :
  ts ≠ [] → Forall known_unit ts → Forall (λ t, term_value t ≠ maxAbs) ts →
  ParseDuration (duration_text ts) =
    (if (duration_value ts <? maxAbs)%N then Ok (Z.of_N (duration_value ts)) else Err EInvalidDuration) ∧
  ParseDuration ("-" +:+ duration_text ts) =
    (if (duration_value ts <=? maxAbs)%N then Ok (- Z.of_N (duration_value ts))%Z else Err EInvalidDuration).
Proof.
  intros Hts Hu Hv. pose proof (parseTerms_whole _ 0 ts Hu Hv (N.le_0_l _) (le_n _)) as Hp.
  rewrite N.add_0_l in Hp.
  assert (1 < String.length (duration_text ts)) as Hl.
  { destruct ts as [|t ts]; [done|]. rewrite duration_text_cons, !length_app_string.
    destruct (startsNumber_pretty t.1) as (c & r & -> & _). apply Forall_cons in Hu as [[unit Hu] _].
    apply unitMap_chars in Hu as (Hne & _). destruct t.2; [done|]. cbn. lia. }
  assert (bool_decide (duration_text ts = "0") = false) as H0 by (apply bool_decide_eq_false; intros E; rewrite E in Hl; cbn in Hl; lia).
  assert (bool_decide (duration_text ts = "") = false) as H1 by (apply bool_decide_eq_false; intros E; rewrite E in Hl; cbn in Hl; lia).
  unfold ParseDuration. split.
  - set (sgn := match duration_text ts with String _ _ => _ | _ => _ end).
    assert (sgn = (false, duration_text ts)) as ->.
    { subst sgn. destruct ts as [|t ts]; [done|]. rewrite duration_text_cons.
      destruct (startsNumber_pretty t.1) as (c & r & Hc & Hd). rewrite Hc.
      change (String c r +:+ t.2 +:+ duration_text ts) with (String c (r +:+ t.2 +:+ duration_text ts)).
      cbv beta iota. rewrite !bool_decide_eq_false_2 by (intros ->; by destruct Hd). done. }
    cbv beta iota. rewrite H0, H1, Hp. assert (0 < maxAbs)%N by done.
    destruct (N.ltb_spec maxAbs (duration_value ts)), (N.ltb_spec (duration_value ts) maxAbs); try lia; [done|..];
      destruct (N.ltb_spec (maxAbs - 1) (duration_value ts)); done || lia.
  - change ("-" +:+ duration_text ts) with (String "-" (duration_text ts)). cbv beta iota.
    rewrite bool_decide_eq_true_2 by done. rewrite H0, H1, Hp.
    by destruct (N.ltb_spec maxAbs (duration_value ts)), (N.leb_spec (duration_value ts) maxAbs); try lia.
Qed.
