(* ===== verification/StatusExporter.v ===== *)
(** * The status exporter ([cmd/status/exporter.go])

    The daemon that wires the session state controller to vtysh: its [BGPPeersFetcher] is
    [GetBGPNeighbors].  From the text vtysh prints to the objects of the cluster. *)

From Stdlib Require Import Ascii Lia.
From S2P Require Import Prelude GoStrings GoNet IPFamily Community Api FrrConfig Errors.
From S2P Require Import Merge ApiToConfig Logging Reconciler Json JsonPrint Parse ParseProps ParseText.
From S2P Require Import Metrics MetricsProps SessionState SessionProps.

(** The fetcher main installs; the errors of vtysh are opaque to the controller. *)
Definition BGPPeersFetcher (Error : vtyshError → string) (frrCli : Cli)
    : result k8sError (gmap string (list FrrNeighbor)) :=
  match GetBGPNeighbors frrCli with
  | Ok neighbors => Ok neighbors
  | Err e => Err (EAPI (Error e))
  end.

(** The name the objects give to a VRF of FRR. *)
Definition vrf_name (vrf : string) : string := if bool_decide (vrf = "default") then "" else vrf.

(** The label of a peer: an IPv6 address in full, with dashes, and anything else as it is. *)
Definition peer_label (peer : string) : string :=
  match ParseAddr peer with
  | Some (Addr6 bytes zone) =>
      String.concat "-" (appendHexPad <$> groups16 bytes) +:+
      (if bool_decide (zone = "") then "" else "%" +:+ replaceColons zone)
  | _ => peer
  end.

(** The session of FRR with a peer in a VRF, by the name the objects give to the VRF. *)
Definition in_state (st : frrState) (vrf peer : string) (n : FRRNeighbor) : Prop :=
  ∃ frrVrf ns, vrf = vrf_name frrVrf ∧ st !! frrVrf = Some ns ∧ ns !! peer = Some n.

(** The sessions can be told apart: no VRF has the name of the default one, and no two
    peers of a VRF have the same label. *)
Definition told_apart (st : frrState) : Prop :=
  st !! "" = None ∧
  ∀ vrf peer peer' n n', in_state st vrf peer n → in_state st vrf peer' n' →
    peer_label peer = peer_label peer' → peer = peer'.

(** What the object of a session says. *)
Definition session_labels (node vrf peer : string) : labels :=
  <["frrk8s.metallb.io/node" := node]> (<["frrk8s.metallb.io/peer" := peer_label peer]>
    {["frrk8s.metallb.io/vrf" := vrf]}).
Definition session_status (node vrf peer : string) (n : FRRNeighbor) : BGPSessionStateStatus := {|
  SS_BGPStatus := FR_BgpState n;
  SS_BFDStatus := if bool_decide (PB_Status (FR_BFDInfo n) = "") then "N/A" else PB_Status (FR_BFDInfo n);
  SS_Node := node;
  SS_Peer := peer_label peer;
  SS_VRF := vrf |}.

(** The object to write for a session: a new one, for the API server to name, or the one there
    is, under its name. *)
Record object_of (r : SessionReconciler) (old : option BGPSessionState) (vrf peer : string) (n : FRRNeighbor)
    (s : BGPSessionState) : Prop := {
  oo_name : match old with
    | None => BSS_Name s = "" ∧ BSS_GenerateName s = SR_NodeName r +:+ "-" ∧ BSS_Namespace s = SR_Namespace r
    | Some o => BSS_Name s = BSS_Name o ∧ BSS_GenerateName s = BSS_GenerateName o ∧ BSS_Namespace s = BSS_Namespace o
    end;
  oo_labels : BSS_Labels s = session_labels (SR_NodeName r) vrf peer;
  oo_status : BSS_Status s = session_status (SR_NodeName r) vrf peer n }.

(** The object there is says so already. *)
Definition says (r : SessionReconciler) (old : option BGPSessionState) (vrf peer : string) (n : FRRNeighbor) : Prop :=
  ∃ o, old = Some o ∧ BSS_Labels o = session_labels (SR_NodeName r) vrf peer ∧
    BSS_Status o = session_status (SR_NodeName r) vrf peer n.

Definition neighbors_of (st : frrState) : gmap string (list FrrNeighbor) :=
  (λ ns, (λ '(k, n), toNeighbor k n) <$> map_to_list ns) <$> st.

Lemma elem_of_reported (neighbors : gmap string (list FrrNeighbor)) session :
  neighbors !! "" = None →
  session ∈ reported neighbors ↔
  ∃ vrf xs, neighbors !! vrf = Some xs ∧ session.2 ∈ xs ∧ session.1 = vrf_name vrf.
Proof.
  intros Hempty. unfold reported, sessions, renameDefaultVRF. rewrite list_elem_of_bind. unfold vrf_name. split.
  - intros ([v xs] & Hs & [Hv Hx]%elem_of_map_to_list%lookup_delete_Some).
    apply list_elem_of_fmap in Hs as (x & -> & Hin). cbn.
    apply lookup_insert_Some in Hx as [[<- Hx]|[Hne Hx]].
    + destruct (neighbors !! "default") as [ys|] eqn:E; cbn in Hx; subst xs; [|by apply elem_of_nil in Hin].
      exists "default", ys. done.
    + exists v, xs. split_and!; [done..|]. by rewrite bool_decide_eq_false_2.
  - destruct session as [v x]. cbn. intros (vrf & xs & Hn & Hin & ->).
    exists (if bool_decide (vrf = "default") then "" else vrf, xs). split; [by apply list_elem_of_fmap_2|].
    apply elem_of_map_to_list, lookup_delete_Some. case_bool_decide as E.
    + subst vrf. split; [done|]. by rewrite lookup_insert_eq, Hn.
    + split; [done|]. rewrite lookup_insert_ne by (intros <-; congruence). done.
Qed.

Lemma reported_in_state st session :
  st !! "" = None →
  session ∈ reported (neighbors_of st) ↔ ∃ peer n, in_state st session.1 peer n ∧ session.2 = toNeighbor peer n.
Proof.
  intros Hempty. rewrite elem_of_reported.
  2:{ unfold neighbors_of. by rewrite lookup_fmap, Hempty. }
  unfold in_state, neighbors_of. split.
  - intros (vrf & xs & (ns & <- & Hst)%lookup_fmap_Some & Hx & Hv).
    apply list_elem_of_fmap in Hx as ([k n] & Hx & Hkn%elem_of_map_to_list). eauto 10.
  - intros (k & n & (vrf & ns & Hv & Hst & Hkn) & Hs). exists vrf. eexists.
    split; [apply lookup_fmap_Some; by eexists|]. split; [|done]. apply list_elem_of_fmap.
    exists (k, n). split; [done|]. by apply elem_of_map_to_list.
Qed.

(** ** Labels *)

Lemma replaceColons_app s t : replaceColons (s +:+ t) = replaceColons s +:+ replaceColons t.
Proof.
  induction s as [|c s IH]; [done|]. change (String c s +:+ t) with (String c (s +:+ t)). cbn [replaceColons].
  by rewrite IH.
Qed.

Lemma hexDigit_plain n : (n < 16)%N → hexDigit n ≠ ":"%char.
Proof.
  intros Hn. unfold hexDigit. destruct (N.ltb_spec n 10); intros Heq; apply (f_equal N_of_ascii) in Heq;
    rewrite N_ascii_embedding in Heq by lia; change (N_of_ascii ":") with 58%N in Heq; lia.
Qed.

Lemma replaceColons_hex n : replaceColons (appendHexPad n) = appendHexPad n.
Proof.
  unfold appendHexPad. cbn [replaceColons].
  rewrite !bool_decide_eq_false_2 by (apply hexDigit_plain, N.mod_lt; lia). done.
Qed.

Lemma replaceColons_groups l :
  replaceColons (String.concat ":" (appendHexPad <$> l)) = String.concat "-" (appendHexPad <$> l).
Proof.
  induction l as [|n l IH]; [done|]. destruct l as [|m l]; [apply replaceColons_hex|].
  change (replaceColons (appendHexPad n +:+ ":" +:+ String.concat ":" (appendHexPad <$> m :: l)) =
    appendHexPad n +:+ "-" +:+ String.concat "-" (appendHexPad <$> m :: l)).
  by rewrite !replaceColons_app, replaceColons_hex, IH.
Qed.

Lemma labelFormat_peer_label peer : labelFormatForNeighbor peer = peer_label peer.
Proof.
  unfold labelFormatForNeighbor, peer_label. destruct (ParseAddr peer) as [[b|b zone]|]; [done| |done].
  unfold StringExpanded. rewrite replaceColons_app, replaceColons_groups. f_equal. by case_bool_decide.
Qed.

Lemma vrf_name_inj vrf vrf' : vrf ≠ "" → vrf' ≠ "" → vrf_name vrf = vrf_name vrf' → vrf = vrf'.
Proof. unfold vrf_name. repeat case_bool_decide; congruence. Qed.

(** The sessions FRR reports have different keys. *)
Lemma reported_keys st : told_apart st → NoDup (session_key <$> reported (neighbors_of st)).
Proof.
  intros [Hempty Hlabels]. apply NoDup_fmap_2_strong.
  - intros [v1 x1] [v2 x2] H1 H2 Hk. apply reported_in_state in H1 as (p1 & n1 & H1 & Hx1), H2 as (p2 & n2 & H2 & Hx2);
      [|done..]. cbn in *. unfold session_key in Hk. cbn in Hk. subst x1 x2. cbn in Hk. rewrite !labelFormat_peer_label in Hk.
    injection Hk as -> Hp. specialize (Hlabels _ _ _ _ _ H1 H2 Hp) as ->.
    destruct H1 as (w1 & ns1 & Hw1 & Hs1 & Hn1), H2 as (w2 & ns2 & Hw2 & Hs2 & Hn2).
    assert (w1 = w2) as -> by (apply vrf_name_inj; congruence). congruence.
  - unfold reported, sessions, renameDefaultVRF. apply NoDup_bind;
      [apply NoDup_map_to_list|intros [v xs] [_ Hv]%elem_of_map_to_list%lookup_delete_Some|].
    + apply NoDup_fmap_2; [congruence|].
      assert (∀ ns : gmap string FRRNeighbor, NoDup ((λ '(k, n), toNeighbor k n) <$> map_to_list ns)) as Hnd.
      { intros ns. apply NoDup_fmap_2_strong; [|apply NoDup_map_to_list].
        intros [k1 n1] [k2 n2] H1%elem_of_map_to_list H2%elem_of_map_to_list Heq.
        apply (f_equal FN_ID) in Heq. cbn in Heq. congruence. }
      unfold neighbors_of in Hv. apply lookup_insert_Some in Hv as [[_ <-]|[_ Hv]].
      * rewrite lookup_fmap. destruct (st !! "default"); [apply Hnd|constructor].
      * apply lookup_fmap_Some in Hv as (ns & <- & _). apply Hnd.
    + intros [v1 xs1] [v2 xs2] y H1%elem_of_map_to_list H2%elem_of_map_to_list
        (x1 & -> & _)%list_elem_of_fmap (x2 & [= -> _] & _)%list_elem_of_fmap. congruence.
Qed.

(** ** Objects *)

Lemma session_key_of vrf peer n : session_key (vrf, toNeighbor peer n) = (vrf, peer_label peer).
Proof. unfold session_key. cbn. by rewrite labelFormat_peer_label. Qed.

Lemma wanted_object r states vrf peer n :
  object_of r (states (vrf, peer_label peer)) vrf peer n (wanted r states (vrf, toNeighbor peer n)).
Proof.
  unfold wanted. rewrite session_key_of. split; cbn [fst snd]; unfold desiredStateFor; cbn [FN_ID FN_BGPState FN_BFDStatus toNeighbor];
    rewrite labelFormat_peer_label; by destruct (states _).
Qed.

Lemma object_of_unique r old vrf peer n s s' :
  object_of r old vrf peer n s → object_of r old vrf peer n s' → s = s'.
Proof.
  intros [Hn Hl Hs] [Hn' Hl' Hs']. destruct s, s'; cbn in *. subst.
  by destruct old; destruct Hn as (-> & -> & ->), Hn' as (-> & -> & ->).
Qed.

Lemma upToDate_says r states vrf peer n :
  upToDate (wanted r states (vrf, toNeighbor peer n)) (states (vrf, peer_label peer)) = true ↔
  says r (states (vrf, peer_label peer)) vrf peer n.
Proof.
  destruct (wanted_object r states vrf peer n) as [_ Hl Hs]. unfold upToDate, says. rewrite Hl, Hs.
  destruct (states _) as [o|]; [|split; [done|by intros (? & ? & _)]].
  rewrite andb_true_iff, !bool_decide_eq_true. split.
  - intros [? ?]. by exists o.
  - by intros (? & [= <-] & -> & ->).
Qed.

(** C27: the cluster mirrors FRR: when vtysh prints the state of FRR and no call to the API server fails,
    a reconciliation deletes exactly the objects that are not the first of their VRF and peer or
    whose VRF and peer is no session of FRR, and creates or patches exactly the objects of the sessions of FRR
    that are missing or whose labels or status differ from those of the session: the node, the peer, the VRF, the
    BGP state and the BFD status FRR prints, or N/A where it prints none; a new object has the node as prefix of its
    name, and one that is there keeps its name.  The VRF FRR calls default has the empty name.  What vtysh prints may
    have other members than those that are decoded, in any order.  The objects listed are distinct, FRR has no VRF with
    the empty name, and no two peers of a VRF have the same label, as two spellings of an IPv6 address would. *)
Theorem session_states_mirror_frr Error cli st r items reqName reqNs :
  answers_from cli st → told_apart st → NoDup items →
  let '(calls, out) :=
    Session_Reconcile r (λ _, None) (Ok items) (BGPPeersFetcher Error cli) reqName reqNs in
  (∀ s, CDelete s ∈ calls ↔
     s ∈ items ∧ (first items (key s) ≠ Some s ∨
       ¬ ∃ vrf peer n, in_state st vrf peer n ∧ key s = (vrf, peer_label peer))) ∧
  (∀ s, CCreateOrPatch s ∈ calls ↔
     ∃ vrf peer n, in_state st vrf peer n ∧
       let old := first items (vrf, peer_label peer) in
       object_of r old vrf peer n s ∧ ¬ says r old vrf peer n) ∧
  out = Done (if bool_decide (reqName = SR_NodeName r) && bool_decide (reqNs = "") then SR_ResyncPeriod r else 0).
Proof.
  intros Ha Hst Hi. pose proof (reported_keys st Hst) as Hs. destruct Hst as [Hempty _].
  unfold BGPPeersFetcher. rewrite (GetBGPNeighbors_answers cli st Ha).
  pose proof (Session_Reconcile_spec r items (neighbors_of st) reqName reqNs Hi Hs) as H.
  destruct (Session_Reconcile _ _ _ _ _ _) as [calls out]. destruct H as (Hd & Hc & Ho). split_and!; [| |done].
  - intros s. rewrite Hd. apply and_iff_compat_l, or_iff_compat_l, not_iff_compat. rewrite list_elem_of_fmap. split.
    + intros ([v x] & Hk & (peer & n & Hin & Hx)%(reported_in_state st _ Hempty)). cbn in *. subst x.
      rewrite session_key_of in Hk. eauto.
    + intros (vrf & peer & n & Hin & Hk). exists (vrf, toNeighbor peer n). rewrite session_key_of.
      split; [done|]. apply (reported_in_state st _ Hempty). eauto.
  - intros s. rewrite Hc. split.
    + intros ([v x] & (peer & n & Hin & Hx)%(reported_in_state st _ Hempty) & -> & Hu). cbn in *. subst x.
      exists v, peer, n. rewrite session_key_of in Hu. split_and!; [done|apply wanted_object|].
      intros Hsays%upToDate_says. congruence.
    + intros (vrf & peer & n & Hin & Hobj & Hsays). exists (vrf, toNeighbor peer n). rewrite session_key_of.
      assert (s = wanted r (first items) (vrf, toNeighbor peer n)) as -> by (eapply object_of_unique; [done|apply wanted_object]).
      split_and!; [apply (reported_in_state st _ Hempty); eauto|done|].
      apply not_true_is_false. intros Hu. by apply Hsays, upToDate_says.
Qed.

(** ** A sample node *)

Lemma sampleState_session vrf peer n :
  in_state sampleState vrf peer n ↔ vrf = "" ∧ peer = "172.18.0.5" ∧ n = sampleFRRNeighbor.
Proof.
  split.
  - intros (v & ns & -> & Hv & Hk). unfold sampleState in Hv.
    apply lookup_singleton_Some in Hv as [<- <-]. by apply lookup_singleton_Some in Hk as [<- <-].
  - intros (-> & -> & ->). exists "default", {["172.18.0.5" := sampleFRRNeighbor]}. split_and!; reflexivity.
Qed.

Lemma sampleState_apart : told_apart sampleState.
Proof.
  split; [vm_compute; reflexivity|].
  by intros vrf p p' n n' (_ & -> & _)%sampleState_session (_ & -> & _)%sampleState_session _.
Qed.

Lemma session_states_mirror_frr_witness :
  let calls := fst (Session_Reconcile sampleSession (λ _, None) (Ok [goneObject])
    (BGPPeersFetcher (λ _, "") sampleCli) "node1" "") in
  CDelete goneObject ∈ calls ∧
  CCreateOrPatch (mkBGPSessionState "" "node1-" "frr-k8s-system"
    (session_labels "node1" "" "172.18.0.5")
    (mkBGPSessionStateStatus "Established" "Up" "node1" "172.18.0.5" "")) ∈ calls.
Proof.
  cbv zeta. pose proof (session_states_mirror_frr (λ _, "") sampleCli sampleState sampleSession [goneObject]
    "node1" "" sampleCli_answers sampleState_apart ltac:(by_evaluation)) as H.
  destruct (Session_Reconcile _ _ _ _ _ _) as [calls out]. destruct H as (Hd & Hc & _).
  split.
  - apply Hd. split; [left|]. right. intros (vrf & peer & n & (-> & -> & ->)%sampleState_session & Hk). vm_compute in Hk. discriminate Hk.
  - apply Hc. exists "", "172.18.0.5", sampleFRRNeighbor. split; [|split; [split; vm_compute; auto|]].
    + by apply sampleState_session.
    + intros (o & Ho & _). vm_compute in Ho. discriminate Ho.
Defined.
