(* ===== verification/SessionLoop.v ===== *)
(** * The loop of the session state controller

    Nothing tells the controller that a session of FRR changed: it polls.  A run for the state of its own node asks to be
    repeated after the resync period, and the other runs are woken by the objects.  This file puts [Reconcile], the
    filters of its events, vtysh, the API server and the queue with its timers together, with time, and shows how old
    what the cluster reports about FRR can be. *)

From Stdlib Require Import Ascii Lia.
From S2P Require Import Prelude GoStrings GoNet IPFamily Community Api FrrConfig Errors Merge ApiToConfig Logging.
From S2P Require Import Debouncer FRRManager Reconciler Json JsonPrint Parse ParseProps ParseText Metrics MetricsProps.
From S2P Require Import StateControllers SessionState SessionProps StatusExporter Watches ControlLoop.

(** ** The API server *)

Definition object_id (s : BGPSessionState) : string * string := (BSS_Namespace s, BSS_Name s).

Definition set_status (status : BGPSessionStateStatus) (s : BGPSessionState) : BGPSessionState :=
  mkBGPSessionState (BSS_Name s) (BSS_GenerateName s) (BSS_Namespace s) (BSS_Labels s) status.

(** A name for [generateName]. *)
Class NameGenerator := newName : list BGPSessionState → string → string.
Class NameGeneratorLaws {NG : NameGenerator} : Prop := {
  newName_set objs g : newName objs g ≠ "";
  newName_fresh objs g s : s ∈ objs → BSS_Name s ≠ newName objs g }.

(** The objects with their names, all different. *)
Definition objects_ok (objs : list BGPSessionState) : Prop :=
  NoDup (object_id <$> objs) ∧ ∀ s, s ∈ objs → BSS_Name s ≠ "".

(** [List] with the label of the node. *)
Definition listed (r : SessionReconciler) (objs : list BGPSessionState) : list BGPSessionState :=
  filter (λ s, BSS_Labels s !! nodeLabel = Some (SR_NodeName r)) objs.

Lemma filter_everything {A} (P : A → Prop) `{!∀ x, Decision (P x)} (l : list A) : (∀ x, x ∈ l → P x) → filter P l = l.
Proof.
  induction l as [|x l IH]; intros Hl; [done|]. rewrite filter_cons_True by (apply Hl; left). f_equal. apply IH.
  intros y Hy. apply Hl. by right.
Qed.

Lemma NoDup_ids_filter (P : BGPSessionState → Prop) `{!∀ x, Decision (P x)} (l : list BGPSessionState) :
  NoDup (object_id <$> l) → NoDup (object_id <$> filter P l).
Proof. intros Hl. eapply sublist_NoDup; [exact Hl|]. apply fmap_sublist, sublist_filter. Qed.

Section calls.
Context {NG : NameGenerator}.

(** A call that succeeds.  [CreateOrPatch] reads the object, and changes the status only; the status is a subresource, so
    an object that is created has none yet.  The events of the creations are returned. *)
Definition performed (objs : list BGPSessionState) (c : call) : list BGPSessionState * list event :=
  match c with
  | CDelete s => (filter (λ o, object_id o ≠ object_id s) objs, [])
  | CCreateOrPatch s =>
      if bool_decide (object_id s ∈ object_id <$> objs)
      then ((λ o, if bool_decide (object_id o = object_id s) then set_status (BSS_Status s) o else o) <$> objs, [])
      else
        let o := mkBGPSessionState (newName objs (BSS_GenerateName s)) (BSS_GenerateName s) (BSS_Namespace s) (BSS_Labels s)
                   (mkBGPSessionStateStatus "" "" "" "" "") in
        (objs ++ [o], [CreateEvent (OSessionState o (bool_decide (BSS_Labels o ≠ ∅)))])
  end.

(** The calls of a run, of which those that fail change nothing. *)
Fixpoint perform (a : answers) (calls : list call) (objs : list BGPSessionState) : list BGPSessionState * list event :=
  match calls with
  | [] => (objs, [])
  | c :: calls =>
      match a c with
      | Some _ => perform a calls objs
      | None =>
          let '(objs1, es1) := performed objs c in
          let '(objs2, es2) := perform a calls objs1 in (objs2, es1 ++ es2)
      end
  end.

(** Only what is not there is not found. *)
Definition honest (a : answers) (objs : list BGPSessionState) : Prop :=
  ∀ s e, a (CDelete s) = Some e → IsNotFound e = true → object_id s ∉ object_id <$> objs.

(** ** What the calls of a run do *)

Lemma performed_ok {NGL : NameGeneratorLaws} objs c : objects_ok objs → objects_ok (performed objs c).1.
Proof using Type.
  intros [Hnd Hne]. destruct c as [s|s]; cbn [performed].
  - split; cbn [fst]; [|intros o [_ Ho]%list_elem_of_filter; auto].
    by apply NoDup_ids_filter.
  - case_bool_decide as Hin; cbn [fst]; split.
    + rewrite <-list_fmap_compose. rewrite (list_fmap_ext _ object_id); [done|]. intros i o _. cbn. by case_bool_decide.
    + intros o (o0 & -> & Ho)%list_elem_of_fmap. case_bool_decide; [cbn|]; auto.
    + rewrite fmap_app, NoDup_app. split_and!; [done| |apply NoDup_singleton].
      intros k (o & -> & Ho)%list_elem_of_fmap Hk%list_elem_of_singleton. injection Hk as _ Hk. by eapply newName_fresh in Ho.
    + intros o [Ho| ->%list_elem_of_singleton]%elem_of_app; [auto|]. apply newName_set.
Qed.

Lemma perform_ok {NGL : NameGeneratorLaws} a calls objs : objects_ok objs → objects_ok (perform a calls objs).1.
Proof using Type.
  revert objs. induction calls as [|c calls IH]; intros objs Hok; [done|]. cbn [perform]. destruct (a c); [by apply IH|].
  pose proof (performed_ok objs c Hok) as H1. destruct (performed objs c) as [objs1 es1].
  pose proof (IH objs1 H1) as H2. by destruct (perform a calls objs1).
Qed.

Definition keep (ds : list BGPSessionState) (objs : list BGPSessionState) : list BGPSessionState :=
  filter (λ o, object_id o ∉ object_id <$> ds) objs.

Lemma perform_deletes a ds cs objs :
  honest a objs → (∀ s, s ∈ ds → failure a (CDelete s) = None) →
  perform a ((CDelete <$> ds) ++ cs) objs = perform a cs (keep ds objs).
Proof using Type.
  revert objs. induction ds as [|d ds IH]; intros objs Hh Hf.
  - unfold keep. rewrite filter_everything; [done|]. intros o _. apply not_elem_of_nil.
  - rewrite fmap_cons. cbn [app perform]. specialize (Hf d ltac:(left)) as Hd. cbn [failure] in Hd.
    assert (keep (d :: ds) objs = keep ds (filter (λ o, object_id o ≠ object_id d) objs)) as Hk.
    { unfold keep. rewrite list_filter_filter. apply list_filter_iff. intros o. rewrite fmap_cons, not_elem_of_cons. naive_solver. }
    rewrite Hk. destruct (a (CDelete d)) as [e|] eqn:Ea.
    + assert (filter (λ o, object_id o ≠ object_id d) objs = objs) as Hsame.
      { apply filter_everything. intros o Ho Heq. apply (Hh d e Ea); [by destruct (IsNotFound e)|].
        rewrite <-Heq. by apply list_elem_of_fmap_2. }
      rewrite Hsame. apply IH; [done|]. intros s Hs. apply Hf. by right.
    + cbn [performed]. rewrite IH.
      * by destruct (perform a cs _).
      * intros s e Hs Hn Hin. apply (Hh s e Hs Hn). apply list_elem_of_fmap in Hin as (o & -> & [_ Ho]%list_elem_of_filter).
        by apply list_elem_of_fmap_2.
      * intros s Hs. apply Hf. by right.
Qed.
End calls.

Section run.
Context {NG : NameGenerator} (r : SessionReconciler).

(** The patches of a run, on one object. *)
Definition patch (l : list BGPSessionState) (o : BGPSessionState) : BGPSessionState :=
  foldl (λ o s, if bool_decide (object_id o = object_id s) then set_status (BSS_Status s) o else o) o l.

Lemma patch_keeps l o : object_id (patch l o) = object_id o ∧ BSS_Labels (patch l o) = BSS_Labels o.
Proof using Type.
  unfold patch. revert o. induction l as [|s l IH]; intros o; [done|]. cbn [foldl]. case_bool_decide; [|apply IH].
  destruct (IH (set_status (BSS_Status s) o)) as [-> ->]. done.
Qed.

Lemma patch_status l o :
  (∃ s, s ∈ l ∧ object_id s = object_id o ∧ BSS_Status (patch l o) = BSS_Status s) ∨
  (∀ s, s ∈ l → object_id s ≠ object_id o) ∧ BSS_Status (patch l o) = BSS_Status o.
Proof using Type.
  unfold patch. induction l as [|s l IH] using rev_ind; [right; split; [by intros ? ?%elem_of_nil|done]|].
  rewrite foldl_snoc. fold (patch l o) in *. destruct (patch_keeps l o) as [Hid _]. case_bool_decide as Hs; rewrite Hid in Hs.
  - left. exists s. split_and!; [apply elem_of_app; right; left|done|done].
  - destruct IH as [(x & ? & ? & ?)|[Hn Hst]]; [left; exists x; split_and!; [by apply elem_of_app; left|done..]|]. right. split; [|done].
    intros x [Hx| ->%list_elem_of_singleton]%elem_of_app; [auto|congruence].
Qed.

Lemma perform_patches a l objs :
  (∀ s, s ∈ l → a (CCreateOrPatch s) = None) →
  (perform a (CCreateOrPatch <$> l) objs).2 ≠ [] ∨
  (∀ s, s ∈ l → object_id s ∈ object_id <$> objs) ∧ (perform a (CCreateOrPatch <$> l) objs).1 = patch l <$> objs.
Proof using Type.
  revert objs. induction l as [|s l IH]; intros objs Ha.
  { right. split; [by intros ? ?%elem_of_nil|]. cbn. by rewrite list_fmap_id. }
  rewrite fmap_cons. cbn [perform]. rewrite (Ha s) by left. cbn [performed]. case_bool_decide as Hin.
  - set (objs1 := _ <$> objs). assert (object_id <$> objs1 = object_id <$> objs) as Hids.
    { unfold objs1. rewrite <-list_fmap_compose. apply list_fmap_ext. intros i o _. cbn. by case_bool_decide. }
    destruct (IH objs1 (λ x Hx, Ha x (list_elem_of_further x s l Hx))) as [He|[Hl Ho]]; destruct (perform a _ objs1) as [objs2 es2]; cbn [fst snd app] in *; [by left|].
    right. split.
    + intros x [->|Hx]%elem_of_cons; [done|]. rewrite <-Hids. auto.
    + rewrite Ho. unfold objs1. rewrite <-list_fmap_compose. done.
  - destruct (perform a _ _) as [objs2 es2]. by left.
Qed.

(** The status the controller gives to a session. *)
Definition wanted_status (session : string * FrrNeighbor) : BGPSessionStateStatus :=
  BSS_Status (wanted r (λ _, None) session).

Lemma wanted_has_status states session : BSS_Status (wanted r states session) = wanted_status session.
Proof using Type. unfold wanted_status, wanted, desiredStateFor. by destruct (states _). Qed.

Lemma wanted_id states session o : states (session_key session) = Some o → object_id (wanted r states session) = object_id o.
Proof using Type. intros H. unfold wanted, desiredStateFor. by rewrite H. Qed.

(** The objects of the node are those of the sessions, one for each, with their states. *)
Definition mirrors (objs : list BGPSessionState) (neighbors : gmap string (list FrrNeighbor)) : Prop :=
  NoDup (key <$> listed r objs) ∧
  (∀ s, s ∈ listed r objs → ∃ session, session ∈ reported neighbors ∧ key s = session_key session ∧
     BSS_Status s = wanted_status session) ∧
  (∀ session, session ∈ reported neighbors → ∃ s, s ∈ listed r objs ∧ key s = session_key session).

Lemma untilFailure_all a cs calls :
  untilFailure a cs = (calls, None) → calls = cs ∧ ∀ c, c ∈ cs → failure a c = None.
Proof using Type.
  revert calls. induction cs as [|c cs IH]; intros calls; cbn; [intros [= <-]; split; [done|by intros ? ?%elem_of_nil]|].
  destruct (failure a c) eqn:E; [done|]. destruct (untilFailure a cs) as [p e]. intros [= <- ->].
  destruct (IH p eq_refl) as [-> H]. split; [done|]. intros c' [->|?]%elem_of_cons; auto.
Qed.

(** A run that succeeds has made all its calls, and none failed. *)
Lemma Session_Reconcile_done a items neighbors reqName reqNs calls d :
  Session_Reconcile r a (Ok items) (Ok neighbors) reqName reqNs = (calls, Done d) →
  let '(toApply, toRemove) := desiredStatesForExisting r (renameDefaultVRF [] neighbors) (fst (peersStatusPerVRF items)) in
  calls = (CDelete <$> snd (peersStatusPerVRF items) ++ toRemove) ++ (CCreateOrPatch <$> toApply) ∧
  ∀ c, c ∈ calls → failure a c = None.
Proof using Type.
  unfold Session_Reconcile. destruct (peersStatusPerVRF items) as [states dups]. cbn [fst snd].
  destruct (untilFailure a (CDelete <$> dups)) as [p [e|]] eqn:Eu; [done|]. apply untilFailure_all in Eu as [-> Hd].
  destruct (desiredStatesForExisting r _ states) as [toApply toRemove]. destruct (_ =? 0)%nat eqn:El; [|done].
  intros [= <- <-]. rewrite fmap_app, <-app_assoc. split; [done|].
  apply Nat.eqb_eq, length_zero_iff_nil in El.
  intros c [Hc|Hc]%elem_of_app; [auto|]. revert c Hc. by apply omap_nil_iff.
Qed.

Lemma unique_element {A B} (f : A → B) (l : list A) x y : NoDup (f <$> l) → x ∈ l → y ∈ l → f x = f y → x = y.
Proof using Type.
  intros Hnd [i Hi]%list_elem_of_lookup [j Hj]%list_elem_of_lookup Heq. assert (i = j) as <-; [|congruence].
  eapply (NoDup_lookup (f <$> l)); [done| |]; rewrite list_lookup_fmap; [by rewrite Hi|]. rewrite Hj. cbn. by rewrite Heq.
Qed.

Lemma listed_patch l ds objs : listed r (patch l <$> keep ds objs) = patch l <$> keep ds (listed r objs).
Proof using Type.
  unfold listed, keep. induction objs as [|o objs IH]; [done|]. rewrite !filter_cons.
  destruct (decide (object_id o ∉ _)) as [Hd|Hd], (decide (BSS_Labels o !! _ = _)) as [Hl|Hl]; rewrite ?filter_cons.
  - rewrite decide_True by done. rewrite !fmap_cons, filter_cons, decide_True; [by f_equal|]. by rewrite (proj2 (patch_keeps l o)).
  - rewrite fmap_cons, filter_cons, decide_False; [done|]. by rewrite (proj2 (patch_keeps l o)).
  - by rewrite decide_False by done.
  - done.
Qed.

Lemma key_patch l o : key (patch l o) = key o.
Proof using Type. unfold key. by rewrite (proj2 (patch_keeps l o)). Qed.

(** The objects that are not deleted: the first of each session. *)
Lemma elem_of_keep items sessions toRemove o :
  NoDup (object_id <$> items) →
  (∀ s, s ∈ toRemove ↔ first items (key s) = Some s ∧ key s ∉ (sessions : list (string * string))) →
  o ∈ keep (snd (peersStatusPerVRF items) ++ toRemove) items ↔ first items (key o) = Some o ∧ key o ∈ sessions.
Proof using Type.
  intros Hids Hr. assert (NoDup items) as Hnd by (by eapply NoDup_fmap_1). unfold keep. rewrite list_elem_of_filter. split.
  - intros [Hn Ho]. rewrite fmap_app, elem_of_app in Hn.
    assert (first items (key o) = Some o) as Hf.
    { destruct (decide (first items (key o) = Some o)) as [|Hne]; [done|]. destruct Hn. left. apply list_elem_of_fmap_2.
      by apply peersStatusPerVRF_duplicates. }
    split; [done|]. destruct (decide (key o ∈ sessions)) as [|Hk]; [done|]. destruct Hn. right. apply list_elem_of_fmap_2. by apply Hr.
  - intros [Hf Hk]. pose proof (first_Some _ _ _ Hf) as [Ho _]. split; [|done].
    intros (s & Hid & Hs)%list_elem_of_fmap.
    assert (s ∈ items ∧ (first items (key s) ≠ Some s ∨ key s ∉ sessions)) as [Hin Hbad].
    { apply elem_of_app in Hs as [Hs|Hs].
      - apply peersStatusPerVRF_duplicates in Hs as [? ?]; [|done]. auto.
      - apply Hr in Hs as [Hs ?]. apply first_Some in Hs as Hs'. destruct Hs'. auto. }
    assert (s = o) as -> by (by eapply (unique_element object_id items)). by destruct Hbad.
Qed.

(** A run that succeeds on what is there leaves objects that mirror FRR, or has created one. *)
Lemma run_mirrors a objs neighbors reqName reqNs calls d :
  objects_ok objs → honest a objs → NoDup (session_key <$> reported neighbors) →
  Session_Reconcile r a (Ok (listed r objs)) (Ok neighbors) reqName reqNs = (calls, Done d) →
  (perform a calls objs).2 ≠ [] ∨ mirrors (perform a calls objs).1 neighbors.
Proof using Type.
  intros [Hids Hnames] Hh Hs Hrun. apply Session_Reconcile_done in Hrun.
  pose proof (desiredStates_spec r (renameDefaultVRF [] neighbors) (listed r objs) Hs) as Hd.
  destruct (desiredStatesForExisting r _ _) as [toApply toRemove]. destruct Hrun as [-> Hf], Hd as [Ha Hr].
  fold (reported neighbors) in Ha, Hr. set (items := listed r objs) in *. set (ds := snd (peersStatusPerVRF items) ++ toRemove) in *.
  rewrite perform_deletes; [|done|]. 2:{ intros s Hin. apply Hf, elem_of_app. left. by apply list_elem_of_fmap_2. }
  destruct (perform_patches a toApply (keep ds objs)) as [He|[Hin ->]]; [|by left|right].
  { intros s Hin. apply (Hf (CCreateOrPatch s)), elem_of_app. right. by apply list_elem_of_fmap_2. }
  assert (NoDup (object_id <$> items)) as Hids' by (by apply NoDup_ids_filter).
  assert (∀ o, o ∈ items → o ∈ objs) as Hobjs by (by intros o [_ ?]%list_elem_of_filter).
  pose proof (λ o, elem_of_keep items _ toRemove o Hids' Hr) as Hkeep. fold ds in Hkeep.
  assert (∀ s, s ∈ toApply → ∃ x, x ∈ reported neighbors ∧ s = wanted r (first items) x ∧
    upToDate s (first items (session_key x)) = false) as Happ.
  { intros s Hsin. rewrite Ha in Hsin. apply list_elem_of_omap in Hsin as (x & Hx & Hw). unfold to_write in Hw. exists x.
    destruct (upToDate _ _) eqn:E; [done|]. by injection Hw as <-. }
  assert (∀ x, x ∈ reported neighbors → is_Some (first items (session_key x))) as Hfirst.
  { intros x Hx. destruct (first items (session_key x)) as [o|] eqn:E; [done|]. exfalso.
    assert (wanted r (first items) x ∈ toApply) as Hw.
    { rewrite Ha. apply list_elem_of_omap. exists x. split; [done|]. unfold to_write. by rewrite E. }
    apply Hin, list_elem_of_fmap in Hw as (o & Hid & [_ Ho]%list_elem_of_filter). apply (Hnames o Ho).
    unfold wanted, desiredStateFor in Hid. rewrite E in Hid. by injection Hid. }
  unfold mirrors. rewrite listed_patch. fold items. split_and!.
  - rewrite <-list_fmap_compose, (list_fmap_ext _ key) by (intros i o _; apply key_patch).
    apply NoDup_fmap_2_strong; [|by apply NoDup_filter; eapply NoDup_fmap_1].
    intros o1 o2 [H1 _]%Hkeep [H2 _]%Hkeep Hk. congruence.
  - intros s (o & -> & Ho)%list_elem_of_fmap. apply Hkeep in Ho as [Hfo (x & Hk & Hx)%list_elem_of_fmap].
    exists x. rewrite key_patch. split_and!; [done..|].
    apply first_Some in Hfo as Ho. destruct Ho as [Ho _].
    destruct (patch_status toApply o) as [(s & Hsin & Hid & ->)|[Hno ->]].
    + apply Happ in Hsin as (y & Hy & -> & _). rewrite wanted_has_status. f_equal.
      destruct (Hfirst y Hy) as [o' Ho']. rewrite (wanted_id _ _ _ Ho') in Hid.
      apply first_Some in Ho' as [Ho'in Hk']. assert (o' = o) as -> by (by apply (unique_element object_id items)).
      apply (unique_element session_key (reported neighbors)); congruence.
    + rewrite Hk in Hfo. destruct (upToDate (wanted r (first items) x) (first items (session_key x))) eqn:E.
      * apply upToDate_wanted in E as (s & Hs' & _ & Hst). assert (s = o) as -> by congruence. exact Hst.
      * exfalso. apply (Hno (wanted r (first items) x)); [|by apply wanted_id].
        rewrite Ha. apply list_elem_of_omap. exists x. split; [done|]. unfold to_write. by rewrite E.
  - intros x Hx. destruct (Hfirst x Hx) as [o Ho]. pose proof (first_Some _ _ _ Ho) as [_ Hk].
    exists (patch toApply o). rewrite key_patch. split; [|done]. apply list_elem_of_fmap_2, Hkeep. rewrite Hk.
    split; [done|]. by apply list_elem_of_fmap_2.
Qed.
End run.

(** ** The loop *)

(** What the controller reads: the objects, and the state of FRR. *)
Record sessionWorld := mkSessionWorld { SW_objects : list BGPSessionState; SW_frr : frrState }.

Definition world_ok (w : sessionWorld) : Prop :=
  objects_ok (SW_objects w) ∧ told_apart (SW_frr w).

(** The controller with its queue and timers.  [X_running] is the request being handled, when it was taken and the worlds
    since; [X_changed] is when somebody else last changed the world, and [X_polled] when the last run that asked to be
    repeated started and ended. *)
Record exporter := mkExporter {
  X_now : Z;
  X_world : sessionWorld;
  X_queue : gset request;
  X_timers : gmap request Z;
  X_running : option (request * Z * list sessionWorld);
  X_changed : Z;
  X_polled : option (Z * Z) }.

(** [AddAfter]: of two times for one request the earlier counts. *)
Definition addAfter (timers : gmap request Z) (req : request) (t : Z) : gmap request Z :=
  <[req := match timers !! req with Some t' => Z.min t' t | None => t end]> timers.

Section sessionLoop.
Context {NG : NameGenerator} {NGL : NameGeneratorLaws} `{!ControllerRuntime, !ControllerRuntimeLaws}.
Context (Error : vtyshError → string) (r : SessionReconciler).
(** How long a run may take. *)
Context (limit : Z).

(** What a run is told: the objects and the sessions of some world it saw, or an error. *)
Definition told_objects (ws : list sessionWorld) (l : result k8sError (list BGPSessionState)) : Prop :=
  match l with Ok items => ∃ w, w ∈ ws ∧ items = listed r (SW_objects w) | Err _ => True end.
Definition told_sessions (ws : list sessionWorld) (cli : Cli) : Prop :=
  (∃ w, w ∈ ws ∧ answers_from cli (SW_frr w)) ∨ ∃ e, BGPPeersFetcher Error cli = Err e.

Inductive exporter_step : exporter → exporter → Prop :=
  (** Sessions come up and go down, and others change objects. *)
  | exporter_change t w q ts running c p w' es :
      world_ok w' →
      exporter_step (mkExporter t w q ts running c p)
        (mkExporter t w' (q ∪ queued (Session_SetupWithManager r) es) ts (prod_map id (cons w') <$> running) t p)
  (** Time passes, but no timer is missed and no run takes too long. *)
  | exporter_tick t w q ts running c p d :
      (0 ≤ d)%Z → (∀ req t', ts !! req = Some t' → t + d ≤ t')%Z →
      (∀ req s ws, running = Some (req, s, ws) → t + d ≤ s + limit)%Z →
      exporter_step (mkExporter t w q ts running c p) (mkExporter (t + d) w q ts running c p)
  | exporter_fire t w q ts running c p req :
      ts !! req = Some t →
      exporter_step (mkExporter t w q ts running c p) (mkExporter t w (q ∪ {[req]}) (delete req ts) running c p)
  | exporter_start t w q ts c p req :
      req ∈ q →
      exporter_step (mkExporter t w q ts None c p) (mkExporter t w (q ∖ {[req]}) ts (Some (req, t, [w])) c p)
  (** The calls take effect at the end of the run; [es] are the events of its deletions and patches. *)
  | exporter_done t w q ts req s ws c p a l cli calls d es :
      told_objects ws l → told_sessions ws cli → honest a (SW_objects w) →
      Session_Reconcile r a l (BGPPeersFetcher Error cli) (Request_Name req) (Request_Namespace req) = (calls, Done d) →
      exporter_step (mkExporter t w q ts (Some (req, s, ws)) c p)
        (mkExporter t (mkSessionWorld (perform a calls (SW_objects w)).1 (SW_frr w))
           (q ∪ queued (Session_SetupWithManager r) ((perform a calls (SW_objects w)).2 ++ es))
           (if (0 <? d)%Z then addAfter ts req (t + d) else ts) None c (if (0 <? d)%Z then Some (s, t) else p))
  (** A run that failed is queued again. *)
  | exporter_failed t w q ts req s ws c p a l cli calls errs es :
      told_objects ws l → told_sessions ws cli →
      Session_Reconcile r a l (BGPPeersFetcher Error cli) (Request_Name req) (Request_Namespace req) = (calls, Failed errs) →
      exporter_step (mkExporter t w q ts (Some (req, s, ws)) c p)
        (mkExporter t (mkSessionWorld (perform a calls (SW_objects w)).1 (SW_frr w))
           (q ∪ {[req]} ∪ queued (Session_SetupWithManager r) ((perform a calls (SW_objects w)).2 ++ es)) ts None c p).

(** The controller starts with the events of the objects there are, among them the state of the node. *)
Definition nodeRequest : request := mkReconcileRequest "" (SR_NodeName r).
Definition exporter_init (t : Z) (w : sessionWorld) (status : FRRNodeStateStatus) (es : list event) : exporter :=
  mkExporter t w (queued (Session_SetupWithManager r) (CreateEvent (ONodeState (SR_NodeName r) status) :: es)) ∅ None t None.

(** ** The invariant *)

Record exporter_inv (x : exporter) : Prop := {
  xi_world : world_ok (X_world x);
  xi_changed : (X_changed x ≤ X_now x)%Z;
  xi_timers req t : X_timers x !! req = Some t → (X_now x ≤ t)%Z;
  xi_polled s e : X_polled x = Some (s, e) → (s ≤ e ≤ X_now x ∧ e ≤ s + limit)%Z;
  xi_running req s ws : X_running x = Some (req, s, ws) →
    (s ≤ X_now x ≤ s + limit)%Z ∧ ws ≠ [] ∧ (∀ s' e, X_polled x = Some (s', e) → s' ≤ s)%Z ∧
    ((X_changed x < s)%Z → ∀ w, w ∈ ws → w = X_world x);
  xi_polls : nodeRequest ∈ X_queue x ∨ (∃ s ws, X_running x = Some (nodeRequest, s, ws)) ∨
    ∃ t s e, X_timers x !! nodeRequest = Some t ∧ X_polled x = Some (s, e) ∧ (t ≤ e + SR_ResyncPeriod r)%Z;
  xi_settled : X_running x = None → X_queue x ≠ ∅ ∨
    ∀ s e, X_polled x = Some (s, e) → (X_changed x < s)%Z → mirrors r (SW_objects (X_world x)) (neighbors_of (SW_frr (X_world x))) }.

(** The events of the calls are those of the created objects. *)
Lemma perform_events a calls objs e :
  e ∈ (perform a calls objs).2 → ∃ s o, CCreateOrPatch s ∈ calls ∧ BSS_Labels o = BSS_Labels s ∧
    e = CreateEvent (OSessionState o (bool_decide (BSS_Labels s ≠ ∅))).
Proof using Type.
  revert objs. induction calls as [|c calls IH]; intros objs; [by intros ?%elem_of_nil|]. cbn [perform].
  assert (∀ objs, e ∈ (perform a calls objs).2 → ∃ s o, CCreateOrPatch s ∈ c :: calls ∧ BSS_Labels o = BSS_Labels s ∧
    e = CreateEvent (OSessionState o (bool_decide (BSS_Labels s ≠ ∅)))) as IH'.
  { intros objs' (s & o & Hs & ?)%IH. exists s, o. split; [by right|done]. }
  destruct (a c); [apply IH'|]. destruct (performed objs c) as [objs1 es1] eqn:Ep. specialize (IH' objs1).
  destruct (perform a calls objs1) as [objs2 es2]. cbn [snd] in *. intros [He|He]%elem_of_app; [|auto].
  destruct c as [s|s]; cbn [performed] in Ep; [injection Ep as _ <-; by apply elem_of_nil in He|].
  destruct (bool_decide (object_id s ∈ _)); injection Ep as _ <-; [by apply elem_of_nil in He|]. apply list_elem_of_singleton in He as ->.
  eexists s, _. split; [left|]. split; [|reflexivity]. done.
Qed.

(** A creation wakes the controller. *)
Lemma created_queued a calls objs es :
  (∀ s, CCreateOrPatch s ∈ calls → BSS_Labels s !! nodeLabel = Some (SR_NodeName r)) →
  (perform a calls objs).2 ≠ [] → queued (Session_SetupWithManager r) ((perform a calls objs).2 ++ es) ≠ ∅.
Proof using All.
  intros Hl Hne. destruct (perform a calls objs).2 as [|e es'] eqn:Ep; [done|]. intros Hq.
  destruct (perform_events a calls objs e) as (s & o & Hs & Ho & He); [rewrite Ep; left|].
  apply Hl in Hs. apply (ignored_filtered _ e EnqueueRequestForObject) in Hq; [|left|subst e; left|done].
  subst e. cbn in Hq. unfold nodeFor in Hq. rewrite Ho, Hs in Hq. cbn in Hq. rewrite !bool_decide_eq_true_2 in Hq; [done|done|].
  intros Hz. by rewrite Hz, lookup_empty in Hs.
Qed.

(** What a run that succeeded was told, and when it is repeated. *)
Lemma Session_Reconcile_told a l f name ns calls d :
  Session_Reconcile r a l f name ns = (calls, Done d) →
  (∃ items, l = Ok items) ∧ (∃ neighbors, f = Ok neighbors) ∧
  d = if bool_decide (name = SR_NodeName r) && bool_decide (ns = "") then SR_ResyncPeriod r else 0%Z.
Proof using Type.
  unfold Session_Reconcile. destruct l as [items|e]; [|done]. destruct (peersStatusPerVRF items) as [states dups].
  destruct (untilFailure a _) as [p [e|]]; [done|]. destruct f as [neighbors|e]; [|done].
  destruct (desiredStatesForExisting _ _ _) as [toApply toRemove]. destruct (_ =? 0)%nat; [|done]. intros [= _ <-].
  split_and!; [by eexists..|done].
Qed.

(** A run without changes mirrors FRR, or is followed by another. *)
Lemma run_without_changes a l cli ws w req calls d es :
  world_ok w → ws ≠ [] → (∀ w', w' ∈ ws → w' = w) → told_objects ws l → told_sessions ws cli → honest a (SW_objects w) →
  Session_Reconcile r a l (BGPPeersFetcher Error cli) (Request_Name req) (Request_Namespace req) = (calls, Done d) →
  queued (Session_SetupWithManager r) ((perform a calls (SW_objects w)).2 ++ es) ≠ ∅ ∨
  mirrors r (perform a calls (SW_objects w)).1 (neighbors_of (SW_frr w)).
Proof using All.
  intros (Hok & Hnd%reported_keys) Hne Hws Hl Hcli Hh Hrun. pose proof (Session_Reconcile_told _ _ _ _ _ _ _ Hrun) as ([items ->] & [nbrs Hn] & _).
  cbn in Hl. destruct Hl as (w1 & ->%Hws & ->). destruct Hcli as [(w2 & ->%Hws & Hans)|[e He]]; [|congruence].
  unfold BGPPeersFetcher in Hrun. rewrite (GetBGPNeighbors_answers _ _ Hans) in Hrun. fold (neighbors_of (SW_frr w)) in Hrun.
  destruct (run_mirrors r a _ _ _ _ _ _ Hok Hh Hnd Hrun) as [Hc|Hm]; [left|by right].
  apply created_queued; [|done]. intros s Hs. apply Session_Reconcile_done in Hrun.
  pose proof (desiredStates_spec r (renameDefaultVRF [] (neighbors_of (SW_frr w))) (listed r (SW_objects w)) Hnd) as Hd.
  destruct (desiredStatesForExisting r _ _) as [toApply toRemove]. destruct Hrun as [-> _], Hd as [-> _].
  apply elem_of_app in Hs as [(? & ? & _)%list_elem_of_fmap|(s' & [= <-] & Hs)%list_elem_of_fmap]; [done|].
  apply list_elem_of_omap in Hs as (x & _ & Hx). unfold to_write in Hx. destruct (upToDate _ _); [done|]. injection Hx as <-.
  unfold wanted, desiredStateFor. destruct (first _ _); apply lookup_insert_eq.
Qed.

Context (Hperiod : (0 < SR_ResyncPeriod r)%Z) (Hlimit : (0 ≤ limit)%Z).

Lemma addAfter_le timers req t q u :
  timers !! q = Some u → ∃ u', addAfter timers req t !! q = Some u' ∧ (u' ≤ u)%Z.
Proof using Type.
  intros Hu. unfold addAfter. destruct (decide (req = q)) as [->|Hne].
  - rewrite lookup_insert_eq, Hu. eexists. split; [done|lia].
  - rewrite lookup_insert_ne by done. exists u. split; [done|lia].
Qed.

Lemma addAfter_ge timers req (t now : Z) q u :
  (∀ q u, timers !! q = Some u → now ≤ u)%Z → (now ≤ t)%Z → addAfter timers req t !! q = Some u → (now ≤ u)%Z.
Proof using Type.
  intros Hts Ht. unfold addAfter. destruct (decide (req = q)) as [->|Hne].
  - rewrite lookup_insert_eq. intros [= <-]. destruct (timers !! q) eqn:E; [apply Hts in E|]; lia.
  - rewrite lookup_insert_ne by done. apply Hts.
Qed.

(** The run of the node's own request is followed by a timer. *)
Lemma polls_kept t w q ts req s ws c p a l cli calls d :
  exporter_inv (mkExporter t w q ts (Some (req, s, ws)) c p) →
  Session_Reconcile r a l (BGPPeersFetcher Error cli) (Request_Name req) (Request_Namespace req) = (calls, Done d) →
  nodeRequest ∈ q ∨ ∃ t' s' e, (if (0 <? d)%Z then addAfter ts req (t + d) else ts) !! nodeRequest = Some t' ∧
    (if (0 <? d)%Z then Some (s, t) else p) = Some (s', e) ∧ (t' ≤ e + SR_ResyncPeriod r)%Z.
Proof using Hperiod.
  intros [_ _ _ Hpolled _ Hpolls _] (_ & _ & Hd)%Session_Reconcile_told. cbn in *. destruct Hpolls as [?|[Hr|(t' & s' & e & Ht & Hp & Hle)]]; [by left|right..].
  - destruct Hr as (s' & ws' & [= -> <- <-]). cbn in Hd. rewrite !bool_decide_eq_true_2 in Hd by done. cbn in Hd. subst d.
    rewrite (proj2 (Z.ltb_lt _ _) Hperiod). unfold addAfter. rewrite lookup_insert_eq. eexists _, _, _. split; [done|].
    split; [done|]. destruct (ts !! nodeRequest); lia.
  - destruct (0 <? d)%Z; [|by exists t', s', e]. destruct (addAfter_le ts req (t + d) _ _ Ht) as (u & Hu & ?).
    exists u, s, t. split_and!; [done..|]. apply Hpolled in Hp. lia.
Qed.

Lemma exporter_done_inv t w q ts req s ws c p a l cli calls d es :
  exporter_inv (mkExporter t w q ts (Some (req, s, ws)) c p) →
  told_objects ws l → told_sessions ws cli → honest a (SW_objects w) →
  Session_Reconcile r a l (BGPPeersFetcher Error cli) (Request_Name req) (Request_Namespace req) = (calls, Done d) →
  exporter_inv (mkExporter t (mkSessionWorld (perform a calls (SW_objects w)).1 (SW_frr w))
    (q ∪ queued (Session_SetupWithManager r) ((perform a calls (SW_objects w)).2 ++ es))
    (if (0 <? d)%Z then addAfter ts req (t + d) else ts) None c (if (0 <? d)%Z then Some (s, t) else p)).
Proof using All.
  intros Hinv Hl Hcli Hh Hrun.
  pose proof (polls_kept _ _ _ _ _ _ _ _ _ _ _ _ _ _ Hinv Hrun) as Hpolls'.
  destruct Hinv as [Hok Hc Htimers Hpolled Hrunning Hpolls Hsettled]. cbn in *.
  destruct (Hrunning _ _ _ eq_refl) as (Ht & Hne & Hbefore & Hsame). split; cbn.
  + destruct Hok as (? & ?). split; [by apply perform_ok|done].
  + done.
  + intros q' t'. destruct (0 <? d)%Z eqn:E; [|apply Htimers]. apply addAfter_ge; [done|]. apply Z.ltb_lt in E. lia.
  + intros s' e. destruct (0 <? d)%Z; [intros [= <- <-]; lia|apply Hpolled].
  + done.
  + destruct Hpolls' as [?|?]; [left; by apply elem_of_union_l|by right; right].
  + intros _. destruct (decide (c < s)%Z) as [Hlt|Hge].
    * destruct (run_without_changes a l cli ws w req calls d es Hok Hne (Hsame Hlt) Hl Hcli Hh Hrun) as [Hq|Hm]; [left|by right].
      intros Hq'. apply Hq. apply elem_of_equiv_empty_L. intros y Hy.
      apply (not_elem_of_empty (C := gset request) y). rewrite <-Hq'. by apply elem_of_union_r.
    * right. intros s' e Hp ?. assert (s' ≤ s)%Z; [|lia]. destruct (0 <? d)%Z; [injection Hp as <- <-; lia|by eapply Hbefore].
Qed.

Lemma exporter_step_inv x x' : exporter_inv x → exporter_step x x' → exporter_inv x'.
Proof using All.
  intros Hinv Hstep. destruct Hstep as [t w q ts running c p w' es Hok'|t w q ts running c p d Hd Hts Hlim|t w q ts running c p req Hreq
    |t w q ts c p req Hreq|t w q ts req s ws c p a l cli calls d es Hl Hcli Hh Hrun|t w q ts req s ws c p a l cli calls errs es Hl Hcli Hrun].
  - destruct Hinv as [Hok Hc Htimers Hpolled Hrunning Hpolls Hsettled]. split; cbn in *; [done|lia|done|done| | |].
    + intros req s ws Hr. destruct running as [[[req0 s0] ws0]|]; cbn in Hr; [|done]. injection Hr as <- <- <-.
      destruct (Hrunning _ _ _ eq_refl) as (? & ? & ? & _). split_and!; [lia|lia|done|done|]. intros ?. lia.
    + destruct Hpolls as [?|[(s & ws & ->)|?]]; [left; by apply elem_of_union_l|right; left; by eexists _, _|by right; right].
    + intros _. right. intros s e (? & ?)%Hpolled ?. lia.
  - destruct Hinv as [Hok Hc Htimers Hpolled Hrunning Hpolls Hsettled]. split; cbn in *; [done|lia|done| | |done|done].
    + intros s e ?%Hpolled. lia.
    + intros req s ws Hr. pose proof (Hlim _ _ _ Hr). destruct (Hrunning _ _ _ Hr) as (? & ? & ? & ?). split_and!; [lia|lia|done..].
  - destruct Hinv as [Hok Hc Htimers Hpolled Hrunning Hpolls Hsettled]. split; cbn in *; [done|done| |done|done| |].
    + intros q' t' [_ ?]%lookup_delete_Some. eauto.
    + destruct Hpolls as [?|[?|(t' & s & e & Ht & Hp & ?)]]; [left; by apply elem_of_union_l|by right; left|].
      destruct (decide (req = nodeRequest)) as [->|Hne]; [left; apply elem_of_union_r, elem_of_singleton; done|]. right; right.
      exists t', s, e. by rewrite lookup_delete_ne by done.
    + intros _. left. intros Hq. apply (not_elem_of_empty (C := gset request) req). rewrite <-Hq. apply elem_of_union_r, elem_of_singleton; done.
  - destruct Hinv as [Hok Hc Htimers Hpolled Hrunning Hpolls Hsettled]. split; cbn in *; [done|done|done|done| | |done].
    + intros req0 s ws [= <- <- <-]. split_and!; [lia|lia|done| |].
      * intros s' e ?%Hpolled. lia.
      * intros _ w' ->%list_elem_of_singleton. done.
    + destruct Hpolls as [?|[(? & ? & ?)|?]]; [|done|by right; right].
      destruct (decide (req = nodeRequest)) as [->|Hne]; [right; left; by eexists _, _|left]. apply elem_of_difference. split; [done|].
      intros ?%elem_of_singleton. congruence.
  - by eapply exporter_done_inv.
  - destruct Hinv as [Hok Hc Htimers Hpolled Hrunning Hpolls Hsettled]. cbn in *. split; cbn; [|done|done|done|done| |].
    + destruct Hok as (? & ?). split; [by apply perform_ok|done].
    + destruct Hpolls as [?|[(? & ? & [= -> <- <-])|?]]; [left; set_solver|left; set_solver|by right; right].
    + intros _. left. set_solver.
Qed.

Lemma exporter_init_inv t w status es : world_ok w → exporter_inv (exporter_init t w status es).
Proof using All.
  intros Hw. assert (nodeRequest ∈ X_queue (exporter_init t w status es)) as Hin.
  { unfold exporter_init, queued. cbn [X_queue mbind list_bind]. apply elem_of_list_to_set, elem_of_app. left.
    eapply (deliver_watched _ _ _ EnqueueRequestForObject); [right; left|done| |left]. cbn. by apply bool_decide_eq_true_2. }
  split; cbn; [done|lia|intros ??; by rewrite lookup_empty|done|done|by left|].
  intros _. left. intros Hq. cbn in Hin. rewrite Hq in Hin. by apply not_elem_of_empty in Hin.
Qed.

(** C28: the cluster is never far behind FRR: in every run of the session state controller, with changes of the sessions
    and of the objects at any time, failures of any call, and runs of [Reconcile] of at most [limit], whenever
    nothing is queued or running, the next poll is due within the resync period after the last one; and if nothing
    changed for longer than the period and the limit, the objects of the node are exactly those of the
    sessions of FRR, one for each, with the BGP state and the BFD status FRR has for it, the node, the peer and the VRF.
    The resync period is positive and the limit not negative; at all times the objects have names, all different, FRR
    has no VRF with the empty name, and no two peers of a VRF have the same label; a name the API server generates is
    new; what vtysh prints is a state FRR had during the run, or vtysh fails; a deletion answered with "not found" is
    of an object that is not there; and the queue and the timers are those of controller-runtime. *)
Theorem sessions_follow_frr t w status es x :
  world_ok w → rtc exporter_step (exporter_init t w status es) x → X_queue x = ∅ → X_running x = None →
  (∃ next s e, X_timers x !! nodeRequest = Some next ∧ X_polled x = Some (s, e) ∧
     (e ≤ X_now x ≤ next)%Z ∧ (next ≤ e + SR_ResyncPeriod r)%Z) ∧
  ((X_changed x + SR_ResyncPeriod r + limit < X_now x)%Z →
     let objs := listed r (SW_objects (X_world x)) in
     NoDup (key <$> objs) ∧
     (∀ s, s ∈ objs → ∃ vrf peer n, in_state (SW_frr (X_world x)) vrf peer n ∧ key s = (vrf, peer_label peer) ∧
        BSS_Status s = session_status (SR_NodeName r) vrf peer n) ∧
     (∀ vrf peer n, in_state (SW_frr (X_world x)) vrf peer n → ∃ s, s ∈ objs ∧ key s = (vrf, peer_label peer))).
Proof using All.
  intros Hw Hsteps Hq Hr. assert (exporter_inv x) as Hinv.
  { pose proof (exporter_init_inv t w status es Hw) as Hi. clear Hq Hr. induction Hsteps; eauto using exporter_step_inv. }
  destruct Hinv as [(_ & Hempty & _) Hc Htimers Hpolled _ Hpolls Hsettled].
  destruct Hpolls as [Hin|[(? & ? & ?)|(next & s & e & Ht & Hp & Hle)]]; [rewrite Hq in Hin; by apply not_elem_of_empty in Hin|congruence|].
  pose proof (Htimers _ _ Ht). pose proof (Hpolled _ _ Hp). split; [exists next, s, e; split_and!; [done|done|lia..]|].
  intros Hlate. destruct (Hsettled Hr) as [?|Hm]; [done|]. destruct (Hm s e Hp ltac:(lia)) as (Hnd & Hobjs & Hall).
  cbv zeta. split_and!; [done| |].
  - intros o Ho. destruct (Hobjs o Ho) as ([v n] & (peer & n' & Hin & Hn)%(reported_in_state _ _ Hempty) & Hk & Hst).
    cbn in Hin, Hn. subst n. exists v, peer, n'. rewrite session_key_of in Hk. split_and!; [done..|].
    rewrite Hst. apply (oo_status _ _ _ _ _ _ (wanted_object r (λ _, None) v peer n')).
  - intros vrf peer n Hin. rewrite <-(session_key_of vrf peer n). apply Hall, (reported_in_state _ _ Hempty). eauto.
Qed.
End sessionLoop.

(** ** A sample node

    The object of a session that is gone is deleted and one for the session of FRR is created; the event of the creation
    starts a run that gives it its state; a poll later nothing is left to do. *)

(** A name longer than all there are. *)
Definition longerName : NameGenerator := λ objs g, g +:+ String "x" (foldr (λ s names, BSS_Name s +:+ names) "" objs).
Lemma longerName_laws : @NameGeneratorLaws longerName.
Proof.
  split; unfold newName, longerName; [by intros objs []|]. intros objs g s Hs Heq. apply (f_equal String.length) in Heq.
  rewrite length_app_string in Heq. cbn in Heq. revert Heq. generalize (String.length g). induction Hs as [s l|s s' l _ IH]; intros n; cbn.
  - rewrite length_app_string. lia.
  - rewrite length_app_string. intros Heq. apply (IH (n + String.length (BSS_Name s'))). lia.
Qed.

Definition node1 : request := mkReconcileRequest "" "node1".
Definition createdRequest : request := mkReconcileRequest "frr-k8s-system" "node1-x".
Definition createdObject (status : BGPSessionStateStatus) : BGPSessionState :=
  mkBGPSessionState "node1-x" "node1-" "frr-k8s-system" (session_labels "node1" "" "172.18.0.5") status.
Definition goneWorld : sessionWorld := mkSessionWorld [goneObject] sampleState.
Definition createdWorld : sessionWorld :=
  mkSessionWorld [createdObject (mkBGPSessionStateStatus "" "" "" "" "")] sampleState.
Definition mirroredWorld : sessionWorld :=
  mkSessionWorld [createdObject (mkBGPSessionStateStatus "Established" "Up" "node1" "172.18.0.5" "")] sampleState.
Definition samplePeriod : Z := 120000000000.
Definition sampleInit : exporter := exporter_init (H := plainRuntime) sampleSession 0 goneWorld (mkFRRNodeStateStatus "" "" "") [].
Definition sampleLate : exporter :=
  mkExporter (samplePeriod + 1) mirroredWorld ∅ {[node1 := (samplePeriod + samplePeriod)%Z]} None 0 (Some (samplePeriod, samplePeriod)).

Notation sampleStep := (exporter_step (NG := longerName) (H := plainRuntime) (λ _, "") sampleSession 0).

(** A run that reads the world as it is, at one moment. *)
Definition sampleRun (w : sessionWorld) (req : request) : list call * outcome :=
  Session_Reconcile sampleSession (λ _, None) (Ok (listed sampleSession (SW_objects w)))
    (BGPPeersFetcher (λ _, "") sampleCli) (Request_Name req) (Request_Namespace req).

Lemma sampleStep_done t q ts req w c p d x :
  SW_frr w = sampleState → snd (sampleRun w req) = Done d →
  (let '(objs, es) := perform (NG := longerName) (λ _, None) (fst (sampleRun w req)) (SW_objects w) in
   mkExporter t (mkSessionWorld objs (SW_frr w))
     (q ∪ queued (H := plainRuntime) (Session_SetupWithManager sampleSession) (es ++ []))
     (if (0 <? d)%Z then addAfter ts req (t + d) else ts) None c (if (0 <? d)%Z then Some (t, t) else p)) = x →
  sampleStep (mkExporter t w q ts (Some (req, t, [w])) c p) x.
Proof.
  intros Hfrr Hd <-. pose proof (exporter_done (NG := longerName) (H := plainRuntime) (λ _, "") sampleSession 0 t w q ts req t [w] c p
    (λ _, None) (Ok (listed sampleSession (SW_objects w))) sampleCli (fst (sampleRun w req)) d []) as Hstep.
  destruct (perform _ _ _) as [objs es]. apply Hstep.
  - exists w. split; [left|done].
  - left. exists w. split; [left|]. rewrite Hfrr. exact sampleCli_answers.
  - done.
  - fold (sampleRun w req). by destruct (sampleRun w req) as [calls out]; cbn in *; subst.
Qed.

Lemma sampleStep_start t w q q' ts c p req :
  req ∈ q → q ∖ {[req]} = q' → sampleStep (mkExporter t w q ts None c p) (mkExporter t w q' ts (Some (req, t, [w])) c p).
Proof. intros Hin <-. by constructor. Qed.

Lemma sampleExporter_run : rtc sampleStep sampleInit sampleLate.
Proof.
  assert (sampleInit = mkExporter 0 goneWorld {[node1]} ∅ None 0 None) as -> by (vm_compute; reflexivity).
  eapply rtc_l; [apply (sampleStep_start _ _ _ ∅ _ _ _ node1); [by_evaluation|vm_compute; reflexivity]|].
  eapply rtc_l.
  { apply (sampleStep_done _ _ _ _ _ _ _ samplePeriod
      (mkExporter 0 createdWorld {[createdRequest]} {[node1 := samplePeriod]} None 0 (Some (0, 0)%Z))); vm_compute; reflexivity. }
  eapply rtc_l; [apply (sampleStep_start _ _ _ ∅ _ _ _ createdRequest); [by_evaluation|vm_compute; reflexivity]|].
  eapply rtc_l.
  { apply (sampleStep_done _ _ _ _ _ _ _ 0
      (mkExporter 0 mirroredWorld ∅ {[node1 := samplePeriod]} None 0 (Some (0, 0)%Z))); vm_compute; reflexivity. }
  eapply rtc_l; [apply (exporter_tick _ _ _ _ _ _ _ _ _ _ samplePeriod); [done| |done]|].
  { intros req t' [_ <-]%lookup_singleton_Some. done. }
  eapply rtc_l; [apply (exporter_fire _ _ _ _ _ _ _ _ _ _ node1); vm_compute; reflexivity|].
  eapply rtc_l; [apply (sampleStep_start _ _ _ ∅ _ _ _ node1); [by_evaluation|vm_compute; reflexivity]|].
  eapply rtc_l.
  { apply (sampleStep_done _ _ _ _ _ _ _ samplePeriod
      (mkExporter samplePeriod mirroredWorld ∅ {[node1 := (samplePeriod + samplePeriod)%Z]} None 0
         (Some (samplePeriod, samplePeriod)))); vm_compute; reflexivity. }
  eapply rtc_l; [apply (exporter_tick _ _ _ _ _ _ _ _ _ _ 1); [done| |done]|].
  { intros req t' [_ <-]%lookup_singleton_Some. done. }
  apply rtc_refl.
Qed.

Lemma sessions_follow_frr_witness :
  ∃ s, s ∈ listed sampleSession (SW_objects (X_world sampleLate)) ∧ key s = ("", "172.18.0.5") ∧
    BSS_Status s = mkBGPSessionStateStatus "Established" "Up" "node1" "172.18.0.5" "".
Proof.
  destruct (sessions_follow_frr (NG := longerName) (NGL := longerName_laws) (H := plainRuntime) (H0 := plainRuntime_laws) (λ _, "") sampleSession 0
    ltac:(vm_compute; reflexivity) ltac:(done) 0 goneWorld (mkFRRNodeStateStatus "" "" "") [] sampleLate) as [_ Hm].
  - split; [split; [by_evaluation|]|exact sampleState_apart].
    intros s Hs. apply list_elem_of_singleton in Hs as ->. vm_compute. discriminate.
  - exact sampleExporter_run.
  - reflexivity.
  - reflexivity.
  - destruct Hm as (_ & Hobjs & Hall); [vm_compute; reflexivity|].
    destruct (Hall "" "172.18.0.5" sampleFRRNeighbor) as (s & Hs & Hk); [by apply sampleState_session|].
    exists s. split; [exact Hs|]. split; [rewrite Hk; vm_compute; reflexivity|].
    destruct (Hobjs s Hs) as (vrf & peer & n & (-> & -> & ->)%sampleState_session & _ & ->). vm_compute. reflexivity.
Defined.

(** The labels of an object are compared but never written: one with a label too many is patched in every run, and stays
    as it is. *)
Definition labelledObject : BGPSessionState :=
  let s := createdObject (mkBGPSessionStateStatus "Established" "Up" "node1" "172.18.0.5" "") in
  mkBGPSessionState (BSS_Name s) (BSS_GenerateName s) (BSS_Namespace s) (<["extra" := "label"]> (BSS_Labels s)) (BSS_Status s).

Theorem extra_label_stays :
  let '(calls, out) := sampleRun (mkSessionWorld [labelledObject] sampleState) node1 in
  calls ≠ [] ∧ out = Done samplePeriod ∧ perform (NG := longerName) (λ _, None) calls [labelledObject] = ([labelledObject], []).
Proof. vm_compute. split; [discriminate|]. split; reflexivity. Qed.
