(* ===== verification/Startup.v ===== *)
(** * Starting the daemons ([cmd/frr-k8s-controller/main.go], [cmd/statuscleaner/main.go],
      [cmd/metrics/exporter.go], [internal/tlsconfig])

    What the flags become: the TLS options, the prefixes to always block, the debounce timeout and the log level, and the
    components [main] builds from them.  Everything outside the program that can fail on the way (the manager, the
    pipe of the logger, the host name) is in the record [startupEnv]; the tables of cipher suites and TLS versions
    belong to component-base, so [TLSCipherSuites] and [TLSVersion] are parameters. *)

From Stdlib Require Import Ascii Lia.
From S2P Require Import Prelude GoStrings GoNet IPFamily Community Api FrrConfig Errors Merge.
From S2P Require Import ApiToConfig Logging Debouncer FRRManager Reconciler Json Parse Duration.

(** ** Trimming *)

(** [strings.Trim(s, " ")]. *)
Fixpoint TrimLeftChar (c : ascii) (s : string) : string :=
  match s with
  | String a r => if bool_decide (a = c) then TrimLeftChar c r else s
  | EmptyString => ""
  end.
Fixpoint TrimRightChar (c : ascii) (s : string) : string :=
  match s with
  | EmptyString => ""
  | String a r =>
      match TrimRightChar c r with
      | EmptyString => if bool_decide (a = c) then "" else String a ""
      | r' => String a r'
      end
  end.
Definition Trim (s : string) (c : ascii) : string := TrimRightChar c (TrimLeftChar c s).

(** The runes [unicode.IsSpace] accepts, as UTF-8. *)
Definition space1 (a : ascii) : bool := between 9 13 a || is_char a 32.
Definition space2 (a b : ascii) : bool := is_char a 0xC2 && (is_char b 0x85 || is_char b 0xA0).
Definition space3 (a b c : ascii) : bool :=
  is_char a 0xE1 && is_char b 0x9A && is_char c 0x80 ||
  is_char a 0xE2 && is_char b 0x80 && (between 0x80 0x8A c || is_char c 0xA8 || is_char c 0xA9 || is_char c 0xAF) ||
  is_char a 0xE2 && is_char b 0x81 && is_char c 0x9F ||
  is_char a 0xE3 && is_char b 0x80 && is_char c 0x80.

(** Leading spaces; [s2] and [s3] recognise the longer ones, in the order of the bytes of [s]. *)
Fixpoint trimSpaces (s2 : ascii → ascii → bool) (s3 : ascii → ascii → ascii → bool) (s : string) : string :=
  match s with
  | EmptyString => ""
  | String a r =>
      if space1 a then trimSpaces s2 s3 r
      else match r with
      | String b r1 =>
          if s2 a b then trimSpaces s2 s3 r1
          else match r1 with
          | String c r2 => if s3 a b c then trimSpaces s2 s3 r2 else s
          | EmptyString => s
          end
      | EmptyString => s
      end
  end.

Fixpoint rev_string (s acc : string) : string :=
  match s with EmptyString => acc | String c s => rev_string s (String c acc) end.

(** [strings.TrimSpace]. *)
Definition TrimSpace (s : string) : string :=
  let left := trimSpaces space2 space3 s in
  rev_string (trimSpaces (λ a b, space2 b a) (λ a b c, space3 c b a) (rev_string left "")) "".

(** ** TLS options ([tlsopt.go]) *)

Definition VersionTLS12 : N := 0x0303.
Definition VersionTLS13 : N := 0x0304.

(** The fields of [tls.Config] that are set; [None] is [nil]. *)
Inductive certificate := SelfSigned (cert : string) | Watched (certFile keyFile : string).
Record tlsConfig := mkTlsConfig {
  CipherSuites : option (list N);
  CurvePreferences : option (list N);
  MinVersion : N;
  Certificate : option certificate }.
Definition zeroTlsConfig : tlsConfig := mkTlsConfig None None 0 None.

Inductive tlsError :=
  | ECurveSyntax (p : string)
  | ECurveRange (id : Z)
  | ECurveDuplicate (id : Z)
  | ECurveUnsupported (id : Z)
  | ECipherSuites (e : string)
  | ETLSVersion (e : string)
  | ECiphersWithTLS13.

Notation tres := (result tlsError).

(** The curves of crypto/tls: the identifiers whose [String] has a name. *)
Definition namedCurves : list Z := [23; 24; 25; 29; 4588]%Z.

(** One element of the loop of [parseCurvePreferences]; the curves so far are the ones seen. *)
Definition curveStep (result : list Z) (p : string) : tres (list Z) :=
  match ParseInt (TrimSpace p) 32 with
  | Err _ => Err (ECurveSyntax (TrimSpace p))
  | Ok id =>
      if (id <=? 0)%Z || (65535 <? id)%Z then Err (ECurveRange id)
      else if bool_decide (id ∈ result) then Err (ECurveDuplicate id)
      else if negb (bool_decide (id ∈ namedCurves)) then Err (ECurveUnsupported id)
      else Ok (result ++ [id])
  end.

Definition parseCurvePreferences (curves : string) : tres (option (list Z)) :=
  if bool_decide (curves = "") then Ok None
  else Some <$> foldM curveStep [] (Split curves ",").

Section tls.
Context (TLSCipherSuites : list string → result string (list N)) (TLSVersion : string → result string N).

Definition parseCipherSuites (ciphers : string) : result string (option (list N)) :=
  if bool_decide (ciphers = "") then Ok None
  else Some <$> TLSCipherSuites (TrimSpace <$> Split ciphers ",").

Definition parseTLSVersion (version : string) : result string N :=
  if bool_decide (version = "") then Ok VersionTLS13 else TLSVersion version.

Definition OptFor (cipherSuites curvePreferences minVersion : string) : tres (tlsConfig → tlsConfig) :=
  ciphers ← match parseCipherSuites cipherSuites with Ok c => Ok c | Err e => Err (ECipherSuites e) end;
  curves ← parseCurvePreferences curvePreferences;
  minVer ← match parseTLSVersion minVersion with Ok v => Ok v | Err e => Err (ETLSVersion e) end;
  if bool_decide (ciphers ≠ None) && (minVer =? VersionTLS13)%N then Err ECiphersWithTLS13 else
  Ok (λ cfg, mkTlsConfig
    (match ciphers with Some c => Some c | None => CipherSuites cfg end)
    (match curves with Some c => Some (Z.to_N <$> c) | None => CurvePreferences cfg end)
    minVer (Certificate cfg)).
End tls.

(** ** Certificates ([tlsconfig.go]) *)

(** The steps of [selfSignedCert] and the start of the watcher, which can each fail. *)
Record certEnv := mkCertEnv {
  certHostname : result string string;
  GenerateSelfSignedCertKey : string → result string (string * string);
  X509KeyPair : string * string → result string string;
  certwatcherNew : string → string → option string }.

Inductive certError := EHostname (e : string) | EGenerate (e : string) | ELoad (e : string) | EWatcher (e : string).

Definition wrap_cert {A} (mk : string → certError) (r : result string A) : result certError A :=
  match r with Ok x => Ok x | Err e => Err (mk e) end.

Definition selfSignedCert (env : certEnv) : result certError string :=
  host ← wrap_cert EHostname (certHostname env);
  pair ← wrap_cert EGenerate (GenerateSelfSignedCertKey env host);
  wrap_cert ELoad (X509KeyPair env pair).

Definition withCertificate (cfg : tlsConfig) (c : certificate) : tlsConfig :=
  mkTlsConfig (CipherSuites cfg) (CurvePreferences cfg) (MinVersion cfg) (Some c).

Definition withSelfSigned (env : certEnv) (cfg : tlsConfig) : result certError tlsConfig :=
  cert ← selfSignedCert env; Ok (withCertificate cfg (SelfSigned cert)).

Definition withCertWatcher (env : certEnv) (cfg : tlsConfig) (certFile keyFile : string)
    : result certError tlsConfig :=
  match certwatcherNew env certFile keyFile with
  | Some e => Err (EWatcher e)
  | None => Ok (withCertificate cfg (Watched certFile keyFile))
  end.

(** [For]. *)
Definition tlsFor (env : certEnv) (tlsOpt : tlsConfig → tlsConfig) (certFile keyFile : string)
    : result certError tlsConfig :=
  let cfg := tlsOpt zeroTlsConfig in
  if negb (bool_decide (certFile = "")) && negb (bool_decide (keyFile = ""))
  then withCertWatcher env cfg certFile keyFile
  else withSelfSigned env cfg.

(** ** The flags of the controller *)

Definition parseCIDRs (cidrs : string) : result string (list IPNet) :=
  if bool_decide (cidrs = "") then Ok []
  else foldM (λ res e,
    match ParseCIDR (Trim e " ") with
    | None => Err e
    | Some (_, cidr) => Ok (res ++ [cidr])
    end) [] (Split cidrs ",").

Definition Millisecond : Z := 1000000.
Definition defaultDebounceTimeout : Z := (3 * Second)%Z.

(** The debounce timeout, a [time.Duration]; [None] is an exit. *)
Definition debounceTimeout (bgpDebounceTimeoutMs : string) : option Z :=
  if bool_decide (bgpDebounceTimeoutMs = "") then Some defaultDebounceTimeout
  else match Atoi bgpDebounceTimeoutMs with
       | Err _ => None
       | Ok parsed => if (parsed <=? 0)%Z then None else Some (wrap64 (parsed * Millisecond))
       end.

(** The flags that reach the components; the addresses to bind go to the manager. *)
Record params := mkParams {
  logLevel : string;
  nodeName : string;
  namespace : string;
  alwaysBlockCIDRs : string;
  tlsCipherSuites : string;
  tlsCurvePreferences : string;
  tlsMinVersion : string;
  bgpDebounceTimeoutMs : string }.

Inductive exitReason :=
  | ExitLogLevel
  | ExitLogging (e : string)
  | ExitTLS (e : tlsError)
  | ExitManager (e : string)
  | ExitHealthz (e : string)
  | ExitReadyz (e : string)
  | ExitDebounceTimeout (s : string)
  | ExitFRR (e : string)
  | ExitAlwaysBlock (e : string)
  | ExitController (name e : string)
  | ExitRotator (e : string)
  | ExitWebhook (e : string)
  | ExitSelector (e : string)
  | ExitPollInterval (e : durationError)
  | ExitClient (e : string)
  | ExitPod (e : string)
  | ExitRun (e : string).

(** The outside: [None] is success.  The configuration and the field selectors that end the process when they are
    malformed are arguments of [newManager] and part of it here. *)
Record startupEnv := mkStartupEnv {
  initLogging : option string;
  newManager : option string;
  addHealthz : option string;
  addReadyz : option string;
  interfaceAddrs : result string (list ifaceAddr);
  osHostname : hostResult;
  setupWithManager : string → option string;
  managerStart : option string }.

(** What is running: the three controllers and the FRR instance they share. *)
Record started := mkStarted {
  St_tls : tlsConfig → tlsConfig;
  St_logger : Logger;
  St_debounce : Z;
  St_frr : FRR;
  St_config : FRRConfigurationReconciler;
  St_stateNode : string;
  St_frrk8s : Level * string }.

Definition exit_if (o : option string) (mk : string → exitReason) : result exitReason unit :=
  match o with Some e => Err (mk e) | None => Ok () end.

Definition startFRRControllers (env : startupEnv) (p : params) (tlsOpt : tlsConfig → tlsConfig)
    (logger : Logger) (defaultLogLevel : Level) : result exitReason started :=
  dbTimeout ← match debounceTimeout (bgpDebounceTimeoutMs p) with
              | Some d => Ok d | None => Err (ExitDebounceTimeout (bgpDebounceTimeoutMs p)) end;
  frrInstance ← match NewFRR (interfaceAddrs env) (osHostname env) with
                | Ok f => Ok f | Err e => Err (ExitFRR e) end;
  alwaysBlock ← match parseCIDRs (alwaysBlockCIDRs p) with
                | Ok l => Ok l | Err e => Err (ExitAlwaysBlock e) end;
  _ ← exit_if (setupWithManager env "FRRConfiguration") (ExitController "FRRConfiguration");
  _ ← exit_if (setupWithManager env "FRRStatus") (ExitController "FRRStatus");
  _ ← exit_if (setupWithManager env "FRRK8sConfiguration") (ExitController "FRRK8sConfiguration");
  Ok (mkStarted tlsOpt logger dbTimeout frrInstance
        (mkReconciler (nodeName p) (namespace p) alwaysBlock defaultLogLevel)
        (nodeName p) (defaultLogLevel, namespace p)).

Definition controllerMain (TLSCipherSuites : list string → result string (list N))
    (TLSVersion : string → result string N) (env : startupEnv) (p : params) : result exitReason started :=
  defaultLogLevel ← match ParseLevel (logLevel p) with
                    | (l, None) => Ok l | (_, Some _) => Err ExitLogLevel end;
  _ ← exit_if (initLogging env) ExitLogging;
  tlsOpt ← match OptFor TLSCipherSuites TLSVersion (tlsCipherSuites p) (tlsCurvePreferences p) (tlsMinVersion p) with
           | Ok o => Ok o | Err e => Err (ExitTLS e) end;
  _ ← exit_if (newManager env) ExitManager;
  _ ← exit_if (addHealthz env) ExitHealthz;
  _ ← exit_if (addReadyz env) ExitReadyz;
  s ← startFRRControllers env p tlsOpt (SetLogLevel initLogger defaultLogLevel) defaultLogLevel;
  _ ← exit_if (managerStart env) ExitRun;
  Ok s.

(** ** The status cleaner ([cmd/statuscleaner/main.go]) *)

Record cleanerParams := mkCleanerParams {
  CP_logLevel : string;
  CP_namespace : string;
  CP_disableCertRotation : bool;
  CP_restartOnRotatorSecretRefresh : bool;
  CP_certDir : string;
  CP_certServiceName : string;
  CP_frrk8sSelector : string;
  CP_tlsCipherSuites : string;
  CP_tlsCurvePreferences : string;
  CP_tlsMinVersion : string }.

(** The fields of [rotator.CertRotator] that are set; [IsReady] is the channel the listeners wait for. *)
Record CertRotator := mkCertRotator {
  SecretKey : string * string;
  CertDir : string;
  CAName : string;
  CAOrganization : string;
  DNSName : string;
  Webhooks : list string;
  FieldOwner : string;
  RestartOnSecretRefresh : bool }.

Definition webhookName : string := "frr-k8s-validating-webhook-configuration".
Definition webhookSecretName : string := "frr-k8s-webhook-server-cert".
Definition caName : string := "cert".
Definition caOrganization : string := "frrk8s".

(** The controllers the cleaner registers: [NodeStateCleaner] with its namespace and selector, and
    [FRRK8sConfigurationReconciler] with its level and namespace. *)
Record cleanerControllers {Selector : Type} := mkCleanerControllers {
  CC_cleaner : string * Selector;
  CC_frrk8s : Level * string }.
#[global] Arguments cleanerControllers : clear implicits.
#[global] Arguments mkCleanerControllers {_} _ _.

Section cleaner.
(** [labels.Parse] of apimachinery, and the calls that can fail. *)
Context {Selector : Type} (labels_Parse : string → result string Selector).
Context (AddRotator : CertRotator → option string) (SetupWebhookWithManager : option string).

Definition setupCertRotation (namespace certDir certServiceName : string) (restartOnSecretRefresh : bool)
    : result string CertRotator :=
  let r := mkCertRotator (namespace, webhookSecretName) certDir caName caOrganization
             (certServiceName +:+ "." +:+ namespace +:+ ".svc") [webhookName] "frr-k8s" restartOnSecretRefresh in
  match AddRotator r with Some err => Err err | None => Ok r end.

Definition setupWebhook : result exitReason unit :=
  exit_if SetupWebhookWithManager ExitWebhook.

Definition startNodeStateCleaner (env : startupEnv) (namespace frrk8sSelector : string) (defaultLogLevel : Level)
    : result exitReason (cleanerControllers Selector) :=
  selector ← match labels_Parse frrk8sSelector with
             | Ok s => Ok s | Err e => Err (ExitSelector e) end;
  _ ← exit_if (setupWithManager env "Pod") (ExitController "Pod");
  _ ← exit_if (setupWithManager env "FRRK8sConfiguration") (ExitController "FRRK8sConfiguration");
  Ok (mkCleanerControllers (namespace, selector) (defaultLogLevel, namespace)).

(** The goroutine of main, once [startListeners] is closed. *)
Definition listeners (env : startupEnv) (p : cleanerParams) (defaultLogLevel : Level)
    : result exitReason (cleanerControllers Selector) :=
  _ ← setupWebhook;
  startNodeStateCleaner env (CP_namespace p) (CP_frrk8sSelector p) defaultLogLevel.

(** [main]: the rotator it adds, and what the goroutine has started; [certsReady] says whether the
    rotator has closed the channel, which main itself does when the rotation is disabled. *)
Definition cleanerMain (TLSCipherSuites : list string → result string (list N))
    (TLSVersion : string → result string N) (env : startupEnv) (certsReady : bool) (p : cleanerParams)
    : result exitReason (option CertRotator * option (cleanerControllers Selector)) :=
  defaultLogLevel ← match ParseLevel (CP_logLevel p) with
                    | (l, None) => Ok l | (_, Some _) => Err ExitLogLevel end;
  _ ← exit_if (initLogging env) ExitLogging;
  _ ← match OptFor TLSCipherSuites TLSVersion (CP_tlsCipherSuites p) (CP_tlsCurvePreferences p)
              (CP_tlsMinVersion p) with
      | Ok o => Ok o | Err e => Err (ExitTLS e) end;
  _ ← exit_if (newManager env) ExitManager;
  '(rotator, startListeners) ←
    (if CP_disableCertRotation p then Ok (None, true)
     else match setupCertRotation (CP_namespace p) (CP_certDir p) (CP_certServiceName p)
                  (CP_restartOnRotatorSecretRefresh p) with
          | Ok r => Ok (Some r, certsReady)
          | Err e => Err (ExitRotator e)
          end);
  started ← (if startListeners : bool then Some <$> listeners env p defaultLogLevel else Ok None);
  _ ← exit_if (managerStart env) ExitRun;
  Ok (rotator, started).
End cleaner.

(** ** The metrics exporter ([cmd/metrics/exporter.go]) *)

(** The routes of the server: the metrics path, behind the filter that authenticates, and the liveness probe. *)
Inductive endpoint := FilteredMetrics | Livez.

(** [None] is success; the steps of [rbacFilter] and of the filter itself. *)
Record exporterEnv := mkExporterEnv {
  EE_initLogging : option string;
  InClusterConfig : option string;
  HTTPClientFor : option string;
  WithAuthenticationAndAuthorization : option string;
  applyFilter : option string;
  EE_cert : certEnv;
  ListenAndServeTLS : option string;
  ErrServerClosed : string }.

Inductive exporterExit :=
  | XLogging (e : string)
  | XMetricsHandler (e : string)
  | XTLSFlags (e : tlsError)
  | XTLS (e : certError)
  | XServe (e : string).

Definition rbacFilter (env : exporterEnv) : result string unit :=
  match InClusterConfig env, HTTPClientFor env, WithAuthenticationAndAuthorization env with
  | Some e, _, _ => Err ("getting in-cluster config: " +:+ e)
  | None, Some e, _ => Err ("creating HTTP client: " +:+ e)
  | None, None, Some e => Err e
  | None, None, None => Ok ()
  end.

Definition newMetricsHandler (env : exporterEnv) : result string endpoint :=
  _ ← rbacFilter env;
  match applyFilter env with Some e => Err e | None => Ok FilteredMetrics end.

(** [main]: the level of the logger, the routes and the TLS configuration of the server. *)
Definition metricsMain (TLSCipherSuites : list string → result string (list N))
    (TLSVersion : string → result string N) (env : exporterEnv)
    (metricsPath tlsCertFile tlsKeyFile cipherSuites curvePreferences minVersion : string)
    : result exporterExit (Logger * list (string * endpoint) * tlsConfig) :=
  _ ← match EE_initLogging env with Some e => Err (XLogging e) | None => Ok () end;
  let logger := SetLogLevel initLogger LevelError in
  metricsHandler ← match newMetricsHandler env with Ok h => Ok h | Err e => Err (XMetricsHandler e) end;
  tlsOpt ← match OptFor TLSCipherSuites TLSVersion cipherSuites curvePreferences minVersion with
           | Ok o => Ok o | Err e => Err (XTLSFlags e) end;
  tlsCfg ← match tlsFor (EE_cert env) tlsOpt tlsCertFile tlsKeyFile with
           | Ok c => Ok c | Err e => Err (XTLS e) end;
  _ ← match ListenAndServeTLS env with
      | Some e => if bool_decide (e = ErrServerClosed env) then Ok () else Err (XServe e)
      | None => Ok ()
      end;
  Ok (logger, [(metricsPath, metricsHandler); ("/livez", Livez)], tlsCfg).
