(* ===== verification/StartupProps.v ===== *)
(** * What the daemons start with

    The flags are accepted exactly when they are valid, and what they ask for reaches the components: the prefixes
    of [--always-block] are refused by every session of every configuration the controller applies. *)

From Stdlib Require Import Ascii Lia.
From S2P Require Import Prelude GoStrings GoNet IPFamily Community Api FrrConfig Errors Merge.
From S2P Require Import ApiToConfig Samples MergeFacts Logging Debouncer FRRManager Template TemplateProps.
From S2P Require Import FilterNames FileFilters Render ReadFilters FileText ReadRouters RouterText PeerText Reconciler ReconcilerProps Json Parse Startup.

(** ** Loops that append *)

(** A loop that appends what [f] makes of each element, if [f] accepts it and [ok] holds of what is there. *)
Lemma foldM_collect {E A B} (step : list B → A → result E (list B)) (f : A → B → Prop) (ok : list B → Prop) l :
  ok [] → (∀ res res', ok (res ++ res') → ok res) →
  (∀ res x res', ok res → step res x = Ok res' ↔ ∃ y, f x y ∧ res' = res ++ [y] ∧ ok res') →
  ∀ out, foldM step [] l = Ok out ↔ Forall2 f l out ∧ ok out.
Proof.
  intros Hnil Hpre Hstep out.
  assert (∀ res, ok res → ∀ out, foldM step res l = Ok out ↔
    ∃ ys, Forall2 f l ys ∧ out = res ++ ys ∧ ok out) as H.
  { clear out. induction l as [|x l IH]; intros res Hres out; cbn [foldM].
    - split.
      + intros [= <-]. exists []. by rewrite app_nil_r.
      + intros (ys & ->%Forall2_nil_inv_l & -> & _). by rewrite app_nil_r.
    - split.
      + intros (res' & (y & Hf & -> & Hok)%Hstep & H)%bind_Ok; [|done].
        apply IH in H as (ys & Hys & -> & Hout); [|done].
        exists (y :: ys). rewrite <-app_assoc in *. by split_and!; [constructor| |].
      + intros (ys & Hys & -> & Hout). apply Forall2_cons_inv_l in Hys as (y & ys' & Hf & Hys & ->).
        rewrite cons_middle, app_assoc in Hout |- *.
        assert (ok (res ++ [y])) as Hok by (by eapply Hpre).
        apply bind_Ok. exists (res ++ [y]). split; [apply Hstep; eauto|].
        apply IH; [done|]. eauto. }
  rewrite H by done. naive_solver.
Qed.

(** ** The prefixes to always block *)

(** An element of the list that is a CIDR. *)
Definition is_cidr (e : string) (net : IPNet) : Prop := snd <$> ParseCIDR (Trim e " ") = Some net.

Lemma parseCIDRs_spec cidrs nets :
  parseCIDRs cidrs = Ok nets ↔
  if bool_decide (cidrs = "") then nets = [] else Forall2 is_cidr (Split cidrs ",") nets.
Proof.
  unfold parseCIDRs. case_bool_decide; [naive_solver|].
  rewrite (foldM_collect _ is_cidr (λ _, True)); [naive_solver|done|done|].
  intros res x res' _. unfold is_cidr.
  destruct (ParseCIDR (Trim x " ")) as [[ip net]|]; cbn; naive_solver.
Qed.

(** ** The curves *)

Lemma curveStep_Ok res p res' :
  NoDup res ∧ res ⊆ namedCurves →
  curveStep res p = Ok res' ↔
  ∃ id, ParseInt (TrimSpace p) 32 = Ok id ∧ res' = res ++ [id] ∧ NoDup res' ∧ res' ⊆ namedCurves.
Proof.
  intros [Hnd Hsub]. unfold curveStep. destruct (ParseInt (TrimSpace p) 32) as [id|e]; [|naive_solver].
  assert (∀ i, i ∈ namedCurves → (0 < i ≤ 65535)%Z) as Hrange.
  { intros i Hi. unfold namedCurves in Hi.
    repeat (apply elem_of_cons in Hi as [->|Hi]; [lia|]). by apply elem_of_nil in Hi. }
  split.
  - destruct (_ || _) eqn:Er; [done|]. case_bool_decide as Hs; [done|]. case_bool_decide as Hn; [|done].
    cbn. intros [= <-]. exists id. split_and!; [done..| |set_solver].
    apply NoDup_app. split_and!; [done|set_solver|apply NoDup_singleton].
  - intros (id' & [= <-] & -> & Hnd' & Hsub').
    assert (id ∈ namedCurves) as Hid by set_solver. apply Hrange in Hid as Hr.
    destruct (Z.leb_spec id 0); [lia|]. destruct (Z.ltb_spec 65535 id); [lia|]. cbn.
    apply NoDup_app in Hnd' as (_ & Hd & _).
    rewrite bool_decide_eq_false_2 by set_solver. by rewrite bool_decide_eq_true_2.
Qed.

(** The curves of a flag: every element is the number of a curve Go names, none twice. *)
Definition curves_of (s : string) (ids : list Z) : Prop :=
  Forall2 (λ p id, ParseInt (TrimSpace p) 32 = Ok id) (Split s ",") ids ∧ NoDup ids ∧ ids ⊆ namedCurves.

Lemma parseCurvePreferences_spec s ids :
  parseCurvePreferences s = Ok ids ↔
  if bool_decide (s = "") then ids = None else ∃ l, ids = Some l ∧ curves_of s l.
Proof.
  unfold parseCurvePreferences, curves_of. case_bool_decide; [naive_solver|].
  pose proof (foldM_collect curveStep (λ p id, ParseInt (TrimSpace p) 32 = Ok id)
    (λ l, NoDup l ∧ l ⊆ namedCurves) (Split s ",")) as HC.
  assert (∀ out, foldM curveStep [] (Split s ",") = Ok out ↔
    Forall2 (λ p id, ParseInt (TrimSpace p) 32 = Ok id) (Split s ",") out ∧ NoDup out ∧ out ⊆ namedCurves) as H'.
  { apply HC.
    - split; [constructor|set_solver].
    - intros res res' [Hnd Hs]. apply NoDup_app in Hnd. set_solver.
    - intros res x res' Hok. by apply curveStep_Ok. }
  destruct (foldM curveStep [] (Split s ",")) as [out|e] eqn:E; cbn.
  - specialize (proj1 (H' out) eq_refl) as ?. split; [intros [= <-]; eauto|].
    intros (l & -> & Hl%H'). congruence.
  - split; [done|]. intros (l & -> & Hl%H'). congruence.
Qed.

(** ** TLS options *)

Section tls.
Context (TLSCipherSuites : list string → result string (list N)) (TLSVersion : string → result string N).

(** The flags ask for these cipher suites, curves and version. *)
Definition ciphers_of (s : string) (l : list N) : Prop := TLSCipherSuites (TrimSpace <$> Split s ",") = Ok l.
Definition version_of (s : string) (v : N) : Prop :=
  if bool_decide (s = "") then v = VersionTLS13 else TLSVersion s = Ok v.

Lemma parseCipherSuites_spec s c :
  parseCipherSuites TLSCipherSuites s = Ok c ↔
  if bool_decide (s = "") then c = None else ∃ l, c = Some l ∧ ciphers_of s l.
Proof using Type.
  unfold parseCipherSuites, ciphers_of. case_bool_decide; [split; congruence|].
  destruct (TLSCipherSuites _) as [l|e]; cbn; split; [|intros (? & ? & ?)| |intros (? & ? & ?)]; try congruence.
  intros [= <-]. eauto.
Qed.

Lemma parseTLSVersion_spec s v : parseTLSVersion TLSVersion s = Ok v ↔ version_of s v.
Proof using Type. unfold parseTLSVersion, version_of. case_bool_decide; split; congruence. Qed.

(** What an option the flags make does to a configuration. *)
Record option_ok (cipherSuites curvePreferences minVersion : string) (cfg cfg' : tlsConfig) : Prop := {
  ok_ciphers : if bool_decide (cipherSuites = "") then CipherSuites cfg' = CipherSuites cfg
    else (∃ l, CipherSuites cfg' = Some l ∧ ciphers_of cipherSuites l) ∧ MinVersion cfg' ≠ VersionTLS13;
  ok_curves : if bool_decide (curvePreferences = "") then CurvePreferences cfg' = CurvePreferences cfg
    else ∃ l, CurvePreferences cfg' = Some (Z.to_N <$> l) ∧ curves_of curvePreferences l;
  ok_version : version_of minVersion (MinVersion cfg');
  ok_certificate : Certificate cfg' = Certificate cfg }.

Lemma OptFor_Ok cipherSuites curvePreferences minVersion opt :
  OptFor TLSCipherSuites TLSVersion cipherSuites curvePreferences minVersion = Ok opt →
  ∀ cfg, option_ok cipherSuites curvePreferences minVersion cfg (opt cfg).
Proof using Type.
  unfold OptFor. intros (ciphers & Hc & H)%bind_Ok. apply bind_Ok in H as (curves & Hk & H).
  apply bind_Ok in H as (v & Hv & H).
  destruct (parseCipherSuites _ _) as [?|] eqn:Ec; [injection Hc as ->|done].
  destruct (parseTLSVersion _ _) as [?|] eqn:Ev; [injection Hv as ->|done].
  apply parseCipherSuites_spec in Ec. apply parseCurvePreferences_spec in Hk. apply parseTLSVersion_spec in Ev.
  destruct (bool_decide (ciphers ≠ None) && (v =? VersionTLS13)%N) eqn:E13; [done|]. injection H as <-.
  intros cfg. split; cbn; [| |done|done].
  - destruct (bool_decide (cipherSuites = "")); [by subst|]. destruct Ec as (l & -> & Hl). split; [eauto|].
    intros ->. by rewrite bool_decide_eq_true_2 in E13.
  - destruct (bool_decide (curvePreferences = "")); [by subst|]. destruct Hk as (l & -> & Hl). eauto.
Qed.

Lemma OptFor_spec cipherSuites curvePreferences minVersion :
  match OptFor TLSCipherSuites TLSVersion cipherSuites curvePreferences minVersion with
  | Ok opt => ∀ cfg, option_ok cipherSuites curvePreferences minVersion cfg (opt cfg)
  | Err _ => ∀ cfg cfg', ¬ option_ok cipherSuites curvePreferences minVersion cfg cfg'
  end.
Proof using Type.
  destruct (OptFor _ _ _ _ _) as [opt|e] eqn:E; [by apply OptFor_Ok|].
  intros cfg cfg' [Hc Hk Hv _]. revert E. unfold OptFor.
  assert (∃ c, parseCipherSuites TLSCipherSuites cipherSuites = Ok c ∧
    (c ≠ None → MinVersion cfg' ≠ VersionTLS13)) as (c & -> & Hc13).
  { clear Hk. case_bool_decide as Ee.
    - exists None. split; [apply parseCipherSuites_spec; by rewrite bool_decide_eq_true_2|done].
    - destruct Hc as [(l & _ & Hl) ?]. exists (Some l). split; [|done].
      apply parseCipherSuites_spec. rewrite bool_decide_eq_false_2 by done. eauto. }
  assert (∃ k, parseCurvePreferences curvePreferences = Ok k) as (k & ->).
  { clear Hc. case_bool_decide as Ee.
    - exists None. apply parseCurvePreferences_spec. by rewrite bool_decide_eq_true_2.
    - destruct Hk as (l & _ & Hl). exists (Some l). apply parseCurvePreferences_spec.
      rewrite bool_decide_eq_false_2 by done. eauto. }
  apply parseTLSVersion_spec in Hv as ->. cbn.
  destruct (bool_decide (c ≠ None)) eqn:En; [|done]. apply bool_decide_eq_true in En.
  destruct (N.eqb_spec (MinVersion cfg') VersionTLS13); [|done]. by destruct (Hc13 En).
Qed.

(** C39: the TLS flags are checked: they are accepted exactly when the cipher suites and the version are known to
    component-base, every curve is a number Go has a name for and none is repeated, and cipher suites are not given
    together with TLS 1.3, which ignores them; the option they make then sets exactly what was asked for, with TLS
    1.3 as the version of an empty flag, and leaves the rest of the configuration alone. *)
Theorem OptFor_exact cipherSuites curvePreferences minVersion :
  match OptFor TLSCipherSuites TLSVersion cipherSuites curvePreferences minVersion with
  | Ok opt => ∀ cfg, option_ok cipherSuites curvePreferences minVersion cfg (opt cfg)
  | Err _ => ∀ cfg cfg', ¬ option_ok cipherSuites curvePreferences minVersion cfg cfg'
  end.
Proof using Type. apply OptFor_spec. Qed.

(** ** The metrics server *)

(** Metrics are served behind TLS and authentication: the exporter serves only with the filter in front of
    the metrics, a certificate (the files of the flags, watched, if both are given, and a self-signed one
    otherwise) and the options of the flags, and its logger is at level error. *)
Theorem metrics_served_securely env metricsPath certFile keyFile cipherSuites curvePreferences minVersion
    logger routes cfg :
  metricsMain TLSCipherSuites TLSVersion env metricsPath certFile keyFile cipherSuites curvePreferences minVersion
    = Ok (logger, routes, cfg) →
  routes = [(metricsPath, FilteredMetrics); ("/livez", Livez)] ∧ GetLogLevel logger = LevelError ∧
  InClusterConfig env = None ∧ applyFilter env = None ∧
  (∃ opt, option_ok cipherSuites curvePreferences minVersion zeroTlsConfig opt ∧
     CipherSuites cfg = CipherSuites opt ∧ CurvePreferences cfg = CurvePreferences opt ∧
     MinVersion cfg = MinVersion opt) ∧
  if bool_decide (certFile = "") || bool_decide (keyFile = "")
  then ∃ cert, selfSignedCert (EE_cert env) = Ok cert ∧ Certificate cfg = Some (SelfSigned cert)
  else Certificate cfg = Some (Watched certFile keyFile).
Proof using Type.
  unfold metricsMain. intros (u & Hl & H)%bind_Ok. apply bind_Ok in H as (h & Hh & H).
  apply bind_Ok in H as (opt & Ho & H). apply bind_Ok in H as (cfg0 & Ht & H). apply bind_Ok in H as (? & _ & H).
  injection H as <- <- <-.
  destruct (OptFor _ _ _ _ _) as [?|] eqn:Eo; [injection Ho as ->|done].
  destruct (tlsFor _ _ _ _) as [?|] eqn:Et; [injection Ht as ->|done].
  pose proof (OptFor_Ok _ _ _ _ Eo zeroTlsConfig) as Hopt.
  assert (h = FilteredMetrics ∧ InClusterConfig env = None ∧ applyFilter env = None) as (-> & ? & ?).
  { revert Hh. unfold newMetricsHandler, rbacFilter.
    destruct (InClusterConfig env), (HTTPClientFor env), (WithAuthenticationAndAuthorization env), (applyFilter env);
      cbn; naive_solver. }
  split_and!; [done..| |]; unfold tlsFor, withCertWatcher, withSelfSigned, withCertificate in Et.
  - exists (opt zeroTlsConfig). split; [done|].
    destruct (_ && _) in Et; [destruct (certwatcherNew _ _ _); [done|]|apply bind_Ok in Et as (? & _ & Et)];
      by injection Et as <-.
  - destruct (bool_decide (certFile = "")), (bool_decide (keyFile = "")); cbn in Et |- *;
      try (apply bind_Ok in Et as (cert & Hs & Et); exists cert; split; [done|]);
      try destruct (certwatcherNew _ _ _); simplify_eq; done.
Qed.
End tls.

(** ** The debounce timeout *)

Definition maxInt64 : Z := 9223372036854775807.

(** The debounce timeout is the default or the number of the flag: the flag is refused unless it is a positive integer, and
    a number of milliseconds that fits a duration is the timeout, which is positive. *)
Theorem debounceTimeout_exact flag :
  match debounceTimeout flag with
  | None => flag ≠ "" ∧ ∀ n, Atoi flag = Ok n → (n ≤ 0)%Z
  | Some d =>
      if bool_decide (flag = "") then d = 3000000000%Z
      else ∃ n, Atoi flag = Ok n ∧ (0 < n)%Z ∧
        ((n * 1000000 ≤ maxInt64)%Z → d = (n * 1000000)%Z ∧ (0 < d)%Z)
  end.
Proof.
  unfold debounceTimeout. destruct (bool_decide_reflect (flag = "")) as [->|Hne]; [done|].
  destruct (Atoi flag) as [n|e] eqn:E; [|by split].
  destruct (Z.leb_spec n 0).
  - split; [done|]. by intros m [= <-].
  - exists n. split_and!; [done..|].
    unfold maxInt64, wrap64, Millisecond. intros Hfit. rewrite Z.mod_small; [lia|]. change (2 ^ 63)%Z with 9223372036854775808%Z.
    change (2 ^ 64)%Z with 18446744073709551616%Z. lia.
Qed.

(** A larger number passes the check and overflows: the timeout is negative, so the timer of the debouncer expires at once. *)
Theorem debounce_timeout_overflows :
  debounceTimeout "9223372036855" = Some (-9223372036854551616)%Z.
Proof. vm_compute. reflexivity. Qed.

(** ** The controller *)

Section controller.
Context (TLSCipherSuites : list string → result string (list N)) (TLSVersion : string → result string N).

Lemma exit_if_Ok o mk u : exit_if o mk = Ok u ↔ o = None.
Proof using Type. destruct o, u; cbn; split; congruence. Qed.

(** What runs when every flag is valid. *)
Record runs (p : params) (env : startupEnv) (s : started) : Prop := {
  runs_level : GetLogLevel (St_logger s) ∈ Levels ∧ LevelFrom (GetLogLevel (St_logger s)) = LevelFrom (logLevel p);
  runs_shared : R_DefaultLogLevel (St_config s) = GetLogLevel (St_logger s) ∧
    St_frrk8s s = (GetLogLevel (St_logger s), R_Namespace (St_config s));
  runs_identity : R_NodeName (St_config s) = nodeName p ∧ St_stateNode s = nodeName p ∧
    R_Namespace (St_config s) = namespace p;
  runs_blocks : if bool_decide (alwaysBlockCIDRs p = "") then R_AlwaysBlockCIDRS (St_config s) = []
    else Forall2 is_cidr (Split (alwaysBlockCIDRs p) ",") (R_AlwaysBlockCIDRS (St_config s));
  runs_debounce : debounceTimeout (bgpDebounceTimeoutMs p) = Some (St_debounce s);
  runs_frr : NewFRR (interfaceAddrs env) (osHostname env) = Ok (St_frr s);
  runs_tls : ∀ cfg, option_ok TLSCipherSuites TLSVersion (tlsCipherSuites p) (tlsCurvePreferences p)
    (tlsMinVersion p) cfg (St_tls s cfg) }.

Lemma controllerMain_runs env p s :
  controllerMain TLSCipherSuites TLSVersion env p = Ok s → runs p env s.
Proof using Type.
  unfold controllerMain. intros (lvl & Hl & H)%bind_Ok. apply bind_Ok in H as (? & _ & H).
  apply bind_Ok in H as (opt & Ho & H). do 3 apply bind_Ok in H as (? & _ & H).
  apply bind_Ok in H as (s' & Hs & H). apply bind_Ok in H as (? & _ & [= ->]).
  revert Hs. unfold startFRRControllers. intros (d & Hd & H)%bind_Ok. apply bind_Ok in H as (f & Hf & H).
  apply bind_Ok in H as (nets & Hn & H). do 3 apply bind_Ok in H as (? & _ & H). injection H as <-.
  pose proof (ParseLevel_valid (logLevel p)) as Hlv.
  destruct (ParseLevel (logLevel p)) as [l [e|]]; [done|]. injection Hl as ->.
  destruct Hlv as (_ & Hin & Hfrom).
  assert (GetLogLevel (SetLogLevel initLogger lvl) = lvl) as Hget.
  { unfold Levels in Hin. repeat (apply elem_of_cons in Hin as [->|Hin]; [reflexivity|]). by apply elem_of_nil in Hin. }
  destruct (OptFor _ _ _ _ _) as [?|] eqn:Eo; [injection Ho as ->|done].
  destruct (debounceTimeout _) eqn:Ed; [injection Hd as ->|done].
  destruct (NewFRR _ _) eqn:Ef; [injection Hf as ->|done].
  destruct (parseCIDRs _) eqn:Ec; [injection Hn as ->|done].
  split; cbn; rewrite ?Hget; try done.
  - by apply parseCIDRs_spec.
  - by apply OptFor_Ok.
Qed.

(** The controller starts with what the flags say: when main reaches the manager, the logger has the valid level
    of the flag, which the three controllers share as their default; they work for the node and the namespace of the flags, on
    one FRR instance; the prefixes to block are those of the list, in order; and the TLS options and the timeout are valid.
    An invalid level, TLS option, timeout or prefix ends the daemon. *)
Theorem controllerMain_exact env p :
  match controllerMain TLSCipherSuites TLSVersion env p with
  | Ok s => runs p env s
  | Err e =>
      match e with
      | ExitLogLevel => logLevel p ∉ Levels
      | ExitTLS _ => ∀ cfg cfg', ¬ option_ok TLSCipherSuites TLSVersion (tlsCipherSuites p) (tlsCurvePreferences p)
          (tlsMinVersion p) cfg cfg'
      | ExitDebounceTimeout s => s = bgpDebounceTimeoutMs p ∧ debounceTimeout s = None
      | ExitAlwaysBlock _ => ∀ nets, ¬ Forall2 is_cidr (Split (alwaysBlockCIDRs p) ",") nets
      | _ => True
      end
  end.
Proof using Type.
  destruct (controllerMain _ _ env p) as [s|e] eqn:E; [by apply controllerMain_runs|].
  revert E. unfold controllerMain. pose proof (ParseLevel_valid (logLevel p)) as Hlv.
  destruct (ParseLevel (logLevel p)) as [l [el|]]; [by intros [= <-]; apply Hlv|]. cbn.
  destruct (initLogging env); [by intros [= <-]|]. cbn.
  pose proof (OptFor_spec TLSCipherSuites TLSVersion (tlsCipherSuites p) (tlsCurvePreferences p) (tlsMinVersion p)) as Ho.
  destruct (OptFor _ _ _ _ _); [|by intros [= <-]]. cbn.
  destruct (newManager env); [by intros [= <-]|]. destruct (addHealthz env); [by intros [= <-]|].
  destruct (addReadyz env); [by intros [= <-]|]. cbn. unfold startFRRControllers.
  destruct (debounceTimeout _) eqn:Ed; [|by intros [= <-]]. cbn.
  destruct (NewFRR _ _); [|by intros [= <-]]. cbn.
  destruct (parseCIDRs _) as [nets|eb] eqn:Ec; cbn.
  - destruct (setupWithManager env "FRRConfiguration"); cbn; [by intros [= <-]|].
    destruct (setupWithManager env "FRRStatus"); cbn; [by intros [= <-]|].
    destruct (setupWithManager env "FRRK8sConfiguration"); cbn; [by intros [= <-]|].
    destruct (managerStart env); cbn; [by intros [= <-]|done].
  - intros [= <-] nets Hnets. assert (parseCIDRs (alwaysBlockCIDRs p) = Ok nets) as Hok; [|congruence].
    apply parseCIDRs_spec. case_bool_decide as Ee; [|done]. rewrite Ee in Ec. done.
Qed.
End controller.

(** ** From the flag to the file *)

Section enforced.
Context (TLSCipherSuites : list string → result string (list N)) (TLSVersion : string → result string N).
Context {Selector : Type} (LabelSelectorAsSelector : LabelSelector → result string Selector).
Context (Matches : Selector → labels → bool).
Context {route : Type} (family_of : route → string) (covers : string → N → N → route → bool).
Context (at_end : bool).

(** C8: the prefixes of the flag are always blocked: once the controller has started, in the text FRR reads for every
    configuration the controller asks for, completed with host name and router IDs, no route of the family of a network of the list
    [--always-block] and inside it is accepted from any peer of any router, whatever the session allows.  It is assumed that the values in
    the file are words and its numbers fit (text_ok), that the raw configuration of the resources adds no prefix list or route map and no
    command to a router (no_raw_filters, raw_outside), and that no two sessions have the same identifier, or one that is
    another's with -denied (apart): resources can be written that break each of these, and then it may fail. *)
Theorem always_block_enforced env p s c cfg a r n rt e net :
  controllerMain TLSCipherSuites TLSVersion env p = Ok s →
  desired LabelSelectorAsSelector Matches (St_config s) c = Ok cfg → completes a cfg →
  apart (config_sessions cfg) → r ∈ Config_Routers a → n ∈ RC_Neighbors r → text_ok a → no_raw_filters a →
  family_of rt = "ip" ∨ family_of rt = "ipv6" →
  e ∈ Split (alwaysBlockCIDRs p) "," → is_cidr e net → inside family_of covers net rt = true →
  peer_accepts family_of covers at_end (templateConfig a) (RC_VRF r) (peerOf n) rt = None.
Proof using Type.
  intros Hs%controllerMain_runs Hd (_ & _ & _ & Ha) Hap Hr Hn Hread Hraw Hf He Hnet Hin.
  assert (net ∈ R_AlwaysBlockCIDRS (St_config s)) as Hblock.
  { pose proof (runs_blocks _ _ _ _ _ Hs) as Hb. case_bool_decide as Ee.
    - rewrite Ee in He. apply list_elem_of_singleton in He as ->. done.
    - apply list_elem_of_lookup in He as [i Hi]. destruct (Forall2_lookup_l _ _ _ _ _ Hb Hi) as (net' & Hi' & Hc').
      unfold is_cidr in *. rewrite Hnet in Hc'. injection Hc' as <-. by eapply list_elem_of_lookup_2. }
  destruct (desired_converted _ _ _ _ _ Hd) as [Hnil|(resources & config & Hc & Hrs)].
  { destruct (same_routers_elem a cfg r Ha Hr) as (r0 & Hr0 & _). rewrite Hnil in Hr0. by apply elem_of_nil in Hr0. }
  unfold same_routers in Ha. rewrite Hrs in Ha. unfold config_sessions in Hap. rewrite Hrs in Hap.
  rewrite (peer_accepts_spec family_of covers at_end resources _ config a r n rt Hc Ha Hread Hraw Hap Hr Hn Hf).
  unfold accepted_from. replace (existsb _ _) with true; [by destruct (active_family n _)|]. symmetry.
  apply existsb_exists. exists net. split; [by apply list_elem_of_In|done].
Qed.
End enforced.

(** ** The status cleaner *)

Section cleaner.
Context (TLSCipherSuites : list string → result string (list N)) (TLSVersion : string → result string N).
Context {Selector : Type} (labels_Parse : string → result string Selector).
Context (AddRotator : CertRotator → option string) (SetupWebhookWithManager : option string).

(** The webhook waits for its certificate: the webhook and the controllers of the status cleaner are set up exactly
    when the rotator says that the certificates are there or the rotation is disabled; the rotator is asked for the
    secret and the service name of the namespace of the daemon, and the cleaner works in that namespace with
    the selector of the flag and a valid level. *)
Theorem webhook_waits_for_certificates env certsReady p rotator started :
  cleanerMain labels_Parse AddRotator SetupWebhookWithManager TLSCipherSuites TLSVersion env certsReady p
    = Ok (rotator, started) →
  (rotator = None ↔ CP_disableCertRotation p = true) ∧
  (∀ r, rotator = Some r → AddRotator r = None ∧ SecretKey r = (CP_namespace p, webhookSecretName) ∧
     DNSName r = CP_certServiceName p +:+ "." +:+ CP_namespace p +:+ ".svc" ∧ Webhooks r = [webhookName] ∧
     RestartOnSecretRefresh r = CP_restartOnRotatorSecretRefresh p) ∧
  (is_Some started ↔ CP_disableCertRotation p = true ∨ certsReady = true) ∧
  (∀ cc, started = Some cc → SetupWebhookWithManager = None ∧
     fst (CC_cleaner cc) = CP_namespace p ∧ labels_Parse (CP_frrk8sSelector p) = Ok (snd (CC_cleaner cc)) ∧
     snd (CC_frrk8s cc) = CP_namespace p ∧ fst (CC_frrk8s cc) ∈ Levels).
Proof using Type.
  unfold cleanerMain. intros (lvl & Hl & H)%bind_Ok. apply bind_Ok in H as (? & _ & H).
  apply bind_Ok in H as (? & _ & H). apply bind_Ok in H as (? & _ & H).
  apply bind_Ok in H as ([rot ready] & Hrot & H). apply bind_Ok in H as (st & Hst & H).
  apply bind_Ok in H as (? & _ & [= <- <-]).
  assert (lvl ∈ Levels) as Hlvl.
  { pose proof (ParseLevel_valid (CP_logLevel p)) as Hlv. destruct (ParseLevel _) as [l [e|]]; [done|].
    injection Hl as <-. apply Hlv. }
  assert (is_Some st ↔ ready = true) as Hstarted.
  { destruct ready; [|injection Hst as <-; by split; [intros []|]].
    destruct (listeners _ _ _ _ _); cbn in Hst; [by injection Hst as <-|done]. }
  split_and!.
  - destruct (CP_disableCertRotation p); [by injection Hrot as <- <-|].
    destruct (setupCertRotation _ _ _ _ _); [by injection Hrot as <- <-|done].
  - intros r ->. destruct (CP_disableCertRotation p); [done|]. revert Hrot. unfold setupCertRotation.
    destruct (AddRotator _) eqn:Ea; [done|]. intros [= <- _]. by split_and!.
  - rewrite Hstarted. destruct (CP_disableCertRotation p); [injection Hrot as <- <-; naive_solver|].
    destruct (setupCertRotation _ _ _ _ _); [injection Hrot as <- <-; naive_solver|done].
  - intros cc ->. destruct ready; [|done].
    destruct (listeners _ _ _ _ _) as [cc'|] eqn:El; [injection Hst as ->|done].
    revert El. unfold listeners, setupWebhook, startNodeStateCleaner.
    intros (u & Hu & El)%bind_Ok. apply exit_if_Ok in Hu.
    apply bind_Ok in El as (sel & Hsel & El). do 2 apply bind_Ok in El as (? & _ & El). injection El as <-. cbn.
    destruct (labels_Parse _); [injection Hsel as ->|done]. by split_and!.
Qed.
End cleaner.

(** ** Samples *)

Definition sampleSuites (names : list string) : result string (list N) :=
  if bool_decide (names = ["TLS_ECDHE_RSA_WITH_AES_128_GCM_SHA256"]) then Ok [0xC02F%N] else Err "not supported".
Definition sampleVersion (v : string) : result string N :=
  if bool_decide (v = "VersionTLS12") then Ok VersionTLS12
  else if bool_decide (v = "VersionTLS13") then Ok VersionTLS13 else Err "unknown tls version".

Definition sampleEnv : startupEnv :=
  mkStartupEnv None None None None (Ok []) (Ok "node1") (λ _, None) None.

Definition sampleParams : params :=
  mkParams "debug" "node1" "frr-k8s-system" "192.168.0.0/16, 2001:db8::/32" "TLS_ECDHE_RSA_WITH_AES_128_GCM_SHA256"
    "29, 23" "VersionTLS12" "500".

(** The networks of the flag of the sample. *)
Definition sampleNets : list IPNet :=
  omap (λ e, snd <$> ParseCIDR e) ["192.168.0.0/16"; "2001:db8::/32"].

Definition sampleStarted : result exitReason started :=
  controllerMain sampleSuites sampleVersion sampleEnv sampleParams.

Example sample_starts :
  (λ s, (R_AlwaysBlockCIDRS (St_config s), St_debounce s, St_tls s zeroTlsConfig)) <$> sampleStarted =
  Ok (sampleNets, 500000000%Z, mkTlsConfig (Some [0xC02F%N]) (Some [29; 23]%N) VersionTLS12 None).
Proof. vm_compute. reflexivity. Qed.

Example bad_curves :
  parseCurvePreferences "29,29" = Err (ECurveDuplicate 29) ∧
  parseCurvePreferences "30" = Err (ECurveUnsupported 30) ∧
  parseCurvePreferences "65536" = Err (ECurveRange 65536) ∧
  parseCurvePreferences "29," = Err (ECurveSyntax "").
Proof. split_and!; vm_compute; reflexivity. Qed.

(** The controller the sample starts, and what it asks FRR for. *)
Definition startedSample : started :=
  mkStarted
    (λ cfg, mkTlsConfig (Some [0xC02F%N]) (Some [29; 23]%N) VersionTLS12 (Certificate cfg))
    (SetLogLevel initLogger "debug") 500000000
    (mkFRR zeroStatus "95.28.242.19") (mkReconciler "node1" "frr-k8s-system" sampleNets "debug")
    "node1" ("debug", "frr-k8s-system").

Definition enforcedConfig : Config NeighborConfig := Eval vm_compute in
  match desired matchLabelsOnly includes (St_config startedSample)
          (sampleCluster (FRRConfigs sampleResources) "debug") with
  | Ok c => c
  | Err _ => mkConfig "" "" [] [] ""
  end.

Definition enforcedRouter : RouterConfig NeighborConfig := Eval vm_compute in
  default (mkRouterConfig 0 "" [] "" [] [] [] None) (head (Config_Routers enforcedConfig)).
Definition enforcedSession : NeighborConfig := Eval vm_compute in default filteredSession (head (RC_Neighbors enforcedRouter)).

Definition blockedNet : IPNet := Eval vm_compute in
  match ParseCIDR "192.168.0.0/16" with Some (_, n) => n | None => mkIPNet [] [] end.

Lemma always_block_enforced_witness :
  ∃ s, controllerMain sampleSuites sampleVersion sampleEnv sampleParams = Ok s ∧
  peer_accepts fst sampleCovers false (templateConfig enforcedConfig) "" "10.1.1.1" ("ip", "192.168.0.0/16") = None.
Proof.
  destruct (controllerMain sampleSuites sampleVersion sampleEnv sampleParams) as [s|e] eqn:E;
    [|vm_compute in E; discriminate E].
  exists s. split; [reflexivity|].
  assert (St_config s = St_config startedSample) as Hs by (vm_compute in E; injection E as <-; vm_compute; reflexivity).
  eapply (always_block_enforced sampleSuites sampleVersion matchLabelsOnly includes fst sampleCovers false
    sampleEnv sampleParams s (sampleCluster (FRRConfigs sampleResources) "debug") enforcedConfig enforcedConfig enforcedRouter
    enforcedSession ("ip", "192.168.0.0/16") "192.168.0.0/16" blockedNet).
  - exact E.
  - rewrite Hs. vm_compute; reflexivity.
  - split_and!; [reflexivity..|]. exact (same_routers_refl _).
  - by_evaluation.
  - left.
  - left.
  - split; [split; by_evaluation|by_evaluation..].
  - vm_compute; reflexivity.
  - left; reflexivity.
  - by_evaluation.
  - vm_compute; reflexivity.
  - vm_compute; reflexivity.
Defined.

Definition sampleCert : certEnv :=
  mkCertEnv (Ok "node1") (λ host, Ok ("cert of " +:+ host, "key")) (λ p, Ok (fst p)) (λ _ _, None).
Definition sampleExporter : exporterEnv := mkExporterEnv None None None None None sampleCert None "closed".

Lemma metrics_served_securely_witness :
  ∃ logger routes cfg,
    metricsMain sampleSuites sampleVersion sampleExporter "/metrics" "" "" "" "29" "" = Ok (logger, routes, cfg) ∧
    routes = [("/metrics", FilteredMetrics); ("/livez", Livez)] ∧ MinVersion cfg = VersionTLS13.
Proof.
  destruct (metricsMain sampleSuites sampleVersion sampleExporter "/metrics" "" "" "" "29" "")
    as [[[logger routes] cfg]|e] eqn:E; [|vm_compute in E; discriminate E].
  exists logger, routes, cfg. split; [reflexivity|].
  destruct (metrics_served_securely sampleSuites sampleVersion sampleExporter "/metrics" "" "" "" "29" ""
    logger routes cfg E) as (Hr & _ & _ & _ & (opt & Hok & _ & _ & Hv) & _).
  split; [exact Hr|]. rewrite Hv. exact (ok_version _ _ _ _ _ _ _ Hok).
Defined.

Definition sampleCleaner : cleanerParams :=
  mkCleanerParams "info" "frr-k8s-system" false false "/certs" "frr-k8s-webhook-service" "component=frr-k8s" "" "" "".

Lemma webhook_waits_for_certificates_witness :
  ∃ rotator started,
    cleanerMain (λ s, Ok s) (λ _, None) None sampleSuites sampleVersion sampleEnv false sampleCleaner
      = Ok (rotator, started) ∧ ¬ is_Some started.
Proof.
  destruct (cleanerMain (λ s, Ok s) (λ _, None) None sampleSuites sampleVersion sampleEnv false sampleCleaner)
    as [[rotator started]|e] eqn:E; [|vm_compute in E; discriminate E].
  exists rotator, started. split; [reflexivity|].
  destruct (webhook_waits_for_certificates sampleSuites sampleVersion (λ s, Ok s) (λ _, None) None sampleEnv false
    sampleCleaner rotator started E) as (_ & _ & Hst & _).
  rewrite Hst. intros [H|H]; discriminate H.
Defined.
