(* ===== verification/StatusMain.v ===== *)
(** * Starting the status exporter ([cmd/status/exporter.go])

    [main] parses the poll interval and the log level, fetches the pod it runs in, and registers the session state
    controller, with vtysh as the source of sessions, and the controller of the log level. *)

From Stdlib Require Import Ascii Lia.
From S2P Require Import Prelude GoStrings GoNet IPFamily Community Api FrrConfig Errors Merge.
From S2P Require Import ApiToConfig Logging Debouncer FRRManager Reconciler Json JsonPrint Parse ParseProps ParseText.
From S2P Require Import Metrics MetricsProps SessionState SessionProps Duration StatusExporter Startup StartupProps.

(** The flags, with their defaults. *)
Record statusParams := mkStatusParams {
  SP_logLevel : string;
  SP_nodeName : string;
  SP_namespace : string;
  SP_podName : string;
  SP_pollInterval : string }.
Definition statusDefaults : statusParams := mkStatusParams "info" "" "" "" "2m".

(** The calls of this main that the other daemons do not make: [client.New], and [Get] of the pod. *)
Record statusEnv := mkStatusEnv {
  SE_env : startupEnv;
  newClient : option string;
  getPod : string → string → option string }.

(** What is running: the session state controller with its fetcher, and the one of the log level. *)
Record statusStarted := mkStatusStarted {
  SS_logger : Logger;
  SS_session : SessionReconciler;
  SS_fetcher : Cli → result k8sError (gmap string (list FrrNeighbor));
  SS_frrk8s : Level * string }.

Definition statusMain (Error : vtyshError → string) (env : statusEnv) (p : statusParams)
    : result exitReason statusStarted :=
  resyncPeriod ← match ParseDuration (SP_pollInterval p) with
                 | Ok d => Ok d | Err e => Err (ExitPollInterval e) end;
  defaultLogLevel ← match ParseLevel (SP_logLevel p) with
                    | (l, None) => Ok l | (_, Some _) => Err ExitLogLevel end;
  _ ← exit_if (initLogging (SE_env env)) ExitLogging;
  let logger := SetLogLevel initLogger defaultLogLevel in
  _ ← exit_if (newManager (SE_env env)) ExitManager;
  _ ← exit_if (newClient env) ExitClient;
  _ ← exit_if (getPod env (SP_namespace p) (SP_podName p)) ExitPod;
  _ ← exit_if (setupWithManager (SE_env env) "BGPSessionState") (ExitController "BGPSessionState");
  _ ← exit_if (setupWithManager (SE_env env) "FRRK8sConfiguration") (ExitController "FRRK8sConfiguration");
  _ ← exit_if (managerStart (SE_env env)) ExitRun;
  Ok (mkStatusStarted logger (mkSessionReconciler (SP_nodeName p) (SP_namespace p) resyncPeriod)
        (BGPPeersFetcher Error) (defaultLogLevel, SP_namespace p)).

(** ** What runs is what the flags ask for *)

Lemma statusMain_Ok Error env p s :
  statusMain Error env p = Ok s ↔
  ∃ period l, ParseDuration (SP_pollInterval p) = Ok period ∧ ParseLevel (SP_logLevel p) = (l, None) ∧
    (initLogging (SE_env env) = None ∧ newManager (SE_env env) = None ∧ newClient env = None ∧
     getPod env (SP_namespace p) (SP_podName p) = None ∧ setupWithManager (SE_env env) "BGPSessionState" = None ∧
     setupWithManager (SE_env env) "FRRK8sConfiguration" = None ∧ managerStart (SE_env env) = None) ∧
    s = mkStatusStarted (SetLogLevel initLogger l) (mkSessionReconciler (SP_nodeName p) (SP_namespace p) period)
          (BGPPeersFetcher Error) (l, SP_namespace p).
Proof.
  unfold statusMain. destruct (ParseDuration (SP_pollInterval p)) as [period|e]; cbn [mbind result_bind]; [|naive_solver].
  destruct (ParseLevel (SP_logLevel p)) as [l [e|]]; cbn [mbind result_bind]; [naive_solver|].
  repeat setoid_rewrite bind_Ok. setoid_rewrite exit_if_Ok. naive_solver.
Qed.

(** The requests of the node's own state: [RequeueAfter] of a positive duration makes the controller run again. *)
Definition polls_after (r : SessionReconciler) (d : Z) : Prop :=
  ∀ items neighbors,
    snd (Session_Reconcile r (λ _, None) (Ok items) (Ok neighbors) (SR_NodeName r) "") = Done d.

Lemma polls_after_period r : polls_after r (SR_ResyncPeriod r).
Proof.
  intros items neighbors. pose proof (Session_Reconcile_calls r items neighbors (SR_NodeName r) "") as H.
  destruct (desiredStatesForExisting _ _ _) as [toApply toRemove]. rewrite H. cbn [snd].
  by rewrite !bool_decide_eq_true_2.
Qed.

(** No reconciliation is repeated, of whatever request. *)
Definition never_polls (r : SessionReconciler) : Prop :=
  ∀ items neighbors name ns,
    snd (Session_Reconcile r (λ _, None) (Ok items) (Ok neighbors) name ns) = Done 0.

Lemma never_polls_zero r : SR_ResyncPeriod r = 0%Z → never_polls r.
Proof.
  intros Hr items neighbors name ns. pose proof (Session_Reconcile_calls r items neighbors name ns) as H.
  destruct (desiredStatesForExisting _ _ _) as [toApply toRemove]. rewrite H. cbn [snd]. rewrite Hr. by destruct (_ && _).
Qed.

(** C37: the exporter polls FRR as often as its flag says: with a poll interval written as whole numbers with the units of
    Go, none of which alone is exactly 2^63 nanoseconds (two of those would wrap around to 0), it starts
    exactly when the interval is less than 2^63 nanoseconds, the log level is one of the known ones
    and every call to the outside succeeds; what runs has the node, the namespace and the level of the flags,
    and every successful reconciliation of the state of the node asks to be repeated after exactly the interval, if it
    is positive.  An interval of zero is accepted too, and then no reconciliation asks to be repeated. *)
Theorem status_exporter_polls Error env p ts :
  SP_pollInterval p = duration_text ts →
  ts ≠ [] → Forall known_unit ts → Forall (λ t, term_value t ≠ maxAbs) ts →
  ((∃ s, statusMain Error env p = Ok s) ↔
     (duration_value ts < 2 ^ 63)%N ∧ SP_logLevel p ∈ Levels ∧
     initLogging (SE_env env) = None ∧ newManager (SE_env env) = None ∧ newClient env = None ∧
     getPod env (SP_namespace p) (SP_podName p) = None ∧ setupWithManager (SE_env env) "BGPSessionState" = None ∧
     setupWithManager (SE_env env) "FRRK8sConfiguration" = None ∧ managerStart (SE_env env) = None) ∧
  (∀ s, statusMain Error env p = Ok s →
     (if decide (0 < duration_value ts)%N
      then polls_after (SS_session s) (Z.of_N (duration_value ts)) else never_polls (SS_session s)) ∧
     SR_NodeName (SS_session s) = SP_nodeName p ∧ SR_Namespace (SS_session s) = SP_namespace p ∧
     GetLogLevel (SS_logger s) = fst (ParseLevel (SP_logLevel p))).
Proof.
  intros Hp Hne Hu Hv. destruct (ParseDuration_whole ts Hne Hu Hv) as [Hd _]. rewrite <-Hp in Hd.
  change (2 ^ 63)%N with maxAbs. setoid_rewrite statusMain_Ok. rewrite Hd.
  pose proof (ParseLevel_valid (SP_logLevel p)) as Hl. destruct (ParseLevel (SP_logLevel p)) as [l [e|]].
  { naive_solver. }
  destruct (N.ltb_spec (duration_value ts) maxAbs); [|split; [split; [naive_solver|lia]|naive_solver]].
  destruct Hl as (Hl & Hl' & _). split; [naive_solver|].
  intros s (period & l0 & [= <-] & [= <-] & _ & ->). split_and!; [|done|done|].
  { case_decide; [apply polls_after_period|]. apply never_polls_zero. cbn. lia. }
  revert Hl'. unfold SetLogLevel, GetLogLevel, ToOption, Levels. clear. cbn [SS_logger fst].
  by_level; rewrite ?elem_of_cons, ?elem_of_nil; naive_solver.
Qed.

(** An interval that is zero or negative is accepted, and then no reconciliation asks to be repeated: FRR is never
    polled, although the flag is the maximum duration between polls. *)
Theorem interval_may_stop_polling Error env p s :
  SP_pollInterval p ∈ ["0"; "0s"; "-2m"] → statusMain Error env p = Ok s →
  ∃ d, (d ≤ 0)%Z ∧ polls_after (SS_session s) d.
Proof.
  intros Hin (period & l & Hd & _ & _ & ->)%statusMain_Ok.
  exists period. split; [|apply polls_after_period].
  repeat (apply elem_of_cons in Hin as [Hin|Hin]; [rewrite Hin in Hd; vm_compute in Hd; by injection Hd as <-|]).
  by apply elem_of_nil in Hin.
Qed.

(** ** A sample start *)

Definition sampleStatusEnv : statusEnv :=
  mkStatusEnv (mkStartupEnv None None None None (Ok []) (Ok "node1") (λ _, None) None) None (λ _ _, None).
Definition sampleStatusParams (pollInterval : string) : statusParams :=
  mkStatusParams "debug" "node1" "frr-k8s-system" "frr-k8s-abcde" pollInterval.

(** With valid flags this daemon starts. *)
Lemma status_sample_starts pollInterval period :
  ParseDuration pollInterval = Ok period →
  ∃ s, statusMain (λ _, "") sampleStatusEnv (sampleStatusParams pollInterval) = Ok s.
Proof. intros H. eexists. apply statusMain_Ok. exists period, LevelDebug. by split_and!. Qed.

Lemma status_exporter_polls_witness :
  ∃ s, statusMain (λ _, "") sampleStatusEnv (sampleStatusParams "1h30m") = Ok s ∧
  polls_after (SS_session s) 5400000000000.
Proof.
  destruct (status_sample_starts "1h30m" 5400000000000 ltac:(vm_compute; reflexivity)) as [s E]. exists s. split; [exact E|].
  destruct (status_exporter_polls (λ _, "") sampleStatusEnv (sampleStatusParams "1h30m") [(1%N, "h"); (30%N, "m")])
    as [_ H].
  - vm_compute; reflexivity.
  - discriminate.
  - by_evaluation.
  - by_evaluation.
  - exact (proj1 (H s E)).
Defined.

Lemma interval_may_stop_polling_witness :
  ∃ s d, statusMain (λ _, "") sampleStatusEnv (sampleStatusParams "0s") = Ok s ∧ (d ≤ 0)%Z ∧
    polls_after (SS_session s) d.
Proof.
  destruct (status_sample_starts "0s" 0 ltac:(vm_compute; reflexivity)) as [s E].
  destruct (interval_may_stop_polling (λ _, "") sampleStatusEnv (sampleStatusParams "0s") s) as (d & Hd & Hp).
  - right; left.
  - exact E.
  - exists s, d. split; [exact E|]. split; assumption.
Defined.
