(* ===== verification/Informers.v ===== *)
(** * The informers of the client library ([pkg/client/informers])

    The shared informer factory other programs watch the resources with: it makes one informer per type and
    runs it once, however often [Start] is called, and [Shutdown] waits until all of them have ended.  The methods hold a
    mutex, so each is one step of a system in which callers, channels and goroutines interleave; an informer is the
    arguments client-go's [NewSharedIndexInformer] is called with. *)

From Stdlib Require Import Ascii Lia.
From S2P Require Import Prelude.

(** [reflect.Type] of an object: the two resources, or whatever else a caller gives. *)
Inductive objectType := TFRRConfiguration | TFRRK8sConfiguration | TOther (name : string).
#[global] Instance objectType_eq_dec : EqDecision objectType.
Proof. solve_decision. Defined.
#[global] Instance objectType_countable : Countable objectType.
Proof.
  refine (inj_countable (λ t, match t with TFRRConfiguration => inl true | TFRRK8sConfiguration => inl false | TOther n => inr n end)
    (λ c, Some (match c with inl true => TFRRConfiguration | inl false => TFRRK8sConfiguration | inr n => TOther n end)) _).
  by intros [].
Defined.

Section informers.
Context {Client ListOptions Transform Ctx : Type} (Background : Ctx).
Notation tweakFunc := (option (ListOptions → ListOptions)).

(** ** Informers *)

(** A request to the API server: [client.ApiV1beta1().<resource>(namespace).<verb>(ctx, options)]. *)
Inductive verb := List | Watch.
Record apiCall := mkApiCall {
  Call_client : Client;
  Call_resource : objectType;
  Call_namespace : string;
  Call_verb : verb;
  Call_ctx : Ctx;
  Call_options : ListOptions }.

(** [cache.ListWatch]. *)
Record listWatch := mkListWatch {
  ListFunc : ListOptions → apiCall;
  WatchFunc : ListOptions → apiCall;
  ListWithContextFunc : Ctx → ListOptions → apiCall;
  WatchFuncWithContext : Ctx → ListOptions → apiCall }.

(** [cache.SharedIndexInformer]: its requests, the type of its objects, the resync period, the names of its indexes, and
    the transform it has been given. *)
Record informer := mkInformer {
  I_listWatch : listWatch;
  I_type : objectType;
  I_resync : Z;
  I_indexers : list string;
  I_transform : option Transform }.

Definition tweaked (tweakListOptions : tweakFunc) (options : ListOptions) : ListOptions :=
  match tweakListOptions with Some tweak => tweak options | None => options end.

Definition NewFilteredFRRConfigurationInformer (client : Client) (namespace : string) (resyncPeriod : Z) (indexers : list string)
    (tweakListOptions : tweakFunc) : informer :=
  mkInformer
    (mkListWatch
       (λ options, mkApiCall client TFRRConfiguration namespace List Background (tweaked tweakListOptions options))
       (λ options, mkApiCall client TFRRConfiguration namespace Watch Background (tweaked tweakListOptions options))
       (λ ctx options, mkApiCall client TFRRConfiguration namespace List ctx (tweaked tweakListOptions options))
       (λ ctx options, mkApiCall client TFRRConfiguration namespace Watch ctx (tweaked tweakListOptions options)))
    TFRRConfiguration resyncPeriod indexers None.
Definition NewFRRConfigurationInformer (client : Client) (namespace : string) (resyncPeriod : Z) (indexers : list string) : informer :=
  NewFilteredFRRConfigurationInformer client namespace resyncPeriod indexers None.

Definition NewFilteredFRRK8sConfigurationInformer (client : Client) (namespace : string) (resyncPeriod : Z) (indexers : list string)
    (tweakListOptions : tweakFunc) : informer :=
  mkInformer
    (mkListWatch
       (λ options, mkApiCall client TFRRK8sConfiguration namespace List Background (tweaked tweakListOptions options))
       (λ options, mkApiCall client TFRRK8sConfiguration namespace Watch Background (tweaked tweakListOptions options))
       (λ ctx options, mkApiCall client TFRRK8sConfiguration namespace List ctx (tweaked tweakListOptions options))
       (λ ctx options, mkApiCall client TFRRK8sConfiguration namespace Watch ctx (tweaked tweakListOptions options)))
    TFRRK8sConfiguration resyncPeriod indexers None.
Definition NewFRRK8sConfigurationInformer (client : Client) (namespace : string) (resyncPeriod : Z) (indexers : list string) : informer :=
  NewFilteredFRRK8sConfigurationInformer client namespace resyncPeriod indexers None.

(** ** The factory *)

(** An informer is a pointer: its number among those made. *)
Record sharedInformerFactory := mkFactory {
  F_client : Client;
  F_namespace : string;
  F_tweakListOptions : tweakFunc;
  F_defaultResync : Z;
  F_customResync : gmap objectType Z;
  F_transform : option Transform;
  F_informers : gmap objectType nat;
  F_startedInformers : gmap objectType bool;
  F_wg : nat;
  F_shuttingDown : bool }.

(** [SharedInformerOption] and the functions that make one.  The map of [WithCustomResyncConfig] has objects as keys: it is
    the types of the objects with their periods, in the order it is iterated. *)
Inductive SharedInformerOption :=
  | WithCustomResyncConfig (resyncConfig : list (objectType * Z))
  | WithTweakListOptions (tweakListOptions : tweakFunc)
  | WithNamespace (namespace : string)
  | WithTransform (transform : option Transform).

Definition applyOption (f : sharedInformerFactory) (opt : SharedInformerOption) : sharedInformerFactory :=
  let '(mkFactory c ns tw d cr tr infs st wg sd) := f in
  match opt with
  | WithCustomResyncConfig resyncConfig =>
      mkFactory c ns tw d (foldl (λ m '(k, v), <[k := v]> m) cr resyncConfig) tr infs st wg sd
  | WithTweakListOptions tweakListOptions => mkFactory c ns tweakListOptions d cr tr infs st wg sd
  | WithNamespace namespace => mkFactory c namespace tw d cr tr infs st wg sd
  | WithTransform transform => mkFactory c ns tw d cr transform infs st wg sd
  end.

Definition NewSharedInformerFactoryWithOptions (client : Client) (defaultResync : Z) (options : list SharedInformerOption)
    : sharedInformerFactory :=
  foldl applyOption (mkFactory client "" None defaultResync ∅ None ∅ ∅ 0 false) options.
Definition NewSharedInformerFactory (client : Client) (defaultResync : Z) : sharedInformerFactory :=
  NewSharedInformerFactoryWithOptions client defaultResync [].
Definition NewFilteredSharedInformerFactory (client : Client) (defaultResync : Z) (namespace : string) (tweakListOptions : tweakFunc)
    : sharedInformerFactory :=
  NewSharedInformerFactoryWithOptions client defaultResync [WithNamespace namespace; WithTweakListOptions tweakListOptions].

(** The factory, the informers it has made, and the goroutines: those ever started and those that have not ended, with
    the channel that stops each; the channels that are closed; the calls of [Shutdown] that wait and that have returned. *)
Record system := mkSystem {
  S_factory : sharedInformerFactory;
  S_informers : list informer;
  S_runs : list (nat * nat);
  S_running : list (nat * nat);
  S_closed : gset nat;
  S_waiting : nat;
  S_returned : nat }.

(** [InformerFor]: the informer of the type, made if there is none, by a [newFunc] that makes a new one. *)
Definition InformerFor (informerType : objectType) (newFunc : Client → Z → informer) (s : system) : nat * system :=
  let f := S_factory s in
  match F_informers f !! informerType with
  | Some i => (i, s)
  | None =>
      let resyncPeriod := default (F_defaultResync f) (F_customResync f !! informerType) in
      let '(mkInformer lw ty rs ix _) := newFunc (F_client f) resyncPeriod in
      let i := length (S_informers s) in
      (i, mkSystem
        (mkFactory (F_client f) (F_namespace f) (F_tweakListOptions f) (F_defaultResync f) (F_customResync f) (F_transform f)
           (<[informerType := i]> (F_informers f)) (F_startedInformers f) (F_wg f) (F_shuttingDown f))
        (S_informers s ++ [mkInformer lw ty rs ix (F_transform f)])
        (S_runs s) (S_running s) (S_closed s) (S_waiting s) (S_returned s))
  end.

(** One informer in the loop of [Start]. *)
Definition startStep (stopCh : nat) (s : system) (entry : objectType * nat) : system :=
  let '(informerType, i) := entry in
  let f := S_factory s in
  if default false (F_startedInformers f !! informerType) then s
  else mkSystem
    (mkFactory (F_client f) (F_namespace f) (F_tweakListOptions f) (F_defaultResync f) (F_customResync f) (F_transform f)
       (F_informers f) (<[informerType := true]> (F_startedInformers f)) (F_wg f + 1) (F_shuttingDown f))
    (S_informers s) (S_runs s ++ [(i, stopCh)]) (S_running s ++ [(i, stopCh)]) (S_closed s) (S_waiting s) (S_returned s).

(** [Start]; [order] is the order the map of the informers is iterated in. *)
Definition Start (order : list (objectType * nat)) (stopCh : nat) (s : system) : system :=
  if F_shuttingDown (S_factory s) then s else foldl (startStep stopCh) s order.
Definition informers_in_order (order : list (objectType * nat)) (s : system) : Prop :=
  order ≡ₚ map_to_list (F_informers (S_factory s)).

(** [Shutdown] up to where it waits. *)
Definition Shutdown (s : system) : system :=
  let f := S_factory s in
  mkSystem
    (mkFactory (F_client f) (F_namespace f) (F_tweakListOptions f) (F_defaultResync f) (F_customResync f) (F_transform f)
       (F_informers f) (F_startedInformers f) (F_wg f) true)
    (S_informers s) (S_runs s) (S_running s) (S_closed s) (S_waiting s + 1) (S_returned s).

(** [WaitForCacheSync]; [waitFor] is client-go's function of the same name, on one informer. *)
Definition WaitForCacheSync (waitFor : nat → nat → bool) (stopCh : nat) (s : system) : gmap objectType bool :=
  let f := S_factory s in
  waitFor stopCh <$> filter (λ entry : objectType * nat, default false (F_startedInformers f !! entry.1) = true) (F_informers f).

(** The accessors: [factory.Api().V1beta1().FRRConfigurations()] has the namespace and the filter of the factory. *)
Record accessor := mkAccessor { Acc_tweakListOptions : tweakFunc; Acc_namespace : string }.
Definition Api_V1beta1 (f : sharedInformerFactory) : accessor := mkAccessor (F_tweakListOptions f) (F_namespace f).

Definition FRRConfiguration_defaultInformer (a : accessor) (client : Client) (resyncPeriod : Z) : informer :=
  NewFilteredFRRConfigurationInformer client (Acc_namespace a) resyncPeriod ["namespace"] (Acc_tweakListOptions a).
Definition FRRConfiguration_Informer (a : accessor) (s : system) : nat * system :=
  InformerFor TFRRConfiguration (FRRConfiguration_defaultInformer a) s.
Definition FRRK8sConfiguration_defaultInformer (a : accessor) (client : Client) (resyncPeriod : Z) : informer :=
  NewFilteredFRRK8sConfigurationInformer client (Acc_namespace a) resyncPeriod ["namespace"] (Acc_tweakListOptions a).
Definition FRRK8sConfiguration_Informer (a : accessor) (s : system) : nat * system :=
  InformerFor TFRRK8sConfiguration (FRRK8sConfiguration_defaultInformer a) s.

(** [Lister] reads the index of the informer, which it makes when there is none. *)
Definition FRRConfiguration_Lister (a : accessor) (s : system) : nat * system := FRRConfiguration_Informer a s.
Definition FRRK8sConfiguration_Lister (a : accessor) (s : system) : nat * system := FRRK8sConfiguration_Informer a s.

(** [schema.GroupVersionResource], [schema.GroupResource] and [genericInformer]. *)
Record groupVersionResource := mkGVR { GVR_group : string; GVR_version : string; GVR_resource : string }.
#[global] Instance groupVersionResource_eq_dec : EqDecision groupVersionResource.
Proof. solve_decision. Defined.
Record genericInformer := mkGeneric { G_informer : nat; G_group : string; G_resource : string }.

(** [ForResource]; without an informer for the resource, an error that names it. *)
Definition ForResource (resource : groupVersionResource) (s : system) : (groupVersionResource + genericInformer) * system :=
  if bool_decide (resource = mkGVR "frrk8s.metallb.io" "v1beta1" "frrconfigurations")
  then let '(i, s') := FRRConfiguration_Informer (Api_V1beta1 (S_factory s)) s in
       (inr (mkGeneric i (GVR_group resource) (GVR_resource resource)), s')
  else if bool_decide (resource = mkGVR "frrk8s.metallb.io" "v1beta1" "frrk8sconfigurations")
  then let '(i, s') := FRRK8sConfiguration_Informer (Api_V1beta1 (S_factory s)) s in
       (inr (mkGeneric i (GVR_group resource) (GVR_resource resource)), s')
  else (inl resource, s).

(** ** What may happen *)

Inductive factory_step : system → system → Prop :=
  | step_informer t newFunc s : factory_step s (InformerFor t newFunc s).2
  | step_start order stopCh s : informers_in_order order s → factory_step s (Start order stopCh s)
  | step_shutdown s : factory_step s (Shutdown s)
  | step_close ch f infs runs running closed waiting returned :
      factory_step (mkSystem f infs runs running closed waiting returned)
        (mkSystem f infs runs running ({[ch]} ∪ closed) waiting returned)
  (** [Run] returns when its channel is closed; then [wg.Done]. *)
  | step_exit i ch l1 l2 c ns tw d cr tr m st wg sd infs runs closed waiting returned :
      ch ∈ closed →
      factory_step
        (mkSystem (mkFactory c ns tw d cr tr m st wg sd) infs runs (l1 ++ (i, ch) :: l2) closed waiting returned)
        (mkSystem (mkFactory c ns tw d cr tr m st (wg - 1) sd) infs runs (l1 ++ l2) closed waiting returned)
  (** [wg.Wait] returns. *)
  | step_return f infs runs running closed waiting returned :
      F_wg f = 0%nat →
      factory_step (mkSystem f infs runs running closed (S waiting) returned) (mkSystem f infs runs running closed waiting (S returned)).

Definition new_system (f : sharedInformerFactory) : system := mkSystem f [] [] [] ∅ 0 0.

(** ** The invariant *)

Record factory_inv (s : system) : Prop := {
  fi_wg : F_wg (S_factory s) = length (S_running s);
  fi_once : NoDup (S_runs s).*1;
  fi_started t : default false (F_startedInformers (S_factory s) !! t) = true ↔
    ∃ i, F_informers (S_factory s) !! t = Some i ∧ i ∈ (S_runs s).*1;
  fi_known i : i ∈ (S_runs s).*1 → ∃ t, F_informers (S_factory s) !! t = Some i;
  fi_made t i : F_informers (S_factory s) !! t = Some i → (i < length (S_informers s))%nat;
  fi_own t t' i : F_informers (S_factory s) !! t = Some i → F_informers (S_factory s) !! t' = Some i → t = t';
  fi_waiting : (S_waiting s > 0 ∨ S_returned s > 0)%nat → F_shuttingDown (S_factory s) = true;
  fi_returned : (S_returned s > 0)%nat → S_running s = [] }.

(** The loop of [Start], over any of the informers. *)
Lemma startStep_inv stopCh s t i :
  factory_inv s → F_informers (S_factory s) !! t = Some i → F_shuttingDown (S_factory s) = false →
  factory_inv (startStep stopCh s (t, i)) ∧ F_informers (S_factory (startStep stopCh s (t, i))) = F_informers (S_factory s) ∧
  F_shuttingDown (S_factory (startStep stopCh s (t, i))) = false ∧ i ∈ (S_runs (startStep stopCh s (t, i))).*1 ∧
  (∀ j, j ∈ (S_runs s).*1 → j ∈ (S_runs (startStep stopCh s (t, i))).*1).
Proof using Type.
  intros [Hwg Honce Hst Hknown Hmade Hown Hw Hret] Hi Hsd. unfold startStep.
  destruct (default false (F_startedInformers (S_factory s) !! t)) eqn:Et.
  - split; [by split|]. split_and!; [done..| |done]. apply Hst in Et as (j & Hj & Hin). congruence.
  - assert (i ∉ (S_runs s).*1) as Hnew.
    { intros Hin. assert (default false (F_startedInformers (S_factory s) !! t) = true) as Ht; [|congruence].
      apply Hst. by exists i. }
    assert (S_waiting s = 0 ∧ S_returned s = 0)%nat as [Hw0 Hr0].
    { destruct (S_waiting s), (S_returned s); try done; exfalso; assert (F_shuttingDown (S_factory s) = true) by (apply Hw; lia); congruence. }
    cbn [S_factory F_informers F_shuttingDown S_runs]. split_and!; [|done|done|rewrite fmap_app; set_solver|intros j Hj; rewrite fmap_app; set_solver].
    split; cbn [S_factory F_informers F_startedInformers F_shuttingDown F_wg S_runs S_running S_informers S_waiting S_returned].
    + rewrite length_app. cbn. lia.
    + rewrite fmap_app. apply NoDup_app. split_and!; [done|set_solver|apply NoDup_singleton].
    + intros t'. rewrite fmap_app. destruct (decide (t = t')) as [<-|Hne].
      * rewrite lookup_insert_eq. split; [|done]. intros _. exists i. set_solver.
      * rewrite lookup_insert_ne by done. rewrite Hst. split; intros (j & Hj & Hin); exists j; (split; [done|]); [set_solver|].
        apply elem_of_app in Hin as [?|Hin]; [done|]. apply list_elem_of_singleton in Hin as ->. by destruct (Hne (Hown _ _ _ Hi Hj)).
    + intros j. rewrite fmap_app. intros [Hj|Hj]%elem_of_app; [auto|]. apply list_elem_of_singleton in Hj as ->. by exists t.
    + done.
    + done.
    + intros [?|?]; lia.
    + lia.
Qed.

Lemma startAll_inv stopCh l s :
  factory_inv s → F_shuttingDown (S_factory s) = false →
  (∀ t i, (t, i) ∈ l → F_informers (S_factory s) !! t = Some i) →
  factory_inv (foldl (startStep stopCh) s l) ∧
  F_informers (S_factory (foldl (startStep stopCh) s l)) = F_informers (S_factory s) ∧
  (∀ t i, (t, i) ∈ l → i ∈ (S_runs (foldl (startStep stopCh) s l)).*1) ∧
  (∀ j, j ∈ (S_runs s).*1 → j ∈ (S_runs (foldl (startStep stopCh) s l)).*1).
Proof using Type.
  revert s. induction l as [|[t i] l IH]; intros s Hinv Hsd Hl.
  - cbn [foldl]. split_and!; [done..|by intros ?? ?%elem_of_nil|done].
  - cbn [foldl].
    destruct (startStep_inv stopCh s t i) as (Hinv1 & Hf1 & Hsd1 & Hin1 & Hmono1); [done|apply Hl; left|done|].
    destruct (IH (startStep stopCh s (t, i))) as (Hinv2 & Hf2 & Hin2 & Hmono2);
      [done|done|intros t' i' H; rewrite Hf1; apply Hl; by right|].
    split_and!; [done|by rewrite Hf2| |auto].
    intros t' i' [[= -> ->]|H]%elem_of_cons; [by apply Hmono2|by eapply Hin2].
Qed.

Lemma Start_spec order stopCh s :
  factory_inv s → informers_in_order order s →
  factory_inv (Start order stopCh s) ∧ F_informers (S_factory (Start order stopCh s)) = F_informers (S_factory s) ∧
  (F_shuttingDown (S_factory s) = false →
     ∀ t i, F_informers (S_factory s) !! t = Some i → i ∈ (S_runs (Start order stopCh s)).*1).
Proof using Type.
  intros Hinv Ho. unfold Start. destruct (F_shuttingDown (S_factory s)) eqn:Hsd; [done|].
  destruct (startAll_inv stopCh order s) as (H1 & H2 & H3 & _); [done|done| |].
  - intros t i. rewrite Ho. apply elem_of_map_to_list.
  - split_and!; [done|done|]. intros _ t i Hi. apply (H3 t). rewrite Ho. by apply elem_of_map_to_list.
Qed.

Lemma InformerFor_inv t newFunc s : factory_inv s → factory_inv (InformerFor t newFunc s).2.
Proof using Type.
  intros Hinv. unfold InformerFor. destruct (F_informers (S_factory s) !! t) as [i|] eqn:Et; [done|].
  destruct (newFunc _ _) as [lw ty rs ix tr]. destruct Hinv as [Hwg Honce Hst Hknown Hmade Hown Hw Hret].
  assert (∀ t' i, F_informers (S_factory s) !! t' = Some i → t ≠ t') as Hne by (intros ?? ? ->; congruence).
  split; cbn [snd S_factory F_informers F_startedInformers F_shuttingDown F_wg S_runs S_running S_informers S_waiting S_returned];
    [done|done| | | | |done|done].
  - intros t'. rewrite Hst. destruct (decide (t = t')) as [<-|Ht].
    + rewrite lookup_insert_eq, Et. split; [by intros (? & ? & _)|]. intros (i & [= <-] & Hin).
      apply Hknown in Hin as [t' Ht']. apply Hmade in Ht'. lia.
    + by rewrite lookup_insert_ne by done.
  - intros i Hin. destruct (Hknown i Hin) as [t' Ht']. exists t'. rewrite lookup_insert_ne by eauto. done.
  - intros t' i. rewrite length_app. cbn. destruct (decide (t = t')) as [<-|Ht].
    + rewrite lookup_insert_eq. intros [= <-]. lia.
    + rewrite lookup_insert_ne by done. intros ?%Hmade. lia.
  - intros t1 t2 i. destruct (decide (t = t1)) as [<-|H1], (decide (t = t2)) as [<-|H2]; [done|..];
      rewrite ?lookup_insert_eq, ?lookup_insert_ne by done; [intros [= <-] ?%Hmade; lia|intros ?%Hmade [= <-]; lia|apply Hown].
Qed.

Lemma factory_step_inv s s' : factory_step s s' → factory_inv s → factory_inv s'.
Proof using Type.
  intros Hstep Hinv. destruct Hstep as [t newFunc s|order stopCh s Ho|s|ch f infs runs running closed waiting returned
    |i ch l1 l2 c ns tw d cr tr m st wg sd infs runs closed waiting returned Hch|f infs runs running closed waiting returned Hz].
  - by apply InformerFor_inv.
  - by apply Start_spec.
  - by destruct Hinv; split.
  - by destruct Hinv; split.
  - destruct Hinv as [Hwg Honce Hst Hknown Hmade Hown Hw Hret]. split; try done; simpl in *.
    + rewrite !length_app in *. simpl in *. lia.
    + intros Hr. specialize (Hret Hr). by destruct l1.
  - destruct Hinv as [Hwg Honce Hst Hknown Hmade Hown Hw Hret]. split; try done; simpl in *.
    + intros _. apply Hw. lia.
    + intros _. apply length_zero_iff_nil. congruence.
Qed.

Lemma factory_steps_inv s s' : rtc factory_step s s' → factory_inv s → factory_inv s'.
Proof using Type. induction 1; eauto using factory_step_inv. Qed.

Lemma options_inv options f :
  F_informers f = ∅ → F_startedInformers f = ∅ → F_wg f = 0%nat → factory_inv (new_system (foldl applyOption f options)).
Proof using Type.
  revert f. induction options as [|opt options IH]; intros [c ns tw d cr tr m st wg sd] Hm Hst Hwg; simpl in *.
  - subst. split; simpl; [done|apply NoDup_nil_2| |by intros ? ?%elem_of_nil| | |lia|done].
    + intros t. rewrite !lookup_empty. split; [done|]. by intros (? & ? & ?).
    + intros t i. by rewrite lookup_empty.
    + intros t t' i. by rewrite lookup_empty.
  - apply IH; by destruct opt.
Qed.

(** ** The steps keep the informers, and no step runs one once [Shutdown] has been called *)

Lemma factory_step_keeps s s' t i :
  factory_step s s' → factory_inv s → F_informers (S_factory s) !! t = Some i → F_informers (S_factory s') !! t = Some i.
Proof using Type.
  intros Hstep Hinv Hi. destruct Hstep as [t' newFunc s|order stopCh s Ho| | | |]; try done.
  - unfold InformerFor. destruct (F_informers (S_factory s) !! t') eqn:Et; [done|]. destruct (newFunc _ _). simpl.
    rewrite lookup_insert_ne; [done|]. intros ->. congruence.
  - destruct (Start_spec order stopCh s Hinv Ho) as (_ & -> & _). done.
Qed.

Lemma factory_steps_keep s s' t i :
  rtc factory_step s s' → factory_inv s → F_informers (S_factory s) !! t = Some i → F_informers (S_factory s') !! t = Some i.
Proof using Type. induction 1; eauto using factory_step_inv, factory_step_keeps. Qed.

Lemma factory_steps_down s s' :
  rtc factory_step s s' → F_shuttingDown (S_factory s) = true →
  F_shuttingDown (S_factory s') = true ∧ S_runs s' = S_runs s.
Proof using Type.
  induction 1 as [|s1 s2 s3 Hstep _ IH]; [done|]. intros Hd.
  assert (F_shuttingDown (S_factory s2) = true ∧ S_runs s2 = S_runs s1) as [Hd2 <-]; [|auto].
  destruct Hstep as [t newFunc s|order stopCh s Ho| | | |]; try done.
  - unfold InformerFor. destruct (F_informers (S_factory s) !! t); [done|]. by destruct (newFunc _ _).
  - unfold Start. by rewrite Hd.
Qed.

(** When the channels the running informers were given are closed, they can end and every [Shutdown] can return. *)
Lemma factory_drains s :
  factory_inv s → (∀ e, e ∈ S_running s → e.2 ∈ S_closed s) →
  ∃ s', rtc factory_step s s' ∧ S_running s' = [] ∧ S_waiting s' = 0%nat ∧ S_returned s' = (S_waiting s + S_returned s)%nat.
Proof using Type.
  destruct s as [f infs runs running closed waiting returned]. cbn.
  revert f. induction running as [|[i ch] running IH]; intros f Hinv Hcl.
  - destruct Hinv as [Hwg _ _ _ _ _ _ _]. simpl in Hwg. clear Hcl. revert returned. induction waiting as [|w IHw]; intros returned.
    + by eexists; split; [apply rtc_refl|].
    + destruct (IHw (S returned)) as (s' & Hs & Hr & Hw & Hret). exists s'. split_and!; [|done|done|lia].
      eapply rtc_l; [|exact Hs]. by apply step_return.
  - destruct f as [c ns tw d cr tr m st wg sd].
    assert (ch ∈ closed) as Hch by (apply (Hcl (i, ch)); left).
    pose proof (step_exit i ch [] running c ns tw d cr tr m st wg sd infs runs closed waiting returned Hch) as Hstep.
    destruct (IH (mkFactory c ns tw d cr tr m st (wg - 1) sd)) as (s' & Hs & Hr & Hw & Hret);
      [exact (factory_step_inv _ _ Hstep Hinv)|intros e He; apply Hcl; by right|].
    exists s'. split_and!; [|done..]. by eapply rtc_l.
Qed.

Lemma InformerFor_known t newFunc s i : F_informers (S_factory s) !! t = Some i → InformerFor t newFunc s = (i, s).
Proof using Type. intros Hi. unfold InformerFor. by rewrite Hi. Qed.

(** C38: however the calls of [InformerFor], [Start] and [Shutdown], the closing of channels and the ends of the goroutines
    interleave, an informer is started at most once, and the wait group counts those that run; the informer of a type stays
    the one that was made first; a [Start] before any [Shutdown] leaves no informer that was not started; after a [Shutdown]
    none is started any more, one that has returned left none running, and all that wait return once the channels of those
    that run are closed. *)
Theorem informers_run_once (client : Client) (defaultResync : Z) (options : list SharedInformerOption) (s : system) :
  rtc factory_step (new_system (NewSharedInformerFactoryWithOptions client defaultResync options)) s →
  NoDup (S_runs s).*1 ∧ F_wg (S_factory s) = length (S_running s) ∧
  (∀ t i s' newFunc, F_informers (S_factory s) !! t = Some i → rtc factory_step s s' → (InformerFor t newFunc s').1 = i) ∧
  (∀ order stopCh t i, informers_in_order order s → F_shuttingDown (S_factory s) = false →
     F_informers (S_factory s) !! t = Some i → i ∈ (S_runs (Start order stopCh s)).*1) ∧
  (∀ s', rtc factory_step (Shutdown s) s' → S_runs s' = S_runs s) ∧
  ((0 < S_returned s)%nat → S_running s = []) ∧
  ((∀ e, e ∈ S_running s → e.2 ∈ S_closed s) →
     ∃ s', rtc factory_step s s' ∧ S_running s' = [] ∧ S_waiting s' = 0%nat ∧ S_returned s' = (S_waiting s + S_returned s)%nat).
Proof using Type.
  intros Hs. assert (factory_inv s) as Hinv by (eapply factory_steps_inv; [exact Hs|]; by apply options_inv).
  split_and!.
  - apply fi_once, Hinv.
  - apply fi_wg, Hinv.
  - intros t i s' newFunc Hi Hs'. by erewrite InformerFor_known by (by eapply factory_steps_keep).
  - intros order stopCh t i Ho Hd Hi. destruct (Start_spec order stopCh s Hinv Ho) as (_ & _ & H). by eapply H.
  - intros s' Hs'. by apply factory_steps_down in Hs' as [_ ->].
  - intros H. apply fi_returned; [done|lia].
  - by apply factory_drains.
Qed.

(** The informers the accessors make list and watch in the factory's namespace, with its filter and its transform. *)
Lemma FRRConfiguration_Informer_made (s : system) :
  F_informers (S_factory s) !! TFRRConfiguration = None →
  let f := S_factory s in
  let '(i, s') := FRRConfiguration_Informer (Api_V1beta1 f) s in
  ∃ inf, S_informers s' !! i = Some inf ∧ I_transform inf = F_transform f ∧
    I_resync inf = default (F_defaultResync f) (F_customResync f !! TFRRConfiguration) ∧
    ListFunc (I_listWatch inf) = λ options, mkApiCall (F_client f) TFRRConfiguration (F_namespace f) List Background
      (tweaked (F_tweakListOptions f) options).
Proof using Type.
  intros Hn. unfold FRRConfiguration_Informer, InformerFor. rewrite Hn. simpl. eexists. split; [by rewrite list_lookup_middle|].
  by split_and!.
Qed.
End informers.

(** ** A run: an informer is made and started, [Shutdown] waits, the channel is closed, the informer ends, [Shutdown]
    returns. *)

Definition sampleFactory : sharedInformerFactory (Client := unit) (ListOptions := string) (Transform := unit) :=
  NewSharedInformerFactoryWithOptions tt 30%Z [WithNamespace "frr-k8s-system"; WithCustomResyncConfig [(TFRRConfiguration, 5%Z)]].
Definition sampleStarted : system (Ctx := unit) :=
  Start [(TFRRConfiguration, 0%nat)] 7 (FRRConfiguration_Informer tt (Api_V1beta1 sampleFactory) (new_system sampleFactory)).2.
Definition sampleEnd : system (Client := unit) (ListOptions := string) (Transform := unit) (Ctx := unit) :=
  mkSystem
    (mkFactory tt "frr-k8s-system" None 30%Z {[ TFRRConfiguration := 5%Z ]} None {[ TFRRConfiguration := 0%nat ]}
       {[ TFRRConfiguration := true ]} 0 true)
    (S_informers sampleStarted) [(0%nat, 7%nat)] [] ({[7%nat]} ∪ ∅) 0 1.

Lemma sampleFactory_run : rtc factory_step (new_system sampleFactory) sampleEnd.
Proof.
  eapply rtc_l; [apply (step_informer TFRRConfiguration (FRRConfiguration_defaultInformer tt (Api_V1beta1 sampleFactory)))|].
  eapply rtc_l; [apply (step_start [(TFRRConfiguration, 0%nat)] 7); vm_compute; reflexivity|].
  eapply rtc_l; [apply step_shutdown|]. eapply rtc_l; [apply (step_close 7)|].
  eapply rtc_l; [by apply (step_exit 0 7 [] []); set_solver|].
  eapply rtc_l; [by apply step_return|]. apply rtc_refl.
Qed.

Lemma informers_run_once_witness :
  NoDup (S_runs sampleEnd).*1 ∧ S_running sampleEnd = [] ∧ F_wg (S_factory sampleEnd) = 0%nat.
Proof.
  destruct (informers_run_once (Client := unit) (ListOptions := string) (Transform := unit) (Ctx := unit) tt 30%Z
    [WithNamespace "frr-k8s-system"; WithCustomResyncConfig [(TFRRConfiguration, 5%Z)]] sampleEnd sampleFactory_run)
    as (H1 & H2 & _ & _ & _ & H3 & _).
  split; [exact H1|]. split; [apply H3; cbn; lia|exact H2].
Defined.
